(* ===== verification/_CoqProject ===== *)
-Q . S2P
Prelude.v
Machine.v
Globals.v
Spinlock.v
Strings.v
StringsProps.v
Pmm.v
PmmFacts.v
PmmProps.v
Frames.v
PmmInit.v
Kmalloc.v
KmallocFacts.v
KmallocRun.v
Objects.v
KmallocProps.v
Vmm.v
VmmFacts.v
VmmRun.v
VmmProps.v
VmmPages.v
VmmInit.v
Sched.v
SchedFacts.v
SchedRun.v
SchedProps.v
Net.v
NetFacts.v
Tcp.v
TcpFacts.v
NetRx.v
NetProps.v
TcpProps.v
TcpMachine.v
NetSend.v
SendProps.v
ArpProps.v
SocketProps.v
Pci.v
PciProps.v
PciScan.v
Console.v
ConsoleProps.v
Platform.v
Smp.v
Idt.v
PlatformProps.v
Drivers.v
Main.v
Emits.v
BootOrder.v
Lifecycle.v
BootMemory.v
MainProps.v
