(* ===== verification/Prelude.v ===== *)
(** KOS kernel: a verification library for the kernel's C sources.

    * The program

    KOS is a small x86-64 kernel.  boot.asm maps the first gigabyte of memory
    both low and at KERNEL_HIGHER_HALF and calls kernel_main (main.c), which
    brings up the physical memory manager (memory.c: three zones, each with a
    bitmap of frames), the page tables (vmm.c), the heap (kmalloc.c: eight slab
    classes over the page allocator), the interrupt table (idt.c), ACPI, the
    local and the IO APIC, the scheduler, PCI and the drivers, and then polls the
    network in its idle loop.  The heap and the page tables take pages from
    memory.c; sockets, packets and threads come from the heap; a received packet
    goes network_rx -> ip_rx -> tcp_rx / icmp_rx / udp_rx; everything prints with
    kprintf (console.c); the drivers look their device up in the table of pci.c.

    * How it is modelled

    Machine: RAM is a map from physical addresses to bytes, with little-endian
    loads and stores, and [lin] is the address translation boot.asm installs, so
    that the two aliases of a frame are the same bytes.  Integers are Z; every
    place where C wraps has its [u8], [u16], [u32] or [u64].  A pointer is its
    address and NULL is 0.

    Globals: the static variables of the kernel as one record [kst].  What the
    kernel allocates (page tables, bitmaps, multiboot tags, slab headers, objects,
    threads, sockets, packets, frame buffer pixels) is bytes in RAM at the field
    offsets of the C structs, so overlaps and stray writes are visible; the static
    tables are lists of records.  The operations are written in a monad [M] of
    state with three outcomes: [Ret], [Panic] (kernel_panic) and [Hang] (a loop
    the code does not leave).  What leaves the kernel (port and register writes,
    kprintf, transmitted frames, context switches) is an event of the trace; what
    the hardware answers is a parameter [hw] that may depend on the whole trace.

    Other code is a parameter as well: a driver's transmit function [dev_tx] (no
    driver of the tree defines one), the handlers called through pointers by
    interrupt_handler, the entry stubs of idt.asm, gdt64_init and init_tss, the
    linker's symbols, the rsp that context_switch saves, and the functions the
    tree declares and never defines (cpu_get_current, cpu_init_early, smp_init,
    smp_get_cpu_count).

    Fuel: a loop with a bound in the code is structural on that bound.  A walk of
    data (a C string, the multiboot tags, the capability list, the socket list,
    the polls of pit_wait) takes a [fuel] argument, and the properties say how
    much is enough (one more than the length of the string or list) or that no
    amount is (a list with a cycle).  [FOLD_FUEL] = 4 folds are enough for a sum
    of 32 bits, and a fold that ran out of them would be a [Hang].

    Locks: Spinlock models the lock for any number of CPUs with free
    interleaving.  The other files model the code as one CPU runs it: spin_lock
    takes a free lock or hangs on a held one.

    * Files and sources

    - Prelude, Machine, Globals: this header, notations and automation; RAM and
      the inline utilities of kernel.h; the state, the trace, the monad and its
      program logics ([always] for invariants of a whole run, [runs] for runs
      that end and what they leave).
    - Spinlock: spin_init, spin_lock, spin_unlock of kernel.h, as a step relation.
    - Strings, StringsProps: string.c.
    - Pmm, PmmFacts, PmmProps: memory.c.  [pmm_ok] is its invariant; PmmInit
      leads from the boot loader's memory map to it.
    - Frames: the class [FrameAllocator], the contract the clients of memory.c
      rely on, and its instance for memory.c.
    - Kmalloc, KmallocFacts, KmallocRun, KmallocProps: kmalloc.c over that
      contract.  [heap_inv] ties the linked lists in RAM to lists of free slots.
    - Objects: the class [HeapAllocator], the contract the users of kmalloc and
      kfree rely on, its instance for kmalloc.c, and the client logic ([holds]:
      what a caller may read and write) for code that builds objects.
    - Vmm, VmmFacts, VmmRun, VmmProps, VmmPages, VmmInit: vmm.c over the same
      contract.  [tables_ok] says that the tables are a tree; [walk] is the walk
      of the MMU.  VmmPages has the ranges, VmmInit the kernel's first tables.
    - Sched, SchedFacts, SchedRun, SchedProps: scheduler.c.  [rq_ok] ties the
      run queue in RAM to a list of threads.
    - Net, NetFacts, NetRx, NetProps: ip.c and network.c.
    - Tcp, TcpFacts, TcpProps: tcp.c.  TcpMachine: the connection as an abstract
      machine ([on_segment]), which tcp_rx implements on the socket in RAM.
    - NetSend, SendProps: the senders (ip_send, udp_tx, icmp_echo_reply, tcp_tx)
      over [HeapAllocator], against the bytes of the frame on the wire.
    - ArpProps: from a received ARP reply (network_rx) to a frame that reaches its
      sender (ip_send).
    - SocketProps: tcp_socket, scheduler_enqueue and a bare ACK over the heap
      itself.
    - Smp: scheduler_ap_entry, the loop of the other CPUs.
    - Pci, PciProps, PciScan: pci.c.  PciScan has the functions of a configuration
      space in the order of the scan ([all_functions]), and the scan against them.
    - Console, ConsoleProps: console.c.
    - Platform, Idt, PlatformProps: apic.c, ioapic.c, acpi.c, pit.c; idt.c.
    - Drivers: ahci.c, nvme.c, ext2.c, xhci.c, hda.c, realtek_alc.c, e1000e.c,
      r8168.c, laptop.c, amdgpu.c (stubs in the source too).
    - Main, MainProps: main.c and the properties of the drivers.
    - Emits: the class [Emits], which kinds of event an operation may add to the
      trace, with an instance per operation of the boot.  BootOrder: the order of
      events in kernel_main, and a whole boot evaluated.  Lifecycle: what two
      processes and three scheduler ticks do after that boot, evaluated.
      BootMemory: pmm_init, vmm_init and kmalloc_init one after the other.

    A definition has the name of the C function it models; a [Facts] file holds
    the invariants and what an operation does to them, a [Run] file the outcome of
    a whole operation, a [Props] file the properties with their witnesses.

    * What the theorems show

    - memory.c: for a memory map with memory in one zone (entries disjoint, behind
      the bitmap at 1 MB: [PmmInit.starts_with] has all conditions) pmm_init
      establishes the invariant, with exactly the available frames free, less
      the reserved ones of ZONE_NORMAL below 16 MB.  The three allocators
      return the first run of free frames that fits, or NULL with nothing
      changed; freeing never frees anything.
    - kmalloc.c: allocation takes a slot that was free and leaves every caller's
      memory alone; kfree and kmalloc invert each other; large objects leak.
    - vmm.c: mapping, unmapping and a new address space change exactly the
      translations they mean to; on failure none.  A range is mapped page by
      page or not at all when a frame is missing (the tables built on the way
      stay allocated), and left half mapped when a table is.  Failures are tied to
      their cause by the number of pages left ([fa_left]).  After vmm_init, which
      panics exactly without a page, every address has the translation meant for
      it if a page is left at the end, and that or none otherwise; the upper half
      of the kernel does not reach the memory it names.  A kernel of less than
      1 MB is outside: its size wraps.
    - scheduler.c: schedule is one round-robin step; the lock is left held after a
      switch to a new thread, so that with two new threads in the queue the third
      call of schedule never ends.  (Round robin over n calls is proved too, for
      threads left inside schedule, which the kernel never has two of.)
    - Spinlock: mutual exclusion over every interleaving.
    - ip.c, network.c: the checksum is RFC 1071's, what is sent verifies, the ARP
      cache is a bounded map, and ip_rx drops what is not deliverable.  Over any
      allocator of the contract, ip_send and tcp_tx transmit exactly the frame
      the protocols define and give their memory back (every byte the heap had,
      also when a page is missing), and a ping is answered; for the sizes the heap
      has room for, which on kmalloc leave 16 bytes of their class: no segment
      without data and no ping of 32 or 56 bytes is among them.
    - tcp.c: the receive ring is a FIFO byte stream; segments verify; which socket
      gets a segment and what it does to the connection (every state, every
      flag); which states are dead ends.  A slot is a
      16-byte header and the object, in the bytes of its class alone, so a socket,
      a queued thread or a segment without data, which fill their class, overwrite
      the header of the next slot: the heap's free list is lost.
    - main.c: for such a map, and a kernel of 1 MB or more, boot_core reaches its
      second half with the invariants of the page allocator, the page tables and
      the heap established.  kernel_main never returns, and when it first enables
      interrupts the page tables and the interrupt table are loaded and the PICs
      are masked; of the functions no file defines nothing is assumed for it.
    - pci.c, idt.c, pit.c, main.c, console.c, string.c, amdgpu.c: the device
      table lists the functions that are there; the capability walk and the
      configuration words; the gates and the dispatch; when a wait or a walk
      ends; the screen as a terminal, and the text kprintf prints for every
      conversion of its format; the copies; the filled rectangle.

    Every property with a hypothesis has a witness: a concrete state on which
    the hypotheses hold.

    * Not modelled

    The assembly files (their effects are parameters or the translation [lin]),
    the SMP code that no file defines, caches and memory ordering, and interrupts
    that arrive in the middle of an operation.  Loading a page table into cr3 is an
    event: kernel code keeps running under the translation [lin], which every
    address space shares.  The kernel image is no part of RAM: what pmm_init writes
    at 1 MB, where it is loaded, shows as a finding only.  kprintf is an event of
    the trace everywhere but in Console, where the event's text and its effect on
    the screen are defined.  kernel_panic's loop of hlt is the outcome [Panic].
*)
From Stdlib Require Export ZArith Lia.
From stdpp Require Export base numbers list gmap strings.

#[global] Open Scope Z_scope.

(** * Notations of the development *)
Declare Scope kos_scope.
Delimit Scope kos_scope with kos.
#[global] Open Scope kos_scope.

(** The C bit operators. *)
Notation "x .& y" := (Z.land x y) (at level 41, left associativity) : kos_scope.
Notation "x .| y" := (Z.lor x y) (at level 42, left associativity) : kos_scope.
Notation "x .<< y" := (Z.shiftl x y) (at level 39, left associativity) : kos_scope.
Notation "x .>> y" := (Z.shiftr x y) (at level 39, left associativity) : kos_scope.

(** * Machine integers

    A C value of an unsigned type of [w] bits is a [Z] in [0, 2^w); [u8] to
    [u64] are the conversions to those types, which wrap. *)
Definition u8 (x : Z) : Z := x mod 0x100.
Definition u16 (x : Z) : Z := x mod 0x10000.
Definition u32 (x : Z) : Z := x mod 0x100000000.
Definition u64 (x : Z) : Z := x mod 0x10000000000000000.

(** [x] cast to (signed) [int]. *)
Definition i32 (x : Z) : Z :=
  let y := u32 x in if y <? 0x80000000 then y else y - 0x100000000.

(** A C condition on an integer value. *)
Definition truthy (x : Z) : bool := negb (x =? 0).

(** * Tactics *)

(** [lia] after the conversions are unfolded and [mod]/[div] are turned into
    their defining equations. *)
Ltac ulia :=
  unfold u8, u16, u32, u64 in *; Z.div_mod_to_equations; lia.

(** Case analysis on every boolean test of [Z] or [nat] in the goal. *)
Ltac case_tests :=
  repeat match goal with
  | |- context [?a =? ?b] => destruct (Z.eqb_spec a b)
  | |- context [?a <? ?b] => destruct (Z.ltb_spec a b)
  | |- context [?a <=? ?b] => destruct (Z.leb_spec a b)
  end.

Ltac case_tests_in H :=
  repeat match type of H with
  | context [?a =? ?b] => destruct (Z.eqb_spec a b)
  | context [?a <? ?b] => destruct (Z.ltb_spec a b)
  | context [?a <=? ?b] => destruct (Z.leb_spec a b)
  end.

(** Decide a boolean test of the goal with [lia]. *)
Ltac test_true :=
  match goal with
  | |- context [?a =? ?b] => rewrite (proj2 (Z.eqb_eq a b)) by lia
  | |- context [?a <? ?b] => rewrite (proj2 (Z.ltb_lt a b)) by lia
  | |- context [?a <=? ?b] => rewrite (proj2 (Z.leb_le a b)) by lia
  end.
Ltac test_false :=
  match goal with
  | |- context [?a =? ?b] => rewrite (proj2 (Z.eqb_neq a b)) by lia
  | |- context [?a <? ?b] => rewrite (proj2 (Z.ltb_ge a b)) by lia
  | |- context [?a <=? ?b] => rewrite (proj2 (Z.leb_gt a b)) by lia
  end.
Ltac tests := repeat first [test_true | test_false].

(** * Lemmas on the conversions *)
Create HintDb kos.
Create Rewrite HintDb kos_ints.
Create Rewrite HintDb kos_state.

Lemma u8_range x : 0 <= u8 x < 256. Proof. ulia. Qed.
Lemma u16_range x : 0 <= u16 x < 65536. Proof. ulia. Qed.
Lemma u32_range x : 0 <= u32 x < 2 ^ 32. Proof. ulia. Qed.
Lemma u64_range x : 0 <= u64 x < 2 ^ 64. Proof. ulia. Qed.
Lemma u8_small x : 0 <= x < 256 -> u8 x = x. Proof. ulia. Qed.
Lemma u16_small x : 0 <= x < 65536 -> u16 x = x. Proof. ulia. Qed.
Lemma u32_small x : 0 <= x < 2 ^ 32 -> u32 x = x. Proof. ulia. Qed.
Lemma u64_small x : 0 <= x < 2 ^ 64 -> u64 x = x. Proof. ulia. Qed.
Lemma u8_idem x : u8 (u8 x) = u8 x. Proof. apply u8_small, u8_range. Qed.
Lemma u16_idem x : u16 (u16 x) = u16 x. Proof. apply u16_small, u16_range. Qed.
Lemma u32_idem x : u32 (u32 x) = u32 x. Proof. apply u32_small, u32_range. Qed.
Lemma u64_idem x : u64 (u64 x) = u64 x. Proof. apply u64_small, u64_range. Qed.

Lemma truthy_true x : truthy x = true <-> x <> 0.
Proof. unfold truthy. case_tests; naive_solver. Qed.
Lemma truthy_false x : truthy x = false <-> x = 0.
Proof. unfold truthy. case_tests; naive_solver. Qed.

#[export] Hint Resolve u8_range u16_range u32_range u64_range : kos.
#[export] Hint Rewrite u8_idem u16_idem u32_idem u64_idem : kos_ints.

(** * Lemmas on bits *)

(** [x & (2^k - 1)] and [x & ~(2^k - 1)], the two masks of the page code. *)
Lemma land_low x k : 0 <= k -> x .& (2 ^ k - 1) = x mod 2 ^ k.
Proof.
  intros ?. rewrite <- Z.land_ones by done. f_equal.
  rewrite Z.ones_equiv. lia.
Qed.

Lemma ones_testbit n i : 0 <= n -> 0 <= i -> Z.testbit (2 ^ n - 1) i = (i <? n).
Proof.
  intros. replace (2 ^ n - 1) with (Z.ones n) by (rewrite Z.ones_equiv; lia).
  rewrite Z.testbit_ones_nonneg by lia. done.
Qed.

Lemma land_high x k w :
  0 <= k <= w -> 0 <= x < 2 ^ w -> x .& (2 ^ w - 2 ^ k) = x - x mod 2 ^ k.
Proof.
  intros Hk Hx.
  replace (x - x mod 2 ^ k) with (2 ^ k * (x / 2 ^ k))
    by (pose proof (Z.div_mod x (2 ^ k)); lia).
  rewrite (Z.mul_comm (2 ^ k)), <- Z.shiftl_mul_pow2, <- Z.shiftr_div_pow2 by lia.
  apply Z.bits_inj'. intros i Hi.
  rewrite Z.land_spec, Z.shiftl_spec by lia.
  replace (2 ^ w - 2 ^ k) with (Z.ones (w - k) .<< k).
  - rewrite Z.shiftl_spec by lia.
    destruct (Z.ltb_spec i k).
    + rewrite !(Z.testbit_neg_r _ (i - k)) by lia. by rewrite andb_false_r.
    + rewrite Z.shiftr_spec by lia.
      replace (i - k + k) with i by lia.
      destruct (Z.ltb_spec (i - k) (w - k)).
      * rewrite Z.ones_spec_low by lia. by rewrite andb_true_r.
      * rewrite Z.ones_spec_high by lia. rewrite andb_false_r.
        symmetry. rewrite <- (Z.mod_small x (2 ^ w)) by lia.
        apply Z.mod_pow2_bits_high. lia.
  - rewrite Z.shiftl_mul_pow2, Z.ones_equiv by lia.
    replace (2 ^ w) with (2 ^ (w - k) * 2 ^ k); [lia|].
    rewrite <- Z.pow_add_r by lia. f_equal. lia.
Qed.

Lemma testbit_high x w i : 0 <= x < 2 ^ w -> w <= i -> Z.testbit x i = false.
Proof.
  intros. rewrite <- (Z.mod_small x (2 ^ w)) by lia.
  destruct (Z.ltb_spec w 0).
  - rewrite (Z.pow_neg_r 2 w) in * by lia. lia.
  - apply Z.mod_pow2_bits_high. lia.
Qed.

(** Disjoint bit ranges: or is addition. *)
Lemma lor_add_disjoint x y k :
  0 <= k -> x mod 2 ^ k = 0 -> 0 <= y < 2 ^ k -> x .| y = x + y.
Proof.
  intros Hk Hx Hy. symmetry. rewrite Z.add_nocarry_lxor.
  - symmetry. apply Z.bits_inj'. intros i Hi.
    rewrite Z.lxor_spec, Z.lor_spec.
    destruct (Z.ltb_spec i k).
    + rewrite <- (Z.mod_pow2_bits_low x k i) by lia.
      rewrite Hx, Z.bits_0. by destruct (Z.testbit y i).
    + rewrite (testbit_high y k i) by lia. by destruct (Z.testbit x i).
  - apply Z.bits_inj'. intros i Hi. rewrite Z.land_spec, Z.bits_0.
    destruct (Z.ltb_spec i k).
    + rewrite <- (Z.mod_pow2_bits_low x k i) by lia. by rewrite Hx, Z.bits_0.
    + rewrite (testbit_high y k i) by lia. apply andb_false_r.
Qed.

Lemma lor_bound x y w :
  0 <= w -> 0 <= x < 2 ^ w -> 0 <= y < 2 ^ w -> 0 <= x .| y < 2 ^ w.
Proof.
  intros Hw Hx Hy. split; [apply Z.lor_nonneg; lia|].
  destruct (Z.eq_dec (x .| y) 0) as [->|]; [lia|].
  assert (0 < x .| y).
  { assert (0 <= x .| y) by (apply Z.lor_nonneg; lia). lia. }
  apply Z.log2_lt_pow2; [lia|].
  rewrite Z.log2_lor by lia.
  destruct (Z.eq_dec x 0) as [->|], (Z.eq_dec y 0) as [->|];
    rewrite ?Z.max_lt_iff; simpl in *; try (rewrite Z.lor_0_l in *; lia).
  - apply Z.max_lub_lt; [|apply Z.log2_lt_pow2; lia].
    destruct (Z.eq_dec w 0) as [->|]; [simpl in *; lia|simpl; lia].
  - apply Z.max_lub_lt; [apply Z.log2_lt_pow2; lia|].
    destruct (Z.eq_dec w 0) as [->|]; [simpl in *; lia|simpl; lia].
  - apply Z.max_lub_lt; apply Z.log2_lt_pow2; lia.
Qed.

Lemma land_bound x y w : 0 <= x < 2 ^ w -> 0 <= y -> 0 <= x .& y < 2 ^ w.
Proof.
  intros Hx Hy. split; [apply Z.land_nonneg; lia|].
  assert (x .& y <= x); [|lia].
  pose proof (Z.land_nonneg x y). 
  assert (0 <= Z.ldiff x y) by (apply Z.ldiff_nonneg; lia).
  assert (x = x .& y + Z.ldiff x y).
  { rewrite Z.add_nocarry_lxor.
    - apply Z.bits_inj'. intros i ?. rewrite Z.lxor_spec, Z.land_spec, Z.ldiff_spec.
      by destruct (Z.testbit x i), (Z.testbit y i).
    - apply Z.bits_inj'. intros i ?.
      rewrite !Z.land_spec, Z.ldiff_spec, Z.bits_0.
      by destruct (Z.testbit x i), (Z.testbit y i). }
  lia.
Qed.

(** * Lists *)
Lemma Zlength_nat {A} (l : list A) : Z.to_nat (Z.of_nat (length l)) = length l.
Proof. lia. Qed.

(** [seqZ_from a n] is [a, a+1, ..., a+n-1]. *)
Fixpoint seqZ_from (a : Z) (n : nat) : list Z :=
  match n with O => [] | S n' => a :: seqZ_from (a + 1) n' end.

Lemma length_seqZ_from a n : length (seqZ_from a n) = n.
Proof. revert a. induction n; intros; simpl; auto. Qed.

Lemma elem_of_seqZ_from a n x : x ∈ seqZ_from a n <-> a <= x < a + Z.of_nat n.
Proof.
  revert a. induction n as [|n IH]; intros a; simpl.
  - rewrite elem_of_nil. lia.
  - rewrite elem_of_cons, IH. lia.
Qed.
