(* ===== verification/Machine.v ===== *)
(** The machine under the kernel: byte-addressed RAM, little-endian loads and
    stores, and the pure inline utilities of kernel.h (address translation,
    byte swaps, bitmap operations).

    RAM is a finite map from physical addresses to bytes; a byte that was never
    written reads as 0, so every memory contents is represented by some map.
    [lin] is the translation of the page tables boot.asm installs (PML4[0] and
    PML4[256] share one PDPT): a pointer of the higher half and its low alias
    denote the same byte. *)
From S2P Require Import Prelude.

(** * RAM *)
Definition load8 (m : gmap Z Z) (a : Z) : Z := u8 (default 0 (m !! a)).
Definition store8 (m : gmap Z Z) (a v : Z) : gmap Z Z := <[a := u8 v]> m.

Fixpoint load_le (n : nat) (m : gmap Z Z) (a : Z) : Z :=
  match n with
  | O => 0
  | S n' => load8 m a + 256 * load_le n' m (a + 1)
  end.

Fixpoint store_le (n : nat) (m : gmap Z Z) (a v : Z) : gmap Z Z :=
  match n with
  | O => m
  | S n' => store_le n' (store8 m a v) (a + 1) (v / 256)
  end.

Abbreviation load16 := (load_le 2).
Abbreviation load32 := (load_le 4).
Abbreviation load64 := (load_le 8).
Abbreviation store16 := (store_le 2).
Abbreviation store32 := (store_le 4).
Abbreviation store64 := (store_le 8).

(** The bytes [a, a+n). *)
Fixpoint load_bytes (n : nat) (m : gmap Z Z) (a : Z) : list Z :=
  match n with
  | O => []
  | S n' => load8 m a :: load_bytes n' m (a + 1)
  end.

Fixpoint store_bytes (m : gmap Z Z) (a : Z) (bs : list Z) : gmap Z Z :=
  match bs with
  | [] => m
  | b :: bs' => store_bytes (store8 m a b) (a + 1) bs'
  end.

(** The value of a little-endian byte string. *)
Fixpoint le_combine (bs : list Z) : Z :=
  match bs with
  | [] => 0
  | b :: bs' => b + 256 * le_combine bs'
  end.

Fixpoint le_split (n : nat) (v : Z) : list Z :=
  match n with
  | O => []
  | S n' => u8 v :: le_split n' (v / 256)
  end.

(** * Constants and address arithmetic of kernel.h *)
Definition PAGE_SIZE : Z := 4096.
Definition HUGE_PAGE_SIZE : Z := 2 * 1024 * 1024.
(** [~(PAGE_SIZE - 1)] is an [int]; it is sign-extended in 64-bit expressions. *)
Definition PAGE_MASK : Z := u64 (Z.lnot (PAGE_SIZE - 1)).
Definition HUGE_PAGE_MASK : Z := u64 (Z.lnot (HUGE_PAGE_SIZE - 1)).
Definition KERNEL_HIGHER_HALF : Z := 0xFFFF800000000000.
Definition KERNEL_TEXT_START : Z := 0xFFFF800000000000.
Definition KERNEL_STACK_SIZE : Z := PAGE_SIZE * 16.
Definition PHYS_TO_VIRT (p : Z) : Z := u64 (p + KERNEL_HIGHER_HALF).
Definition VIRT_TO_PHYS (v : Z) : Z := u64 (v - KERNEL_HIGHER_HALF).

(** The RAM address behind a kernel pointer (setup_paging of boot.asm). *)
Definition lin (v : Z) : Z :=
  if KERNEL_HIGHER_HALF <=? v then v - KERNEL_HIGHER_HALF else v.

(** * Byte order swaps *)
Definition bswap16 (x : Z) : Z := u16 ((x .>> 8) .| (x .<< 8)).
Definition bswap32 (x : Z) : Z :=
  u32 ((x .>> 24) .| ((x .>> 8) .& 0xFF00) .| ((x .<< 8) .& 0xFF0000) .| (x .<< 24)).
Abbreviation htons := bswap16.
Abbreviation ntohs := bswap16.
Abbreviation htonl := bswap32.
Abbreviation ntohl := bswap32.

(** * Bitmap operations, on a bitmap of 64-bit words at [bm] *)
Definition bitmap_set (m : gmap Z Z) (bm bit : Z) : gmap Z Z :=
  let w := lin (bm + 8 * (bit / 64)) in
  store64 m w (load64 m w .| u64 (1 .<< (bit mod 64))).

Definition bitmap_clear (m : gmap Z Z) (bm bit : Z) : gmap Z Z :=
  let w := lin (bm + 8 * (bit / 64)) in
  store64 m w (load64 m w .& u64 (Z.lnot (u64 (1 .<< (bit mod 64))))).

Definition bitmap_test (m : gmap Z Z) (bm bit : Z) : bool :=
  truthy ((load64 m (lin (bm + 8 * (bit / 64))) .>> (bit mod 64)) .& 1).

(** * Memory equivalence: the same byte at every address *)
Definition mem_eq (m1 m2 : gmap Z Z) : Prop := forall a, load8 m1 a = load8 m2 a.

#[export] Instance mem_eq_equivalence : Equivalence mem_eq.
Proof.
  split; unfold mem_eq; [intros m a; done|intros m1 m2 H a; by rewrite H|].
  intros m1 m2 m3 H1 H2 a. by rewrite H1, H2.
Qed.

(** [m'] differs from [m] on [lo, hi) at most. *)
Definition only_changes (lo hi : Z) (m m' : gmap Z Z) : Prop :=
  forall a, a < lo \/ hi <= a -> load8 m' a = load8 m a.

(** [m1] and [m2] hold the same bytes on [lo, hi). *)
Definition agree_on (lo hi : Z) (m1 m2 : gmap Z Z) : Prop :=
  forall a, lo <= a < hi -> load8 m1 a = load8 m2 a.

(** * Lemmas on loads and stores *)
Lemma load8_range m a : 0 <= load8 m a < 256.
Proof. apply u8_range. Qed.

Lemma load8_store8 m a v b :
  load8 (store8 m a v) b = if a =? b then u8 v else load8 m b.
Proof.
  unfold load8, store8. destruct (Z.eqb_spec a b) as [->|].
  - rewrite lookup_insert_eq. simpl. apply u8_idem.
  - by rewrite lookup_insert_ne.
Qed.

#[export] Instance store8_proper : Proper (mem_eq ==> eq ==> eq ==> mem_eq) store8.
Proof.
  intros m1 m2 Hm a ? <- v ? <- b. rewrite !load8_store8. by rewrite Hm.
Qed.

Lemma load_le_ext n m1 m2 a :
  agree_on a (a + Z.of_nat n) m1 m2 -> load_le n m1 a = load_le n m2 a.
Proof.
  revert a. induction n as [|n IH]; intros a H; simpl; [done|].
  rewrite (H a) by lia. rewrite (IH (a + 1)); [done|].
  intros b Hb. apply H. lia.
Qed.

#[export] Instance load_le_proper n : Proper (mem_eq ==> eq ==> eq) (load_le n).
Proof. intros m1 m2 Hm a ? <-. apply load_le_ext. intros b _. apply Hm. Qed.

Lemma load_le_range n m a : 0 <= load_le n m a < 256 ^ Z.of_nat n.
Proof.
  revert a. induction n as [|n IH]; intros a; simpl; [lia|].
  pose proof (load8_range m a). specialize (IH (a + 1)).
  replace (Z.of_nat (S n)) with (1 + Z.of_nat n) by lia.
  rewrite Z.pow_add_r by lia. lia.
Qed.

Lemma load64_range m a : 0 <= load64 m a < 2 ^ 64.
Proof. apply (load_le_range 8). Qed.
Lemma load32_range m a : 0 <= load32 m a < 2 ^ 32.
Proof. apply (load_le_range 4). Qed.
Lemma load16_range m a : 0 <= load16 m a < 2 ^ 16.
Proof. apply (load_le_range 2). Qed.
#[export] Hint Resolve load8_range load64_range load32_range load16_range : kos.

Lemma store_le_frame n m a v :
  only_changes a (a + Z.of_nat n) m (store_le n m a v).
Proof.
  revert m a v. induction n as [|n IH]; intros m a v b Hb; simpl; [done|].
  rewrite IH by lia. rewrite load8_store8. by tests.
Qed.

#[export] Instance store_le_proper n :
  Proper (mem_eq ==> eq ==> eq ==> mem_eq) (store_le n).
Proof.
  induction n as [|n IH]; intros m1 m2 Hm a ? <- v ? <-; simpl; [done|].
  apply IH; [by rewrite Hm|done..].
Qed.

Lemma load_le_store_le n m a v :
  load_le n (store_le n m a v) a = v mod 256 ^ Z.of_nat n.
Proof.
  revert m a v. induction n as [|n IH]; intros m a v; simpl.
  - by rewrite Z.mod_1_r.
  - rewrite IH, (store_le_frame n _ (a + 1)) by lia.
    rewrite load8_store8, Z.eqb_refl.
    replace (Z.of_nat (S n)) with (1 + Z.of_nat n) by lia.
    rewrite Z.pow_add_r, Z.rem_mul_r by lia. done.
Qed.

Lemma load64_store64 m a v : load64 (store64 m a v) a = u64 v.
Proof. apply (load_le_store_le 8). Qed.
Lemma load32_store32 m a v : load32 (store32 m a v) a = u32 v.
Proof. apply (load_le_store_le 4). Qed.
Lemma load16_store16 m a v : load16 (store16 m a v) a = u16 v.
Proof. apply (load_le_store_le 2). Qed.

(** The second of two stores to one place wins. *)
Lemma store8_store_le_comm n m a b v w :
  a < b -> store8 (store_le n m b v) a w = store_le n (store8 m a w) b v.
Proof.
  revert m b v. induction n as [|n IH]; intros m b v Hab; simpl; [done|].
  rewrite IH by lia. f_equal. unfold store8. apply insert_insert_ne. lia.
Qed.

Lemma store_le_twice n m a v w : store_le n (store_le n m a v) a w = store_le n m a w.
Proof.
  revert m a v w. induction n as [|n IH]; intros m a v w; simpl; [done|].
  rewrite store8_store_le_comm, IH by lia. f_equal. unfold store8. apply insert_insert_eq.
Qed.

(** A load disjoint from a change is not affected by it. *)
Lemma load_le_frame n m m' lo hi a :
  only_changes lo hi m m' -> a + Z.of_nat n <= lo \/ hi <= a ->
  load_le n m' a = load_le n m a.
Proof.
  intros H Ha. apply load_le_ext. intros b Hb. apply H. lia.
Qed.

Lemma load_store_disjoint k n m a b v :
  a + Z.of_nat n <= b \/ b + Z.of_nat k <= a ->
  load_le k (store_le n m a v) b = load_le k m b.
Proof.
  intros. eapply load_le_frame; [apply store_le_frame|lia].
Qed.

Lemma only_changes_refl lo hi m : only_changes lo hi m m.
Proof. intros a _. done. Qed.

Lemma only_changes_trans lo hi m1 m2 m3 :
  only_changes lo hi m1 m2 -> only_changes lo hi m2 m3 -> only_changes lo hi m1 m3.
Proof. intros H1 H2 a Ha. by rewrite H2, H1. Qed.

Lemma only_changes_weaken lo hi lo' hi' m m' :
  only_changes lo hi m m' -> lo' <= lo -> hi <= hi' -> only_changes lo' hi' m m'.
Proof. intros H ?? a Ha. apply H. lia. Qed.

Lemma agree_on_frame lo hi lo' hi' m m' :
  only_changes lo' hi' m m' -> hi <= lo' \/ hi' <= lo -> agree_on lo hi m' m.
Proof. intros H Hd a Ha. apply H. lia. Qed.

#[export] Hint Resolve store_le_frame only_changes_refl only_changes_trans : kos.

Lemma load_bytes_length n m a : length (load_bytes n m a) = n.
Proof. revert a. induction n; intros; simpl; auto. Qed.

Lemma load_bytes_ext n m1 m2 a :
  agree_on a (a + Z.of_nat n) m1 m2 -> load_bytes n m1 a = load_bytes n m2 a.
Proof.
  revert a. induction n as [|n IH]; intros a H; simpl; [done|].
  rewrite (H a) by lia. f_equal. apply IH. intros b Hb. apply H. lia.
Qed.

Lemma store_bytes_frame m a bs :
  only_changes a (a + Z.of_nat (length bs)) m (store_bytes m a bs).
Proof.
  revert m a. induction bs as [|b bs IH]; intros m a c Hc; simpl in *; [done|].
  rewrite IH by lia. rewrite load8_store8. by tests.
Qed.

Lemma load_bytes_app n1 n2 m a :
  load_bytes (n1 + n2) m a = load_bytes n1 m a ++ load_bytes n2 m (a + Z.of_nat n1).
Proof.
  revert a. induction n1 as [|n1 IH]; intros a; simpl.
  - f_equal. lia.
  - rewrite IH. do 3 f_equal. lia.
Qed.

Lemma load_bytes_store_bytes m a bs :
  load_bytes (length bs) (store_bytes m a bs) a = map u8 bs.
Proof.
  revert m a. induction bs as [|b bs IH]; intros m a; simpl; [done|].
  rewrite IH, (store_bytes_frame _ (a + 1)) by lia.
  by rewrite load8_store8, Z.eqb_refl.
Qed.

Lemma store_bytes_app m a l1 l2 :
  store_bytes (store_bytes m a l1) (a + Z.of_nat (length l1)) l2 = store_bytes m a (l1 ++ l2).
Proof.
  revert m a. induction l1 as [|b l1 IH]; intros m a; simpl; [f_equal; lia|].
  rewrite <- IH. f_equal. lia.
Qed.

Lemma map_u8_bytes bs : Forall (fun b => 0 <= b < 256) bs -> map u8 bs = bs.
Proof. induction 1; simpl; [done|]. f_equal; [by apply u8_small|done]. Qed.

Lemma load_bytes_lookup n m a i :
  (i < n)%nat -> load_bytes n m a !! i = Some (load8 m (a + Z.of_nat i)).
Proof.
  revert a i. induction n as [|n IH]; intros a i Hi; [lia|].
  destruct i as [|i]; simpl; [by rewrite Z.add_0_r|].
  rewrite IH by lia. do 2 f_equal. lia.
Qed.

Lemma load_bytes_range n m a : Forall (fun b => 0 <= b < 256) (load_bytes n m a).
Proof. revert a. induction n; intros; simpl; constructor; auto with kos. Qed.

Lemma load_le_combine n m a : load_le n m a = le_combine (load_bytes n m a).
Proof. revert a. induction n as [|n IH]; intros; simpl; [done|]. by rewrite IH. Qed.

Lemma load_le_app n k m a :
  load_le (n + k) m a = load_le n m a + 256 ^ Z.of_nat n * load_le k m (a + Z.of_nat n).
Proof.
  revert a. induction n as [|n IH]; intros a.
  - cbn [Nat.add load_le]. rewrite Z.add_0_r. change (256 ^ Z.of_nat 0) with 1. lia.
  - cbn [Nat.add load_le]. rewrite IH, Nat2Z.inj_succ, Z.pow_succ_r by lia.
    replace (a + 1 + Z.of_nat n) with (a + Z.succ (Z.of_nat n)) by lia. lia.
Qed.

Lemma store_le_bytes n m a v : store_le n m a v = store_bytes m a (le_split n v).
Proof.
  revert m a v. induction n as [|n IH]; intros; simpl; [done|].
  rewrite IH. unfold store8. by rewrite u8_idem.
Qed.

Lemma le_split_length n v : length (le_split n v) = n.
Proof. revert v. induction n; intros; simpl; auto. Qed.

(** * Lemmas on address translation *)
Lemma lin_PHYS_TO_VIRT p : 0 <= p < 2 ^ 47 -> lin (PHYS_TO_VIRT p) = p.
Proof.
  intros. unfold lin, PHYS_TO_VIRT, KERNEL_HIGHER_HALF.
  rewrite u64_small by lia. tests. lia.
Qed.

Lemma VIRT_TO_PHYS_TO_VIRT p : 0 <= p < 2 ^ 64 -> VIRT_TO_PHYS (PHYS_TO_VIRT p) = p.
Proof. intros. unfold VIRT_TO_PHYS, PHYS_TO_VIRT, KERNEL_HIGHER_HALF. ulia. Qed.

Lemma PHYS_TO_VIRT_val p :
  0 <= p < 2 ^ 47 -> PHYS_TO_VIRT p = p + KERNEL_HIGHER_HALF.
Proof. intros. unfold PHYS_TO_VIRT. apply u64_small. unfold KERNEL_HIGHER_HALF. lia. Qed.

Lemma PHYS_TO_VIRT_nonnull p : 0 <= p < 2 ^ 47 -> PHYS_TO_VIRT p <> 0.
Proof. intros. rewrite PHYS_TO_VIRT_val by done. unfold KERNEL_HIGHER_HALF. lia. Qed.

Lemma lin_add v d :
  0 <= d -> v < KERNEL_HIGHER_HALF - d \/ KERNEL_HIGHER_HALF <= v ->
  lin (v + d) = lin v + d.
Proof. intros ? [?|?]; unfold lin; tests; lia. Qed.

Lemma page_mask_val x : 0 <= x < 2 ^ 64 -> x .& PAGE_MASK = x - x mod 4096.
Proof. intros. apply (land_high x 12 64); lia. Qed.

Lemma huge_mask_val x :
  0 <= x < 2 ^ 64 -> x .& HUGE_PAGE_MASK = x - x mod HUGE_PAGE_SIZE.
Proof. intros. apply (land_high x 21 64); lia. Qed.

(** * Lemmas on bitmaps *)

(** [v, v+n) lies in one half of the address space, where [lin] is a shift. *)
Definition one_half (v n : Z) : Prop :=
  v + n <= KERNEL_HIGHER_HALF \/ KERNEL_HIGHER_HALF <= v.

Lemma lin_shift v n d : one_half v n -> 0 <= d < n -> lin (v + d) = lin v + d.
Proof. intros [?|?] ?; apply lin_add; lia. Qed.

Lemma bitmap_test_testbit m bm j :
  bitmap_test m bm j = Z.testbit (load64 m (lin (bm + 8 * (j / 64)))) (j mod 64).
Proof.
  unfold bitmap_test, truthy. set (w := load64 m _).
  pose proof (Z.mod_pos_bound j 64).
  replace (Z.testbit w (j mod 64)) with (Z.testbit (w .>> (j mod 64)) 0)
    by (rewrite Z.shiftr_spec by lia; f_equal; lia).
  rewrite Z.bit0_odd. change 1 with (2 ^ 1 - 1). rewrite land_low by lia.
  rewrite Zmod_odd. by destruct (Z.odd _).
Qed.

Lemma bit_word_small k : 0 <= k < 64 -> u64 (1 .<< k) = 2 ^ k.
Proof.
  intros. rewrite Z.shiftl_1_l. apply u64_small. split; [lia|].
  apply Z.pow_lt_mono_r; lia.
Qed.

Lemma testbit_pow2 k i : 0 <= k -> Z.testbit (2 ^ k) i = (k =? i).
Proof. intros. rewrite Z.pow2_bits_eqb by done. done. Qed.

Lemma u64_testbit x i : 0 <= i < 64 -> Z.testbit (u64 x) i = Z.testbit x i.
Proof. intros. unfold u64. apply (Z.mod_pow2_bits_low x 64). lia. Qed.

Section bitmap_lemmas.
Context (bm n : Z) (Hbm : one_half bm n) (m : gmap Z Z).

Let word (i : Z) : Z := lin (bm + 8 * (i / 64)).

Lemma bitmap_word_addr i : 0 <= i -> 8 * (i / 64) < n -> word i = lin bm + 8 * (i / 64).
Proof.
  intros. unfold word. eapply lin_shift; [exact Hbm|].
  pose proof (Z.div_pos i 64). lia.
Qed.

Lemma bitmap_update_test i j w' :
  0 <= i -> 8 * (i / 64) < n -> 0 <= j -> 8 * (j / 64) < n ->
  bitmap_test (store64 m (word i) w') bm j =
  if i / 64 =? j / 64 then Z.testbit (u64 w') (j mod 64) else bitmap_test m bm j.
Proof.
  intros. rewrite !bitmap_test_testbit. fold (word j).
  destruct (Z.eqb_spec (i / 64) (j / 64)) as [E|E].
  - replace (word j) with (word i) by (unfold word; by rewrite E).
    by rewrite load64_store64.
  - rewrite load_store_disjoint; [done|].
    rewrite !bitmap_word_addr by done. lia.
Qed.

Lemma bitmap_test_set i j :
  0 <= i -> 8 * (i / 64) < n -> 0 <= j -> 8 * (j / 64) < n ->
  bitmap_test (bitmap_set m bm i) bm j = (i =? j) || bitmap_test m bm j.
Proof.
  intros. unfold bitmap_set. fold (word i). rewrite bitmap_update_test by done.
  destruct (Z.eqb_spec (i / 64) (j / 64)) as [E|E].
  - rewrite u64_testbit by (apply Z.mod_pos_bound; lia).
    rewrite Z.lor_spec, bit_word_small, testbit_pow2 by (apply Z.mod_pos_bound; lia).
    rewrite bitmap_test_testbit. fold (word j).
    replace (word j) with (word i) by (unfold word; by rewrite E).
    rewrite orb_comm. f_equal.
    destruct (Z.eqb_spec i j) as [->|Hne]; [apply Z.eqb_refl|].
    apply Z.eqb_neq. intros Hm. apply Hne. rewrite (Z.div_mod i 64), (Z.div_mod j 64) by lia.
    lia.
  - destruct (Z.eqb_spec i j) as [->|]; [done|]. done.
Qed.

Lemma bitmap_test_clear i j :
  0 <= i -> 8 * (i / 64) < n -> 0 <= j -> 8 * (j / 64) < n ->
  bitmap_test (bitmap_clear m bm i) bm j = negb (i =? j) && bitmap_test m bm j.
Proof.
  intros. unfold bitmap_clear. fold (word i). rewrite bitmap_update_test by done.
  destruct (Z.eqb_spec (i / 64) (j / 64)) as [E|E].
  - pose proof (Z.mod_pos_bound j 64). pose proof (Z.mod_pos_bound i 64).
    rewrite u64_testbit, Z.land_spec, u64_testbit, Z.lnot_spec by lia.
    rewrite bit_word_small, testbit_pow2 by lia.
    rewrite bitmap_test_testbit. fold (word j).
    replace (word j) with (word i) by (unfold word; by rewrite E).
    rewrite andb_comm. f_equal. f_equal.
    destruct (Z.eqb_spec i j) as [->|Hne]; [apply Z.eqb_refl|].
    apply Z.eqb_neq. intros Hm. apply Hne. rewrite (Z.div_mod i 64), (Z.div_mod j 64) by lia.
    lia.
  - destruct (Z.eqb_spec i j) as [->|]; [done|]. done.
Qed.

Lemma bitmap_word_frame i w' :
  0 <= i -> 8 * (i / 64) + 8 <= n ->
  only_changes (lin bm) (lin bm + n) m (store64 m (word i) w').
Proof.
  intros. eapply only_changes_weaken; [apply store_le_frame|..];
    rewrite bitmap_word_addr by lia; pose proof (Z.div_pos i 64); lia.
Qed.

Lemma bitmap_set_frame i :
  0 <= i -> 8 * (i / 64) + 8 <= n ->
  only_changes (lin bm) (lin bm + n) m (bitmap_set m bm i).
Proof. intros. by apply bitmap_word_frame. Qed.

Lemma bitmap_clear_frame i :
  0 <= i -> 8 * (i / 64) + 8 <= n ->
  only_changes (lin bm) (lin bm + n) m (bitmap_clear m bm i).
Proof. intros. by apply bitmap_word_frame. Qed.
End bitmap_lemmas.

(** The test reads the bitmap's own words only. *)
Lemma bitmap_test_ext m m' bm n j :
  one_half bm n -> 0 <= j -> 8 * (j / 64) + 8 <= n ->
  agree_on (lin bm) (lin bm + n) m m' -> bitmap_test m bm j = bitmap_test m' bm j.
Proof.
  intros Hbm ?? Hm. rewrite !bitmap_test_testbit.
  rewrite (bitmap_word_addr bm n) by (done || lia).
  erewrite load_le_ext; [done|]. intros a Ha. apply Hm.
  pose proof (Z.div_pos j 64). lia.
Qed.

(** * Byte order swaps are involutions on their width *)
Lemma bswap16_val x : 0 <= x < 65536 -> bswap16 x = x / 256 + 256 * (x mod 256).
Proof.
  intros. unfold bswap16.
  rewrite Z.lor_comm, Z.shiftr_div_pow2, Z.shiftl_mul_pow2 by lia.
  rewrite (lor_add_disjoint _ _ 8);
    [ulia|lia|apply Z.mod_mul; lia|change (2^8) with 256; ulia].
Qed.

Lemma bswap16_involutive x : 0 <= x < 65536 -> bswap16 (bswap16 x) = x.
Proof.
  intros. rewrite (bswap16_val (bswap16 x)), bswap16_val by (apply u16_range || done).
  Z.div_mod_to_equations; lia.
Qed.

Lemma bswap16_range x : 0 <= bswap16 x < 65536.
Proof. apply u16_range. Qed.
Lemma bswap32_range x : 0 <= bswap32 x < 2 ^ 32.
Proof. apply u32_range. Qed.
#[export] Hint Resolve bswap16_range bswap32_range : kos.

(** Four bytes, least significant first. *)
Lemma land_mid x k w :
  0 <= k <= w -> x .& (2 ^ w - 2 ^ k) = x mod 2 ^ w - x mod 2 ^ k.
Proof.
  intros Hk. assert (0 < 2 ^ w) by lia.
  transitivity ((x mod 2 ^ w) .& (2 ^ w - 2 ^ k)).
  - apply Z.bits_inj'. intros i Hi. rewrite !Z.land_spec.
    destruct (Z.ltb_spec i w).
    + by rewrite Z.mod_pow2_bits_low by lia.
    + rewrite (testbit_high (2 ^ w - 2 ^ k) w i); [by rewrite !andb_false_r| |lia].
      assert (2 ^ k <= 2 ^ w) by (apply Z.pow_le_mono_r; lia). lia.
  - rewrite land_high by (lia || apply Z.mod_pos_bound; lia).
    f_equal. apply Z.mod_mod_divide.
    exists (2 ^ (w - k)). rewrite <- Z.pow_add_r by lia. f_equal. lia.
Qed.

Lemma bswap32_val x :
  0 <= x < 2 ^ 32 ->
  bswap32 x = x / 2 ^ 24 + 256 * (x / 2 ^ 16 mod 256)
              + 65536 * (x / 2 ^ 8 mod 256) + 2 ^ 24 * (x mod 256).
Proof.
  intros Hx. unfold bswap32.
  replace 0xFF00 with (2 ^ 16 - 2 ^ 8) by done.
  replace 0xFF0000 with (2 ^ 24 - 2 ^ 16) by done.
  rewrite !land_mid, !Z.shiftr_div_pow2, !Z.shiftl_mul_pow2 by lia.
  set (A := x / 2 ^ 24).
  set (B := (x / 2 ^ 8) mod 2 ^ 16 - (x / 2 ^ 8) mod 2 ^ 8).
  set (C := (x * 2 ^ 8) mod 2 ^ 24 - (x * 2 ^ 8) mod 2 ^ 16).
  assert (HA : 0 <= A < 256) by (unfold A; Z.div_mod_to_equations; lia).
  assert (HB : B = 256 * (x / 2 ^ 16 mod 256))
    by (unfold B; clear; Z.div_mod_to_equations; lia).
  assert (HC : C = 65536 * (x / 2 ^ 8 mod 256))
    by (unfold C; clear; Z.div_mod_to_equations; lia).
  pose proof (Z.mod_pos_bound (x / 2 ^ 16) 256). 
  pose proof (Z.mod_pos_bound (x / 2 ^ 8) 256).
  rewrite (Z.lor_comm A B), (lor_add_disjoint B A 8) by (rewrite ?HB; Z.div_mod_to_equations; lia).
  rewrite (Z.lor_comm _ C), (lor_add_disjoint C (B + A) 16) by (rewrite ?HC, ?HB; Z.div_mod_to_equations; lia).
  rewrite (Z.lor_comm _ (x * 2 ^ 24)), (lor_add_disjoint (x * 2 ^ 24) _ 24)
    by (rewrite ?HC, ?HB; Z.div_mod_to_equations; lia).
  rewrite HC, HB. unfold u32.
  replace (x * 2 ^ 24 + (65536 * (x / 2 ^ 8 mod 256) + (256 * (x / 2 ^ 16 mod 256) + A)))
    with ((65536 * (x / 2 ^ 8 mod 256) + (256 * (x / 2 ^ 16 mod 256) + A)
           + 2 ^ 24 * (x mod 256)) + (x / 256) * 0x100000000)
    by (clear; Z.div_mod_to_equations; lia).
  rewrite Z.mod_add by lia. rewrite Z.mod_small; [unfold A; lia|].
  pose proof (Z.mod_pos_bound x 256). lia.
Qed.

Lemma bswap32_involutive x : 0 <= x < 2 ^ 32 -> bswap32 (bswap32 x) = x.
Proof.
  intros Hx. rewrite (bswap32_val (bswap32 x)) by apply u32_range.
  rewrite bswap32_val by done.
  assert (E : x = x mod 256 + 256 * (x / 2 ^ 8 mod 256)
              + 2 ^ 16 * (x / 2 ^ 16 mod 256) + 2 ^ 24 * (x / 2 ^ 24))
    by (clear; Z.div_mod_to_equations; lia).
  assert (H3 : 0 <= x / 2 ^ 24 < 256) by (Z.div_mod_to_equations; lia).
  pose proof (Z.mod_pos_bound x 256 eq_refl) as H0.
  pose proof (Z.mod_pos_bound (x / 2 ^ 8) 256 eq_refl) as H1.
  pose proof (Z.mod_pos_bound (x / 2 ^ 16) 256 eq_refl) as H2.
  revert E H0 H1 H2 H3. clear Hx.
  generalize (x mod 256) (x / 2 ^ 8 mod 256) (x / 2 ^ 16 mod 256) (x / 2 ^ 24).
  intros b0 b1 b2 b3 -> ????. Z.div_mod_to_equations; lia.
Qed.
