(* ===== verification/Globals.v ===== *)
(** The kernel's structs and static variables (kernel.h, net.h and the statics
    of each .c file), the trace of effects that leave the kernel, and the monad
    in which the operations are written.

    Structs that live in memory the kernel allocates (page tables, bitmaps,
    multiboot tags, slab headers, threads, processes, sockets, network devices,
    packets) are in [ram], at the offsets the C compiler gives their fields.
    [struct cpu] lives in a typed store keyed by its address.  What the kernel
    reads from a device, a model-specific register or a control register it did
    not write is an argument of the definitions: a function of the trace so far,
    in which every earlier access is an event. *)
From S2P Require Import Prelude Machine.

(** * Effects that leave the kernel, newest first in a trace *)
Inductive karg := AInt (z : Z) | AStr (s : string).

(** Reads whose result the hardware decides. *)
Inductive hw_read :=
| RdIn (width port : Z)      (* inb, inw, inl *)
| RdMmio (a : Z)             (* a load from a volatile uint32_t *)
| RdMsr (msr : Z)            (* rdmsr *)
| RdCpuid (code reg : Z)     (* cpuid: register 0 is eax, ..., 3 is edx *)
| RdCr2.                     (* read_cr2 *)

Inductive event :=
| EvPrintf (fmt : string) (args : list karg)   (* kprintf *)
| EvCli                                        (* cli *)
| EvInvlpg (a : Z)                             (* invlpg *)
| EvWriteCr3 (v : Z)                           (* write_cr3 *)
| EvTssRsp0 (rsp : Z)                          (* tss_set_rsp0 *)
| EvSwitch (old_rsp new_rsp : Z)               (* context_switch: &prev->rsp, the new rsp *)
| EvTx (tx : Z) (frame : list Z)               (* dev->tx *)
| EvSti                                        (* sti *)
| EvOut (width port v : Z)                     (* outb, outw, outl *)
| EvMmio (a v : Z)                             (* a store to a volatile uint32_t *)
| EvWrmsr (msr v : Z)                          (* wrmsr *)
| EvLidt (limit base : Z)                      (* lidt *)
| EvHw (r : hw_read) (v : Z)                   (* a read from the hardware, and its result *)
| EvHlt.                                       (* hlt, and the interrupt that ends it *)

(** * memory.c *)
Definition ZONE_DMA : nat := 0.
Definition ZONE_DMA32 : nat := 1.
Definition ZONE_NORMAL : nat := 2.
Definition ZONE_COUNT : nat := 3.
Definition MAX_ORDER : Z := 12.

Record memory_zone := Zone {
  base_pfn : Z;
  end_pfn : Z;
  total_pages : Z;
  free_pages : Z;
  bitmap : Z;
  zfree_list : list Z;
  zlock : Z;
}.

#[export] Instance memory_zone_inhabited : Inhabited memory_zone :=
  populate (Zone 0 0 0 0 0 [] 0).

Record pmm_globals := Pmm {
  zones : list memory_zone;
  total_system_pages : Z;
  early_alloc_pages : Z;
  early_bitmap : Z;
}.

(** * kmalloc.c *)
Definition KMALLOC_MIN_SIZE : Z := 16.
Definition KMALLOC_MAX_SIZE : Z := 2048.
Definition KMALLOC_NUM_SIZES : nat := 8.

Record slab_cache := Slab {
  slab_size : Z;
  free_list : Z;
  allocations : Z;
  frees : Z;
}.

Record heap_globals := Heap {
  slabs : list slab_cache;
  kmalloc_lock : Z;
  kmalloc_initialized : bool;
}.

(** * scheduler.c and the structs it uses *)
Definition MAX_CPUS : nat := 8.
Definition TASK_RUNNING : Z := 0.
Definition TASK_SLEEPING : Z := 1.
Definition TASK_BLOCKED : Z := 2.

Record cpu := Cpu {
  apic_id : Z;
  acpi_id : Z;
  lapic_base : Z;
  tss_rsp0 : Z;
  current_thread : Z;
  online : bool;
  bsp : bool;
}.

Record runqueue := Runqueue {
  head : Z;
  tail : Z;
  nr_running : Z;
  min_vruntime : Z;
  rqlock : Z;
}.

Record sched_globals := Sched {
  runqueues : list runqueue;
  next_tid : Z;
  next_pid : Z;
  cpus : gmap Z cpu;      (* the struct cpu at each address *)
}.

(** * net.h, tcp.c, ip.c, network.c *)
Record net_globals := Net {
  sockets : Z;
  next_port : Z;
  tcp_seq_num : Z;
  local_ip : Z;
  gateway_ip : Z;
  subnet_mask : Z;
  ip_id : Z;
  devices : Z;
  arp_cache : list (list Z);   (* 6 bytes for each of the 256 entries *)
  arp_cache_ip : list Z;
  arp_cache_count : Z;
}.

(** * pci.c *)
Definition MAX_PCI_DEVICES : Z := 256.

Record pci_device := PciDevice {
  bus : Z; slot : Z; func : Z;
  vendor_id : Z; device_id : Z;
  class_code : Z; subclass : Z; prog_if : Z;
  revision : Z;
  bar : list Z;
  bar_phys : list Z;
  bar_size : list Z;
  bar_is_mmio : list bool;
  irq_pin : Z; irq_line : Z;
  msi_capable : bool;
  msi_offset : Z;
}.

Record pci_globals := PciGlobals {
  pci_devices : list pci_device;   (* the array [devices] of pci.c *)
  device_count : Z;
}.

(** * idt.c *)
Record idt_entry := IdtEntry {
  offset_low : Z;
  selector : Z;
  ist : Z;
  type_attr : Z;
  offset_mid : Z;
  offset_high : Z;
  zero : Z;
}.

Record idt_globals := IdtGlobals {
  idt : list idt_entry;
  irq_handlers : list Z;   (* function pointers, 0 is NULL *)
  irq_contexts : list Z;
}.

(** * apic.c, ioapic.c and acpi.c *)
Definition MAX_IOAPICS : nat := 4.

Record apic_globals := ApicGlobals {
  lapic_regs : Z;          (* lapic_base of apic.c *)
  timer_freq : Z;
  timer_handler : Z;
}.

Record ioapic_globals := IoapicGlobals {
  ioapic_bases : list Z;
  gsi_bases : list Z;
  num_ioapics : Z;
}.

Record acpi_globals := AcpiGlobals {
  acpi_init_done : bool;
  acpi_major : Z;
  acpi_minor : Z;
  num_cpus : Z;
  cpu_apic_ids : list Z;
  acpi_num_ioapics : Z;    (* num_ioapics of acpi.c *)
  ioapic_addrs : list Z;
  ioapic_gsi_bases : list Z;
}.

(** * The static variables of the driver stubs *)
Record driver_globals := DriverGlobals {
  port_count : Z;              (* ahci.c *)
  nvme_initialized : bool;     (* nvme.c *)
  boot_drive_size : Z;
  ext2_mounted : bool;         (* ext2.c *)
  ext2_start_lba : Z;
  hda_initialized : bool;      (* hda.c *)
  alc_initialized : bool;      (* realtek_alc.c *)
  gpu_fb_virt : Z;             (* fb_virt and the fb_ variables of amdgpu.c *)
  gpu_fb_width : Z;
  gpu_fb_height : Z;
  gpu_fb_pitch : Z;
  gpu_fb_bpp : Z;
}.

Record plat_globals := PlatGlobals {
  pci : pci_globals;
  idtg : idt_globals;
  apic : apic_globals;
  ioapic : ioapic_globals;
  acpi : acpi_globals;
  drv : driver_globals;
}.

(** The values these variables have before anything runs. *)
Definition no_device : pci_device :=
  PciDevice 0 0 0 0 0 0 0 0 0 (replicate 6 0) (replicate 6 0) (replicate 6 0) (replicate 6 false)
    0 0 false 0.
#[export] Instance pci_device_inhabited : Inhabited pci_device := populate no_device.
Definition no_gate : idt_entry := IdtEntry 0 0 0 0 0 0 0.
#[export] Instance idt_entry_inhabited : Inhabited idt_entry := populate no_gate.

Definition pci_initial : pci_globals := PciGlobals (replicate (Z.to_nat MAX_PCI_DEVICES) no_device) 0.
Definition idt_initial : idt_globals :=
  IdtGlobals (replicate 256 no_gate) (replicate 16 0) (replicate 16 0).
Definition apic_initial : apic_globals := ApicGlobals 0 0 0.
Definition ioapic_initial : ioapic_globals :=
  IoapicGlobals (replicate MAX_IOAPICS 0) (replicate MAX_IOAPICS 0) 0.
Definition acpi_initial : acpi_globals :=
  AcpiGlobals false 0 0 1 (replicate MAX_CPUS 0) 1 [0xFEC00000; 0; 0; 0] [0; 0; 0; 0].
Definition drv_initial : driver_globals :=
  DriverGlobals 0 false 0 false 0 false false 0 1024 768 (1024 * 4) 32.
Definition plat_initial : plat_globals :=
  PlatGlobals pci_initial idt_initial apic_initial ioapic_initial acpi_initial drv_initial.

(** * The state of the kernel *)
Record kst := Kst {
  ram : gmap Z Z;
  trace : list event;
  pmm : pmm_globals;
  heap : heap_globals;
  kernel_pml4 : Z;
  cr3 : Z;
  sched : sched_globals;
  net : net_globals;
  plat : plat_globals;
}.

Definition set_ram (x : gmap Z Z) (s : kst) : kst :=
  Kst x (trace s) (pmm s) (heap s) (kernel_pml4 s) (cr3 s) (sched s) (net s) (plat s).
Definition set_trace (x : list event) (s : kst) : kst :=
  Kst (ram s) x (pmm s) (heap s) (kernel_pml4 s) (cr3 s) (sched s) (net s) (plat s).
Definition set_pmm (x : pmm_globals) (s : kst) : kst :=
  Kst (ram s) (trace s) x (heap s) (kernel_pml4 s) (cr3 s) (sched s) (net s) (plat s).
Definition set_heap (x : heap_globals) (s : kst) : kst :=
  Kst (ram s) (trace s) (pmm s) x (kernel_pml4 s) (cr3 s) (sched s) (net s) (plat s).
Definition set_kernel_pml4 (x : Z) (s : kst) : kst :=
  Kst (ram s) (trace s) (pmm s) (heap s) x (cr3 s) (sched s) (net s) (plat s).
Definition set_cr3 (x : Z) (s : kst) : kst :=
  Kst (ram s) (trace s) (pmm s) (heap s) (kernel_pml4 s) x (sched s) (net s) (plat s).
Definition set_sched (x : sched_globals) (s : kst) : kst :=
  Kst (ram s) (trace s) (pmm s) (heap s) (kernel_pml4 s) (cr3 s) x (net s) (plat s).
Definition set_net (x : net_globals) (s : kst) : kst :=
  Kst (ram s) (trace s) (pmm s) (heap s) (kernel_pml4 s) (cr3 s) (sched s) x (plat s).

Definition set_plat (x : plat_globals) (s : kst) : kst :=
  Kst (ram s) (trace s) (pmm s) (heap s) (kernel_pml4 s) (cr3 s) (sched s) (net s) x.

(** * The monad: state, kernel_panic, and loops that never end *)
Inductive outcome (A : Type) :=
| Ret (a : A) (s : kst)
| Panic (msg : string) (s : kst)     (* kernel_panic, which does not return *)
| Hang (s : kst).                    (* a loop the code never leaves *)
Arguments Ret {A} a s.
Arguments Panic {A} msg s.
Arguments Hang {A} s.

Definition M (A : Type) : Type := kst -> outcome A.

#[export] Instance M_ret : MRet M := fun A a s => Ret a s.
#[export] Instance M_bind : MBind M := fun A B f m s =>
  match m s with
  | Ret a s' => f a s'
  | Panic msg s' => Panic msg s'
  | Hang s' => Hang s'
  end.

Definition gets {A} (f : kst -> A) : M A := fun s => Ret (f s) s.
Definition modify (f : kst -> kst) : M unit := fun s => Ret tt (f s).
Definition upd_ram (f : gmap Z Z -> gmap Z Z) : M unit :=
  modify (fun s => set_ram (f (ram s)) s).
Definition emit (e : event) : M unit := modify (fun s => set_trace (e :: trace s) s).
Definition hang {A} : M A := fun s => Hang s.

Definition kprintf (fmt : string) (args : list karg) : M unit := emit (EvPrintf fmt args).
(** kernel_panic masks interrupts, prints its message and halts for ever: the
    outcome [Panic] stands for its loop of hlt, which adds nothing to the trace.
    Format strings are kept as the C source writes them, escapes included. *)
Definition kernel_panic {A} (msg : string) : M A :=
  emit EvCli;;
  kprintf "\n\n!!! KERNEL PANIC !!!\n%s\nSystem halted.\n" [AStr msg];;
  ((fun s => Panic msg s) : M A).
Definition invlpg (a : Z) : M unit := emit (EvInvlpg a).
Definition write_cr3 (v : Z) : M unit :=
  modify (set_cr3 v);; emit (EvWriteCr3 v).

Definition cli : M unit := emit EvCli.
Definition sti : M unit := emit EvSti.
Definition hlt : M unit := emit EvHlt.
Definition outb (port v : Z) : M unit := emit (EvOut 1 port v).
Definition outl (port v : Z) : M unit := emit (EvOut 4 port v).
Definition wrmsr (msr v : Z) : M unit := emit (EvWrmsr msr v).
(** A load from the hardware [hw]; the result is an event of its own. *)
Definition hw_load (hw : list event -> hw_read -> Z) (r : hw_read) : M Z :=
  fun s => let v := hw (trace s) r in Ret v (set_trace (EvHw r v :: trace s) s).

Definition inb (hw : list event -> hw_read -> Z) (port : Z) : M Z :=
  v ← hw_load hw (RdIn 1 port); mret (u8 v).
Definition inl (hw : list event -> hw_read -> Z) (port : Z) : M Z :=
  v ← hw_load hw (RdIn 4 port); mret (u32 v).
Definition rdmsr (hw : list event -> hw_read -> Z) (msr : Z) : M Z :=
  v ← hw_load hw (RdMsr msr); mret (u64 v).
(** The edx of cpuid. *)
Definition cpuid_edx (hw : list event -> hw_read -> Z) (code : Z) : M Z :=
  v ← hw_load hw (RdCpuid code 3); mret (u32 v).
Definition read_cr2 (hw : list event -> hw_read -> Z) : M Z := hw_load hw RdCr2.
(** A load from and a store to a [volatile uint32_t]. *)
Definition mmio_load (hw : list event -> hw_read -> Z) (a : Z) : M Z :=
  v ← hw_load hw (RdMmio a); mret (u32 v).
Definition mmio_store (a v : Z) : M unit := emit (EvMmio a v).

(** [M unit] under a condition. *)
Definition whenM (b : bool) (m : M unit) : M unit := if b then m else mret tt.

(** * Lemmas on the monad *)
Lemma bind_ret {A B} (m : M A) (f : A -> M B) s a s' :
  m s = Ret a s' -> (m ≫= f) s = f a s'.
Proof. intros H. unfold mbind, M_bind. by rewrite H. Qed.

Lemma bind_assoc {A B C} (m : M A) (f : A -> M B) (g : B -> M C) s :
  ((m ≫= f) ≫= g) s = (m ≫= (fun a => f a ≫= g)) s.
Proof. unfold mbind, M_bind. by destruct (m s). Qed.

Lemma set_ram_set_ram m1 m2 s : set_ram m1 (set_ram m2 s) = set_ram m1 s.
Proof. done. Qed.
#[export] Hint Rewrite set_ram_set_ram : kos_state.

(** One step of a program: [rewrite bind_gets] and the like run it up to the next
    operation. *)
Lemma bind_gets {A B} (f : kst -> A) (K : A -> M B) s : (gets f ≫= K) s = K (f s) s.
Proof. done. Qed.
Lemma bind_mret {A B} (a : A) (K : A -> M B) s : (mret a ≫= K) s = K a s.
Proof. done. Qed.
Lemma bind_upd_ram {B} f (K : M B) s : (upd_ram f;; K) s = K (set_ram (f (ram s)) s).
Proof. done. Qed.
Lemma bind_modify {B} f (K : M B) s : (modify f;; K) s = K (f s).
Proof. done. Qed.
Lemma bind_whenM {B} (b : bool) m (K : M B) s :
  (whenM b m;; K) s = if b then (m;; K) s else K s.
Proof. by destruct b. Qed.
Lemma bind_tt (m : M unit) s : (m;; mret tt) s = m s.
Proof. unfold mbind, M_bind. by destruct (m s) as [[] s'|msg s'|s']. Qed.
Lemma bind_emit {B} e (K : M B) s : (emit e;; K) s = K (set_trace (e :: trace s) s).
Proof. done. Qed.

(** [m] keeps [I] however it ends, and returns values of [Q]. *)
Definition always {A} (I : kst -> Prop) (m : M A) (Q : A -> Prop) : Prop := forall s,
  I s -> match m s with Ret a s' => Q a /\ I s' | Panic _ s' | Hang s' => I s' end.

Section always.
Context (I : kst -> Prop).

Lemma always_bind {A B} (m : M A) (K : A -> M B) Q R :
  always I m Q -> (forall a, Q a -> always I (K a) R) -> always I (m ≫= K) R.
Proof.
  intros Hm HK s Hs. specialize (Hm s Hs). unfold mbind, M_bind.
  destruct (m s) as [a s'|msg s'|s']; [|done..]. destruct Hm as [Ha Hs']. by apply HK.
Qed.

Lemma always_ret {A} (a : A) (Q : A -> Prop) : Q a -> always I (mret a) Q.
Proof. intros Ha s Hs. done. Qed.

Lemma always_hang {A} (Q : A -> Prop) : always I hang Q.
Proof. intros s Hs. done. Qed.

Lemma always_modify (f : kst -> kst) : (forall s, I s -> I (f s)) -> always I (modify f) (fun _ => True).
Proof. intros Hf s Hs. split; [done|]. by apply Hf. Qed.

Lemma always_gets {A} (f : kst -> A) (Q : A -> Prop) : (forall s, I s -> Q (f s)) -> always I (gets f) Q.
Proof. intros Hf s Hs. split; [by apply Hf|done]. Qed.

Lemma always_weaken {A} (m : M A) (Q R : A -> Prop) :
  always I m Q -> (forall a, Q a -> R a) -> always I m R.
Proof.
  intros Hm HQ s Hs. specialize (Hm s Hs). destruct (m s) as [a s'|msg s'|s']; [|done..].
  destruct Hm. auto.
Qed.

Lemma always_outcome {A} (m : M A) Q s :
  always I m Q -> I s -> match m s with Ret _ s' | Panic _ s' | Hang s' => I s' end.
Proof. intros Hm Hs. specialize (Hm s Hs). destruct (m s) as [a s'|msg s'|s']; [apply Hm|done..]. Qed.
End always.

(** [m] returns from every state of [P], with a result and a state of [Q]. *)
Definition runs {A} (P : kst -> Prop) (m : M A) (Q : A -> kst -> Prop) : Prop :=
  forall s, P s -> exists a s', m s = Ret a s' /\ Q a s'.

Lemma runs_bind {A B} P (m : M A) (K : A -> M B) Q R :
  runs P m Q -> (forall a, runs (Q a) (K a) R) -> runs P (m ≫= K) R.
Proof.
  intros Hm HK s Hs. destruct (Hm s Hs) as (a & s' & E & Ha). rewrite (bind_ret _ _ _ _ _ E). by apply HK.
Qed.

Lemma runs_modify (P Q : kst -> Prop) f : (forall s, P s -> Q (f s)) -> runs P (modify f) (fun _ => Q).
Proof. intros Hf s Hs. exists tt, (f s). split; [done|]. by apply Hf. Qed.

Lemma runs_gets {A} (P : kst -> Prop) (f : kst -> A) : runs P (gets f) (fun _ => P).
Proof. intros s Hs. by exists (f s), s. Qed.

Lemma runs_ret {A} (P : kst -> Prop) (Q : A -> kst -> Prop) a : (forall s, P s -> Q a s) -> runs P (mret a) Q.
Proof. intros H s Hs. exists a, s. split; [done|]. by apply H. Qed.

(** Unfold the monad's plumbing in the goal. *)
Ltac munfold :=
  unfold kprintf, invlpg, write_cr3, emit, upd_ram, whenM, modify, gets,
    mbind, mret, M_bind, M_ret.
Ltac msimpl :=
  munfold; cbn [set_ram set_trace set_pmm set_heap set_kernel_pml4 set_cr3 set_sched
    set_net set_plat ram trace pmm heap kernel_pml4 cr3 sched net plat].

(** Only RAM, the zones and the trace may differ. *)
Definition same_globals (s s' : kst) : Prop :=
  set_trace (trace s) (set_ram (ram s) (set_pmm (pmm s) s')) = s.

#[export] Instance same_globals_equivalence : Equivalence same_globals.
Proof.
  unfold same_globals, set_ram, set_pmm, set_trace. split.
  - intros []; done.
  - intros [] []; simpl. congruence.
  - intros [] [] []; simpl. congruence.
Qed.
