(* ===== verification/Spinlock.v ===== *)
(** The spinlock of kernel.h (spin_init, spin_lock, spin_unlock), for any number
    of CPUs whose steps interleave freely.

    One step of a CPU is one access to the lock word.  The other files model the
    code as one CPU runs it, where spin_lock acquires a free lock or spins for
    ever on a held one; [spin_lock_alone] is that reading of spin_lock, proved
    from the interleaving model. *)
From S2P Require Import Prelude.

(** Where a CPU is: outside, at the test-and-set, in the inner loop that waits
    for the word to become 0, or past spin_lock. *)
Inductive pc := Out | Testing | Waiting | Inside.

#[export] Instance pc_eq_dec : EqDecision pc.
Proof. solve_decision. Defined.

Record lock_state := Locks {
  lock : Z;
  pcs : list pc;
}.

(** spin_init, with [n] CPUs outside. *)
Definition spin_init (n : nat) : lock_state := Locks 0 (replicate n Out).

(** [__sync_lock_test_and_set(&lock->lock, 1)]: the old value, the new word. *)
Definition test_and_set (w : Z) : Z * Z := (w, 1).

(** One step inside spin_lock: the place after it and the lock word. *)
Definition spin_lock_step (p : pc) (w : Z) : pc * Z :=
  match p with
  | Testing =>
      let '(old, w) := test_and_set w in
      (if truthy old then Waiting else Inside, w)
  | Waiting => (if truthy w then Waiting else Testing, w)
  | p => (p, w)
  end.

(** [__sync_lock_release(&lock->lock)] *)
Definition spin_unlock_step (w : Z) : Z := 0.

(** A step of CPU [c]: call spin_lock, run in it, or call spin_unlock. *)
Definition cpu_step (c : nat) (s : lock_state) : option lock_state :=
  p ← pcs s !! c;
  Some match p with
       | Out => Locks (lock s) (<[c := Testing]> (pcs s))
       | Inside => Locks (spin_unlock_step (lock s)) (<[c := Out]> (pcs s))
       | p => let '(p', w) := spin_lock_step p (lock s) in Locks w (<[c := p']> (pcs s))
       end.

(** An execution, as the sequence of CPUs that step. *)
Fixpoint run (cs : list nat) (s : lock_state) : option lock_state :=
  match cs with
  | [] => Some s
  | c :: cs' => s ← cpu_step c s; run cs' s
  end.

(** * Mutual exclusion *)

(** The word is 0 or 1, and 1 exactly when some CPU is inside, which is then the
    only one. *)
Record lock_inv (s : lock_state) : Prop := {
  li_word : lock s = 0 \/ lock s = 1;
  li_held : lock s = 1 -> exists c, pcs s !! c = Some Inside;
  li_free : forall c, pcs s !! c = Some Inside -> lock s = 1;
  li_one : forall c d, pcs s !! c = Some Inside -> pcs s !! d = Some Inside -> c = d;
}.

Lemma spin_init_inv n : lock_inv (spin_init n).
Proof.
  assert (H : forall c, ~ replicate n Out !! c = Some Inside)
    by (intros c; by intros [[=] _]%lookup_replicate).
  split; simpl; [by left|done| |]; intros c; intros; by edestruct H.
Qed.

Lemma insert_inside (l : list pc) c p d :
  <[c := p]> l !! d = Some Inside -> (d = c /\ p = Inside) \/ (d <> c /\ l !! d = Some Inside).
Proof.
  intros Hd. destruct (decide (d = c)) as [->|Hne].
  - left. apply list_lookup_insert_Some in Hd as [(_ & -> & _)|[? _]]; done.
  - rewrite list_lookup_insert_ne in Hd by done. by right.
Qed.

Lemma cpu_step_inv c s s' : lock_inv s -> cpu_step c s = Some s' -> lock_inv s'.
Proof.
  intros [Hw Hh Hf Ho] Hs. unfold cpu_step in Hs.
  destruct (pcs s !! c) as [p|] eqn:Hc; [|done]. pose proof (lookup_lt_Some _ _ _ Hc) as Hlt.
  assert (Hstay : forall p', p <> Inside -> p' <> Inside -> lock_inv (Locks (lock s) (<[c := p']> (pcs s)))).
  { intros p' Hp Hp'. split; simpl; [done| |..].
    - intros [d Hd]%Hh. exists d. rewrite list_lookup_insert_ne; [done|congruence].
    - intros d [[_ ?]|[_ Hd]]%insert_inside; [done|by eapply Hf].
    - intros d e [[_ ?]|[_ Hd]]%insert_inside [[_ ?]|[_ He]]%insert_inside; try done. by eapply Ho. }
  destruct p; simplify_eq/=.
  - by apply Hstay.
  - destruct Hw as [Hw|Hw]; rewrite Hw in *; simpl; [|by apply Hstay].
    assert (Hnone : forall d, pcs s !! d <> Some Inside).
    { intros d Hd. specialize (Hf d Hd). lia. }
    split; simpl; [by right| |done|].
    + intros _. exists c. by apply list_lookup_insert_eq.
    + intros d e [[-> _]|[_ Hd]]%insert_inside [[-> _]|[_ He]]%insert_inside; try done;
        by edestruct Hnone.
  - destruct (truthy (lock s)); simplify_eq/=; by apply Hstay.
  - assert (Hnone : forall d, <[c := Out]> (pcs s) !! d <> Some Inside).
    { intros d [[_ ?]|[Hne Hd]]%insert_inside; [done|]. by apply Hne, Ho. }
    split; simpl; [by left|done| |]; intros d; intros; by edestruct Hnone.
Qed.

Lemma run_inv cs s s' : lock_inv s -> run cs s = Some s' -> lock_inv s'.
Proof.
  revert s. induction cs as [|c cs IH]; intros s Hs Hrun; simplify_eq/=; [done|].
  destruct (cpu_step c s) as [s1|] eqn:E; [|done]. simpl in Hrun.
  eapply IH; [|done]. by eapply cpu_step_inv.
Qed.

(** C12 Mutual exclusion: whatever the interleaving of any number of CPUs, from
    an initialised lock, at most one is between spin_lock and spin_unlock, and
    one is there exactly when the lock word is 1. *)
Theorem spinlock_mutual_exclusion (n : nat) (cs : list nat) (s : lock_state) :
  run cs (spin_init n) = Some s ->
  (forall c d, pcs s !! c = Some Inside -> pcs s !! d = Some Inside -> c = d)
  /\ (lock s = 0 \/ lock s = 1)
  /\ (lock s = 1 <-> exists c, pcs s !! c = Some Inside).
Proof.
  intros Hrun. destruct (run_inv _ _ _ (spin_init_inv n) Hrun) as [Hw Hh Hf Ho].
  split; [done|]. split; [done|]. split; [done|]. by intros [c Hc%Hf].
Qed.

Lemma spinlock_mutual_exclusion_witness :
  run [0; 1; 0; 1; 1; 0; 1; 1]%nat (spin_init 2) = Some (Locks 1 [Out; Inside]) /\
  (forall c d, pcs (Locks 1 [Out; Inside]) !! c = Some Inside ->
     pcs (Locks 1 [Out; Inside]) !! d = Some Inside -> c = d)
  /\ (lock (Locks 1 [Out; Inside]) = 0 \/ lock (Locks 1 [Out; Inside]) = 1)
  /\ (lock (Locks 1 [Out; Inside]) = 1
      <-> exists c, pcs (Locks 1 [Out; Inside]) !! c = Some Inside).
Proof.
  split; [reflexivity|].
  apply (spinlock_mutual_exclusion 2 [0; 1; 0; 1; 1; 0; 1; 1]%nat (Locks 1 [Out; Inside])).
  reflexivity.
Defined.

(** * One CPU alone *)

Lemma step_spins c s w :
  pcs s !! c = Some w -> (w = Testing \/ w = Waiting) -> lock s = 1 ->
  exists s', cpu_step c s = Some s' /\ lock s' = 1 /\ pcs s' = <[c := Waiting]> (pcs s).
Proof. intros Hc Hw Hl. unfold cpu_step. rewrite Hc. simpl. destruct Hw as [-> | ->]; rewrite ?Hl; eauto. Qed.

Lemma acquire_free c s :
  lock s = 0 ->
  (pcs s !! c = Some Testing -> run [c] s = Some (Locks 1 (<[c := Inside]> (pcs s))))
  /\ (pcs s !! c = Some Waiting -> run [c; c] s = Some (Locks 1 (<[c := Inside]> (pcs s)))).
Proof.
  intros Hl. split; intros Hc; pose proof (lookup_lt_Some _ _ _ Hc); simpl; unfold cpu_step;
    rewrite Hc; simpl; rewrite Hl; simpl; [done|].
  rewrite list_lookup_insert_eq by done. simpl. by rewrite list_insert_insert_eq.
Qed.

(** spin_lock as one CPU sees it while no other CPU steps: on a free lock it
    is past the call after one step, and on a held one it never is, however long
    it runs: the call spins for ever.  A CPU that waits for a lock that has
    become free needs two steps. *)
Theorem spin_lock_alone (c : nat) (s : lock_state) :
  (pcs s !! c = Some Testing -> lock s = 0 ->
     run [c] s = Some (Locks 1 (<[c := Inside]> (pcs s))))
  /\ (pcs s !! c = Some Waiting -> lock s = 0 ->
     run [c; c] s = Some (Locks 1 (<[c := Inside]> (pcs s))))
  /\ (pcs s !! c = Some Testing -> lock s = 1 ->
     forall n, exists s', run (replicate (S n) c) s = Some s'
       /\ lock s' = 1 /\ pcs s' = <[c := Waiting]> (pcs s)).
Proof.
  split; [|split].
  - intros Hc Hl. by apply (acquire_free c s Hl).
  - intros Hc Hl. by apply (acquire_free c s Hl).
  - intros Hc Hl n. pose proof (lookup_lt_Some _ _ _ Hc) as Hlt.
    destruct (step_spins c s Testing Hc (or_introl eq_refl) Hl) as (s1 & E & Hl1 & Hp1).
    cbn [replicate run]. rewrite E. simpl. clear E Hl. revert s1 Hl1 Hp1.
    induction n as [|n IH]; intros s1 Hl1 Hp1; [by exists s1|].
    destruct (step_spins c s1 Waiting) as (s2 & E & Hl2 & Hp2); [|by right|done|].
    { rewrite Hp1. by apply list_lookup_insert_eq. }
    cbn [replicate run]. rewrite E. simpl. apply IH; [done|].
    by rewrite Hp2, Hp1, list_insert_insert_eq.
Qed.

Lemma spin_lock_alone_witness :
  (pcs (Locks 1 [Testing; Inside]) !! 0%nat = Some Testing -> lock (Locks 1 [Testing; Inside]) = 0 ->
     run [0%nat] (Locks 1 [Testing; Inside]) = Some (Locks 1 [Inside; Inside]))
  /\ (pcs (Locks 1 [Testing; Inside]) !! 0%nat = Some Waiting -> lock (Locks 1 [Testing; Inside]) = 0 ->
     run [0; 0]%nat (Locks 1 [Testing; Inside]) = Some (Locks 1 [Inside; Inside]))
  /\ (pcs (Locks 1 [Testing; Inside]) !! 0%nat = Some Testing -> lock (Locks 1 [Testing; Inside]) = 1 ->
     forall n, exists s', run (replicate (S n) 0%nat) (Locks 1 [Testing; Inside]) = Some s'
       /\ lock s' = 1 /\ pcs s' = [Waiting; Inside]).
Proof. exact (spin_lock_alone 0 (Locks 1 [Testing; Inside])). Defined.

(** No deadlock: in every reachable state in which some CPU is in spin_lock, a
    CPU can be inside after at most three steps of one or two CPUs: those of the
    holder, if there is one, and then the waiting CPU's own. *)
Theorem spinlock_progress (n : nat) (cs : list nat) (s : lock_state) (c : nat) :
  run cs (spin_init n) = Some s ->
  (pcs s !! c = Some Testing \/ pcs s !! c = Some Waiting) ->
  exists cs' s', run cs' s = Some s' /\ pcs s' !! c = Some Inside /\ (length cs' <= 3)%nat
    /\ forall d, d ∈ cs' -> d = c \/ pcs s !! d = Some Inside.
Proof.
  intros Hrun Hc. destruct (run_inv _ _ _ (spin_init_inv n) Hrun) as [Hw Hh _ _].
  assert (Hfree : forall s, lock s = 0 -> (pcs s !! c = Some Testing \/ pcs s !! c = Some Waiting) ->
            exists k s', run (replicate k c) s = Some s' /\ pcs s' !! c = Some Inside /\ (k <= 2)%nat).
  { intros s1 Hl [Hc1|Hc1]; pose proof (lookup_lt_Some _ _ _ Hc1); destruct (acquire_free c s1 Hl) as [H1 H2].
    - exists 1%nat. eexists. split; [by apply H1|]. split; [by apply list_lookup_insert_eq|lia].
    - exists 2%nat. eexists. split; [by apply H2|]. split; [by apply list_lookup_insert_eq|lia]. }
  destruct Hw as [Hw|Hw].
  - destruct (Hfree s Hw Hc) as (k & s' & Hr & Hi & Hk). exists (replicate k c), s'.
    split; [done|]. split; [done|]. rewrite length_replicate. split; [lia|].
    intros d [-> _]%elem_of_replicate. by left.
  - destruct (Hh Hw) as [h Hin].
    assert (Hne : c <> h) by (intros ->; destruct Hc; congruence).
    destruct (Hfree (Locks 0 (<[h := Out]> (pcs s)))) as (k & s' & Hr & Hi & Hk); [done|..].
    { simpl. by rewrite list_lookup_insert_ne. }
    exists (h :: replicate k c), s'. split; [|split; [done|split]].
    + cbn [run]. unfold cpu_step at 1. rewrite Hin. simpl. exact Hr.
    + simpl. rewrite length_replicate. lia.
    + intros d [->|[-> _]%elem_of_replicate]%elem_of_cons; [by right|by left].
Qed.

Lemma spinlock_progress_witness :
  exists cs' s', run cs' (Locks 1 [Inside; Waiting]) = Some s' /\ pcs s' !! 1%nat = Some Inside
    /\ (length cs' <= 3)%nat
    /\ forall d, d ∈ cs' -> d = 1%nat \/ pcs (Locks 1 [Inside; Waiting]) !! d = Some Inside.
Proof.
  apply (spinlock_progress 2 [0; 1; 0; 1]%nat (Locks 1 [Inside; Waiting]) 1); [reflexivity|by right].
Defined.
