(* ===== verification/Strings.v ===== *)
(** string.c: the memory and string routines, on RAM.

    A pointer is a RAM address and a routine that returns its destination is
    modelled by the RAM it leaves (the value it returns is its first argument);
    a routine that returns a pointer into its argument or NULL returns that
    address or 0.  Loops bounded by a size are structural on it; loops that run
    to a terminating NUL take fuel, and the theorems give the fuel that is
    enough for a string of a given length. *)
From S2P Require Import Prelude Machine.

(** * memset, memcpy, memmove, memcmp, memchr *)
Fixpoint memset_loop (n : nat) (m : gmap Z Z) (p c : Z) : gmap Z Z :=
  match n with
  | O => m
  | S n' => memset_loop n' (store8 m p (u8 c)) (p + 1) c
  end.
Definition memset (m : gmap Z Z) (s c n : Z) : gmap Z Z :=
  memset_loop (Z.to_nat n) m s c.

(** [while (n--) *dst++ = *src++;] *)
Fixpoint copy_up (n : nat) (m : gmap Z Z) (dst src : Z) : gmap Z Z :=
  match n with
  | O => m
  | S n' => copy_up n' (store8 m dst (load8 m src)) (dst + 1) (src + 1)
  end.
(** [while (n--) *--dst = *--src;] *)
Fixpoint copy_down (n : nat) (m : gmap Z Z) (dst src : Z) : gmap Z Z :=
  match n with
  | O => m
  | S n' => copy_down n' (store8 m (dst - 1) (load8 m (src - 1))) (dst - 1) (src - 1)
  end.

Definition memcpy (m : gmap Z Z) (d s n : Z) : gmap Z Z := copy_up (Z.to_nat n) m d s.

(** On linear addresses, as all memory functions here.  The source compares the
    pointers, which order differently only for two names of one area, one in each
    half of the address space. *)
Definition memmove (m : gmap Z Z) (d s n : Z) : gmap Z Z :=
  if d <? s then copy_up (Z.to_nat n) m d s
  else copy_down (Z.to_nat n) m (d + n) (s + n).

Fixpoint memcmp_loop (n : nat) (m : gmap Z Z) (p1 p2 : Z) : Z :=
  match n with
  | O => 0
  | S n' =>
      if negb (load8 m p1 =? load8 m p2) then load8 m p1 - load8 m p2
      else memcmp_loop n' m (p1 + 1) (p2 + 1)
  end.
Definition memcmp (m : gmap Z Z) (s1 s2 n : Z) : Z := memcmp_loop (Z.to_nat n) m s1 s2.

Fixpoint memchr_loop (n : nat) (m : gmap Z Z) (p c : Z) : Z :=
  match n with
  | O => 0
  | S n' => if load8 m p =? u8 c then p else memchr_loop n' m (p + 1) c
  end.
Definition memchr (m : gmap Z Z) (s c n : Z) : Z := memchr_loop (Z.to_nat n) m s c.

(** * NUL-terminated strings *)
Fixpoint strlen_loop (fuel : nat) (m : gmap Z Z) (s len : Z) : option Z :=
  match fuel with
  | O => None
  | S f => if truthy (load8 m (s + len)) then strlen_loop f m s (len + 1) else Some len
  end.
Definition strlen (fuel : nat) (m : gmap Z Z) (s : Z) : option Z := strlen_loop fuel m s 0.

Fixpoint strcmp (fuel : nat) (m : gmap Z Z) (s1 s2 : Z) : option Z :=
  match fuel with
  | O => None
  | S f =>
      if truthy (load8 m s1) && (load8 m s1 =? load8 m s2)
      then strcmp f m (s1 + 1) (s2 + 1)
      else Some (load8 m s1 - load8 m s2)
  end.

Fixpoint strncmp_loop (n : nat) (m : gmap Z Z) (s1 s2 : Z) : Z :=
  match n with
  | O => 0
  | S n' =>
      if truthy (load8 m s1) && (load8 m s1 =? load8 m s2)
      then strncmp_loop n' m (s1 + 1) (s2 + 1)
      else load8 m s1 - load8 m s2
  end.
Definition strncmp (m : gmap Z Z) (s1 s2 n : Z) : Z := strncmp_loop (Z.to_nat n) m s1 s2.

Fixpoint strcpy (fuel : nat) (m : gmap Z Z) (d s : Z) : option (gmap Z Z) :=
  match fuel with
  | O => None
  | S f =>
      let c := load8 m s in
      let m := store8 m d c in
      if truthy c then strcpy f m (d + 1) (s + 1) else Some m
  end.

(** The two loops of strncpy: [while (n && ( *d++ = *s++)) n--;] stops with
    [n] not decremented when it has copied the NUL. *)
Fixpoint strncpy_copy (n : nat) (m : gmap Z Z) (d s : Z) : nat * gmap Z Z * Z :=
  match n with
  | O => (O, m, d)
  | S n' =>
      let c := load8 m s in
      let m := store8 m d c in
      if truthy c then strncpy_copy n' m (d + 1) (s + 1) else (S n', m, d + 1)
  end.
Definition strncpy (m : gmap Z Z) (d s n : Z) : gmap Z Z :=
  let '(n, m, d) := strncpy_copy (Z.to_nat n) m d s in
  memset_loop n m d 0.

(** [while ( *d) d++;] *)
Fixpoint str_end (fuel : nat) (m : gmap Z Z) (d : Z) : option Z :=
  match fuel with
  | O => None
  | S f => if truthy (load8 m d) then str_end f m (d + 1) else Some d
  end.

Definition strcat (fuel : nat) (m : gmap Z Z) (d s : Z) : option (gmap Z Z) :=
  d ← str_end fuel m d; strcpy fuel m d s.

(** [while (n-- && *s) *d++ = *s++; *d = 0;] *)
Fixpoint strncat_loop (n : nat) (m : gmap Z Z) (d s : Z) : gmap Z Z :=
  match n with
  | O => store8 m d 0
  | S n' =>
      if truthy (load8 m s)
      then strncat_loop n' (store8 m d (load8 m s)) (d + 1) (s + 1)
      else store8 m d 0
  end.
Definition strncat (fuel : nat) (m : gmap Z Z) (d s n : Z) : option (gmap Z Z) :=
  d ← str_end fuel m d; Some (strncat_loop (Z.to_nat n) m d s).

Fixpoint strchr (fuel : nat) (m : gmap Z Z) (s c : Z) : option Z :=
  match fuel with
  | O => None
  | S f =>
      if truthy (load8 m s)
      then if load8 m s =? u8 c then Some s else strchr f m (s + 1) c
      else Some 0
  end.

Fixpoint strspn_loop (fuel : nat) (m : gmap Z Z) (s accept n : Z) : option Z :=
  match fuel with
  | O => None
  | S f =>
      if truthy (load8 m s) then
        p ← strchr fuel m accept (load8 m s);
        if truthy p then strspn_loop f m (s + 1) accept (n + 1) else Some n
      else Some n
  end.
Definition strspn (fuel : nat) (m : gmap Z Z) (s accept : Z) : option Z :=
  strspn_loop fuel m s accept 0.

Fixpoint strcspn_loop (fuel : nat) (m : gmap Z Z) (s reject n : Z) : option Z :=
  match fuel with
  | O => None
  | S f =>
      if truthy (load8 m s) then
        p ← strchr fuel m reject (load8 m s);
        if truthy p then Some n else strcspn_loop f m (s + 1) reject (n + 1)
      else Some n
  end.
Definition strcspn (fuel : nat) (m : gmap Z Z) (s reject : Z) : option Z :=
  strcspn_loop fuel m s reject 0.

(** [for (i = 0; i <= hlen - nlen; i++)]: [count] iterations left from [i]. *)
Fixpoint strstr_loop (count : nat) (m : gmap Z Z) (haystack needle nlen i : Z) : Z :=
  match count with
  | O => 0
  | S c =>
      if memcmp m (haystack + i) needle nlen =? 0 then haystack + i
      else strstr_loop c m haystack needle nlen (i + 1)
  end.
Definition strstr (fuel : nat) (m : gmap Z Z) (haystack needle : Z) : option Z :=
  hlen ← strlen fuel m haystack;
  nlen ← strlen fuel m needle;
  if nlen <=? hlen
  then Some (strstr_loop (Z.to_nat (hlen - nlen + 1)) m haystack needle nlen 0)
  else Some 0.

(** * What the routines are proved against *)

(** The NUL-terminated string at [s] is [l]. *)
Definition cstr (m : gmap Z Z) (s : Z) (l : list Z) : Prop :=
  load_bytes (length l) m s = l /\ Forall (fun b => b <> 0) l
  /\ load8 m (s + Z.of_nat (length l)) = 0.

(** The difference strcmp reports: of the first bytes that differ, the end of
    a string counting as 0. *)
Fixpoint str_diff (l1 l2 : list Z) : Z :=
  match l1, l2 with
  | [], [] => 0
  | [], b :: _ => 0 - b
  | a :: _, [] => a
  | a :: l1', b :: l2' => if a =? b then str_diff l1' l2' else a - b
  end.

(** [needle] occurs in [hay] at offset [i]. *)
Definition occurs_at (needle hay : list Z) (i : nat) : Prop :=
  take (length needle) (drop i hay) = needle /\ (i + length needle <= length hay)%nat.

(** * Lemmas on the memory routines *)
Lemma memset_loop_load n m p c a :
  load8 (memset_loop n m p c) a =
  if (p <=? a) && (a <? p + Z.of_nat n) then u8 c else load8 m a.
Proof.
  revert m p. induction n as [|n IH]; intros m p; cbn [memset_loop].
  - destruct (Z.leb_spec p a); simpl; [|done]. by tests.
  - rewrite IH, load8_store8, u8_idem. case_tests; simpl; try done; lia.
Qed.

Lemma memset_load m s c n a :
  load8 (memset m s c n) a =
  if (s <=? a) && (a <? s + Z.of_nat (Z.to_nat n)) then u8 c else load8 m a.
Proof. apply memset_loop_load. Qed.

Lemma memset_frame m s c n :
  only_changes s (s + Z.of_nat (Z.to_nat n)) m (memset m s c n).
Proof.
  intros a Ha. rewrite memset_load.
  destruct (Z.leb_spec s a); simpl; [|done]. by tests.
Qed.

Lemma memset_zero_load_le k m s n a :
  s <= a -> a + Z.of_nat k <= s + n -> load_le k (memset m s 0 n) a = 0.
Proof.
  revert a. induction k as [|k IH]; intros a ??; simpl; [done|].
  rewrite IH by lia. rewrite memset_load. tests. done.
Qed.

(** Copying upwards is right unless the destination starts inside the source. *)
Lemma copy_up_frame n m d s : only_changes d (d + Z.of_nat n) m (copy_up n m d s).
Proof.
  revert m d s. induction n as [|n IH]; intros m d s a Ha; simpl; [done|].
  rewrite IH by lia. rewrite load8_store8. by tests.
Qed.

Lemma copy_up_load n m d s :
  d <= s \/ s + Z.of_nat n <= d ->
  load_bytes n (copy_up n m d s) d = load_bytes n m s.
Proof.
  revert m d s. induction n as [|n IH]; intros m d s H; simpl; [done|].
  rewrite copy_up_frame by lia. rewrite load8_store8, Z.eqb_refl.
  rewrite IH by lia. f_equal; [apply u8_small, load8_range|].
  apply load_bytes_ext. intros a Ha. rewrite load8_store8. by tests.
Qed.

(** A copy is a store of the bytes of the source, a fill one of equal bytes. *)
Lemma memcpy_store_bytes m d s n :
  0 <= n -> d + n <= s \/ s + n <= d -> memcpy m d s n = store_bytes m d (load_bytes (Z.to_nat n) m s).
Proof.
  unfold memcpy. intros Hn. rewrite <- (Z2Nat.id n Hn) at 1 2. generalize (Z.to_nat n) as k. intros k.
  revert m d s. induction k as [|k IH]; intros m d s H; simpl; [done|].
  rewrite IH by lia. f_equal. apply load_bytes_ext. intros a Ha. rewrite load8_store8. by tests.
Qed.

Lemma memset_store_bytes m d c n :
  memset m d c n = store_bytes m d (replicate (Z.to_nat n) (u8 c)).
Proof.
  unfold memset. generalize (Z.to_nat n) as k. intros k. revert m d.
  induction k as [|k IH]; intros m d; simpl; [done|]. by rewrite IH.
Qed.

Lemma copy_down_frame n m d s :
  only_changes (d - Z.of_nat n) d m (copy_down n m d s).
Proof.
  revert m d s. induction n as [|n IH]; intros m d s a Ha; simpl; [done|].
  rewrite IH by lia. rewrite load8_store8. by tests.
Qed.

Lemma copy_down_load n m d s :
  s <= d ->
  load_bytes n (copy_down n m d s) (d - Z.of_nat n) = load_bytes n m (s - Z.of_nat n).
Proof.
  revert m d s. induction n as [|n IH]; intros m d s H; [done|].
  replace (S n) with (n + 1)%nat by lia. rewrite !load_bytes_app. simpl load_bytes.
  replace (n + 1)%nat with (S n) by lia. simpl copy_down. f_equal.
  - replace (d - Z.of_nat (S n)) with (d - 1 - Z.of_nat n) by lia.
    rewrite IH by lia.
    replace (s - Z.of_nat (S n)) with (s - 1 - Z.of_nat n) by lia.
    apply load_bytes_ext. intros a Ha. rewrite load8_store8. by tests.
  - f_equal. rewrite copy_down_frame by lia. rewrite load8_store8. tests.
    rewrite u8_small by apply load8_range. f_equal. lia.
Qed.

Lemma memcmp_loop_diff n m p1 p2 :
  memcmp_loop n m p1 p2 = str_diff (load_bytes n m p1) (load_bytes n m p2).
Proof.
  revert p1 p2. induction n as [|n IH]; intros p1 p2; simpl; [done|].
  rewrite IH. by destruct (load8 m p1 =? load8 m p2).
Qed.

Lemma str_diff_zero_same_length l1 l2 :
  length l1 = length l2 -> str_diff l1 l2 = 0 <-> l1 = l2.
Proof.
  revert l2. induction l1 as [|a l1 IH]; intros [|b l2] H; simpl in *; try done.
  destruct (Z.eqb_spec a b) as [->|].
  - rewrite IH by lia. naive_solver.
  - split; [lia|naive_solver].
Qed.

Lemma memcmp_zero m p1 p2 n :
  memcmp m p1 p2 n = 0 <->
  load_bytes (Z.to_nat n) m p1 = load_bytes (Z.to_nat n) m p2.
Proof.
  unfold memcmp. rewrite memcmp_loop_diff, str_diff_zero_same_length; [done|].
  by rewrite !load_bytes_length.
Qed.

Lemma str_diff_zero l1 l2 :
  Forall (fun b => b <> 0) l1 -> Forall (fun b => b <> 0) l2 ->
  str_diff l1 l2 = 0 <-> l1 = l2.
Proof.
  intros H1. revert l2. induction H1 as [|a l1 Ha H1 IH]; intros l2 H2;
    destruct H2 as [|b l2 Hb H2]; simpl; try done.
  - split; [lia|done].
  - destruct (Z.eqb_spec a b) as [->|].
    + rewrite IH by done. naive_solver.
    + split; [lia|naive_solver].
Qed.

(** * Lemmas on strings *)
Lemma cstr_nil m s : cstr m s [] <-> load8 m s = 0.
Proof.
  unfold cstr. simpl. rewrite Z.add_0_r. split; [naive_solver|].
  intros. split; [done|]. split; [constructor|done].
Qed.

Lemma cstr_cons m s b l :
  cstr m s (b :: l) <-> load8 m s = b /\ b <> 0 /\ cstr m (s + 1) l.
Proof.
  unfold cstr. cbn [length load_bytes].
  replace (s + Z.of_nat (S (length l))) with (s + 1 + Z.of_nat (length l)) by lia.
  rewrite Forall_cons. split.
  - intros ([= <- ?] & [??] & ?). done.
  - intros (-> & ? & H & ? & ?). rewrite H. done.
Qed.

Lemma cstr_ext m m' s l :
  agree_on s (s + Z.of_nat (length l) + 1) m m' -> cstr m s l -> cstr m' s l.
Proof.
  intros H (H1 & H2 & H3). split; [|split; [done|]].
  - rewrite <- H1 at 2. symmetry. apply load_bytes_ext. intros a Ha. apply H. lia.
  - rewrite <- H3. symmetry. apply H. lia.
Qed.

Lemma truthy_nz b : b <> 0 -> truthy b = true.
Proof. by rewrite truthy_true. Qed.

(** Case analysis of a string under a scanning loop. *)
Ltac cstr_cases H :=
  match type of H with
  | cstr _ _ [] => apply cstr_nil in H; rewrite ?H
  | cstr _ _ (_ :: _) =>
      let Hb := fresh "Hb" in
      apply cstr_cons in H as (Hb & ? & H); rewrite ?Hb; rewrite ?truthy_nz by done
  end.

Lemma strlen_loop_cstr fuel m s l k :
  cstr m (s + k) l -> (length l < fuel)%nat ->
  strlen_loop fuel m s k = Some (k + Z.of_nat (length l)).
Proof.
  revert fuel k. induction l as [|b l IH]; intros [|fuel] k H Hf; simpl in *; try lia.
  - cstr_cases H. simpl. f_equal. lia.
  - cstr_cases H. rewrite IH; [f_equal; lia| |lia]. by rewrite Z.add_assoc.
Qed.

Lemma strlen_cstr fuel m s l :
  cstr m s l -> (length l < fuel)%nat -> strlen fuel m s = Some (Z.of_nat (length l)).
Proof. intros. unfold strlen. rewrite (strlen_loop_cstr _ _ _ l); [done| |done]. by rewrite Z.add_0_r. Qed.

Lemma strcmp_cstr fuel m s1 s2 l1 l2 :
  cstr m s1 l1 -> cstr m s2 l2 -> (length l1 < fuel)%nat ->
  strcmp fuel m s1 s2 = Some (str_diff l1 l2).
Proof.
  revert fuel s1 s2 l2. induction l1 as [|a l1 IH];
    intros [|fuel] s1 s2 l2 H1 H2 Hf; simpl in *; try lia.
  - cstr_cases H1. simpl. destruct l2; cstr_cases H2; done.
  - cstr_cases H1. destruct l2 as [|b l2]; cstr_cases H2; simpl.
    + destruct (Z.eqb_spec a 0); [done|]. f_equal. lia.
    + destruct (a =? b); [|done]. apply IH; [done..|lia].
Qed.

Lemma strncmp_cstr m s1 s2 l1 l2 n :
  cstr m s1 l1 -> cstr m s2 l2 ->
  strncmp_loop n m s1 s2 = str_diff (take n l1) (take n l2).
Proof.
  revert n s1 s2 l2. induction l1 as [|a l1 IH];
    intros [|n] s1 s2 l2 H1 H2; simpl in *; try done.
  - cstr_cases H1. simpl. destruct l2; cstr_cases H2; done.
  - cstr_cases H1. destruct l2 as [|b l2]; cstr_cases H2; simpl.
    + destruct (Z.eqb_spec a 0); [done|]. lia.
    + destruct (a =? b); [|done]. by apply IH.
Qed.

(** [d] does not start inside the string at [s] (its NUL included). *)
Definition copy_ok (d s : Z) (l : list Z) : Prop :=
  d <= s \/ s + Z.of_nat (length l) + 1 <= d.

Lemma strcpy_copy fuel m d s l :
  cstr m s l -> copy_ok d s l -> (length l < fuel)%nat ->
  strcpy fuel m d s = Some (copy_up (S (length l)) m d s).
Proof.
  revert fuel m d s. induction l as [|b l IH]; intros [|fuel] m d s H Hd Hf; [lia| |lia|].
  - simpl in *. cstr_cases H. done.
  - unfold copy_ok in *. simpl in Hd, Hf. cbn [strcpy]. cstr_cases H.
    rewrite IH; [|eapply cstr_ext; [|done]| |lia].
    + cbn [length]. change (copy_up (S (S (length l))) m d s)
        with (copy_up (S (length l)) (store8 m d (load8 m s)) (d + 1) (s + 1)).
      by rewrite Hb.
    + intros a Ha. rewrite load8_store8. by tests.
    + lia.
Qed.

Lemma copy_up_cstr m d s l :
  cstr m s l -> copy_ok d s l -> cstr (copy_up (S (length l)) m d s) d l.
Proof.
  intros (H1 & H2 & H3) Hd. unfold copy_ok in Hd.
  pose proof (copy_up_load (S (length l)) m d s ltac:(lia)) as H.
  replace (S (length l)) with (length l + 1)%nat in * by lia.
  rewrite !load_bytes_app in H. apply app_inj_1 in H as [Ha Hb];
    [|by rewrite !load_bytes_length].
  split; [congruence|]. split; [done|]. injection Hb as Hb. congruence.
Qed.

Lemma str_end_cstr fuel m d l :
  cstr m d l -> (length l < fuel)%nat ->
  str_end fuel m d = Some (d + Z.of_nat (length l)).
Proof.
  revert fuel d. induction l as [|b l IH]; intros [|fuel] d H Hf; simpl in *; try lia.
  - cstr_cases H. simpl. f_equal. lia.
  - cstr_cases H. rewrite IH by (done || lia). f_equal. lia.
Qed.

Lemma cstr_app m s l1 l2 :
  load_bytes (length l1) m s = l1 -> Forall (fun b => b <> 0) l1 ->
  cstr m (s + Z.of_nat (length l1)) l2 -> cstr m s (l1 ++ l2).
Proof.
  intros H1 H2 (H3 & H4 & H5). split; [|split].
  - by rewrite length_app, load_bytes_app, H1, H3.
  - by apply Forall_app.
  - rewrite length_app. by rewrite Nat2Z.inj_add, Z.add_assoc.
Qed.

(** The first loop of strncpy, when the NUL is reached within [n] bytes. *)
Lemma strncpy_copy_short n m d s l :
  cstr m s l -> copy_ok d s l -> (length l < n)%nat ->
  strncpy_copy n m d s =
  ((n - length l)%nat, copy_up (S (length l)) m d s, d + Z.of_nat (length l) + 1).
Proof.
  revert n m d s. induction l as [|b l IH]; intros [|n] m d s H Hd Hn; [lia| |lia|].
  - simpl in *. cstr_cases H. simpl. do 2 f_equal. lia.
  - unfold copy_ok in *. simpl in Hd, Hn. cbn [strncpy_copy]. cstr_cases H.
    rewrite IH; [|eapply cstr_ext; [|done]| |lia].
    + cbn [length]. change (copy_up (S (S (length l))) m d s)
        with (copy_up (S (length l)) (store8 m d (load8 m s)) (d + 1) (s + 1)).
      rewrite Hb. do 2 f_equal. lia.
    + intros a Ha. rewrite load8_store8. by tests.
    + lia.
Qed.

Lemma strncpy_copy_long n m d s l :
  cstr m s l -> copy_ok d s l -> (n <= length l)%nat ->
  strncpy_copy n m d s = (O, copy_up n m d s, d + Z.of_nat n).
Proof.
  revert n m d s. induction l as [|b l IH]; intros [|n] m d s H Hd Hn; simpl in Hn; try lia.
  - simpl. f_equal. lia.
  - simpl. f_equal. lia.
  - unfold copy_ok in *. simpl in Hd. cbn [strncpy_copy]. cstr_cases H.
    rewrite IH; [|eapply cstr_ext; [|done]| |lia].
    + cbn [copy_up]. rewrite Hb. f_equal. lia.
    + intros a Ha. rewrite load8_store8. by tests.
    + lia.
Qed.

Lemma strchr_cstr fuel m s l c :
  cstr m s l -> (length l < fuel)%nat ->
  match list_find (fun b => b = u8 c) l with
  | Some (i, _) => strchr fuel m s c = Some (s + Z.of_nat i)
  | None => strchr fuel m s c = Some 0
  end.
Proof.
  revert fuel s. induction l as [|b l IH]; intros [|fuel] s H Hf; simpl in *; try lia.
  - by cstr_cases H.
  - cstr_cases H. destruct (Z.eqb_spec b (u8 c)) as [->|].
    + rewrite decide_True by done. f_equal. lia.
    + rewrite decide_False by done. specialize (IH fuel (s + 1) H ltac:(lia)).
      destruct (list_find _ l) as [[i x]|]; simpl; rewrite IH; [f_equal; lia|done].
Qed.

Lemma load_bytes_sub m s l i k :
  load_bytes (length l) m s = l -> (i + k <= length l)%nat ->
  load_bytes k m (s + Z.of_nat i) = take k (drop i l).
Proof.
  intros H Hk. rewrite <- H.
  replace (length l) with (i + (k + (length l - i - k)))%nat by lia.
  rewrite (load_bytes_app i), (load_bytes_app k).
  rewrite drop_app_length' by (by rewrite load_bytes_length).
  by rewrite take_app_length' by (by rewrite load_bytes_length).
Qed.

Lemma memcmp_occurs m hay needle h nd i :
  cstr m hay h -> cstr m needle nd -> (i + length nd <= length h)%nat ->
  memcmp m (hay + Z.of_nat i) needle (Z.of_nat (length nd)) = 0 <-> occurs_at nd h i.
Proof.
  intros (Hh & _) (Hn & _) Hi. rewrite memcmp_zero. unfold occurs_at.
  rewrite Nat2Z.id, (load_bytes_sub _ _ h), Hn by done. naive_solver.
Qed.

Lemma strstr_loop_spec count m hay needle h nd i :
  cstr m hay h -> cstr m needle nd ->
  (i + count + length nd = length h + 1)%nat ->
  let r := strstr_loop count m hay needle (Z.of_nat (length nd)) (Z.of_nat i) in
  (exists j, (i <= j)%nat /\ r = hay + Z.of_nat j /\ occurs_at nd h j
             /\ forall j', (i <= j' < j)%nat -> ~ occurs_at nd h j')
  \/ (r = 0 /\ forall j, (i <= j)%nat -> ~ occurs_at nd h j).
Proof.
  intros Hh Hn. revert i. induction count as [|count IH]; intros i Hi; simpl.
  - right. split; [done|]. intros j Hj [_ ?]. lia.
  - pose proof (memcmp_occurs m hay needle h nd i Hh Hn ltac:(lia)) as Hm.
    destruct (Z.eqb_spec (memcmp m (hay + Z.of_nat i) needle (Z.of_nat (length nd))) 0)
      as [E|E].
    + left. exists i. split; [lia|]. split; [done|]. split; [by apply Hm|lia].
    + replace (Z.of_nat i + 1) with (Z.of_nat (S i)) by lia.
      assert (Hni : ~ occurs_at nd h i) by (by rewrite <- Hm).
      destruct (IH (S i) ltac:(lia)) as [(j & ? & ? & ? & Hlt)|[? Hno]]; [left|right].
      * exists j. split; [lia|]. do 2 (split; [done|]). intros j' ?.
        destruct (decide (j' = i)) as [->|]; [done|]. apply Hlt. lia.
      * split; [done|]. intros j ?. destruct (decide (j = i)) as [->|]; [done|].
        apply Hno. lia.
Qed.
