(* ===== verification/StringsProps.v ===== *)
(** Properties of string.c, with witnesses on small concrete memories. *)
From S2P Require Import Prelude Machine Strings.

(** "abc" at 100 and "ab" at 200, both NUL-terminated. *)
Definition two_strings : gmap Z Z :=
  store_bytes (store_bytes ∅ 100 [97; 98; 99; 0]) 200 [97; 98; 0].

Lemma two_strings_abc : cstr two_strings 100 [97; 98; 99].
Proof. repeat split; repeat constructor; discriminate. Defined.
Lemma two_strings_ab : cstr two_strings 200 [97; 98].
Proof. repeat split; repeat constructor; discriminate. Defined.

(** C39 memmove copies [n] bytes as they were before the call, whatever the
    overlap of the two areas, and changes nothing outside the destination; memcpy
    does the same when the destination does not start inside the source. *)
Theorem memmove_correct (m : gmap Z Z) (d s n : Z) :
  0 <= n ->
  load_bytes (Z.to_nat n) (memmove m d s n) d = load_bytes (Z.to_nat n) m s
  /\ only_changes d (d + n) m (memmove m d s n)
  /\ (d <= s \/ s + n <= d -> mem_eq (memcpy m d s n) (memmove m d s n)).
Proof.
  intros Hn. unfold memmove.
  assert (Hdown : load_bytes (Z.to_nat n) (copy_down (Z.to_nat n) m (d + n) (s + n)) d
            = load_bytes (Z.to_nat n) m s \/ d < s).
  { destruct (Z.ltb_spec d s); [by right|left].
    pose proof (copy_down_load (Z.to_nat n) m (d + n) (s + n) ltac:(lia)) as H'.
    rewrite Z2Nat.id in H' by lia. by rewrite !Z.add_simpl_r in H'. }
  assert (Hup : only_changes d (d + n) m (copy_up (Z.to_nat n) m d s)).
  { eapply only_changes_weaken; [apply copy_up_frame|lia|lia]. }
  assert (Hdn : only_changes d (d + n) m (copy_down (Z.to_nat n) m (d + n) (s + n))).
  { eapply only_changes_weaken; [apply copy_down_frame|lia|lia]. }
  destruct (Z.ltb_spec d s) as [Hlt|Hge].
  - split; [apply copy_up_load; lia|]. split; [done|]. by intros _ a.
  - destruct Hdown as [Hdown|?]; [|lia]. split; [done|]. split; [done|].
    intros Hov a. destruct (decide (d <= a < d + n)) as [Ha|Ha].
    + pose proof (copy_up_load (Z.to_nat n) m d s ltac:(lia)) as H'. rewrite <- Hdown in H'.
      apply (f_equal (fun l => l !! Z.to_nat (a - d))) in H'.
      rewrite !load_bytes_lookup in H' by lia. injection H' as H'.
      rewrite !Z2Nat.id in H' by lia. unfold memcpy.
      by replace (d + (a - d)) with a in H' by lia.
    + unfold memcpy. rewrite Hup, Hdn by lia. done.
Qed.

Lemma memmove_correct_witness :
  load_bytes 3 (memmove two_strings 101 100 3) 101 = load_bytes 3 two_strings 100
  /\ only_changes 101 (101 + 3) two_strings (memmove two_strings 101 100 3)
  /\ (101 <= 100 \/ 100 + 3 <= 101 ->
      mem_eq (memcpy two_strings 101 100 3) (memmove two_strings 101 100 3)).
Proof. apply (memmove_correct two_strings 101 100 3). lia. Defined.

(** On two NUL-terminated strings strcmp ends and returns the difference of
    the first bytes that differ (the end counting as 0), which is 0 exactly when
    the strings are equal; strncmp is the same on the first [n] bytes. *)
Theorem strcmp_correct (m : gmap Z Z) (s1 s2 n : Z) (l1 l2 : list Z) (fuel : nat) :
  cstr m s1 l1 -> cstr m s2 l2 -> (length l1 < fuel)%nat ->
  strcmp fuel m s1 s2 = Some (str_diff l1 l2)
  /\ (strcmp fuel m s1 s2 = Some 0 <-> l1 = l2)
  /\ strncmp m s1 s2 n = str_diff (take (Z.to_nat n) l1) (take (Z.to_nat n) l2)
  /\ (strncmp m s1 s2 n = 0 <-> take (Z.to_nat n) l1 = take (Z.to_nat n) l2).
Proof.
  intros H1 H2 Hf. rewrite (strcmp_cstr fuel m s1 s2 l1 l2) by done.
  unfold strncmp. rewrite (strncmp_cstr _ _ _ l1 l2) by done.
  assert (Hz1 : Forall (fun b => b <> 0) l1) by apply H1.
  assert (Hz2 : Forall (fun b => b <> 0) l2) by apply H2.
  split; [done|]. split; [|split; [done|]].
  - rewrite <- str_diff_zero by done. split; [congruence|by intros ->].
  - apply str_diff_zero; by apply Forall_take.
Qed.

Lemma strcmp_correct_witness :
  strcmp 10 two_strings 100 200 = Some (str_diff [97; 98; 99] [97; 98])
  /\ (strcmp 10 two_strings 100 200 = Some 0 <-> [97; 98; 99] = [97; 98])
  /\ strncmp two_strings 100 200 2 = str_diff [97; 98] [97; 98]
  /\ (strncmp two_strings 100 200 2 = 0 <-> [97; 98] = [97; 98]).
Proof.
  apply (strcmp_correct two_strings 100 200 2 [97; 98; 99] [97; 98] 10);
    [apply two_strings_abc|apply two_strings_ab|simpl; lia].
Defined.

(** strncpy with [n] larger than the source's length copies the string, pads
    with zeros and writes [n + 1] bytes, one more than it was given: the NUL it
    copies is not counted.  With [n] at most the length it copies exactly [n]
    bytes and no NUL. *)
Theorem strncpy_effect (m : gmap Z Z) (d s n : Z) (l : list Z) :
  cstr m s l -> copy_ok d s l -> 0 <= n ->
  (Z.of_nat (length l) < n ->
     cstr (strncpy m d s n) d l
     /\ (forall a, d + Z.of_nat (length l) <= a < d + n + 1 ->
           load8 (strncpy m d s n) a = 0)
     /\ only_changes d (d + n + 1) m (strncpy m d s n))
  /\ (n <= Z.of_nat (length l) ->
     load_bytes (Z.to_nat n) (strncpy m d s n) d = take (Z.to_nat n) l
     /\ only_changes d (d + n) m (strncpy m d s n)).
Proof.
  intros Hs Hd Hn. unfold strncpy. split; intros Hl.
  - rewrite (strncpy_copy_short _ _ _ _ l) by (done || lia).
    pose proof (copy_up_cstr m d s l Hs Hd) as Hc.
    set (m1 := copy_up _ m d s) in *. set (m2 := memset_loop _ _ _ _).
    assert (Hpad : forall a, load8 m2 a =
      if (d + Z.of_nat (length l) + 1 <=? a) && (a <? d + n + 1) then 0 else load8 m1 a).
    { intros a. unfold m2. rewrite memset_loop_load.
      replace (d + Z.of_nat (length l) + 1 + Z.of_nat (Z.to_nat n - length l))
        with (d + n + 1) by lia. done. }
    split; [|split].
    + eapply cstr_ext; [|exact Hc]. intros a Ha. rewrite Hpad. by tests.
    + intros a Ha. rewrite Hpad. destruct (Z.leb_spec (d + Z.of_nat (length l) + 1) a); tests; [done|].
      simpl. destruct Hc as (_ & _ & H0). replace a with (d + Z.of_nat (length l)) by lia. done.
    + intros a Ha. rewrite Hpad.
      assert (H1 : load8 m1 a = load8 m a) by (apply copy_up_frame; lia).
      destruct (Z.leb_spec (d + Z.of_nat (length l) + 1) a); simpl; [test_false|]; done.
  - rewrite (strncpy_copy_long _ _ _ _ l) by (done || lia). cbn [memset_loop].
    unfold copy_ok in Hd. split.
    + rewrite copy_up_load by lia.
      pose proof (load_bytes_sub m s l 0 (Z.to_nat n) (proj1 Hs) ltac:(lia)) as H'.
      by rewrite Z.add_0_r in H'.
    + eapply only_changes_weaken; [apply copy_up_frame|lia|lia].
Qed.

Lemma strncpy_effect_witness :
  (2 < 5 ->
     cstr (strncpy two_strings 300 200 5) 300 [97; 98]
     /\ (forall a, 302 <= a < 306 -> load8 (strncpy two_strings 300 200 5) a = 0)
     /\ only_changes 300 306 two_strings (strncpy two_strings 300 200 5))
  /\ (5 <= 2 ->
     load_bytes 5 (strncpy two_strings 300 200 5) 300 = take 5 [97; 98]
     /\ only_changes 300 305 two_strings (strncpy two_strings 300 200 5)).
Proof.
  apply (strncpy_effect two_strings 300 200 5 [97; 98]);
    [apply two_strings_ab|right; simpl; lia|lia].
Defined.

(** strcat ends and leaves the concatenation of the two strings at the
    destination, touching only the bytes from the end of the first. *)
Theorem strcat_correct (m : gmap Z Z) (d s : Z) (l1 l2 : list Z) (fuel : nat) :
  cstr m d l1 -> cstr m s l2 ->
  copy_ok (d + Z.of_nat (length l1)) s l2 ->
  (length l1 < fuel)%nat -> (length l2 < fuel)%nat ->
  exists m', strcat fuel m d s = Some m' /\ cstr m' d (l1 ++ l2)
  /\ only_changes (d + Z.of_nat (length l1))
       (d + Z.of_nat (length l1) + Z.of_nat (length l2) + 1) m m'.
Proof.
  intros H1 H2 Hov Hf1 Hf2. unfold strcat.
  rewrite (str_end_cstr _ _ _ l1) by done. simpl.
  rewrite (strcpy_copy _ _ _ _ l2) by done. eexists. split; [done|].
  set (e := d + Z.of_nat (length l1)) in *.
  assert (Hfr : only_changes e (e + Z.of_nat (length l2) + 1) m
            (copy_up (S (length l2)) m e s)).
  { eapply only_changes_weaken; [apply copy_up_frame|lia|lia]. }
  split; [|done]. destruct H1 as (Hb & Hnz & _).
  apply cstr_app; [|done|by apply copy_up_cstr].
  rewrite <- Hb at 2. apply load_bytes_ext. intros a Ha. apply Hfr. lia.
Qed.

Lemma strcat_correct_witness :
  exists m', strcat 10 two_strings 100 200 = Some m' /\ cstr m' 100 [97; 98; 99; 97; 98]
  /\ only_changes 103 106 two_strings m'.
Proof.
  apply (strcat_correct two_strings 100 200 [97; 98; 99] [97; 98] 10);
    [apply two_strings_abc|apply two_strings_ab|left; simpl; lia|simpl; lia..].
Defined.

(** strstr ends and returns the address of the first occurrence of the
    needle, or NULL when there is none. *)
Theorem strstr_first (m : gmap Z Z) (hay needle : Z) (h nd : list Z) (fuel : nat) :
  cstr m hay h -> cstr m needle nd ->
  (length h < fuel)%nat -> (length nd < fuel)%nat ->
  exists r, strstr fuel m hay needle = Some r /\
  ((exists i, r = hay + Z.of_nat i /\ occurs_at nd h i
      /\ forall j, (j < i)%nat -> ~ occurs_at nd h j)
   \/ (r = 0 /\ forall i, ~ occurs_at nd h i)).
Proof.
  intros Hh Hn Hf1 Hf2. unfold strstr.
  rewrite (strlen_cstr _ _ hay h), (strlen_cstr _ _ needle nd) by done. simpl.
  destruct (Z.leb_spec (Z.of_nat (length nd)) (Z.of_nat (length h))).
  - eexists. split; [done|].
    destruct (strstr_loop_spec (Z.to_nat (Z.of_nat (length h) - Z.of_nat (length nd) + 1))
      m hay needle h nd 0 Hh Hn ltac:(lia)) as [(i & _ & ? & ? & Hlt)|[? Hno]].
    + left. exists i. split; [done|]. split; [done|]. intros j ?. apply Hlt. lia.
    + right. split; [done|]. intros i. apply Hno. lia.
  - exists 0. split; [done|]. right. split; [done|]. intros i [_ ?]. lia.
Qed.

Lemma strstr_first_witness :
  exists r, strstr 10 two_strings 100 200 = Some r /\
  ((exists i, r = 100 + Z.of_nat i /\ occurs_at [97; 98] [97; 98; 99] i
      /\ forall j, (j < i)%nat -> ~ occurs_at [97; 98] [97; 98; 99] j)
   \/ (r = 0 /\ forall i, ~ occurs_at [97; 98] [97; 98; 99] i)).
Proof.
  apply (strstr_first two_strings 100 200 [97; 98; 99] [97; 98] 10);
    [apply two_strings_abc|apply two_strings_ab|simpl; lia..].
Defined.
