(* ===== verification/Pmm.v ===== *)
(** memory.c: the physical memory manager.

    [zones] is the static array of the three zones; a zone's bitmap (one bit per
    frame, set when the frame is used) is in RAM.  A frame number is a pfn. *)
From S2P Require Import Prelude Machine Globals Strings.

(** * Access to the zones *)
Definition get_zone (i : nat) : M memory_zone := gets (fun s => zones (pmm s) !!! i).

Definition set_zones (zs : list memory_zone) (g : pmm_globals) : pmm_globals :=
  Pmm zs (total_system_pages g) (early_alloc_pages g) (early_bitmap g).
Definition upd_zone (i : nat) (f : memory_zone -> memory_zone) : M unit :=
  modify (fun s =>
    set_pmm (set_zones (<[i := f (zones (pmm s) !!! i)]> (zones (pmm s))) (pmm s)) s).

Definition set_free_pages (x : Z) (z : memory_zone) : memory_zone :=
  Zone (base_pfn z) (end_pfn z) (total_pages z) x (bitmap z) (zfree_list z) (zlock z).
Definition set_bitmap (x : Z) (z : memory_zone) : memory_zone :=
  Zone (base_pfn z) (end_pfn z) (total_pages z) (free_pages z) x (zfree_list z) (zlock z).
Definition set_zlock (x : Z) (z : memory_zone) : memory_zone :=
  Zone (base_pfn z) (end_pfn z) (total_pages z) (free_pages z) (bitmap z)
    (zfree_list z) x.
Definition set_range (b e t : Z) (z : memory_zone) : memory_zone :=
  Zone b e t (free_pages z) (bitmap z) (zfree_list z) (zlock z).

(** spin_lock(&zones[i].lock): on one CPU a lock that is held is never released. *)
Definition zone_spin_lock (i : nat) : M unit :=
  z ← get_zone i;
  if truthy (zlock z) then hang else upd_zone i (set_zlock 1).
Definition zone_spin_unlock (i : nat) : M unit := upd_zone i (set_zlock 0).

(** * pmm_early_alloc *)
Definition early_bit (k : Z) : Z := 1 .<< (k mod 8).
Definition early_test (m : gmap Z Z) (eb k : Z) : bool :=
  truthy (load8 m (lin (eb + k / 8)) .& early_bit k).

(** The inner loop: no bit among [i .. i+n-1] is set. *)
Fixpoint early_run_free (n : nat) (m : gmap Z Z) (eb i : Z) : bool :=
  match n with
  | O => true
  | S n' => if early_test m eb i then false else early_run_free n' m eb (i + 1)
  end.
Fixpoint early_mark (n : nat) (m : gmap Z Z) (eb i : Z) : gmap Z Z :=
  match n with
  | O => m
  | S n' =>
      let a := lin (eb + i / 8) in
      early_mark n' (store8 m a (load8 m a .| early_bit i)) eb (i + 1)
  end.
(** The outer loop, [fuel] iterations from [i]. *)
Fixpoint early_find (fuel : nat) (m : gmap Z Z) (eb pages i : Z) : option Z :=
  match fuel with
  | O => None
  | S f =>
      if early_run_free (Z.to_nat pages) m eb i then Some i
      else early_find f m eb pages (i + 1)
  end.

(** What else is at 1 MB is not in the model's RAM: linker.ld and grub.cfg have the
    kernel image loaded there, which the memset would overwrite. *)
Definition pmm_early_alloc (pages : Z) : M Z :=
  eb ← gets (fun s => early_bitmap (pmm s));
  whenM (eb =? 0)
    (modify (fun s => set_pmm (Pmm (zones (pmm s)) (total_system_pages (pmm s))
                                 (early_alloc_pages (pmm s)) 0x100000) s);;
     upd_ram (fun m => memset m (lin 0x100000) 0 32768));;
  eb ← gets (fun s => early_bitmap (pmm s));
  m ← gets ram;
  match early_find (N.to_nat 65536) m eb pages 0 with
  | Some i =>
      upd_ram (fun m => early_mark (Z.to_nat pages) m eb i);;
      modify (fun s => set_pmm (Pmm (zones (pmm s)) (total_system_pages (pmm s))
                                  (u64 (early_alloc_pages (pmm s) + pages))
                                  (early_bitmap (pmm s))) s);;
      mret ((i + 0x100) * PAGE_SIZE)
  | None => kernel_panic "Early allocation failed"
  end.

(** * pmm_init *)
Definition MULTIBOOT_TAG_TYPE_END : Z := 0.
Definition MULTIBOOT_TAG_TYPE_MMAP : Z := 6.
Definition MULTIBOOT_MEMORY_AVAILABLE : Z := 1.

Definition tag_type (m : gmap Z Z) (ptr : Z) : Z := load32 m (lin ptr).
Definition tag_size (m : gmap Z Z) (ptr : Z) : Z := load32 m (lin (ptr + 4)).
(** [(size + 7) & ~7] in 32 bits. *)
Definition tag_step (m : gmap Z Z) (ptr : Z) : Z :=
  u32 (tag_size m ptr + 7) .& u32 (Z.lnot 7).

(** The walk over the tags: [Some 0] at the end tag, [None] when the fuel ran
    out before an end tag or a memory-map tag was met. *)
Fixpoint find_mmap (fuel : nat) (m : gmap Z Z) (ptr : Z) : option Z :=
  match fuel with
  | O => None
  | S f =>
      if tag_type m ptr =? MULTIBOOT_TAG_TYPE_END then Some 0
      else if tag_type m ptr =? MULTIBOOT_TAG_TYPE_MMAP then Some ptr
      else find_mmap f m (ptr + tag_step m ptr)
  end.

(** struct multiboot_tag_mmap is 16 bytes before its entries of 24 bytes. *)
Definition mmap_entry_size (m : gmap Z Z) (mmap : Z) : Z := load32 m (lin (mmap + 8)).
Definition mmap_num_entries (m : gmap Z Z) (mmap : Z) : Z :=
  u64 (tag_size m mmap - 16) / mmap_entry_size m mmap.
Definition entry_base (m : gmap Z Z) (mmap i : Z) : Z := load64 m (lin (mmap + 16 + 24 * i)).
Definition entry_length (m : gmap Z Z) (mmap i : Z) : Z :=
  load64 m (lin (mmap + 16 + 24 * i + 8)).
Definition entry_type (m : gmap Z Z) (mmap i : Z) : Z :=
  load32 m (lin (mmap + 16 + 24 * i + 16)).
Definition entry_start (m : gmap Z Z) (mmap i : Z) : Z :=
  u64 (entry_base m mmap i + PAGE_SIZE - 1) .& PAGE_MASK.
Definition entry_end (m : gmap Z Z) (mmap i : Z) : Z :=
  u64 (entry_base m mmap i + entry_length m mmap i) .& PAGE_MASK.

Definition empty_zone : memory_zone :=
  Zone 0xFFFFFFFFFFFFFFFF 0 0 0 0 (replicate 13 0) 0.

(** The zone of a region that ends at [e]. *)
Definition zone_index (e : Z) : nat :=
  if e <=? 0x1000000 then ZONE_DMA
  else if e <=? 0x100000000 then ZONE_DMA32
  else ZONE_NORMAL.

(** The first pass, one entry. *)
Definition init_extend (m : gmap Z Z) (mmap i : Z) : M unit :=
  if negb (entry_type m mmap i =? MULTIBOOT_MEMORY_AVAILABLE) then mret tt else
  let start := entry_start m mmap i in
  let e := entry_end m mmap i in
  if e <=? start then mret tt else
  if e <=? 0x100000 then mret tt else
  let start := if start <? 0x100000 then 0x100000 else start in
  let zi := zone_index e in
  z ← get_zone zi;
  let b := if start <? u64 (base_pfn z * PAGE_SIZE) then start / PAGE_SIZE else base_pfn z in
  let en := if u64 (end_pfn z * PAGE_SIZE) <? e then e / PAGE_SIZE else end_pfn z in
  let pages := (e - start) / PAGE_SIZE in
  upd_zone zi (set_range b en (u64 (total_pages z + pages)));;
  modify (fun s => set_pmm (Pmm (zones (pmm s)) (u64 (total_system_pages (pmm s) + pages))
                              (early_alloc_pages (pmm s)) (early_bitmap (pmm s))) s);;
  kprintf "PMM: Zone %d: 0x%lX - 0x%lX (%lu MB)\n"
    [AInt (Z.of_nat zi); AInt start; AInt e; AInt ((e - start) / (1024 * 1024))].

(** [for (i = ...)] over entries, [n] iterations from [i]. *)
Fixpoint for_entries (n : nat) (i : Z) (body : Z -> M unit) : M unit :=
  match n with
  | O => mret tt
  | S n' => body i;; for_entries n' (i + 1) body
  end.

(** The bitmap of one zone. *)
Definition init_bitmap (zi : nat) : M unit :=
  z ← get_zone zi;
  if total_pages z =? 0 then mret tt else
  let bitmap_size := u64 (u64 (end_pfn z - base_pfn z) + 63) / 64 * 8 in
  p ← pmm_early_alloc ((bitmap_size + PAGE_SIZE - 1) / PAGE_SIZE);
  upd_zone zi (set_bitmap p);;
  upd_ram (fun m => memset m (lin p) 0xFF bitmap_size).

(** The second pass: [n] pages of an entry from [addr]. *)
Fixpoint init_free_pages (n : nat) (e addr : Z) : M unit :=
  match n with
  | O => mret tt
  | S n' =>
      let zi := zone_index e in
      z ← get_zone zi;
      let pfn := addr / PAGE_SIZE in
      whenM (negb (total_pages z =? 0)
             && negb ((pfn <? base_pfn z) || (end_pfn z <=? pfn)))
        (upd_ram (fun m => bitmap_clear m (bitmap z) (pfn - base_pfn z));;
         upd_zone zi (fun z => set_free_pages (u64 (free_pages z + 1)) z));;
      init_free_pages n' e (addr + PAGE_SIZE)
  end.

Definition init_free (m : gmap Z Z) (mmap i : Z) : M unit :=
  if negb (entry_type m mmap i =? MULTIBOOT_MEMORY_AVAILABLE) then mret tt else
  let start := entry_start m mmap i in
  let e := entry_end m mmap i in
  let start := if start <? 0x100000 then 0x100000 else start in
  init_free_pages (Z.to_nat ((e - start) / PAGE_SIZE)) e start.

(** The reservation of the first 16 MB in ZONE_NORMAL, [n] frames from [pfn].  The
    count of free pages goes down for a frame that was not free as well. *)
Fixpoint init_reserve (n : nat) (pfn : Z) : M unit :=
  match n with
  | O => mret tt
  | S n' =>
      z ← get_zone ZONE_NORMAL;
      if negb (pfn <? end_pfn z) then mret tt else
      whenM (base_pfn z <=? pfn)
        (upd_ram (fun m => bitmap_set m (bitmap z) (pfn - base_pfn z));;
         whenM (0 <? free_pages z)
           (upd_zone ZONE_NORMAL (set_free_pages (free_pages z - 1))));;
      init_reserve n' (pfn + 1)
  end.

Definition pmm_init (fuel : nat) (mb_info_phys : Z) : M unit :=
  kprintf "PMM: Initializing for 16GB system...\n" [];;
  m ← gets ram;
  match find_mmap fuel m (PHYS_TO_VIRT mb_info_phys + 8) with
  | None => hang
  | Some mmap =>
      if mmap =? 0 then kernel_panic "No memory map from bootloader" else
      (* entry_size 0: a divide error, with no IDT loaded yet *)
      if mmap_entry_size m mmap =? 0 then hang else
      let num_entries := mmap_num_entries m mmap in
      modify (fun s => set_pmm (set_zones [empty_zone; empty_zone; empty_zone] (pmm s)) s);;
      for_entries (Z.to_nat num_entries) 0 (fun i => m ← gets ram; init_extend m mmap i);;
      init_bitmap ZONE_DMA;; init_bitmap ZONE_DMA32;; init_bitmap ZONE_NORMAL;;
      for_entries (Z.to_nat num_entries) 0 (fun i => m ← gets ram; init_free m mmap i);;
      init_reserve (N.to_nat 0x1000) 0;;
      g ← gets pmm;
      kprintf "PMM: Total %lu MB, Free %lu MB\n"
        [AInt (u64 (total_system_pages g * PAGE_SIZE) / (1024 * 1024));
         AInt (u64 (u64 (total_system_pages g - early_alloc_pages g) * PAGE_SIZE)
               / (1024 * 1024))]
  end.

(** * Allocation *)

(** The frame is free: its bit is clear. *)
Definition frame_free (m : gmap Z Z) (z : memory_zone) (pfn : Z) : bool :=
  negb (bitmap_test m (bitmap z) (pfn - base_pfn z)).

(** [for (pfn = base_pfn; pfn < end_pfn; pfn++)]: the number of iterations. *)
Definition zone_frames (z : memory_zone) : nat := Z.to_nat (end_pfn z - base_pfn z).

(** First free frame among [n] frames from [pfn]. *)
Fixpoint find_free (n : nat) (m : gmap Z Z) (z : memory_zone) (pfn : Z) : option Z :=
  match n with
  | O => None
  | S n' => if frame_free m z pfn then Some pfn else find_free n' m z (pfn + 1)
  end.

(** pmm_alloc_page over the zones in [order]. *)
Fixpoint alloc_page_in (order : list nat) : M Z :=
  match order with
  | [] => mret 0
  | zi :: rest =>
      z ← get_zone zi;
      if free_pages z =? 0 then alloc_page_in rest else
      zone_spin_lock zi;;
      m ← gets ram;
      match find_free (zone_frames z) m z (base_pfn z) with
      | Some pfn =>
          upd_ram (fun m => bitmap_set m (bitmap z) (pfn - base_pfn z));;
          upd_zone zi (fun z => set_free_pages (u64 (free_pages z - 1)) z);;
          zone_spin_unlock zi;;
          let addr := u64 (pfn * PAGE_SIZE) in
          upd_ram (fun m => memset m (lin (PHYS_TO_VIRT addr)) 0 PAGE_SIZE);;
          mret (PHYS_TO_VIRT addr)
      | None => zone_spin_unlock zi;; alloc_page_in rest
      end
  end.
Definition pmm_alloc_page : M Z := alloc_page_in [ZONE_NORMAL; ZONE_DMA32; ZONE_DMA].

(** The search of pmm_alloc_pages: [consecutive] free frames seen from
    [start_pfn]. *)
Fixpoint find_run (n : nat) (m : gmap Z Z) (z : memory_zone)
    (count pfn consecutive start_pfn : Z) : option Z :=
  match n with
  | O => None
  | S n' =>
      if frame_free m z pfn then
        let start_pfn := if consecutive =? 0 then pfn else start_pfn in
        let consecutive := consecutive + 1 in
        if count <=? consecutive then Some start_pfn
        else find_run n' m z count (pfn + 1) consecutive start_pfn
      else find_run n' m z count (pfn + 1) 0 start_pfn
  end.

(** [for (j = 0; j < n; j++) bitmap_set(bitmap, idx + j)] *)
Fixpoint mark_run (n : nat) (m : gmap Z Z) (bm idx : Z) : gmap Z Z :=
  match n with
  | O => m
  | S n' => mark_run n' (bitmap_set m bm idx) bm (idx + 1)
  end.

Fixpoint alloc_pages_in (order : list nat) (count : Z) : M Z :=
  match order with
  | [] => mret 0
  | zi :: rest =>
      z ← get_zone zi;
      if free_pages z <? count then alloc_pages_in rest count else
      zone_spin_lock zi;;
      m ← gets ram;
      match find_run (zone_frames z) m z count (base_pfn z) 0 0 with
      | Some start_pfn =>
          upd_ram (fun m => mark_run (Z.to_nat count) m (bitmap z) (start_pfn - base_pfn z));;
          upd_zone zi (fun z => set_free_pages (u64 (free_pages z - count)) z);;
          zone_spin_unlock zi;;
          let addr := u64 (start_pfn * PAGE_SIZE) in
          upd_ram (fun m => memset m (lin (PHYS_TO_VIRT addr)) 0 (u64 (count * PAGE_SIZE)));;
          mret (PHYS_TO_VIRT addr)
      | None => zone_spin_unlock zi;; alloc_pages_in rest count
      end
  end.
Definition pmm_alloc_pages (count : Z) : M Z :=
  if count =? 0 then mret 0 else
  if count =? 1 then pmm_alloc_page else
  alloc_pages_in [ZONE_NORMAL; ZONE_DMA32; ZONE_DMA] count.

(** The 512 frames from [pfn]: [n] of them left to look at, from offset [i]. *)
Fixpoint huge_free (n : nat) (m : gmap Z Z) (z : memory_zone) (pfn i : Z) : bool :=
  match n with
  | O => true
  | S n' =>
      let idx := pfn + i - base_pfn z in
      if u64 (end_pfn z - base_pfn z) <=? idx then false
      else if bitmap_test m (bitmap z) idx then false
      else huge_free n' m z pfn (i + 1)
  end.
(** [for (pfn = base_pfn; pfn + 512 <= end_pfn; pfn += 512)] *)
Fixpoint find_huge (n : nat) (m : gmap Z Z) (z : memory_zone) (pfn : Z) : option Z :=
  match n with
  | O => None
  | S n' =>
      if u64 (pfn + 512) <=? end_pfn z then
        if huge_free 512 m z pfn 0 then Some pfn
        else find_huge n' m z (pfn + 512)
      else None
  end.

Fixpoint alloc_huge_in (order : list nat) : M Z :=
  match order with
  | [] => mret 0
  | zi :: rest =>
      z ← get_zone zi;
      if free_pages z <? 512 then alloc_huge_in rest else
      zone_spin_lock zi;;
      m ← gets ram;
      match find_huge (S (zone_frames z)) m z (base_pfn z) with
      | Some pfn =>
          upd_ram (fun m => mark_run 512 m (bitmap z) (pfn - base_pfn z));;
          upd_zone zi (fun z => set_free_pages (u64 (free_pages z - 512)) z);;
          zone_spin_unlock zi;;
          let addr := u64 (pfn * PAGE_SIZE) in
          upd_ram (fun m => memset m (lin (PHYS_TO_VIRT addr)) 0 HUGE_PAGE_SIZE);;
          mret (PHYS_TO_VIRT addr)
      | None => zone_spin_unlock zi;; alloc_huge_in rest
      end
  end.
Definition pmm_alloc_huge_page : M Z :=
  alloc_huge_in [ZONE_NORMAL; ZONE_DMA32; ZONE_DMA].

(** * Release *)
Fixpoint free_page_in (order : list nat) (addr : Z) : M unit :=
  match order with
  | [] => kprintf "PMM: Free of invalid address %p\n" [AInt addr]
  | zi :: rest =>
      let pfn := addr / PAGE_SIZE in
      z ← get_zone zi;
      if (base_pfn z <=? pfn) && (pfn <? end_pfn z) then
        zone_spin_lock zi;;
        let idx := pfn - base_pfn z in
        if end_pfn z - base_pfn z <=? idx then
          zone_spin_unlock zi;; free_page_in rest addr
        else
          m ← gets ram;
          if bitmap_test m (bitmap z) idx then
            zone_spin_unlock zi;;
            kprintf "PMM: Double free at %p\n" [AInt addr];;
            free_page_in rest addr
          else
            upd_ram (fun m => bitmap_clear m (bitmap z) idx);;
            upd_zone zi (fun z => set_free_pages (u64 (free_pages z + 1)) z);;
            zone_spin_unlock zi
      else free_page_in rest addr
  end.
Definition pmm_free_page (addr : Z) : M unit :=
  if addr =? 0 then mret tt else free_page_in [ZONE_DMA; ZONE_DMA32; ZONE_NORMAL] addr.

(** No range its callers pass goes up to 2^64, where [addr] would wrap. *)
Fixpoint free_pages_loop (n : nat) (addr : Z) : M unit :=
  match n with
  | O => mret tt
  | S n' => pmm_free_page addr;; free_pages_loop n' (addr + PAGE_SIZE)
  end.
Definition pmm_free_pages (addr count : Z) : M unit :=
  if (addr =? 0) || (count =? 0) then mret tt
  else free_pages_loop (Z.to_nat count) addr.

Definition pmm_get_free : M Z :=
  gets (fun s =>
    fold_left (fun free zi => u64 (free + u64 (free_pages (zones (pmm s) !!! zi) * PAGE_SIZE)))
      [ZONE_DMA; ZONE_DMA32; ZONE_NORMAL] 0).

(** The three values pmm_get_stats writes: total, used, free. *)
Definition pmm_get_stats : M (Z * Z * Z) :=
  total ← gets (fun s => u64 (total_system_pages (pmm s) * PAGE_SIZE));
  free ← pmm_get_free;
  mret (total, u64 (total - free), free).
