(* ===== verification/PmmFacts.v ===== *)
(** The invariant of the physical memory manager and what its operations do to
    the set of free frames.

    [pmm_ok] is the state memory.c means to keep: each zone counts its clear
    bits in [free_pages], its lock is free, and no bitmap lies in memory that
    some zone hands out.  Under it, the allocators refine the choice of the
    first free run of frames; the last section shows what happens without it. *)
From S2P Require Import Prelude Machine Globals Strings Pmm.

(** * The invariant *)
Definition bitmap_bytes (z : memory_zone) : Z :=
  8 * ((Z.max 0 (end_pfn z - base_pfn z) + 63) / 64).

(** Two address ranges have no byte in common. *)
Definition ranges_disjoint (lo1 hi1 lo2 hi2 : Z) : Prop :=
  hi1 <= lo1 \/ hi2 <= lo2 \/ hi1 <= lo2 \/ hi2 <= lo1.

Fixpoint count_free (n : nat) (m : gmap Z Z) (z : memory_zone) (pfn : Z) : Z :=
  match n with
  | O => 0
  | S n' => (if frame_free m z pfn then 1 else 0) + count_free n' m z (pfn + 1)
  end.

(** The frames of a zone are below 2^47 and its bitmap is in low memory. *)
Record zone_geo (z : memory_zone) : Prop := {
  zo_base : 0 <= base_pfn z;
  zo_end : 0 <= end_pfn z <= 2 ^ 35;
  zo_bitmap : 0 <= bitmap z /\ bitmap z + bitmap_bytes z <= 2 ^ 47;
}.

Record zone_ok (m : gmap Z Z) (z : memory_zone) : Prop := {
  zo_geo : zone_geo z;
  zo_free : free_pages z = count_free (zone_frames z) m z (base_pfn z);
  zo_lock : zlock z = 0;
}.

(** The bitmap of [z1] is outside the frames of [z2]. *)
Definition bitmap_off_frames (z1 z2 : memory_zone) : Prop :=
  ranges_disjoint (bitmap z1) (bitmap z1 + bitmap_bytes z1)
    (base_pfn z2 * PAGE_SIZE) (end_pfn z2 * PAGE_SIZE).
Definition bitmaps_apart (z1 z2 : memory_zone) : Prop :=
  ranges_disjoint (bitmap z1) (bitmap z1 + bitmap_bytes z1)
    (bitmap z2) (bitmap z2 + bitmap_bytes z2).

Record pmm_ok (s : kst) : Prop := {
  po_length : length (zones (pmm s)) = ZONE_COUNT;
  po_zone : forall i z, zones (pmm s) !! i = Some z -> zone_ok (ram s) z;
  po_frames : forall i j z1 z2, zones (pmm s) !! i = Some z1 ->
    zones (pmm s) !! j = Some z2 -> bitmap_off_frames z1 z2;
  po_bitmaps : forall i j z1 z2, zones (pmm s) !! i = Some z1 ->
    zones (pmm s) !! j = Some z2 -> i <> j -> bitmaps_apart z1 z2;
}.

(** The abstraction: frame [pfn] of zone [i] is free. *)
Definition in_zone (z : memory_zone) (pfn : Z) : Prop := base_pfn z <= pfn < end_pfn z.
Definition is_free (s : kst) (i : nat) (pfn : Z) : Prop :=
  exists z, zones (pmm s) !! i = Some z /\ in_zone z pfn /\ frame_free (ram s) z pfn = true.

(** [count] frames from [p] are free in zone [i]. *)
Definition free_run (s : kst) (i : nat) (p count : Z) : Prop :=
  forall q, p <= q < p + count -> is_free s i q.

(** Zones are tried from ZONE_NORMAL down: no zone above [i] has a free run,
    and in zone [i] the run at [p] is the first. *)
Definition first_run (s : kst) (i : nat) (p count : Z) : Prop :=
  free_run s i p count
  /\ (forall q, q < p -> ~ free_run s i q count)
  /\ (forall j q, (i < j)%nat -> ~ free_run s j q count).

(** Same bitmap and same frames. *)
Definition same_geo (z z' : memory_zone) : Prop :=
  bitmap z' = bitmap z /\ base_pfn z' = base_pfn z /\ end_pfn z' = end_pfn z.

(** The frames that the zones count as free. *)
Definition free_total (s : kst) : Z := foldr (fun z n => free_pages z + n) 0 (zones (pmm s)).

(** What an allocator that takes the run leaves: exactly those frames are no
    longer free (nor counted), they read as zero, no other byte of RAM changed but in the
    zone's bitmap, and only RAM and the zones changed at all. *)
Record taken (s s' : kst) (i : nat) (p count : Z) : Prop := {
  tk_free : forall j q,
    is_free s' j q <-> is_free s j q /\ ~ (j = i /\ p <= q < p + count);
  tk_zero : forall a, p * PAGE_SIZE <= a < (p + count) * PAGE_SIZE -> load8 (ram s') a = 0;
  tk_ram : forall z a, zones (pmm s) !! i = Some z ->
    ~ (p * PAGE_SIZE <= a < (p + count) * PAGE_SIZE) ->
    ~ (bitmap z <= a < bitmap z + bitmap_bytes z) ->
    load8 (ram s') a = load8 (ram s) a;
  tk_geo : forall j z', zones (pmm s') !! j = Some z' ->
    exists z, zones (pmm s) !! j = Some z /\ same_geo z z';
  tk_rest : set_ram (ram s) (set_pmm (pmm s) s') = s;
  tk_left : free_total s' = free_total s - count;
}.

Lemma free_total_insert (zs : list memory_zone) i z k :
  zs !! i = Some z ->
  foldr (fun z n => free_pages z + n) 0 (<[i := set_free_pages (free_pages z - k) z]> zs)
  = foldr (fun z n => free_pages z + n) 0 zs - k.
Proof.
  revert i. induction zs as [|z0 zs IH]; intros [|i] Hi; simplify_eq/=; [lia|]. rewrite IH by done. lia.
Qed.

(** * Frames and bitmaps *)
Lemma bitmap_bytes_word z pfn :
  in_zone z pfn -> 8 * ((pfn - base_pfn z) / 64) + 8 <= bitmap_bytes z.
Proof.
  unfold in_zone, bitmap_bytes. intros. rewrite Z.max_r by lia.
  assert ((pfn - base_pfn z) / 64 + 1 <= (end_pfn z - base_pfn z + 63) / 64); [|lia].
  Z.div_mod_to_equations. lia.
Qed.

Section zone_frames.
Context (z : memory_zone) (Hz : zone_geo z).

Lemma bitmap_one_half : one_half (bitmap z) (bitmap_bytes z).
Proof. left. destruct (zo_bitmap _ Hz). unfold KERNEL_HIGHER_HALF. lia. Qed.

Lemma bitmap_bytes_nonneg : 0 <= bitmap_bytes z.
Proof. unfold bitmap_bytes. Z.div_mod_to_equations. lia. Qed.

Lemma bitmap_lin : lin (bitmap z) = bitmap z.
Proof.
  destruct (zo_bitmap _ Hz). pose proof bitmap_bytes_nonneg.
  unfold lin, KERNEL_HIGHER_HALF. by tests.
Qed.

Lemma mark_run_frame k m' p :
  base_pfn z <= p -> p + Z.of_nat k <= end_pfn z ->
  only_changes (bitmap z) (bitmap z + bitmap_bytes z) m'
    (mark_run k m' (bitmap z) (p - base_pfn z)).
Proof.
  revert m' p. induction k as [|k IH]; intros m' p ??; simpl; [apply only_changes_refl|].
  replace (p - base_pfn z + 1) with (p + 1 - base_pfn z) by lia.
  eapply only_changes_trans; [|apply IH; lia].
  rewrite <- bitmap_lin at 1 2. apply bitmap_set_frame; [apply bitmap_one_half|lia|].
  apply bitmap_bytes_word. unfold in_zone. lia.
Qed.

Lemma mark_run_free k m' p q :
  base_pfn z <= p -> p + Z.of_nat k <= end_pfn z -> in_zone z q ->
  frame_free (mark_run k m' (bitmap z) (p - base_pfn z)) z q =
  negb ((p <=? q) && (q <? p + Z.of_nat k)) && frame_free m' z q.
Proof.
  intros ?? Hq. revert m' p H H0. induction k as [|k IH]; intros m' p ??; simpl.
  - destruct (Z.leb_spec p q); simpl; [|done]. by tests.
  - replace (p - base_pfn z + 1) with (p + 1 - base_pfn z) by lia.
    rewrite IH by lia. unfold frame_free.
    pose proof (bitmap_bytes_word z q Hq). pose proof (bitmap_bytes_word z p).
    unfold in_zone in *.
    erewrite bitmap_test_set; [|apply bitmap_one_half|lia..].
    destruct (Z.eqb_spec (p - base_pfn z) (q - base_pfn z)) as [E|E]; case_tests; simpl;
      try done; lia.
Qed.

Lemma frame_free_ext m m' lo hi q :
  only_changes lo hi m m' ->
  ranges_disjoint (bitmap z) (bitmap z + bitmap_bytes z) lo hi ->
  in_zone z q -> frame_free m' z q = frame_free m z q.
Proof.
  intros Hm Hd Hq. unfold frame_free. f_equal.
  pose proof (bitmap_bytes_word z q Hq). unfold in_zone in *.
  symmetry. eapply bitmap_test_ext; [apply bitmap_one_half|lia|done|].
  rewrite bitmap_lin. intros a Ha.
  destruct (Z.leb_spec hi lo); [symmetry; apply Hm; lia|].
  symmetry. apply Hm. unfold ranges_disjoint in Hd. lia.
Qed.
End zone_frames.

(** * Counting and searching *)
Lemma count_free_range n m z p : 0 <= count_free n m z p <= Z.of_nat n.
Proof.
  revert p. induction n as [|n IH]; intros p; simpl; [lia|].
  specialize (IH (p + 1)). destruct (frame_free m z p); lia.
Qed.

Lemma count_free_ext n m m' z z' p :
  (forall q, p <= q < p + Z.of_nat n -> frame_free m' z' q = frame_free m z q) ->
  count_free n m' z' p = count_free n m z p.
Proof.
  revert p. induction n as [|n IH]; intros p H; simpl; [done|].
  rewrite H by lia. rewrite IH; [done|]. intros q Hq. apply H. lia.
Qed.

Lemma count_free_zero n m z p :
  count_free n m z p = 0 ->
  forall q, p <= q < p + Z.of_nat n -> frame_free m z q = false.
Proof.
  revert p. induction n as [|n IH]; intros p H q Hq; simpl in *; [lia|].
  pose proof (count_free_range n m z (p + 1)).
  destruct (frame_free m z p) eqn:E; [lia|].
  destruct (Z.eq_dec p q) as [->|]; [done|]. apply (IH (p + 1)); lia.
Qed.

(** Marking a free run of [k] frames takes [k] from the count. *)
Lemma count_free_take n m m' z z' p a k :
  0 <= k -> p <= a -> a + k <= p + Z.of_nat n ->
  (forall q, a <= q < a + k -> frame_free m z q = true) ->
  (forall q, p <= q < p + Z.of_nat n ->
     frame_free m' z' q = negb ((a <=? q) && (q <? a + k)) && frame_free m z q) ->
  count_free n m' z' p = count_free n m z p - k.
Proof.
  destruct (Z.eq_dec k 0) as [->|Hk0].
  { intros _ _ _ _ Hm'. rewrite Z.sub_0_r. apply count_free_ext. intros q Hq.
    rewrite Hm' by lia. case_tests; simpl; try done; lia. }
  revert p a k Hk0. induction n as [|n IH]; intros p a k Hk0 Hk Hpa Ha Hfree Hm'; simpl in *; [lia|].
  rewrite Hm' by lia.
  destruct (Z.eq_dec a p) as [->|].
  - rewrite Hfree by lia. tests. simpl.
    assert (count_free n m' z' (p + 1) = count_free n m z (p + 1) - (k - 1)); [|lia].
    destruct (Z.eq_dec k 1) as [->|].
    + rewrite Z.sub_diag, Z.sub_0_r. apply count_free_ext. intros q ?.
      rewrite Hm' by lia. case_tests; simpl; try done; lia.
    + apply (IH (p + 1) (p + 1) (k - 1)); try lia.
      * intros q ?. apply Hfree. lia.
      * intros q ?. rewrite Hm' by lia. case_tests; simpl; try done; lia.
  - test_false. simpl. rewrite (IH (p + 1) a k); try lia; try done.
    intros q ?. apply Hm'. lia.
Qed.

Lemma count_free_run n m z p a k :
  0 <= k -> p <= a -> a + k <= p + Z.of_nat n ->
  (forall q, a <= q < a + k -> frame_free m z q = true) -> k <= count_free n m z p.
Proof.
  revert p a k. induction n as [|n IH]; intros p a k ??? Hf; simpl in *; [lia|].
  pose proof (count_free_range n m z (p + 1)).
  destruct (Z.eq_dec a p) as [->|].
  - destruct (Z.eq_dec k 0) as [->|]; [destruct (frame_free m z p); lia|].
    rewrite Hf by lia. specialize (IH (p + 1) (p + 1) (k - 1)).
    assert (k - 1 <= count_free n m z (p + 1)); [|lia].
    apply IH; try lia. intros q ?. apply Hf. lia.
  - assert (k <= count_free n m z (p + 1)) by (apply (IH (p + 1) a k); try lia; done).
    destruct (frame_free m z p); lia.
Qed.

(** find_free is find_run for one frame. *)
Lemma find_free_run n m z pfn : find_free n m z pfn = find_run n m z 1 pfn 0 0.
Proof.
  revert pfn. induction n as [|n IH]; intros; simpl; [done|].
  by destruct (frame_free m z pfn).
Qed.

(** The frames [q, q+count) are not all free. *)
Definition blocked (m : gmap Z Z) (z : memory_zone) (q count : Z) : Prop :=
  exists r, q <= r < q + count /\ frame_free m z r = false.

Lemma find_run_spec n m z count pfn c st lo :
  0 <= c < count -> lo <= pfn - c -> c = 0 \/ st = pfn - c ->
  (forall r, pfn - c <= r < pfn -> frame_free m z r = true) ->
  (forall q, lo <= q < pfn - c -> blocked m z q count) ->
  match find_run n m z count pfn c st with
  | Some p => lo <= p /\ p + count <= pfn + Z.of_nat n
              /\ (forall r, p <= r < p + count -> frame_free m z r = true)
              /\ (forall q, lo <= q < p -> blocked m z q count)
  | None => forall q, lo <= q -> q + count <= pfn + Z.of_nat n -> blocked m z q count
  end.
Proof.
  revert pfn c st. induction n as [|n IH]; intros pfn c st Hc Hlo Hst Hfree Hbl; simpl.
  { intros q ??. apply Hbl. lia. }
  destruct (frame_free m z pfn) eqn:E.
  - set (st' := if c =? 0 then pfn else st).
    assert (Hst' : st' = pfn - c) by (unfold st'; case_tests; lia).
    assert (Hfree' : forall r, pfn - c <= r < pfn + 1 -> frame_free m z r = true).
    { intros r ?. destruct (Z.eq_dec r pfn) as [->|]; [done|]. apply Hfree. lia. }
    destruct (Z.leb_spec count (c + 1)).
    + rewrite Hst'. split; [lia|]. split; [lia|]. split; [|done].
      intros r ?. apply Hfree'. lia.
    + specialize (IH (pfn + 1) (c + 1) st'). destruct (find_run n _ _ _ _ _ _).
      * destruct IH as (?&?&?&?); try lia; [intros; apply Hfree'; lia
          |intros; apply Hbl; lia|]. split; [lia|]. split; [lia|]. done.
      * intros q ??. apply IH; try lia; [intros; apply Hfree'; lia|].
        intros; apply Hbl; lia.
  - assert (Hbl' : forall q, lo <= q < pfn + 1 - 0 -> blocked m z q count).
    { intros q Hq. destruct (Z.ltb_spec q (pfn - c)); [apply Hbl; lia|].
      exists pfn. split; [lia|done]. }
    specialize (IH (pfn + 1) 0 st). destruct (find_run n _ _ _ _ _ _).
    + destruct IH as (?&?&?&?); try lia; [done|]. split; [lia|]. split; [lia|]. done.
    + intros q ??. apply IH; try lia; done.
Qed.

(** The search over a whole zone. *)
Lemma find_run_zone m z count :
  0 < count -> 0 <= base_pfn z ->
  match find_run (zone_frames z) m z count (base_pfn z) 0 0 with
  | Some p => base_pfn z <= p /\ p + count <= end_pfn z
              /\ (forall r, p <= r < p + count -> frame_free m z r = true)
              /\ (forall q, base_pfn z <= q < p -> blocked m z q count)
  | None => forall q, base_pfn z <= q -> q + count <= end_pfn z -> blocked m z q count
  end.
Proof.
  intros. pose proof (find_run_spec (zone_frames z) m z count (base_pfn z) 0 0 (base_pfn z)
    ltac:(lia) ltac:(lia) ltac:(lia) ltac:(lia) ltac:(lia)) as Hs.
  unfold zone_frames in *. destruct (find_run _ _ _ _ _ _ _).
  - destruct Hs as (?&?&?&?). split; [lia|]. split; [lia|]. done.
  - intros q ??. apply Hs; lia.
Qed.

(** * Taking a run of frames *)
Definition take_state (s : kst) (i : nat) (z : memory_zone) (p k : Z) : kst :=
  set_ram (memset (mark_run (Z.to_nat k) (ram s) (bitmap z) (p - base_pfn z))
             (p * PAGE_SIZE) 0 (k * PAGE_SIZE))
    (set_pmm (set_zones (<[i := set_free_pages (free_pages z - k) z]> (zones (pmm s)))
                (pmm s)) s).

Section take.
Context (s : kst) (i : nat) (z : memory_zone) (p k : Z).
Context (Hs : pmm_ok s) (Hi : zones (pmm s) !! i = Some z).
Context (Hk : 0 < k) (Hp : base_pfn z <= p) (Hpk : p + k <= end_pfn z).
Context (Hfree : forall q, p <= q < p + k -> frame_free (ram s) z q = true).

Let s' := take_state s i z p k.
Let z' := set_free_pages (free_pages z - k) z.

Lemma take_geo : zone_geo z.
Proof. exact (zo_geo _ _ (po_zone _ Hs _ _ Hi)). Qed.

Lemma take_lookup j zj :
  zones (pmm s') !! j = Some zj ->
  (j = i /\ zj = z') \/ (j <> i /\ zones (pmm s) !! j = Some zj).
Proof.
  simpl. intros H. destruct (decide (j = i)) as [->|].
  - rewrite list_lookup_insert_eq in H by (by eapply lookup_lt_Some). naive_solver.
  - rewrite list_lookup_insert_ne in H by done. auto.
Qed.

Lemma take_lookup_eq : zones (pmm s') !! i = Some z'.
Proof. simpl. rewrite list_lookup_insert_eq; [done|]. by eapply lookup_lt_Some. Qed.

Let m1 := mark_run (Z.to_nat k) (ram s) (bitmap z) (p - base_pfn z).

Lemma take_page_frame :
  only_changes (p * PAGE_SIZE) ((p + k) * PAGE_SIZE) m1 (ram s').
Proof.
  eapply only_changes_weaken; [apply memset_frame|lia|]. unfold PAGE_SIZE. lia.
Qed.

Lemma take_bitmap_frame :
  only_changes (bitmap z) (bitmap z + bitmap_bytes z) (ram s) m1.
Proof. apply mark_run_frame; [exact take_geo|lia..]. Qed.

(** The pages handed out are in the frames of [z], off every bitmap. *)
Lemma take_page_off j zj :
  zones (pmm s) !! j = Some zj ->
  ranges_disjoint (bitmap zj) (bitmap zj + bitmap_bytes zj)
    (p * PAGE_SIZE) ((p + k) * PAGE_SIZE).
Proof.
  intros Hj. pose proof (po_frames _ Hs _ _ _ _ Hj Hi) as H.
  unfold bitmap_off_frames, ranges_disjoint in *. unfold PAGE_SIZE in *. lia.
Qed.

Lemma take_frame_free q :
  in_zone z q ->
  frame_free (ram s') z' q =
  negb ((p <=? q) && (q <? p + k)) && frame_free (ram s) z q.
Proof.
  intros Hq. change (frame_free (ram s') z' q) with (frame_free (ram s') z q).
  rewrite (frame_free_ext z take_geo m1 (ram s') _ _ q take_page_frame) by
    (done || by eapply take_page_off).
  unfold m1. rewrite mark_run_free by (exact take_geo || done || lia). do 4 f_equal. lia.
Qed.

Lemma take_frame_free_other j zj q :
  j <> i -> zones (pmm s) !! j = Some zj -> in_zone zj q ->
  frame_free (ram s') zj q = frame_free (ram s) zj q.
Proof.
  intros Hne Hj Hq. pose proof (zo_geo _ _ (po_zone _ Hs _ _ Hj)) as Hg.
  rewrite (frame_free_ext zj Hg m1 (ram s') _ _ q take_page_frame) by
    (done || by eapply take_page_off).
  apply (frame_free_ext zj Hg _ _ _ _ q take_bitmap_frame); [|done].
  pose proof (po_bitmaps _ Hs _ _ _ _ Hj Hi Hne) as Hb.
  unfold bitmaps_apart, ranges_disjoint in *. lia.
Qed.

Lemma take_count :
  count_free (zone_frames z) (ram s') z' (base_pfn z)
  = count_free (zone_frames z) (ram s) z (base_pfn z) - k.
Proof.
  apply count_free_take with (a := p); unfold zone_frames; try lia; [done|].
  intros q Hq. apply take_frame_free. unfold in_zone. lia.
Qed.

Lemma take_zone_ok j zj : zones (pmm s') !! j = Some zj -> zone_ok (ram s') zj.
Proof.
  intros [[-> ->]|[Hne Hj]]%take_lookup.
  - destruct (po_zone _ Hs _ _ Hi) as [[] Hf ?]. split; [by split| |done].
    change (zone_frames z') with (zone_frames z).
    change (base_pfn z') with (base_pfn z). rewrite take_count, <- Hf. done.
  - destruct (po_zone _ Hs _ _ Hj) as [Hg Hf ?]. split; [done| |done].
    rewrite Hf. symmetry. apply count_free_ext. intros q Hq.
    apply (take_frame_free_other j); [done..|]. unfold in_zone, zone_frames in *. lia.
Qed.

(** [z'] has the geometry of [z], so both sides of a disjointness fact may be
    replaced. *)
Lemma take_pmm_ok : pmm_ok s'.
Proof.
  assert (Hgeo : forall j zj, zones (pmm s') !! j = Some zj -> exists zj0,
    zones (pmm s) !! j = Some zj0 /\ bitmap zj = bitmap zj0
    /\ bitmap_bytes zj = bitmap_bytes zj0 /\ base_pfn zj = base_pfn zj0
    /\ end_pfn zj = end_pfn zj0).
  { intros j zj [[-> ->]|[_ Hj]]%take_lookup; eauto 10. }
  split.
  - simpl. rewrite length_insert. apply (po_length _ Hs).
  - apply take_zone_ok.
  - intros j1 j2 z1 z2 H1 H2.
    apply Hgeo in H1 as (z10 & H1 & E1 & E2 & _), H2 as (z20 & H2 & _ & _ & E3 & E4).
    unfold bitmap_off_frames. rewrite E1, E2, E3, E4. by eapply (po_frames _ Hs).
  - intros j1 j2 z1 z2 H1 H2 Hne.
    apply Hgeo in H1 as (z10 & H1 & E1 & E2 & _), H2 as (z20 & H2 & E3 & E4 & _).
    unfold bitmaps_apart. rewrite E1, E2, E3, E4. by eapply (po_bitmaps _ Hs j1 j2).
Qed.

Lemma take_taken : taken s s' i p k.
Proof.
  split.
  - intros j q. split.
    + intros (zj & [[-> ->]|[Hne Hj]]%take_lookup & Hq & Hf).
      * rewrite take_frame_free in Hf by done.
        apply andb_true_iff in Hf as [Hr Hf]. split; [by exists z|].
        intros [_ ?]. apply negb_true_iff, andb_false_iff in Hr.
        rewrite Z.leb_gt, Z.ltb_ge in Hr. lia.
      * rewrite (take_frame_free_other j) in Hf by done. split; [by exists zj|naive_solver].
    + intros [(zj & Hj & Hq & Hf) Hn]. destruct (decide (j = i)) as [->|Hne].
      * replace zj with z in * by congruence. exists z'.
        split; [apply take_lookup_eq|]. split; [done|].
        rewrite take_frame_free, Hf, andb_true_r by done.
        apply negb_true_iff, andb_false_iff. rewrite Z.leb_gt, Z.ltb_ge.
        destruct (Z.ltb_spec q p); [lia|]. right.
        destruct (Z.leb_spec (p + k) q); [lia|]. exfalso. apply Hn. lia.
      * exists zj. split; [by simpl; rewrite list_lookup_insert_ne|]. split; [done|].
        by rewrite (take_frame_free_other j).
  - intros a Ha. simpl. rewrite memset_load. unfold PAGE_SIZE in *. tests. done.
  - intros zj a Hj Hp1 Hb. replace zj with z in * by congruence.
    rewrite take_page_frame by lia. apply take_bitmap_frame. lia.
  - intros j zj [[-> ->]|[_ Hj]]%take_lookup; unfold same_geo; eauto 10.
  - by destruct s.
  - by apply free_total_insert.
Qed.
End take.

(** Every zone counts its own free frames, so the total is 0 exactly when there are none. *)
Lemma free_sum_nonneg m (zs : list memory_zone) :
  (forall i z, zs !! i = Some z -> free_pages z = count_free (zone_frames z) m z (base_pfn z)) ->
  0 <= foldr (fun z n => free_pages z + n) 0 zs.
Proof.
  induction zs as [|z zs IH]; intros Hz; cbn [foldr]; [lia|].
  pose proof (count_free_range (zone_frames z) m z (base_pfn z)) as Hr. rewrite <- (Hz 0%nat z eq_refl) in Hr.
  specialize (IH (fun i z1 Hi => Hz (S i) z1 Hi)). lia.
Qed.

Lemma free_total_nonneg s : pmm_ok s -> 0 <= free_total s.
Proof.
  intros Hs. apply (free_sum_nonneg (ram s)). intros i z Hi. by apply (po_zone _ Hs i).
Qed.

Lemma free_total_zero s : pmm_ok s -> free_total s = 0 <-> forall i q, ~ is_free s i q.
Proof.
  intros Hs. assert (Hz : forall i z, zones (pmm s) !! i = Some z ->
    free_pages z = count_free (zone_frames z) (ram s) z (base_pfn z)) by (intros; by apply (po_zone _ Hs i)).
  unfold free_total, is_free. revert Hz. generalize (zones (pmm s)) as zs. induction zs as [|z zs IH]; intros Hz.
  { split; [|done]. by intros _ i q (z & Hi & _). }
  pose proof (count_free_range (zone_frames z) (ram s) z (base_pfn z)) as Hr. rewrite <- (Hz 0%nat z eq_refl) in Hr.
  pose proof (free_sum_nonneg (ram s) zs (fun i z1 Hi => Hz (S i) z1 Hi)) as Hrest.
  specialize (IH (fun i z1 Hi => Hz (S i) z1 Hi)). cbn [foldr]. split.
  - intros Hsum i q (z1 & Hi & Hq & Hf). destruct i as [|i].
    + injection Hi as <-. rewrite (count_free_zero (zone_frames z) (ram s) z (base_pfn z)) in Hf; [done| |].
      * rewrite <- (Hz 0%nat z eq_refl). lia.
      * unfold in_zone, zone_frames in *. lia.
    + apply (proj1 IH ltac:(lia) i q). by exists z1.
  - intros Hno. rewrite (proj2 IH), (Hz 0%nat z eq_refl).
    + rewrite Z.add_0_r. assert (Hall : forall n p, base_pfn z <= p -> p + Z.of_nat n <= end_pfn z -> count_free n (ram s) z p = 0).
      { induction n as [|n IHn]; intros p Hp1 Hp2; cbn [count_free]; [done|]. rewrite IHn by lia.
        destruct (frame_free (ram s) z p) eqn:E; [|done]. destruct (Hno 0%nat p). exists z.
        split; [done|]. split; [unfold in_zone; lia|done]. }
      unfold zone_frames. destruct (Z.leb_spec (end_pfn z) (base_pfn z)).
      * by rewrite Z2Nat.nonpos by lia.
      * apply Hall; lia.
    + intros i q (z1 & Hi & H). apply (Hno (S i) q). by exists z1.
Qed.

(** * The allocators take the run they find *)
Lemma set_zlock_same z : zlock z = 0 -> set_zlock 0 (set_zlock 1 z) = z.
Proof. intros. destruct z; simpl in *. by subst. Qed.

Lemma get_zone_lookup s i z :
  zones (pmm s) !! i = Some z -> zones (pmm s) !!! i = z.
Proof. apply list_lookup_total_correct. Qed.

Lemma page_addr z p :
  zone_geo z -> base_pfn z <= p < end_pfn z ->
  u64 (p * PAGE_SIZE) = p * PAGE_SIZE
  /\ lin (PHYS_TO_VIRT (p * PAGE_SIZE)) = p * PAGE_SIZE.
Proof.
  intros [] ?. unfold PAGE_SIZE. split; [apply u64_small|apply lin_PHYS_TO_VIRT]; lia.
Qed.

(** Lock, change the zone with [f], unlock. *)
Lemma lock_change_unlock (zs : list memory_zone) i z (f : memory_zone -> memory_zone) :
  zs !! i = Some z ->
  let zs1 := <[i := set_zlock 1 (zs !!! i)]> zs in
  let zs2 := <[i := f (zs1 !!! i)]> zs1 in
  <[i := set_zlock 0 (zs2 !!! i)]> zs2 = <[i := set_zlock 0 (f (set_zlock 1 z))]> zs.
Proof.
  intros Hi zs1 zs2. assert (Hlt : (i < length zs)%nat) by (by eapply lookup_lt_Some).
  unfold zs2, zs1.
  rewrite !list_lookup_total_insert_eq by (rewrite ?length_insert; done).
  rewrite !list_insert_insert_eq. by rewrite (list_lookup_total_correct _ _ _ Hi).
Qed.

(** Lock, unlock: the zone is as it was. *)
Lemma lock_unlock (zs : list memory_zone) i z :
  zs !! i = Some z -> zlock z = 0 ->
  let zs1 := <[i := set_zlock 1 (zs !!! i)]> zs in
  <[i := set_zlock 0 (zs1 !!! i)]> zs1 = zs.
Proof.
  intros Hi Hl zs1. assert (Hlt : (i < length zs)%nat) by (by eapply lookup_lt_Some).
  unfold zs1. rewrite list_lookup_total_insert_eq by done.
  rewrite list_insert_insert_eq, (list_lookup_total_correct _ _ _ Hi), set_zlock_same by done.
  by apply list_insert_id.
Qed.

Lemma zone_taken z k :
  zlock z = 0 -> 0 <= free_pages z - k < 2 ^ 64 ->
  set_zlock 0 (set_free_pages (u64 (free_pages (set_zlock 1 z) - k)) (set_zlock 1 z))
  = set_free_pages (free_pages z - k) z.
Proof. intros ??. destruct z; simpl in *. subst. by rewrite u64_small by lia. Qed.

Lemma set_zones_same s : set_pmm (set_zones (zones (pmm s)) (pmm s)) s = s.
Proof. by destruct s as [? ? [] ? ? ? ? ?]. Qed.

(** The three stages of an allocator in zone [i]: read the zone, take its lock,
    and leave the taken state (or the state as it was). *)
Ltac enter_zone Hi :=
  unfold get_zone, zone_spin_lock, zone_spin_unlock, upd_zone;
  msimpl; unfold get_zone; msimpl; rewrite (get_zone_lookup _ _ _ Hi).
Ltac take_lock Hi Hl :=
  msimpl; rewrite (get_zone_lookup _ _ _ Hi), Hl; cbn [truthy Z.eqb negb]; msimpl.
Ltac leave_taken z k Hlin :=
  msimpl; rewrite Hlin; unfold take_state; f_equal;
  rewrite ?(u64_small (k * PAGE_SIZE)) by (unfold PAGE_SIZE; lia);
  cbn [zones set_zones];
  rewrite (lock_change_unlock _ _ z
    (fun z => set_free_pages (u64 (free_pages z - k)) z))
    by done;
  rewrite zone_taken; [done|done|unfold zone_frames in *; lia].
Ltac leave_same z :=
  msimpl; cbn [zones set_zones]; rewrite (lock_unlock _ _ z) by done.

(** Zone [i] of the allocators, when no lock is held. *)
Lemma alloc_pages_zone s i z rest count :
  pmm_ok s -> zones (pmm s) !! i = Some z -> 0 < count ->
  alloc_pages_in (i :: rest) count s =
  match (if free_pages z <? count then None
         else find_run (zone_frames z) (ram s) z count (base_pfn z) 0 0) with
  | Some p => Ret (PHYS_TO_VIRT (p * PAGE_SIZE)) (take_state s i z p count)
  | None => alloc_pages_in rest count s
  end.
Proof.
  intros Hs Hi Hc. destruct (po_zone _ Hs _ _ Hi) as [Hg Hf Hl].
  assert (Hlt : (i < length (zones (pmm s)))%nat) by (by eapply lookup_lt_Some).
  cbn [alloc_pages_in]. enter_zone Hi.
  destruct (free_pages z <? count); [done|]. take_lock Hi Hl.
  pose proof (find_run_zone (ram s) z count Hc (zo_base _ Hg)) as Hrun.
  pose proof (count_free_range (zone_frames z) (ram s) z (base_pfn z)).
  destruct (find_run _ _ _ _ _ _ _) as [p|].
  - destruct Hrun as (Hp & Hpc & Hfree & _).
    destruct (page_addr z p Hg ltac:(lia)) as [-> Hlin].
    pose proof (count_free_run (zone_frames z) (ram s) z (base_pfn z) p count
      ltac:(lia) Hp ltac:(unfold zone_frames; lia) Hfree).
    pose proof (zo_end _ Hg). pose proof (zo_base _ Hg).
    leave_taken z count Hlin.
  - leave_same z. exact (f_equal _ (set_zones_same s)).
Qed.

(** One page is a run of one. *)
Lemma alloc_page_is_pages s order :
  pmm_ok s -> Forall (fun i => (i < ZONE_COUNT)%nat) order ->
  alloc_page_in order s = alloc_pages_in order 1 s.
Proof.
  intros Hs Ho. induction Ho as [|i order Hi Ho IH]; [done|].
  destruct (lookup_lt_is_Some_2 (zones (pmm s)) i) as [z Hz];
    [by rewrite (po_length _ Hs)|].
  rewrite (alloc_pages_zone s i z) by (done || lia).
  destruct (po_zone _ Hs _ _ Hz) as [Hg Hf Hl].
  assert (Hlt : (i < length (zones (pmm s)))%nat) by (by eapply lookup_lt_Some).
  pose proof (count_free_range (zone_frames z) (ram s) z (base_pfn z)) as Hr.
  cbn [alloc_page_in]. enter_zone Hz.
  rewrite <- Hf in Hr. destruct (Z.eqb_spec (free_pages z) 0) as [E|E].
  { rewrite (proj2 (Z.ltb_lt (free_pages z) 1)) by lia. done. }
  rewrite (proj2 (Z.ltb_ge (free_pages z) 1)) by lia.
  take_lock Hz Hl. rewrite find_free_run.
  pose proof (find_run_zone (ram s) z 1 ltac:(lia) (zo_base _ Hg)) as Hrun.
  destruct (find_run _ _ _ _ _ _ _) as [p|].
  - destruct Hrun as (Hp & Hpc & Hfree & _).
    destruct (page_addr z p Hg ltac:(lia)) as [-> Hlin].
    pose proof (zo_end _ Hg). pose proof (zo_base _ Hg).
    leave_taken z 1 Hlin.
  - leave_same z. rewrite <- IH.
    exact (f_equal _ (set_zones_same s)).
Qed.

Lemma is_free_zone s i z q :
  zones (pmm s) !! i = Some z -> is_free s i q <-> in_zone z q /\ frame_free (ram s) z q = true.
Proof.
  intros Hi. split; [|by exists z].
  intros (z0 & H0 & ?). replace z with z0 by congruence. done.
Qed.

Lemma free_run_zone s i z q count :
  zones (pmm s) !! i = Some z -> 0 < count ->
  free_run s i q count <->
  base_pfn z <= q /\ q + count <= end_pfn z
  /\ forall r, q <= r < q + count -> frame_free (ram s) z r = true.
Proof.
  intros Hi Hc. unfold free_run. split.
  - intros H. split; [|split].
    + destruct (proj1 (is_free_zone s i z q Hi)) as [[??] _]; [apply H; lia|done].
    + destruct (proj1 (is_free_zone s i z (q + count - 1) Hi)) as [[??] _];
        [apply H; lia|lia].
    + intros r Hr. by apply (is_free_zone s i z r Hi), H.
  - intros (?&?&H) r Hr. apply (is_free_zone s i z r Hi). split; [split; lia|auto].
Qed.

Lemma blocked_no_run s i z q count :
  zones (pmm s) !! i = Some z -> 0 < count ->
  (base_pfn z <= q -> q + count <= end_pfn z -> blocked (ram s) z q count) ->
  ~ free_run s i q count.
Proof.
  intros Hi Hc Hb (?&?&H)%(free_run_zone _ _ z); [|done..].
  destruct Hb as (r & Hr & E); [done..|]. by rewrite H in E.
Qed.

(** What one zone contributes to an allocation. *)
Lemma zone_search s i z count :
  pmm_ok s -> zones (pmm s) !! i = Some z -> 0 < count ->
  match (if free_pages z <? count then None
         else find_run (zone_frames z) (ram s) z count (base_pfn z) 0 0) with
  | Some p => free_run s i p count /\ (forall q, q < p -> ~ free_run s i q count)
  | None => forall q, ~ free_run s i q count
  end.
Proof.
  intros Hs Hi Hc. destruct (po_zone _ Hs _ _ Hi) as [Hg Hf Hl].
  pose proof (zo_base _ Hg).
  destruct (Z.ltb_spec (free_pages z) count).
  - intros q (?&?&Hrun)%(free_run_zone _ _ z); [|done..].
    pose proof (count_free_run (zone_frames z) (ram s) z (base_pfn z) q count
      ltac:(lia) ltac:(lia) ltac:(unfold zone_frames; lia) Hrun). lia.
  - pose proof (find_run_zone (ram s) z count Hc ltac:(lia)) as Hrun.
    destruct (find_run _ _ _ _ _ _ _) as [p|].
    + destruct Hrun as (?&?&?&Hb). split; [by apply (free_run_zone _ _ z)|].
      intros q Hq. apply (blocked_no_run _ _ z); [done..|]. intros. apply Hb. lia.
    + intros q. apply (blocked_no_run _ _ z); [done..|]. intros. by apply Hrun.
Qed.

(** The outcome of an allocation of [count] > 0 frames that found its zone. *)
Definition alloc_outcome (s : kst) (count : Z) (o : outcome Z) : Prop :=
  exists r s', o = Ret r s' /\ pmm_ok s'
  /\ ((r = 0 /\ s' = s /\ forall i q, ~ free_run s i q count)
      \/ exists i p, first_run s i p count /\ r = PHYS_TO_VIRT (p * PAGE_SIZE)
         /\ taken s s' i p count).

Lemma alloc_pages_step s i rest count :
  pmm_ok s -> (i < ZONE_COUNT)%nat -> 0 < count ->
  (forall j q, (i < j)%nat -> ~ free_run s j q count) ->
  ((forall j q, (i <= j)%nat -> ~ free_run s j q count) ->
     alloc_outcome s count (alloc_pages_in rest count s)) ->
  alloc_outcome s count (alloc_pages_in (i :: rest) count s).
Proof.
  intros Hs Hlt Hc Habove Hrest.
  destruct (lookup_lt_is_Some_2 (zones (pmm s)) i) as [z Hz]; [by rewrite (po_length _ Hs)|].
  rewrite (alloc_pages_zone s i z) by done.
  pose proof (zone_search s i z count Hs Hz Hc) as Hsearch.
  destruct (if _ <? _ then _ else _) as [p|].
  - destruct Hsearch as [Hrun Hfirst].
    destruct (proj1 (free_run_zone _ _ z p count Hz Hc) Hrun) as (?&?&?).
    eexists _, _. split; [done|]. split; [by apply take_pmm_ok|]. right.
    exists i, p. split; [done|]. split; [done|]. by apply take_taken.
  - apply Hrest. intros j q Hj. destruct (decide (j = i)) as [->|]; [done|].
    apply Habove. lia.
Qed.

Lemma alloc_pages_all s count :
  pmm_ok s -> 0 < count ->
  alloc_outcome s count (alloc_pages_in [ZONE_NORMAL; ZONE_DMA32; ZONE_DMA] count s).
Proof.
  intros Hs Hc.
  assert (Hout : forall j q, (2 < j)%nat -> ~ free_run s j q count).
  { intros j q Hj H. destruct (H q ltac:(lia)) as (z & Hz & _).
    apply lookup_lt_Some in Hz. rewrite (po_length _ Hs) in Hz. unfold ZONE_COUNT in Hz. lia. }
  apply alloc_pages_step; [done|unfold ZONE_COUNT, ZONE_NORMAL; lia|done|done|].
  intros H2. apply alloc_pages_step; [done|unfold ZONE_COUNT, ZONE_DMA32; lia|done|..].
  { intros j q Hj. apply H2. unfold ZONE_NORMAL, ZONE_DMA32 in *. lia. }
  intros H1. apply alloc_pages_step; [done|unfold ZONE_COUNT, ZONE_DMA; lia|done|..].
  { intros j q Hj. apply H1. unfold ZONE_DMA, ZONE_DMA32 in *. lia. }
  intros H0. exists 0, s. split; [done|]. split; [done|]. left. split; [done|].
  split; [done|]. intros i q. apply H0. unfold ZONE_DMA. lia.
Qed.

(** * Huge pages *)
Lemma huge_free_spec n m z p i :
  0 <= base_pfn z <= p -> 0 <= i -> 0 <= end_pfn z <= 2 ^ 35 ->
  p + i + Z.of_nat n <= end_pfn z ->
  huge_free n m z p i = true <->
  forall r, p + i <= r < p + i + Z.of_nat n -> frame_free m z r = true.
Proof.
  intros Hb Hi He. revert i Hi. induction n as [|n IH]; intros i Hi Hn; simpl.
  - split; [intros; lia|done].
  - rewrite u64_small by lia. tests.
    assert (Ht : bitmap_test m (bitmap z) (p + i - base_pfn z)
                 = negb (frame_free m z (p + i))) by (unfold frame_free; by rewrite negb_involutive).
    rewrite Ht. destruct (frame_free m z (p + i)) eqn:E; simpl.
    + rewrite IH by lia. split; intros H r Hr; [|apply H; lia].
      destruct (Z.eq_dec r (p + i)) as [->|]; [done|]. apply H. lia.
    + split; [done|]. intros H. rewrite H in E by lia. done.
Qed.

Lemma find_huge_spec n m z p :
  0 <= base_pfn z <= p -> 0 <= end_pfn z <= 2 ^ 35 -> p < end_pfn z + 512 ->
  end_pfn z < p + 512 * Z.of_nat n ->
  match find_huge n m z p with
  | Some q => p <= q /\ (q - p) mod 512 = 0 /\ q + 512 <= end_pfn z
      /\ (forall r, q <= r < q + 512 -> frame_free m z r = true)
      /\ (forall r, p <= r < q -> (r - p) mod 512 = 0 -> blocked m z r 512)
  | None => forall r, p <= r -> (r - p) mod 512 = 0 -> r + 512 <= end_pfn z ->
      blocked m z r 512
  end.
Proof.
  revert p. induction n as [|n IH]; intros p Hp He Hlt Hn; cbn [find_huge]; [lia|].
  rewrite u64_small by lia.
  destruct (Z.leb_spec (p + 512) (end_pfn z)) as [Hin|Hout]; [|intros; lia].
  pose proof (huge_free_spec 512 m z p 0 Hp ltac:(lia) He ltac:(lia)) as Hh.
  rewrite Z.add_0_r in Hh. destruct (huge_free 512 m z p 0).
  - split; [lia|]. rewrite Z.sub_diag. split; [done|]. split; [lia|].
    split; [by apply Hh|]. intros; lia.
  - assert (Hb : blocked m z p 512).
    { destruct (decide (Exists (fun r => frame_free m z r = false) (seqZ_from p 512)))
        as [Hex|Hex].
      - apply Exists_exists in Hex as (r & Hr%elem_of_seqZ_from & ?). by exists r.
      - exfalso. destruct Hh as [_ Hh]. assert (false = true); [|done]. apply Hh.
        intros r Hr. destruct (frame_free m z r) eqn:E; [done|]. exfalso. apply Hex.
        apply Exists_exists. exists r. split; [|done]. apply elem_of_seqZ_from. lia. }
    specialize (IH (p + 512) ltac:(lia) He ltac:(lia) ltac:(lia)).
    assert (Hmod : forall r, p <= r -> (r - p) mod 512 = 0 -> r = p \/
              (p + 512 <= r /\ (r - (p + 512)) mod 512 = 0)).
    { intros r ??. destruct (Z.eq_dec r p); [by left|right].
      Z.div_mod_to_equations. lia. }
    destruct (find_huge n m z (p + 512)) as [q|].
    + destruct IH as (?&Hq&?&?&?). split; [lia|].
      split; [revert Hq; clear; intros; Z.div_mod_to_equations; lia|].
      split; [done|]. split; [done|]. intros r Hr Hm.
      destruct (Hmod r) as [->|[??]]; [lia|done..|]. auto with lia.
    + intros r ???. destruct (Hmod r) as [->|[??]]; [done..|]. auto with lia.
Qed.

(** A run of 512 free frames at a multiple of 512 frames from the zone's base. *)
Definition huge_run (s : kst) (i : nat) (p : Z) : Prop :=
  free_run s i p 512
  /\ exists z, zones (pmm s) !! i = Some z /\ (p - base_pfn z) mod 512 = 0.

Definition first_huge (s : kst) (i : nat) (p : Z) : Prop :=
  huge_run s i p
  /\ (forall q, q < p -> ~ huge_run s i q)
  /\ (forall j q, (i < j)%nat -> ~ huge_run s j q).

Lemma alloc_huge_zone s i z rest :
  pmm_ok s -> zones (pmm s) !! i = Some z ->
  alloc_huge_in (i :: rest) s =
  match (if free_pages z <? 512 then None
         else find_huge (S (zone_frames z)) (ram s) z (base_pfn z)) with
  | Some p => Ret (PHYS_TO_VIRT (p * PAGE_SIZE)) (take_state s i z p 512)
  | None => alloc_huge_in rest s
  end.
Proof.
  intros Hs Hi. destruct (po_zone _ Hs _ _ Hi) as [Hg Hf Hl].
  assert (Hlt : (i < length (zones (pmm s)))%nat) by (by eapply lookup_lt_Some).
  cbn [alloc_huge_in]. enter_zone Hi.
  destruct (Z.ltb_spec (free_pages z) 512); [done|]. take_lock Hi Hl.
  pose proof (count_free_range (zone_frames z) (ram s) z (base_pfn z)).
  pose proof (zo_end _ Hg). pose proof (zo_base _ Hg).
  pose proof (find_huge_spec (S (zone_frames z)) (ram s) z (base_pfn z) ltac:(lia) ltac:(lia)
    ltac:(unfold zone_frames in *; lia) ltac:(unfold zone_frames in *; lia)) as Hrun.
  destruct (find_huge _ _ _ _) as [p|].
  - destruct Hrun as (Hp & _ & Hpc & Hfree & _).
    destruct (page_addr z p Hg ltac:(lia)) as [-> Hlin].
    change HUGE_PAGE_SIZE with (512 * PAGE_SIZE).
    change (mark_run 512) with (mark_run (Z.to_nat 512)).
    remember 512 as k eqn:Hk. leave_taken z k Hlin.
  - leave_same z. exact (f_equal _ (set_zones_same s)).
Qed.

Lemma huge_search s i z :
  pmm_ok s -> zones (pmm s) !! i = Some z ->
  match (if free_pages z <? 512 then None
         else find_huge (S (zone_frames z)) (ram s) z (base_pfn z)) with
  | Some p => huge_run s i p /\ (forall q, q < p -> ~ huge_run s i q)
  | None => forall q, ~ huge_run s i q
  end.
Proof.
  intros Hs Hi. destruct (po_zone _ Hs _ _ Hi) as [Hg Hf Hl].
  pose proof (zo_base _ Hg). pose proof (zo_end _ Hg).
  pose proof (count_free_range (zone_frames z) (ram s) z (base_pfn z)).
  assert (Hno : forall q, (base_pfn z <= q -> (q - base_pfn z) mod 512 = 0 ->
            q + 512 <= end_pfn z -> blocked (ram s) z q 512) -> ~ huge_run s i q).
  { intros q Hb [Hr (z0 & Hz0 & Hm)]. replace z0 with z in * by congruence.
    revert Hr. apply (blocked_no_run _ _ z); [done|lia|]. auto. }
  destruct (Z.ltb_spec (free_pages z) 512).
  - intros q [(?&?&Hrun)%(free_run_zone _ _ z) _]; [|done..].
    pose proof (count_free_run (zone_frames z) (ram s) z (base_pfn z) q 512
      ltac:(lia) ltac:(lia) ltac:(unfold zone_frames; lia) Hrun). lia.
  - pose proof (find_huge_spec (S (zone_frames z)) (ram s) z (base_pfn z) ltac:(lia) ltac:(lia)
      ltac:(unfold zone_frames in *; lia) ltac:(unfold zone_frames in *; lia)) as Hrun.
    destruct (find_huge _ _ _ _) as [p|].
    + destruct Hrun as (?&?&?&?&Hb). split.
      * split; [by apply (free_run_zone _ _ z)|]. by exists z.
      * intros q Hq. apply Hno. intros. apply Hb; [lia|done].
    + intros q. apply Hno. auto.
Qed.

Definition huge_outcome (s : kst) (o : outcome Z) : Prop :=
  exists r s', o = Ret r s' /\ pmm_ok s'
  /\ ((r = 0 /\ s' = s /\ forall i q, ~ huge_run s i q)
      \/ exists i p, first_huge s i p /\ r = PHYS_TO_VIRT (p * PAGE_SIZE)
         /\ taken s s' i p 512).

Lemma alloc_huge_step s i rest :
  pmm_ok s -> (i < ZONE_COUNT)%nat ->
  (forall j q, (i < j)%nat -> ~ huge_run s j q) ->
  ((forall j q, (i <= j)%nat -> ~ huge_run s j q) ->
     huge_outcome s (alloc_huge_in rest s)) ->
  huge_outcome s (alloc_huge_in (i :: rest) s).
Proof.
  intros Hs Hlt Habove Hrest.
  destruct (lookup_lt_is_Some_2 (zones (pmm s)) i) as [z Hz]; [by rewrite (po_length _ Hs)|].
  rewrite (alloc_huge_zone s i z) by done.
  pose proof (huge_search s i z Hs Hz) as Hsearch.
  destruct (if _ <? _ then _ else _) as [p|].
  - destruct Hsearch as [Hrun Hfirst].
    destruct (proj1 (free_run_zone _ _ z p 512 Hz eq_refl) (proj1 Hrun)) as (?&?&?).
    eexists _, _. split; [done|]. split; [by apply take_pmm_ok|]. right.
    exists i, p. split; [done|]. split; [done|]. by apply take_taken.
  - apply Hrest. intros j q Hj. destruct (decide (j = i)) as [->|]; [done|].
    apply Habove. lia.
Qed.

(** * Release *)
Lemma free_page_in_other order addr s :
  Forall (fun i => forall z, zones (pmm s) !!! i = z ->
    ~ in_zone z (addr / PAGE_SIZE)) order ->
  free_page_in order addr s =
  Ret tt (set_trace (EvPrintf "PMM: Free of invalid address %p\n" [AInt addr] :: trace s) s).
Proof.
  induction 1 as [|i order Hi Ho IH]; [done|].
  cbn [free_page_in]. unfold get_zone. msimpl.
  specialize (Hi _ eq_refl). unfold in_zone in Hi.
  destruct (Z.leb_spec (base_pfn (zones (pmm s) !!! i)) (addr / PAGE_SIZE)),
    (Z.ltb_spec (addr / PAGE_SIZE) (end_pfn (zones (pmm s) !!! i))); simpl; [lia|done..].
Qed.

(** One zone's turn in pmm_free_page. *)
Lemma free_page_zone s i z rest addr :
  pmm_ok s -> zones (pmm s) !! i = Some z ->
  let pfn := addr / PAGE_SIZE in
  free_page_in (i :: rest) addr s =
  if decide (in_zone z pfn) then
    if frame_free (ram s) z pfn then
      Ret tt (set_ram (bitmap_clear (ram s) (bitmap z) (pfn - base_pfn z))
        (set_pmm (set_zones (<[i := set_free_pages (u64 (free_pages z + 1)) z]>
           (zones (pmm s))) (pmm s)) s))
    else free_page_in rest addr
           (set_trace (EvPrintf "PMM: Double free at %p\n" [AInt addr] :: trace s) s)
  else free_page_in rest addr s.
Proof.
  intros Hs Hi pfn. destruct (po_zone _ Hs _ _ Hi) as [Hg Hf Hl].
  assert (Hlt : (i < length (zones (pmm s)))%nat) by (by eapply lookup_lt_Some).
  cbn [free_page_in]. fold pfn. enter_zone Hi.
  destruct (decide (in_zone z pfn)) as [Hin|Hin]; unfold in_zone in Hin.
  - tests. cbn [andb]. take_lock Hi Hl. tests. msimpl. unfold frame_free.
    destruct (bitmap_test (ram s) (bitmap z) (pfn - base_pfn z)); cbn [negb].
    + leave_same z. exact (f_equal _ (f_equal (set_trace _) (set_zones_same s))).
    + msimpl. cbn [zones set_zones].
      rewrite (lock_change_unlock _ _ z (fun z => set_free_pages (u64 (free_pages z + 1)) z))
        by done.
      by replace (set_zlock 0 (set_free_pages (u64 (free_pages (set_zlock 1 z) + 1))
        (set_zlock 1 z))) with (set_free_pages (u64 (free_pages z + 1)) z)
        by (destruct z; simpl in *; by subst).
  - destruct (Z.leb_spec (base_pfn z) pfn), (Z.ltb_spec pfn (end_pfn z)); simpl; [lia|done..].
Qed.

(** The same frames are free. *)
Definition same_frames (s s' : kst) : Prop := forall i q, is_free s' i q <-> is_free s i q.

Lemma pmm_ok_trace s t : pmm_ok s -> pmm_ok (set_trace t s).
Proof. intros []. by split. Qed.

(** Clearing a bit that is clear. *)
Lemma clear_free_frames s i z q0 x :
  pmm_ok s -> zones (pmm s) !! i = Some z -> in_zone z q0 ->
  frame_free (ram s) z q0 = true ->
  same_frames s (set_ram (bitmap_clear (ram s) (bitmap z) (q0 - base_pfn z))
    (set_pmm (set_zones (<[i := set_free_pages x z]> (zones (pmm s))) (pmm s)) s)).
Proof.
  intros Hs Hi Hin Hfree. set (m' := bitmap_clear _ _ _).
  pose proof (zo_geo _ _ (po_zone _ Hs _ _ Hi)) as Hg.
  pose proof (bitmap_bytes_word z q0 Hin) as Hw0.
  assert (Hsame : forall q, in_zone z q -> frame_free m' z q = frame_free (ram s) z q).
  { intros q Hq. pose proof (bitmap_bytes_word z q Hq). unfold in_zone in *. unfold frame_free, m'.
    erewrite bitmap_test_clear; [|by apply bitmap_one_half|lia..].
    unfold frame_free in Hfree. destruct (Z.eqb_spec (q0 - base_pfn z) (q - base_pfn z)) as [E|E];
      [rewrite <- E|done]. simpl. by rewrite Hfree. }
  assert (Hframe : only_changes (bitmap z) (bitmap z + bitmap_bytes z) (ram s) m').
  { rewrite <- (bitmap_lin z Hg) at 1 2. unfold m', in_zone in *.
    apply bitmap_clear_frame; [by apply bitmap_one_half|lia|done]. }
  intros j q. unfold is_free. simpl.
  assert (Hlt : (i < length (zones (pmm s)))%nat) by (by eapply lookup_lt_Some).
  destruct (decide (j = i)) as [->|Hne].
  - rewrite list_lookup_insert_eq, Hi by done. split.
    + intros (? & [= <-] & Hq & Hf). exists z. split; [done|]. split; [done|].
      rewrite <- Hsame by done. exact Hf.
    + intros (? & [= <-] & Hq & Hf). eexists. split; [done|]. split; [done|].
      change (frame_free m' z q = true). by rewrite Hsame.
  - rewrite list_lookup_insert_ne by done.
    split; intros (zj & Hj & Hq & Hf); exists zj; (split; [done|]); (split; [done|]);
      rewrite <- Hf; [symmetry|];
      (apply (frame_free_ext zj (zo_geo _ _ (po_zone _ Hs _ _ Hj)) _ _ _ _ q Hframe);
       [|done]; pose proof (po_bitmaps _ Hs _ _ _ _ Hj Hi Hne) as Hb;
       unfold bitmaps_apart, ranges_disjoint in *; lia).
Qed.

Lemma free_page_in_frames order addr s :
  pmm_ok s -> Forall (fun i => (i < ZONE_COUNT)%nat) order ->
  exists s', free_page_in order addr s = Ret tt s' /\ same_frames s s'.
Proof.
  intros Hs Ho. revert s Hs. induction Ho as [|i order Hi Ho IH]; intros s Hs.
  { by eexists. }
  destruct (lookup_lt_is_Some_2 (zones (pmm s)) i) as [z Hz]; [by rewrite (po_length _ Hs)|].
  rewrite (free_page_zone s i z) by done.
  destruct (decide _) as [Hin|Hin]; [|by apply IH].
  destruct (frame_free (ram s) z _) eqn:Hf.
  - eexists. split; [done|]. by apply clear_free_frames.
  - apply (IH (set_trace _ s)). by apply pmm_ok_trace.
Qed.

Lemma order_up_lt : Forall (fun i => (i < ZONE_COUNT)%nat) [ZONE_DMA; ZONE_DMA32; ZONE_NORMAL].
Proof. repeat constructor. Qed.
Lemma order_down_lt : Forall (fun i => (i < ZONE_COUNT)%nat) [ZONE_NORMAL; ZONE_DMA32; ZONE_DMA].
Proof. repeat constructor. Qed.

(** * The early allocator *)
Lemma early_find_all_used fuel m eb pages i :
  (forall k, i <= k < i + Z.of_nat fuel -> early_test m eb k = true) ->
  0 < pages -> early_find fuel m eb pages i = None.
Proof.
  intros H Hp. revert i H. induction fuel as [|fuel IH]; intros i H; [done|]. cbn [early_find].
  destruct (Z.to_nat pages) as [|n] eqn:E; [lia|]. cbn [early_run_free].
  rewrite H by lia. apply IH. intros k ?. apply H. lia.
Qed.

Lemma early_test_ones m eb k : load8 m (lin (eb + k / 8)) = 0xFF -> early_test m eb k = true.
Proof.
  intros H. unfold early_test, early_bit. rewrite H.
  pose proof (Z.mod_pos_bound k 8 eq_refl).
  assert (Hk : k mod 8 = 0 \/ k mod 8 = 1 \/ k mod 8 = 2 \/ k mod 8 = 3 \/ k mod 8 = 4
    \/ k mod 8 = 5 \/ k mod 8 = 6 \/ k mod 8 = 7) by lia.
  by destruct Hk as [->|[->|[->|[->|[->|[->|[->| ->]]]]]]].
Qed.

(** On a first call every bit is clear: the pages start at 1 MB. *)
Lemma early_run_free_zero n m eb i :
  (forall k, i <= k < i + Z.of_nat n -> load8 m (lin (eb + k / 8)) = 0) ->
  early_run_free n m eb i = true.
Proof.
  revert i. induction n as [|n IH]; intros i H; simpl; [done|].
  unfold early_test. rewrite H by lia. rewrite Z.land_0_l. simpl. apply IH. intros k ?. apply H. lia.
Qed.

(** The size in bytes of a zone's bitmap, and in pages. *)
Definition zone_bitmap_size (z : memory_zone) : Z :=
  u64 (u64 (end_pfn z - base_pfn z) + 63) / 64 * 8.
Definition zone_bitmap_pages (z : memory_zone) : Z :=
  (zone_bitmap_size z + PAGE_SIZE - 1) / PAGE_SIZE.

Lemma bitmap_pages_range z :
  0 < end_pfn z - base_pfn z <= 2 ^ 32 ->
  0 < zone_bitmap_pages z <= 2 ^ 17
  /\ 0 < zone_bitmap_size z
  /\ (65536 <= end_pfn z - base_pfn z -> 8192 <= zone_bitmap_size z).
Proof.
  intros H. unfold zone_bitmap_pages, zone_bitmap_size, PAGE_SIZE.
  rewrite (u64_small (end_pfn z - base_pfn z)), u64_small by lia.
  Z.div_mod_to_equations. lia.
Qed.

Lemma early_mark_frame n m i :
  0 <= i -> i + Z.of_nat n <= 2 ^ 18 -> only_changes 0x100000 0x108000 m (early_mark n m 0x100000 i).
Proof.
  revert m i. induction n as [|n IH]; intros m i Hi Hn; cbn [early_mark]; [apply only_changes_refl|].
  eapply only_changes_trans; [|apply IH; lia]. intros a Ha. rewrite load8_store8.
  unfold lin, KERNEL_HIGHER_HALF. pose proof (Z.div_pos i 8). assert (i / 8 < 0x8000) by (Z.div_mod_to_equations; lia).
  by tests.
Qed.

(** The early allocator on its first call. *)
Lemma early_alloc_first s pages :
  early_bitmap (pmm s) = 0 -> 0 <= pages <= 2 ^ 17 ->
  exists s', pmm_early_alloc pages s = Ret 0x100000 s'
    /\ early_bitmap (pmm s') = 0x100000 /\ zones (pmm s') = zones (pmm s)
    /\ same_globals s s' /\ only_changes 0x100000 0x108000 (ram s) (ram s').
Proof.
  intros He Hp. unfold pmm_early_alloc. msimpl. rewrite He. cbn [Z.eqb]. msimpl.
  cbn [early_bitmap].
  replace (N.to_nat 65536) with (S (N.to_nat 65535)) by lia. cbn [early_find].
  rewrite early_run_free_zero.
  - msimpl. eexists. do 3 (split; [done|]). split; [by destruct s|]. cbn [ram].
    eapply only_changes_trans; [|apply early_mark_frame; lia].
    eapply only_changes_weaken; [apply memset_frame|done|]. unfold lin, KERNEL_HIGHER_HALF. tests. lia.
  - intros k Hk. unfold lin, KERNEL_HIGHER_HALF. tests. rewrite memset_load.
    pose proof (Z.div_mod k 8 ltac:(lia)). pose proof (Z.mod_pos_bound k 8 ltac:(lia)).
    tests. done.
Qed.

(** Once the first 8 KB at 1 MB are all ones, it finds nothing. *)
Lemma early_alloc_overwritten s pages :
  early_bitmap (pmm s) = 0x100000 -> 0 < pages ->
  (forall a, 0x100000 <= a < 0x102000 -> load8 (ram s) a = 0xFF) ->
  exists s', pmm_early_alloc pages s = Panic "Early allocation failed" s'.
Proof.
  intros He Hp Hff. unfold pmm_early_alloc. msimpl. rewrite He. cbn [Z.eqb]. msimpl. rewrite He.
  rewrite early_find_all_used; [by eexists| |done].
  intros k Hk. apply early_test_ones.
  pose proof (Z.div_mod k 8 ltac:(lia)). pose proof (Z.mod_pos_bound k 8 ltac:(lia)).
  unfold lin, KERNEL_HIGHER_HALF. tests. apply Hff. lia.
Qed.

(** A zone that has memory gets its bitmap from the early allocator. *)
Lemma init_bitmap_run s i z :
  zones (pmm s) !! i = Some z -> total_pages z <> 0 ->
  init_bitmap i s =
  (p ← pmm_early_alloc (zone_bitmap_pages z);
   upd_zone i (set_bitmap p);;
   upd_ram (fun m => memset m (lin p) 0xFF (zone_bitmap_size z))) s.
Proof.
  intros Hi Ht. unfold init_bitmap, get_zone. unfold mbind at 1, M_bind at 1, gets at 1.
  rewrite (get_zone_lookup _ _ _ Hi). by test_false.
Qed.

(** * A zone whose bitmap is its own first frame *)
Record own_bitmap (s : kst) (i : nat) (z : memory_zone) : Prop := {
  ob_zone : zones (pmm s) !! i = Some z;
  ob_geo : zone_geo z;
  ob_lock : zlock z = 0;
  ob_pages : 0 <= free_pages z < 2 ^ 64;
  ob_frames : base_pfn z < end_pfn z;
  ob_first : frame_free (ram s) z (base_pfn z) = true;
  ob_bitmap : bitmap z = base_pfn z * PAGE_SIZE;
}.

(** [n] successive allocations. *)
Fixpoint alloc_pages_n (n : nat) (order : list nat) : M (list Z) :=
  match n with
  | O => mret []
  | S n' => p ← alloc_page_in order; ps ← alloc_pages_n n' order; mret (p :: ps)
  end.

Lemma own_bitmap_step s i z rest :
  own_bitmap s i z -> 0 < free_pages z ->
  exists s', alloc_page_in (i :: rest) s = Ret (PHYS_TO_VIRT (base_pfn z * PAGE_SIZE)) s'
    /\ own_bitmap s' i (set_free_pages (free_pages z - 1) z).
Proof.
  intros [Hi Hg Hl Hp Hf Hfree Hb] Hpos.
  assert (Hlt : (i < length (zones (pmm s)))%nat) by (by eapply lookup_lt_Some).
  cbn [alloc_page_in]. enter_zone Hi. test_false. take_lock Hi Hl.
  destruct (zone_frames z) as [|n] eqn:En; [unfold zone_frames in En; lia|].
  cbn [find_free]. rewrite Hfree.
  destruct (page_addr z (base_pfn z) Hg ltac:(lia)) as [-> Hlin].
  exists (take_state s i z (base_pfn z) 1). split; [leave_taken z 1 Hlin|].
  assert (Hg' : zone_geo (set_free_pages (free_pages z - 1) z)) by (by destruct Hg).
  split; try done; [by cbn; rewrite list_lookup_insert_eq|cbn [free_pages set_free_pages]; lia|].
  unfold frame_free. rewrite bitmap_test_testbit.
  change (bitmap (set_free_pages _ z)) with (bitmap z).
  change (base_pfn (set_free_pages _ z)) with (base_pfn z).
  rewrite Z.sub_diag, Z.div_0_l, Z.mul_0_r, Z.add_0_r, (bitmap_lin z Hg), Hb by lia.
  cbn [ram take_state set_ram].
  rewrite memset_zero_load_le by (unfold PAGE_SIZE; lia). by rewrite Z.testbit_0_l.
Qed.
