(* ===== verification/PmmProps.v ===== *)
(** Properties of memory.c, each with a witness on a concrete machine state. *)
From S2P Require Import Prelude Machine Globals Strings Pmm PmmFacts.

(** * A concrete machine: two zones of 8 frames and one that is empty *)
Module PmmExample.
Definition empty_sched : sched_globals := Sched [] 0 0 ∅.
Definition empty_net : net_globals := Net 0 0 0 0 0 0 0 0 [] [] 0.
Definition state (m : gmap Z Z) (zs : list memory_zone) (eb : Z) : kst :=
  Kst m [] (Pmm zs 0 0 eb) (Heap [] 0 false) 0 0 empty_sched empty_net plat_initial.

(** Frames 0x1000-0x1007 with frames 0x1000 and 0x1002 used, and frames
    0x100000-0x100007, all free; the bitmaps are at 1 MB. *)
Definition zone_a : memory_zone := Zone 0x1000 0x1008 8 6 0x100000 [] 0.
Definition zone_b : memory_zone := Zone 0x100000 0x100008 8 8 0x101000 [] 0.
Definition s : kst :=
  state (store64 (store64 ∅ 0x100000 5) 0x101000 0) [zone_a; empty_zone; zone_b] 0x100000.

Lemma s_ok : pmm_ok s.
Proof.
  split; [done|..].
  - intros [|[|[|i]]] z [= <-]; (split; [split; vm_compute; repeat split; discriminate|done..]).
  - intros [|[|[|i]]] [|[|[|j]]] z1 z2 [= <-] [= <-]; unfold bitmap_off_frames, ranges_disjoint;
      vm_compute; intuition discriminate.
  - intros [|[|[|i]]] [|[|[|j]]] z1 z2 [= <-] [= <-] Hne; try done; unfold bitmaps_apart,
      ranges_disjoint; vm_compute; intuition discriminate.
Defined.
End PmmExample.

(** C3 pmm_alloc_page refines the choice of the first free frame of the
    highest zone that has one: from a well-formed state it always returns, keeps
    the state well formed, and either no frame is free, the result is NULL and
    the state is unchanged, or the result is the higher-half address of that
    frame, exactly that frame stops being free, its 4096 bytes read as zero and
    no other byte of RAM but the zone's bitmap changed. *)
Theorem pmm_alloc_page_refines (s : kst) :
  pmm_ok s ->
  exists r s', pmm_alloc_page s = Ret r s' /\ pmm_ok s'
  /\ ((r = 0 /\ s' = s /\ forall i q, ~ is_free s i q)
      \/ exists i p, is_free s i p
           /\ (forall q, q < p -> ~ is_free s i q)
           /\ (forall j q, (i < j)%nat -> ~ is_free s j q)
           /\ r = PHYS_TO_VIRT (p * PAGE_SIZE) /\ taken s s' i p 1).
Proof.
  intros Hs. unfold pmm_alloc_page. rewrite alloc_page_is_pages by (done || apply order_down_lt).
  destruct (alloc_pages_all s 1 Hs ltac:(lia)) as (r & s' & E & Hs' & H).
  assert (Hone : forall i q, free_run s i q 1 <-> is_free s i q).
  { intros i q. unfold free_run. split; [intros Hr; apply Hr; lia|].
    intros Hq r' Hr'. by replace r' with q by lia. }
  exists r, s'. split; [done|]. split; [done|].
  destruct H as [(?&?&Hno)|(i & p & (Hrun & Hlt & Hgt) & ? & ?)]; [left|right].
  - do 2 (split; [done|]). intros i q. rewrite <- Hone. apply Hno.
  - exists i, p. split; [by apply Hone|]. split; [intros; rewrite <- Hone; auto|].
    split; [intros; rewrite <- Hone; auto|]. done.
Qed.

Lemma pmm_alloc_page_refines_witness :
  exists r s', pmm_alloc_page PmmExample.s = Ret r s' /\ pmm_ok s'
  /\ ((r = 0 /\ s' = PmmExample.s /\ forall i q, ~ is_free PmmExample.s i q)
      \/ exists i p, is_free PmmExample.s i p
           /\ (forall q, q < p -> ~ is_free PmmExample.s i q)
           /\ (forall j q, (i < j)%nat -> ~ is_free PmmExample.s j q)
           /\ r = PHYS_TO_VIRT (p * PAGE_SIZE) /\ taken PmmExample.s s' i p 1).
Proof. apply (pmm_alloc_page_refines PmmExample.s). apply PmmExample.s_ok. Defined.

(** C4 pmm_alloc_pages refines the choice of the first run of [count] free
    frames: NULL with the state unchanged exactly when no zone has such a run
    (or [count] is 0), otherwise the address of the first run, which is taken and
    zeroed as a whole. *)
Theorem pmm_alloc_pages_refines (s : kst) (count : Z) :
  pmm_ok s -> 0 <= count ->
  exists r s', pmm_alloc_pages count s = Ret r s' /\ pmm_ok s'
  /\ ((r = 0 /\ s' = s /\ (count = 0 \/ forall i q, ~ free_run s i q count))
      \/ 0 < count /\ exists i p, first_run s i p count
           /\ r = PHYS_TO_VIRT (p * PAGE_SIZE) /\ taken s s' i p count).
Proof.
  intros Hs Hc. unfold pmm_alloc_pages. destruct (Z.eqb_spec count 0) as [->|].
  { exists 0, s. auto 10. }
  assert (E : (if count =? 1 then pmm_alloc_page
      else alloc_pages_in [ZONE_NORMAL; ZONE_DMA32; ZONE_DMA] count) s
      = alloc_pages_in [ZONE_NORMAL; ZONE_DMA32; ZONE_DMA] count s).
  { destruct (Z.eqb_spec count 1) as [->|]; [|done].
    unfold pmm_alloc_page. by rewrite alloc_page_is_pages by (done || apply order_down_lt). }
  rewrite E. destruct (alloc_pages_all s count Hs ltac:(lia)) as (r & s' & ? & ? & H).
  exists r, s'. split; [done|]. split; [done|]. destruct H as [(?&?&?)|?]; [by left; auto|].
  right. split; [lia|done].
Qed.

Lemma pmm_alloc_pages_refines_witness :
  exists r s', pmm_alloc_pages 3 PmmExample.s = Ret r s' /\ pmm_ok s'
  /\ ((r = 0 /\ s' = PmmExample.s /\ (3 = 0 \/ forall i q, ~ free_run PmmExample.s i q 3))
      \/ 0 < 3 /\ exists i p, first_run PmmExample.s i p 3
           /\ r = PHYS_TO_VIRT (p * PAGE_SIZE) /\ taken PmmExample.s s' i p 3).
Proof. apply (pmm_alloc_pages_refines PmmExample.s 3); [apply PmmExample.s_ok|lia]. Defined.

(** pmm_alloc_huge_page takes the first 512 free frames that start a
    multiple of 512 frames after the zone's base (so its 2 MB alignment is that
    of the zone's base, not of the address), or returns NULL and changes nothing
    when no zone has such a run. *)
Theorem pmm_alloc_huge_page_refines (s : kst) :
  pmm_ok s ->
  exists r s', pmm_alloc_huge_page s = Ret r s' /\ pmm_ok s'
  /\ ((r = 0 /\ s' = s /\ forall i q, ~ huge_run s i q)
      \/ exists i p, first_huge s i p /\ r = PHYS_TO_VIRT (p * PAGE_SIZE)
           /\ taken s s' i p 512).
Proof.
  intros Hs.
  assert (Hout : forall j q, (2 < j)%nat -> ~ huge_run s j q).
  { intros j q Hj [H _]. destruct (H q ltac:(lia)) as (z & Hz & _).
    apply lookup_lt_Some in Hz. rewrite (po_length _ Hs) in Hz. unfold ZONE_COUNT in Hz. lia. }
  unfold pmm_alloc_huge_page.
  apply alloc_huge_step; [done|unfold ZONE_COUNT, ZONE_NORMAL; lia|done|].
  intros H2. apply alloc_huge_step; [done|unfold ZONE_COUNT, ZONE_DMA32; lia|..].
  { intros j q Hj. apply H2. unfold ZONE_NORMAL, ZONE_DMA32 in *. lia. }
  intros H1. apply alloc_huge_step; [done|unfold ZONE_COUNT, ZONE_DMA; lia|..].
  { intros j q Hj. apply H1. unfold ZONE_DMA, ZONE_DMA32 in *. lia. }
  intros H0. exists 0, s. split; [done|]. split; [done|]. left. split; [done|].
  split; [done|]. intros i q. apply H0. unfold ZONE_DMA. lia.
Qed.

Lemma pmm_alloc_huge_page_refines_witness :
  exists r s', pmm_alloc_huge_page PmmExample.s = Ret r s' /\ pmm_ok s'
  /\ ((r = 0 /\ s' = PmmExample.s /\ forall i q, ~ huge_run PmmExample.s i q)
      \/ exists i p, first_huge PmmExample.s i p /\ r = PHYS_TO_VIRT (p * PAGE_SIZE)
           /\ taken PmmExample.s s' i p 512).
Proof. apply (pmm_alloc_huge_page_refines PmmExample.s). apply PmmExample.s_ok. Defined.

(** C27 pmm_free_page never makes a used frame free.  The double-free test is
    inverted (a set bit means the frame is in use, and is reported as a double
    free), and the frame number is taken from the virtual address: for the
    higher-half addresses the allocators return, nothing changes but the printed
    complaint; for any other address the set of free frames stays what it was. *)
Theorem pmm_free_page_frees_nothing (s : kst) (addr : Z) :
  pmm_ok s ->
  (exists s', pmm_free_page addr s = Ret tt s' /\ same_frames s s')
  /\ (forall p, 0 <= p < 2 ^ 35 -> addr = PHYS_TO_VIRT (p * PAGE_SIZE) ->
      pmm_free_page addr s =
      Ret tt (set_trace
        (EvPrintf "PMM: Free of invalid address %p\n" [AInt addr] :: trace s) s)).
Proof.
  intros Hs. unfold pmm_free_page. split.
  - destruct (addr =? 0); [by exists s|].
    by apply free_page_in_frames; [|apply order_up_lt].
  - intros p Hp ->. assert (Hr : 0 <= p * PAGE_SIZE < 2 ^ 47) by (unfold PAGE_SIZE; lia).
    pose proof (PHYS_TO_VIRT_nonnull _ Hr). test_false.
    apply free_page_in_other. rewrite PHYS_TO_VIRT_val by done.
    apply (Forall_impl _ _ _ order_up_lt). intros i Hi z <- [_ Hin].
    destruct (lookup_lt_is_Some_2 (zones (pmm s)) i) as [z Hz]; [by rewrite (po_length _ Hs)|].
    rewrite (get_zone_lookup _ _ _ Hz) in Hin.
    pose proof (zo_end _ (zo_geo _ _ (po_zone _ Hs _ _ Hz))).
    revert Hin. unfold KERNEL_HIGHER_HALF, PAGE_SIZE. intros. Z.div_mod_to_equations. lia.
Qed.

Lemma pmm_free_page_frees_nothing_witness :
  (exists s', pmm_free_page (PHYS_TO_VIRT 0x1000000) PmmExample.s = Ret tt s'
              /\ same_frames PmmExample.s s')
  /\ (forall p, 0 <= p < 2 ^ 35 -> PHYS_TO_VIRT 0x1000000 = PHYS_TO_VIRT (p * PAGE_SIZE) ->
      pmm_free_page (PHYS_TO_VIRT 0x1000000) PmmExample.s =
      Ret tt (set_trace
        (EvPrintf "PMM: Free of invalid address %p\n" [AInt (PHYS_TO_VIRT 0x1000000)]
         :: trace PmmExample.s) PmmExample.s)).
Proof.
  apply (pmm_free_page_frees_nothing PmmExample.s (PHYS_TO_VIRT 0x1000000)).
  apply PmmExample.s_ok.
Defined.

(** The early allocator keeps its own bitmap at 1 MB and hands out 1 MB as
    its first page, so the first zone bitmap overwrites it: when a zone of at
    least 256 MB gets its bitmap first, the bitmap of any further zone that has
    memory panics the kernel. *)
Theorem second_zone_bitmap_panics (s : kst) (i j : nat) (zi zj : memory_zone) :
  early_bitmap (pmm s) = 0 -> i <> j ->
  zones (pmm s) !! i = Some zi -> zones (pmm s) !! j = Some zj ->
  total_pages zi <> 0 -> 65536 <= end_pfn zi - base_pfn zi <= 2 ^ 32 ->
  total_pages zj <> 0 -> 0 < end_pfn zj - base_pfn zj <= 2 ^ 32 ->
  exists s', (init_bitmap i;; init_bitmap j) s = Panic "Early allocation failed" s'.
Proof.
  intros He Hne Hi Hj Hti Hri Htj Hrj.
  destruct (bitmap_pages_range zi ltac:(lia)) as (Hpi & Hsi & H8).
  destruct (bitmap_pages_range zj Hrj) as (Hpj & _ & _).
  destruct (early_alloc_first s (zone_bitmap_pages zi) He ltac:(lia)) as (s1 & E1 & He1 & Hz1 & _).
  unfold mbind at 1, M_bind at 1. rewrite (init_bitmap_run _ _ _ Hi Hti).
  unfold mbind, M_bind. rewrite E1. unfold upd_zone. msimpl.
  set (s2 := set_ram _ _).
  assert (Hj2 : zones (pmm s2) !! j = Some zj).
  { unfold s2. cbn. by rewrite Hz1, list_lookup_insert_ne. }
  assert (He2 : early_bitmap (pmm s2) = 0x100000) by done.
  assert (Hff : forall a, 0x100000 <= a < 0x102000 -> load8 (ram s2) a = 0xFF).
  { intros a Ha. unfold s2. cbn [ram set_ram]. rewrite memset_load.
    unfold lin, KERNEL_HIGHER_HALF. tests. done. }
  clearbody s2. destruct (early_alloc_overwritten s2 (zone_bitmap_pages zj) He2 ltac:(lia) Hff)
    as (s3 & E3).
  exists s3. rewrite (init_bitmap_run _ _ _ Hj2 Htj).
  unfold mbind, M_bind. by rewrite E3.
Qed.

Lemma second_zone_bitmap_panics_witness :
  exists s', (init_bitmap ZONE_DMA32;; init_bitmap ZONE_NORMAL)
    (PmmExample.state ∅ [empty_zone; Zone 0x100 0x80000 0x7FF00 0 0 [] 0;
                         Zone 0x100000 0x400000 0x300000 0 0 [] 0] 0)
    = Panic "Early allocation failed" s'.
Proof.
  apply (second_zone_bitmap_panics _ ZONE_DMA32 ZONE_NORMAL
    (Zone 0x100 0x80000 0x7FF00 0 0 [] 0) (Zone 0x100000 0x400000 0x300000 0 0 [] 0));
    done || (simpl; lia).
Defined.

(** Zone bitmaps come from the early allocator, which starts at 1 MB, in
    memory the zones then hand out.  A zone whose bitmap is its own first frame
    allocates that frame, clears it, and with it the mark that it is used: every
    allocation returns the same page until [free_pages] runs out. *)
Theorem own_bitmap_returns_same_page (s : kst) (i : nat) (z : memory_zone)
    (rest : list nat) (n : nat) :
  own_bitmap s i z -> Z.of_nat n <= free_pages z ->
  exists s', alloc_pages_n n (i :: rest) s
    = Ret (replicate n (PHYS_TO_VIRT (base_pfn z * PAGE_SIZE))) s'.
Proof.
  revert s z. induction n as [|n IH]; intros s z Ho Hn; [by exists s|].
  destruct (own_bitmap_step s i z rest Ho ltac:(lia)) as (s1 & E & Ho1).
  destruct (IH s1 _ Ho1 ltac:(simpl; lia)) as (s2 & E2).
  exists s2. cbn [alloc_pages_n]. unfold mbind, M_bind. by rewrite E, E2.
Qed.

(** The state pmm_init reaches on a machine with 1 MB of memory at 1 MB. *)
Definition own_bitmap_state : kst :=
  PmmExample.state (store64 ∅ 0x100000 0)
    [Zone 0x100 0x200 256 256 0x100000 [] 0; empty_zone; empty_zone] 0x100000.

Lemma own_bitmap_returns_same_page_witness :
  exists s', alloc_pages_n 5 [ZONE_DMA] own_bitmap_state
    = Ret (replicate 5 (PHYS_TO_VIRT 0x100000)) s'.
Proof.
  apply (own_bitmap_returns_same_page own_bitmap_state ZONE_DMA
    (Zone 0x100 0x200 256 256 0x100000 [] 0) [] 5).
  - by repeat split.
  - done.
Defined.
