(* ===== verification/Frames.v ===== *)
(** The interface of the physical memory manager, as its clients (kmalloc.c,
    vmm.c) use it, and its implementation by memory.c.

    A byte is [fa_reserved] when the allocator may still touch it: it is in a
    bitmap or in a frame that is free.  The contract: an allocation returns NULL
    and changes nothing, or returns pages that were reserved, no longer are, and
    read as zero, while all else stays reserved; a page is returned as long as
    [fa_left], the number of pages left, is positive; a client may write every
    byte that is not reserved. *)
From S2P Require Import Prelude Machine Globals Strings Pmm PmmFacts.

(** Only RAM and the zones may differ. *)
Definition same_rest (s s' : kst) : Prop := set_ram (ram s) (set_pmm (pmm s) s') = s.

#[export] Instance same_rest_equivalence : Equivalence same_rest.
Proof.
  unfold same_rest, set_ram, set_pmm. split.
  - intros []; done.
  - intros [] []; simpl. congruence.
  - intros [] [] []; simpl. congruence.
Qed.

(** [n] pages at [a] moved from the allocator to the caller. *)
Record fresh (reserved : kst -> Z -> Prop) (s s' : kst) (a n : Z) : Prop := {
  fr_range : 0 <= a /\ a mod PAGE_SIZE = 0 /\ a + n * PAGE_SIZE <= 2 ^ 47;
  fr_was : forall b, a <= b < a + n * PAGE_SIZE -> reserved s b;
  fr_now : forall b, a <= b < a + n * PAGE_SIZE -> ~ reserved s' b /\ load8 (ram s') b = 0;
  fr_other : forall b, ~ reserved s b -> ~ reserved s' b /\ load8 (ram s') b = load8 (ram s) b;
  fr_keep : forall b, reserved s b -> reserved s' b \/ a <= b < a + n * PAGE_SIZE;
}.

Class FrameAllocator (alloc : M Z) (alloc_n : Z -> M Z) := {
  fa_ok : kst -> Prop;
  fa_reserved : kst -> Z -> Prop;
  fa_alloc : forall s, fa_ok s ->
    exists r s', alloc s = Ret r s' /\ fa_ok s' /\ same_rest s s'
    /\ ((r = 0 /\ s' = s)
        \/ exists a, r = PHYS_TO_VIRT a /\ fresh fa_reserved s s' a 1);
  fa_alloc_n : forall s n, fa_ok s -> 0 <= n ->
    exists r s', alloc_n n s = Ret r s' /\ fa_ok s' /\ same_rest s s'
    /\ ((r = 0 /\ s' = s)
        \/ 0 < n /\ exists a, r = PHYS_TO_VIRT a /\ fresh fa_reserved s s' a n);
  fa_left : kst -> Z;
  fa_left_alloc : forall s r s', fa_ok s -> alloc s = Ret r s' ->
    (r = 0 /\ fa_left s = 0) \/ (r <> 0 /\ 0 < fa_left s /\ fa_left s' = fa_left s - 1);
  fa_left_same : forall s s', pmm s' = pmm s -> fa_left s' = fa_left s;
  fa_frame : forall s s', fa_ok s -> pmm s' = pmm s ->
    (forall b, fa_reserved s b -> load8 (ram s') b = load8 (ram s) b) ->
    fa_ok s' /\ (forall b, fa_reserved s' b <-> fa_reserved s b);
}.

(** * The implementation *)

(** No frame is free in two zones. *)
Definition frames_once (s : kst) : Prop :=
  forall i j q, is_free s i q -> is_free s j q -> i = j.
Definition frames_ok (s : kst) : Prop := pmm_ok s /\ frames_once s.

Definition in_frame (q b : Z) : Prop := q * PAGE_SIZE <= b < (q + 1) * PAGE_SIZE.
Definition reserved (s : kst) (b : Z) : Prop :=
  (exists i z, zones (pmm s) !! i = Some z /\ bitmap z <= b < bitmap z + bitmap_bytes z)
  \/ (exists i q, is_free s i q /\ in_frame q b).

Lemma in_frame_div q b : in_frame q b <-> q = b / PAGE_SIZE.
Proof. unfold in_frame, PAGE_SIZE. split; intros; Z.div_mod_to_equations; lia. Qed.

(** ** Taking a run of frames meets the contract *)
Section taken_fresh.
Context (s s' : kst) (i : nat) (p n : Z).
Context (Hs : frames_ok s) (Hs' : pmm_ok s') (Hn : 0 < n).
Context (Hrun : free_run s i p n) (Ht : taken s s' i p n).

Lemma taken_once : frames_once s'.
Proof.
  intros j k q Hj Hk. apply (tk_free _ _ _ _ _ Ht) in Hj as [Hj _], Hk as [Hk _].
  by eapply (proj2 Hs).
Qed.

Lemma taken_zone : exists z, zones (pmm s) !! i = Some z /\ base_pfn z <= p /\ p + n <= end_pfn z.
Proof.
  destruct (Hrun p ltac:(lia)) as (z & Hz & Hp & _), (Hrun (p + n - 1) ltac:(lia)) as (z2 & Hz2 & Hq & _).
  replace z2 with z in * by congruence. exists z. unfold in_zone in *. split; [done|lia].
Qed.

Lemma taken_page b :
  p * PAGE_SIZE <= b < (p + n) * PAGE_SIZE -> p <= b / PAGE_SIZE < p + n /\ in_frame (b / PAGE_SIZE) b.
Proof.
  intros. split; [|by apply in_frame_div]. unfold PAGE_SIZE in *. Z.div_mod_to_equations. lia.
Qed.

Lemma taken_bitmap_off b j z :
  zones (pmm s') !! j = Some z -> bitmap z <= b < bitmap z + bitmap_bytes z ->
  ~ p * PAGE_SIZE <= b < (p + n) * PAGE_SIZE.
Proof.
  intros Hj Hb Hp. apply (tk_geo _ _ _ _ _ Ht) in Hj as (z0 & Hj & Eb & E1 & E2).
  destruct taken_zone as (zi & Hi & ? & ?).
  pose proof (po_frames _ (proj1 Hs) _ _ _ _ Hj Hi) as Hd.
  assert (bitmap_bytes z = bitmap_bytes z0) by (unfold bitmap_bytes; by rewrite E1, E2).
  unfold bitmap_off_frames, ranges_disjoint, PAGE_SIZE in *. lia.
Qed.

Lemma taken_reserved b : reserved s' b -> reserved s b.
Proof.
  intros [(j & z & Hj & Hb)|(j & q & Hq & Hb)].
  - apply (tk_geo _ _ _ _ _ Ht) in Hj as (z0 & Hj & Eb & E1 & E2).
    left. exists j, z0. split; [done|]. unfold bitmap_bytes in *. by rewrite <- Eb, <- E1, <- E2.
  - apply (tk_free _ _ _ _ _ Ht) in Hq as [Hq _]. right. eauto.
Qed.

(** What is not handed out stays reserved. *)
Lemma taken_keep b : reserved s b -> reserved s' b \/ p * PAGE_SIZE <= b < (p + n) * PAGE_SIZE.
Proof.
  intros [(j & z & Hj & Hb)|(j & q & Hq & Hb)].
  - left. destruct (lookup_lt_is_Some_2 (zones (pmm s')) j) as [z' Hj'].
    { rewrite (po_length _ Hs'), <- (po_length _ (proj1 Hs)). by eapply lookup_lt_Some. }
    destruct (tk_geo _ _ _ _ _ Ht _ _ Hj') as (z0 & Hj0 & Eb & E1 & E2). replace z0 with z in * by congruence.
    left. exists j, z'. split; [done|]. unfold bitmap_bytes in *. by rewrite Eb, E1, E2.
  - destruct (decide (j = i /\ p <= q < p + n)) as [[-> Hr]|Hn2].
    + right. unfold in_frame, PAGE_SIZE in *. lia.
    + left. right. exists j, q. split; [|done]. by apply (tk_free _ _ _ _ _ Ht).
Qed.

Lemma taken_fresh : fresh reserved s s' (p * PAGE_SIZE) n.
Proof.
  destruct taken_zone as (z & Hi & Hb & He).
  destruct (zo_geo _ _ (po_zone _ (proj1 Hs) _ _ Hi)) as [Hz1 Hz2 _].
  split.
  - unfold PAGE_SIZE. split; [lia|]. split; [apply Z.mod_mul; lia|lia].
  - intros b Hp. rewrite <- Z.mul_add_distr_r in Hp. destruct (taken_page b Hp) as [Hq Hf].
    right. exists i, (b / PAGE_SIZE). split; [apply Hrun; lia|done].
  - intros b Hp. rewrite <- Z.mul_add_distr_r in Hp. split; [|by apply (tk_zero _ _ _ _ _ Ht)].
    intros [(j & zj & Hj & Hbm)|(j & q & Hq & Hf)].
    + by eapply (taken_bitmap_off b j zj).
    + destruct (taken_page b Hp) as [Hr Hf']. apply in_frame_div in Hf as ->.
      apply (tk_free _ _ _ _ _ Ht) in Hq as [Hq Hni]. apply Hni. split; [|done].
      eapply (proj2 Hs); [exact Hq|]. apply Hrun. lia.
  - intros b Hb'. split; [by intros ?%taken_reserved|].
    apply (tk_ram _ _ _ _ _ Ht z); [done|..].
    + intros Hp. destruct (taken_page b Hp) as [Hq Hf]. apply Hb'. right.
      exists i, (b / PAGE_SIZE). split; [apply Hrun; lia|done].
    + intros Hbm. apply Hb'. left. eauto.
  - intros b Hb'. rewrite <- Z.mul_add_distr_r. by apply taken_keep.
Qed.
End taken_fresh.

(** ** Writes outside the reserved bytes meet the contract *)
Section frame.
Context (s s' : kst) (Hs : frames_ok s) (Hpmm : pmm s' = pmm s).
Context (Hram : forall b, reserved s b -> load8 (ram s') b = load8 (ram s) b).

Lemma frame_frame_free i z q :
  zones (pmm s) !! i = Some z -> in_zone z q -> frame_free (ram s') z q = frame_free (ram s) z q.
Proof.
  intros Hi Hq. unfold frame_free. f_equal.
  pose proof (zo_geo _ _ (po_zone _ (proj1 Hs) _ _ Hi)) as Hg.
  pose proof (bitmap_bytes_word z q Hq). unfold in_zone in *.
  eapply bitmap_test_ext; [by apply bitmap_one_half|lia|done|].
  rewrite (bitmap_lin z Hg). intros b Hb. apply Hram. left. eauto.
Qed.

Lemma frame_is_free i q : is_free s' i q <-> is_free s i q.
Proof.
  unfold is_free. rewrite Hpmm.
  split; intros (z & Hi & Hq & Hf); exists z; rewrite <- Hf;
    (do 2 (split; [done|])); [symmetry|]; by eapply frame_frame_free.
Qed.

Lemma frame_reserved b : reserved s' b <-> reserved s b.
Proof.
  unfold reserved. rewrite Hpmm.
  split; (intros [?|(i & q & Hq & ?)]; [by left|right]; exists i, q);
    (split; [|done]); by apply frame_is_free.
Qed.

Lemma frame_ok : frames_ok s'.
Proof.
  destruct Hs as [[Hlen Hz Hf Hb] Honce]. split.
  - split; rewrite ?Hpmm; [done| |done|done].
    intros i z Hi. destruct (Hz _ _ Hi) as [Hg Hc Hl]. split; [done| |done].
    rewrite Hc. symmetry. apply count_free_ext. intros q Hq. eapply frame_frame_free; [done|].
    unfold in_zone, zone_frames in *. lia.
  - intros i j q Hi Hj. apply frame_is_free in Hi, Hj. by eapply Honce.
Qed.
End frame.

Lemma is_free_single s i p : is_free s i p -> free_run s i p 1.
Proof. intros H q Hq. by replace q with p by lia. Qed.

(** The allocators of memory.c, from [alloc_pages_all]. *)
Lemma alloc_contract s n :
  frames_ok s -> 0 < n -> forall o, alloc_outcome s n o ->
  exists r s', o = Ret r s' /\ frames_ok s' /\ same_rest s s'
  /\ ((r = 0 /\ s' = s) \/ 0 < n /\ exists a, r = PHYS_TO_VIRT a /\ fresh reserved s s' a n).
Proof.
  intros Hs Hn o (r & s' & -> & Hs' & H). exists r, s'. split; [done|].
  destruct H as [(-> & -> & _)|(i & p & (Hrun & _) & -> & Ht)].
  - split; [done|]. split; [reflexivity|]. by left.
  - split; [split; [done|by eapply taken_once]|].
    split; [apply (tk_rest _ _ _ _ _ Ht)|]. right. split; [done|].
    eexists. split; [done|]. by eapply taken_fresh.
Qed.

Lemma pmm_alloc_page_contract s :
  frames_ok s ->
  exists r s', pmm_alloc_page s = Ret r s' /\ frames_ok s' /\ same_rest s s'
  /\ ((r = 0 /\ s' = s) \/ exists a, r = PHYS_TO_VIRT a /\ fresh reserved s s' a 1).
Proof.
  intros Hs. unfold pmm_alloc_page.
  rewrite alloc_page_is_pages by (apply Hs || apply order_down_lt).
  destruct (alloc_contract s 1 Hs ltac:(lia) _ (alloc_pages_all s 1 (proj1 Hs) ltac:(lia)))
    as (r & s' & ? & ? & ? & [?|[_ ?]]); eauto 10.
Qed.

Lemma pmm_alloc_pages_contract s n :
  frames_ok s -> 0 <= n ->
  exists r s', pmm_alloc_pages n s = Ret r s' /\ frames_ok s' /\ same_rest s s'
  /\ ((r = 0 /\ s' = s) \/ 0 < n /\ exists a, r = PHYS_TO_VIRT a /\ fresh reserved s s' a n).
Proof.
  intros Hs Hn. unfold pmm_alloc_pages. destruct (Z.eqb_spec n 0) as [->|].
  { exists 0, s. split; [done|]. split; [done|]. split; [reflexivity|]. by left. }
  destruct (Z.eqb_spec n 1) as [->|]; (apply alloc_contract; [done|lia|]).
  - unfold pmm_alloc_page. rewrite alloc_page_is_pages by (apply Hs || apply order_down_lt).
    apply alloc_pages_all; [apply Hs|lia].
  - apply alloc_pages_all; [apply Hs|lia].
Qed.

(** NULL is returned only when no frame is counted as free. *)
Lemma pmm_alloc_page_left s r s' :
  frames_ok s -> pmm_alloc_page s = Ret r s' ->
  (r = 0 /\ free_total s = 0) \/ (r <> 0 /\ 0 < free_total s /\ free_total s' = free_total s - 1).
Proof.
  intros Hs E. unfold pmm_alloc_page in E.
  rewrite alloc_page_is_pages in E by (apply Hs || apply order_down_lt).
  destruct (alloc_pages_all s 1 (proj1 Hs) ltac:(lia)) as (r1 & s1 & E1 & Hs1 & H).
  rewrite E in E1. injection E1 as <- <-. destruct H as [(-> & -> & Hno)|(i & p & (Hrun & _) & -> & Ht)].
  - left. split; [done|]. apply free_total_zero; [apply Hs|]. intros i q Hq. by eapply Hno, is_free_single.
  - right. pose proof (taken_fresh s s' i p 1 Hs Hs1 ltac:(lia) Hrun Ht) as Hf.
    destruct (fr_range _ _ _ _ _ Hf) as (Ha & _ & Ha2). split; [apply PHYS_TO_VIRT_nonnull; unfold PAGE_SIZE in *; lia|].
    split; [|apply (tk_left _ _ _ _ _ Ht)]. pose proof (free_total_nonneg s (proj1 Hs)).
    destruct (Z.eq_dec (free_total s) 0) as [Hz|]; [|lia].
    exfalso. apply (proj1 (free_total_zero s (proj1 Hs)) Hz i p). apply Hrun. lia.
Qed.

Lemma free_total_same s s' : pmm s' = pmm s -> free_total s' = free_total s.
Proof. unfold free_total. by intros ->. Qed.

Lemma frames_ok_frame s s' :
  frames_ok s -> pmm s' = pmm s ->
  (forall b, reserved s b -> load8 (ram s') b = load8 (ram s) b) ->
  frames_ok s' /\ (forall b, reserved s' b <-> reserved s b).
Proof. intros. split; [by apply (frame_ok s)|]. by apply frame_reserved. Qed.

#[export] Instance pmm_frame_allocator : FrameAllocator pmm_alloc_page pmm_alloc_pages := {
  fa_ok := frames_ok;
  fa_reserved := reserved;
  fa_alloc := pmm_alloc_page_contract;
  fa_alloc_n := pmm_alloc_pages_contract;
  fa_left := free_total;
  fa_left_alloc := pmm_alloc_page_left;
  fa_left_same := free_total_same;
  fa_frame := frames_ok_frame;
}.

(** * Lemmas for the clients, from the contract alone *)
Section clients.
Context {alloc : M Z} {alloc_n : Z -> M Z} {FA : FrameAllocator alloc alloc_n}.

(** A store to bytes that are not reserved. *)
Lemma fa_write s m lo hi :
  fa_ok s -> only_changes lo hi (ram s) m -> (forall b, lo <= b < hi -> ~ fa_reserved s b) ->
  fa_ok (set_ram m s) /\ (forall b, fa_reserved (set_ram m s) b <-> fa_reserved s b).
Proof.
  intros Hs Hm Hr. apply fa_frame; [done..|]. intros b Hb. simpl. apply Hm.
  destruct (Z.leb_spec lo b), (Z.ltb_spec b hi); try lia. exfalso. apply (Hr b); [lia|done].
Qed.

(** A change of the other globals. *)
Lemma fa_rest s s' :
  fa_ok s -> pmm s' = pmm s -> ram s' = ram s ->
  fa_ok s' /\ (forall b, fa_reserved s' b <-> fa_reserved s b).
Proof. intros Hs Hp Hr. apply fa_frame; [done..|]. intros b _. by rewrite Hr. Qed.
End clients.
