(* ===== verification/PmmInit.v ===== *)
(** pmm_init: from the boot loader's memory map to the invariant of the page
    allocator.

    The map is read twice, first for the extent of the zones and then for their
    free frames.  The early allocator gives the first bitmap the address 1 MB,
    which it also keeps its own records at, so the development follows the maps
    that have memory for one zone only, above that bitmap.  The kernel image, which
    the boot loader puts at 1 MB too, is no part of the RAM that is modelled. *)
From S2P Require Import Prelude Machine Globals Strings Pmm PmmFacts Frames.

(** * The memory map *)
Section entries.
Context (m : gmap Z Z) (mmap : Z).

(** The frames of entry [i] are [region_start i, region_end i). *)
Definition region_start (i : Z) : Z :=
  (if entry_start m mmap i <? 0x100000 then 0x100000 else entry_start m mmap i) / PAGE_SIZE.
Definition region_end (i : Z) : Z := entry_end m mmap i / PAGE_SIZE.
Definition usable (i : Z) : bool :=
  (entry_type m mmap i =? MULTIBOOT_MEMORY_AVAILABLE)
  && (entry_start m mmap i <? entry_end m mmap i) && (0x100000 <? entry_end m mmap i).
(** Frame [q] is in one of the first [n] usable entries. *)
Definition available (n q : Z) : Prop :=
  exists i, 0 <= i < n /\ usable i = true /\ region_start i <= q < region_end i.

Lemma entry_aligned i :
  0 <= entry_start m mmap i /\ entry_start m mmap i mod 4096 = 0
  /\ 0 <= entry_end m mmap i /\ entry_end m mmap i mod 4096 = 0.
Proof.
  unfold entry_start, entry_end. pose proof (u64_range (entry_base m mmap i + PAGE_SIZE - 1)).
  pose proof (u64_range (entry_base m mmap i + entry_length m mmap i)).
  rewrite !page_mask_val by done. Z.div_mod_to_equations. lia.
Qed.

(** The clamped start and the end, in bytes. *)
Lemma region_bytes i :
  (if entry_start m mmap i <? 0x100000 then 0x100000 else entry_start m mmap i) = region_start i * 4096
  /\ entry_end m mmap i = region_end i * 4096 /\ 256 <= region_start i.
Proof.
  pose proof (entry_aligned i). unfold region_start, region_end, PAGE_SIZE.
  destruct (Z.ltb_spec (entry_start m mmap i) 0x100000); Z.div_mod_to_equations; lia.
Qed.

(** Other entries have no frames that pmm_init looks at. *)
Lemma usable_region i :
  entry_type m mmap i = MULTIBOOT_MEMORY_AVAILABLE ->
  usable i = (region_start i <? region_end i).
Proof.
  intros Ht. pose proof (region_bytes i) as (Es & Ee & H256). pose proof (entry_aligned i).
  unfold usable. rewrite Ht, Z.eqb_refl, Ee. cbn [andb].
  destruct (Z.ltb_spec (entry_start m mmap i) 0x100000); case_tests; simpl; lia.
Qed.

Lemma usable_lt i : usable i = true -> 256 <= region_start i < region_end i.
Proof.
  intros Hu. split; [apply region_bytes|]. apply Z.ltb_lt. rewrite <- usable_region; [done|].
  unfold usable in Hu. rewrite !andb_true_iff in Hu. apply Z.eqb_eq, Hu.
Qed.

Lemma available_succ n q :
  0 <= n ->
  available (n + 1) q <-> available n q \/ usable n = true /\ region_start n <= q < region_end n.
Proof.
  intros Hn. split.
  - intros (i & Hi & Hu & Hq). destruct (Z.eq_dec i n) as [->|]; [by right|]. left. exists i. split; [lia|done].
  - intros [(i & Hi & ?)|?]; [exists i; split; [lia|done]|]. exists n. split; [lia|done].
Qed.

(** A map with memory in zone [zi] only, from frame [lo] to [hi], behind the
    bitmap that the zone gets at 1 MB. *)
Record one_zone (n : Z) (zi : nat) (lo hi : Z) : Prop := {
  oz_count : 0 <= n <= 2 ^ 28;
  oz_zone : forall i, 0 <= i < n -> usable i = true -> zone_index (entry_end m mmap i) = zi;
  oz_lo : exists i, 0 <= i < n /\ usable i = true /\ region_start i = lo;
  oz_hi : exists i, 0 <= i < n /\ usable i = true /\ region_end i = hi;
  oz_in : forall i, 0 <= i < n -> usable i = true -> lo <= region_start i /\ region_end i <= hi;
  oz_once : forall i j, 0 <= i < n -> 0 <= j < n -> i <> j -> usable i = true -> usable j = true ->
    region_end i <= region_start j \/ region_end j <= region_start i;
  oz_top : hi <= 2 ^ 32;
  oz_room : 0x100000 + 8 * ((hi - lo + 63) / 64) <= lo * PAGE_SIZE;
  oz_kernel : zi = ZONE_NORMAL -> forall q, lo <= q < 0x1000 -> q < hi -> available n q;
}.

(** What is left to hand out: in ZONE_NORMAL the frames below 16 MB are reserved. *)
Definition handed_out (n : Z) (zi : nat) (q : Z) : Prop :=
  available n q /\ (zi = ZONE_NORMAL -> 0x1000 <= q).
End entries.

(** Loops over the entries. *)
Lemma runs_for_entries (Inv : Z -> kst -> Prop) body n i :
  (forall j, i <= j < i + Z.of_nat n -> runs (Inv j) (body j) (fun _ => Inv (j + 1))) ->
  runs (Inv i) (for_entries n i body) (fun _ => Inv (i + Z.of_nat n)).
Proof.
  revert i. induction n as [|n IH]; intros i H; cbn [for_entries].
  - apply runs_ret. intros s. by rewrite Z.add_0_r.
  - eapply runs_bind; [apply H; lia|]. cbv beta. intros _.
    replace (i + Z.of_nat (S n)) with (i + 1 + Z.of_nat n) by lia. apply IH. intros j Hj. apply H. lia.
Qed.

(** * The first pass *)

(** The zones when only [zi] has any memory. *)
Definition only_zone (zi : nat) (z : memory_zone) : list memory_zone :=
  <[zi := z]> [empty_zone; empty_zone; empty_zone].

Lemma only_zone_lookup zi z j z' :
  (zi < ZONE_COUNT)%nat -> only_zone zi z !! j = Some z' -> j = zi /\ z' = z \/ j <> zi /\ z' = empty_zone.
Proof.
  unfold only_zone. intros Hzi H. destruct (decide (j = zi)) as [->|Hne].
  - rewrite list_lookup_insert_eq in H by done. left. by injection H.
  - rewrite list_lookup_insert_ne in H by done. right. split; [done|].
    destruct j as [|[|[|j]]]; [by injection H as <-..|done].
Qed.

Lemma only_zone_at zi z : (zi < ZONE_COUNT)%nat -> only_zone zi z !! zi = Some z.
Proof. intros. by apply list_lookup_insert_eq. Qed.

Lemma only_zone_set zi z z' : <[zi := z']> (only_zone zi z) = only_zone zi z'.
Proof. unfold only_zone. by rewrite list_insert_insert_eq. Qed.

Section extend.
Context (m : gmap Z Z) (mmap n : Z) (zi : nat) (lo hi : Z).
Context (Hmap : one_zone m mmap n zi lo hi).

Lemma zone_in_range : (zi < ZONE_COUNT)%nat.
Proof.
  destruct (oz_lo _ _ _ _ _ _ Hmap) as (i & Hi & Hu & _). rewrite <- (oz_zone _ _ _ _ _ _ Hmap i Hi Hu).
  unfold zone_index, ZONE_DMA, ZONE_DMA32, ZONE_NORMAL, ZONE_COUNT. case_tests; lia.
Qed.

(** The zone after [k] entries: the smallest range that holds their frames. *)
Definition extended (k : Z) (z : memory_zone) : Prop :=
  (z = empty_zone /\ forall i, 0 <= i < k -> usable m mmap i = false)
  \/ exists b e t, z = Zone b e t 0 0 (replicate 13 0) 0 /\ 0 < t <= k * 2 ^ 32
     /\ (exists i, 0 <= i < k /\ usable m mmap i = true /\ region_start m mmap i = b)
     /\ (exists i, 0 <= i < k /\ usable m mmap i = true /\ region_end m mmap i = e)
     /\ forall i, 0 <= i < k -> usable m mmap i = true ->
          b <= region_start m mmap i /\ region_end m mmap i <= e.

(** What init_extend makes of a zone. *)
Definition extend_zone (i : Z) (z : memory_zone) : memory_zone :=
  let start := region_start m mmap i * PAGE_SIZE in
  let e := region_end m mmap i * PAGE_SIZE in
  set_range (if start <? u64 (base_pfn z * PAGE_SIZE) then start / PAGE_SIZE else base_pfn z)
    (if u64 (end_pfn z * PAGE_SIZE) <? e then e / PAGE_SIZE else end_pfn z)
    (u64 (total_pages z + (e - start) / PAGE_SIZE)) z.

Lemma extend_zone_ok k z :
  0 <= k < n -> usable m mmap k = true -> extended k z -> extended (k + 1) (extend_zone k z).
Proof.
  intros Hk Hu Hz. destruct (usable_lt m mmap k Hu) as [H256 Hse].
  destruct (oz_in _ _ _ _ _ _ Hmap k Hk Hu) as [Hlo Hhi].
  pose proof (oz_top _ _ _ _ _ _ Hmap) as Htop. pose proof (oz_count _ _ _ _ _ _ Hmap) as Hn.
  set (rs := region_start m mmap k) in *. set (re := region_end m mmap k) in *.
  unfold extend_zone. fold rs re. unfold PAGE_SIZE.
  replace ((re * 4096 - rs * 4096) / 4096) with (re - rs) by (Z.div_mod_to_equations; lia).
  rewrite !Z.div_mul by lia. right.
  destruct Hz as [[-> Hno]|(b & e & t & -> & Ht & (i1 & Hi1 & Hu1 & Eb) & (i2 & Hi2 & Hu2 & Een) & Hall)].
  - cbn [base_pfn end_pfn total_pages empty_zone]. change (u64 (0xFFFFFFFFFFFFFFFF * 4096)) with (2 ^ 64 - 4096).
    change (u64 (0 * 4096)) with 0. tests. rewrite u64_small by lia.
    exists rs, re, (re - rs). split; [done|]. split; [lia|]. split; [exists k; split; [lia|done]|].
    split; [exists k; split; [lia|done]|]. intros i Hi Hui.
    destruct (Z.eq_dec i k) as [->|]; [lia|]. rewrite Hno in Hui by lia. discriminate.
  - cbn [base_pfn end_pfn total_pages]. destruct (oz_in _ _ _ _ _ _ Hmap i1 ltac:(lia) Hu1).
    destruct (oz_in _ _ _ _ _ _ Hmap i2 ltac:(lia) Hu2). destruct (Hall i1 Hi1 Hu1).
    pose proof (usable_lt m mmap i1 Hu1). pose proof (usable_lt m mmap i2 Hu2).
    rewrite !u64_small by lia.
    exists (if rs * 4096 <? b * 4096 then rs else b), (if e * 4096 <? re * 4096 then re else e), (t + (re - rs)).
    split; [done|]. split; [lia|].
    split; [destruct (Z.ltb_spec (rs * 4096) (b * 4096)); [exists k|exists i1]; (split; [lia|done])|].
    split; [destruct (Z.ltb_spec (e * 4096) (re * 4096)); [exists k|exists i2]; (split; [lia|done])|].
    intros i Hi Hui. destruct (Z.eq_dec i k) as [->|]; [fold rs re; case_tests; lia|].
    destruct (Hall i ltac:(lia) Hui). case_tests; lia.
Qed.

Lemma extended_skip k z :
  0 <= k -> usable m mmap k = false -> extended k z -> extended (k + 1) z.
Proof.
  intros Hk Hu [[-> Hno]|(b & e & t & -> & Ht & (i1 & Hi1 & H1) & (i2 & Hi2 & H2) & Hall)].
  - left. split; [done|]. intros i Hi. destruct (Z.eq_dec i k) as [->|]; [done|]. apply Hno. lia.
  - right. exists b, e, t. split; [done|]. split; [lia|]. split; [exists i1; split; [lia|done]|].
    split; [exists i2; split; [lia|done]|]. intros i Hi Hui.
    destruct (Z.eq_dec i k) as [->|]; [congruence|]. apply Hall; [lia|done].
Qed.

(** The state after [k] entries. *)
Record pass1 (s0 : kst) (k : Z) (s : kst) : Prop := {
  p1_rest : same_globals s0 s;
  p1_ram : ram s = m;
  p1_early : early_bitmap (pmm s) = 0;
  p1_zone : exists z, zones (pmm s) = only_zone zi z /\ extended k z;
}.

Lemma init_extend_run s0 k :
  0 <= k < n -> runs (pass1 s0 k) (init_extend m mmap k) (fun _ => pass1 s0 (k + 1)).
Proof.
  intros Hk s [Hrest Hram Heb (z & Hz & Hext)].
  assert (Hskip : usable m mmap k = false -> pass1 s0 (k + 1) s).
  { intros Hu. split; [done..|]. exists z. split; [done|]. apply extended_skip; [lia|done..]. }
  destruct (region_bytes m mmap k) as (Es & Ee & _).
  unfold init_extend. rewrite Es. rewrite Ee in *. unfold usable in *. rewrite Ee in *.
  destruct (_ =? MULTIBOOT_MEMORY_AVAILABLE) eqn:Et; [|by exists tt, s; auto]. cbn [negb andb] in *.
  destruct (Z.leb_spec (region_end m mmap k * 4096) (entry_start m mmap k)).
  { exists tt, s. split; [done|]. apply Hskip. by test_false. }
  destruct (Z.leb_spec (region_end m mmap k * 4096) 0x100000).
  { exists tt, s. split; [done|]. apply Hskip. rewrite andb_comm. by test_false. }
  assert (Hu : usable m mmap k = true) by (unfold usable; rewrite Et, Ee; tests; done).
  rewrite <- Ee, (oz_zone _ _ _ _ _ _ Hmap k Hk Hu), Ee.
  unfold get_zone, upd_zone. msimpl. rewrite Hz.
  rewrite (list_lookup_total_correct _ _ _ (only_zone_at zi z zone_in_range)), only_zone_set.
  eexists _, _. split; [reflexivity|]. split; [by destruct s, s0|done|done|].
  exists (extend_zone k z). split; [done|]. by apply extend_zone_ok.
Qed.

Lemma first_pass_run s0 :
  runs (pass1 s0 0) (for_entries (Z.to_nat n) 0 (fun i => m' ← gets ram; init_extend m' mmap i))
    (fun _ => pass1 s0 n).
Proof.
  pose proof (oz_count _ _ _ _ _ _ Hmap).
  replace (pass1 s0 n) with (pass1 s0 (0 + Z.of_nat (Z.to_nat n))) by (f_equal; lia).
  apply runs_for_entries. intros j Hj s Hs. rewrite bind_gets, (p1_ram _ _ _ Hs).
  apply init_extend_run; [lia|done].
Qed.

(** At the end the zone's range is the map's. *)
Lemma extended_all z : extended n z -> exists t, 0 < t /\ z = Zone lo hi t 0 0 (replicate 13 0) 0.
Proof.
  destruct (oz_lo _ _ _ _ _ _ Hmap) as (i1 & Hi1 & Hu1 & E1).
  destruct (oz_hi _ _ _ _ _ _ Hmap) as (i2 & Hi2 & Hu2 & E2).
  intros [[-> Hno]|(b & e & t & -> & Ht & (j1 & Hj1 & Hv1 & F1) & (j2 & Hj2 & Hv2 & F2) & Hall)].
  { rewrite Hno in Hu1 by done. discriminate. }
  exists t. split; [lia|]. destruct (Hall i1 Hi1 Hu1), (Hall i2 Hi2 Hu2).
  destruct (oz_in _ _ _ _ _ _ Hmap j1 Hj1 Hv1), (oz_in _ _ _ _ _ _ Hmap j2 Hj2 Hv2).
  f_equal; lia.
Qed.
End extend.

(** * The bitmap *)
Lemma init_bitmap_skip s j :
  zones (pmm s) !! j = Some empty_zone -> init_bitmap j s = Ret tt s.
Proof.
  intros Hj. unfold init_bitmap, get_zone. unfold mbind, M_bind, gets.
  by rewrite (list_lookup_total_correct _ _ _ Hj).
Qed.

(** The bytes from 1 MB on that pmm_init writes: the early allocator's bitmap and
    then, over it, the zone's. *)
Definition init_area (lo hi : Z) : Z := Z.max 0x8000 (8 * ((Z.max 0 (hi - lo) + 63) / 64)).

Lemma load64_ones m a : (forall b, a <= b < a + 8 -> load8 m b = 0xFF) -> load64 m a = 2 ^ 64 - 1.
Proof. intros H. unfold load64. cbn [load_le]. rewrite !H by lia. done. Qed.

Section bitmap.
Context (zi : nat) (lo hi t : Z).
Let z0 : memory_zone := Zone lo hi t 0 0 (replicate 13 0) 0.
Let z1 : memory_zone := Zone lo hi t 0 0x100000 (replicate 13 0) 0.
Context (Hzi : (zi < ZONE_COUNT)%nat) (Ht : 0 < t) (Hlo : lo < hi <= lo + 2 ^ 32).

Lemma init_area_bytes : init_area lo hi = Z.max 0x8000 (bitmap_bytes z1).
Proof. done. Qed.

(** Every frame of the zone is marked as used, and nothing is written but the
    first bytes from 1 MB on. *)
Definition marked (s0 s : kst) : Prop :=
  same_globals s0 s /\ zones (pmm s) = only_zone zi z1
  /\ (forall q, in_zone z1 q -> frame_free (ram s) z1 q = false)
  /\ only_changes 0x100000 (0x100000 + init_area lo hi) (ram s0) (ram s).

Lemma bitmap_size_bytes : zone_bitmap_size z0 = bitmap_bytes z1.
Proof.
  unfold zone_bitmap_size, bitmap_bytes. cbn [end_pfn base_pfn z0 z1].
  rewrite (u64_small (hi - lo)), u64_small, Z.max_r by lia. lia.
Qed.

Lemma low_one_half : one_half 0x100000 (bitmap_bytes z1).
Proof.
  clear Hzi Ht.
  left. unfold bitmap_bytes, KERNEL_HIGHER_HALF. cbn [end_pfn base_pfn z1].
  Z.div_mod_to_equations. lia.
Qed.

(** [s1] comes right after the first pass. *)
Lemma init_bitmap_marks s1 :
  early_bitmap (pmm s1) = 0 -> zones (pmm s1) = only_zone zi z0 ->
  exists s', init_bitmap zi s1 = Ret tt s' /\ marked s1 s'.
Proof.
  intros He Hz. assert (Hi : zones (pmm s1) !! zi = Some z0).
  { rewrite Hz. by apply list_lookup_insert_eq. }
  destruct (bitmap_pages_range z0) as (Hp & Hs & _); [cbn; lia|].
  rewrite (init_bitmap_run _ _ _ Hi) by (cbn; lia).
  destruct (early_alloc_first s1 (zone_bitmap_pages z0) He ltac:(lia)) as (s2 & E2 & _ & Hz2 & Hg & Hf).
  rewrite (bind_ret _ _ _ _ _ E2). unfold upd_zone. msimpl. rewrite Hz2, Hz.
  rewrite (list_lookup_total_correct (only_zone zi z0) zi z0) by by apply list_lookup_insert_eq.
  rewrite bitmap_size_bytes in *. pose proof (bitmap_bytes_nonneg z1) as Hn.
  eexists. split; [reflexivity|]. split; [|split; [|split]]; cbn [pmm ram zones set_zones set_ram set_pmm].
  - etransitivity; [exact Hg|]. by destruct s2.
  - unfold only_zone. by rewrite list_insert_insert_eq.
  - intros q Hq. pose proof (bitmap_bytes_word z1 q Hq). unfold in_zone in Hq. cbn [base_pfn z1] in *.
    unfold frame_free. rewrite bitmap_test_testbit. cbn [bitmap base_pfn z1].
    pose proof (Z.div_pos (q - lo) 64).
    rewrite (lin_shift 0x100000 (bitmap_bytes z1)) by (lia || by apply low_one_half).
    rewrite load64_ones.
    + pose proof (Z.mod_pos_bound (q - lo) 64). rewrite ones_testbit by lia. by tests.
    + intros b Hb. rewrite memset_load. change (lin 0x100000) with 0x100000 in *. by tests.
  - eapply only_changes_trans; [|eapply only_changes_weaken; [apply memset_frame|..]].
    + eapply only_changes_weaken; [exact Hf|lia|]. rewrite init_area_bytes. lia.
    + done.
    + change (lin 0x100000) with 0x100000. rewrite init_area_bytes. lia.
Qed.
End bitmap.

(** Only the bitmap of the zone with memory is made. *)
Lemma init_bitmaps_run zi lo hi t s1 (K : M unit) :
  (zi < ZONE_COUNT)%nat -> 0 < t -> lo < hi <= lo + 2 ^ 32 ->
  early_bitmap (pmm s1) = 0 -> zones (pmm s1) = only_zone zi (Zone lo hi t 0 0 (replicate 13 0) 0) ->
  exists s', (init_bitmap ZONE_DMA;; init_bitmap ZONE_DMA32;; init_bitmap ZONE_NORMAL;; K) s1 = K s'
  /\ marked zi lo hi t s1 s'.
Proof.
  intros Hzi Ht Hlo He Hz. destruct (init_bitmap_marks zi lo hi t Hzi Ht Hlo s1 He Hz) as (s' & E & Hm).
  exists s'. split; [|done]. pose proof Hm as (_ & Hz' & _).
  destruct zi as [|[|[|zi]]]; [..|unfold ZONE_COUNT in *; lia].
  - rewrite (bind_ret _ _ _ _ _ E).
    rewrite (bind_ret _ _ _ _ _ (init_bitmap_skip s' ZONE_DMA32 ltac:(by rewrite Hz'))).
    by rewrite (bind_ret _ _ _ _ _ (init_bitmap_skip s' ZONE_NORMAL ltac:(by rewrite Hz'))).
  - rewrite (bind_ret _ _ _ _ _ (init_bitmap_skip s1 ZONE_DMA ltac:(by rewrite Hz))), (bind_ret _ _ _ _ _ E).
    by rewrite (bind_ret _ _ _ _ _ (init_bitmap_skip s' ZONE_NORMAL ltac:(by rewrite Hz'))).
  - rewrite (bind_ret _ _ _ _ _ (init_bitmap_skip s1 ZONE_DMA ltac:(by rewrite Hz))).
    rewrite (bind_ret _ _ _ _ _ (init_bitmap_skip s1 ZONE_DMA32 ltac:(by rewrite Hz))).
    by rewrite (bind_ret _ _ _ _ _ E).
Qed.

(** * The second pass *)
Lemma bitmap_clear_free m z p q :
  zone_geo z -> in_zone z p -> in_zone z q ->
  frame_free (bitmap_clear m (bitmap z) (p - base_pfn z)) z q = (p =? q) || frame_free m z q.
Proof.
  intros Hg Hp Hq. pose proof (bitmap_bytes_word z p Hp). pose proof (bitmap_bytes_word z q Hq).
  unfold in_zone, frame_free in *. erewrite bitmap_test_clear; [|by apply bitmap_one_half|lia..].
  destruct (Z.eqb_spec p q) as [->|]; [by rewrite Z.eqb_refl|]. by test_false.
Qed.

Lemma count_free_none n m z p :
  (forall q, p <= q < p + Z.of_nat n -> frame_free m z q = false) -> count_free n m z p = 0.
Proof.
  revert p. induction n as [|n IH]; intros p H; cbn [count_free]; [done|].
  rewrite H by lia. rewrite IH; [done|]. intros q Hq. apply H. lia.
Qed.

Section free.
Context (zi : nat) (lo hi t : Z).
Let z1 : memory_zone := Zone lo hi t 0 0x100000 (replicate 13 0) 0.
Context (Hzi : (zi < ZONE_COUNT)%nat) (Ht : 0 < t) (Hlo : 0 <= lo < hi) (Hhi : hi <= 2 ^ 32).

(** The zone when exactly the frames in [P] are free. *)
Record freed (s0 : kst) (P : Z -> Prop) (s : kst) : Prop := {
  fd_rest : same_globals s0 s;
  fd_ram : only_changes 0x100000 (0x100000 + init_area lo hi) (ram s0) (ram s);
  fd_zone : zones (pmm s) = only_zone zi (set_free_pages (count_free (zone_frames z1) (ram s) z1 lo) z1);
  fd_free : forall q, in_zone z1 q -> frame_free (ram s) z1 q = true <-> P q;
}.

Lemma freed_ext s0 P Q s : (forall q, in_zone z1 q -> P q <-> Q q) -> freed s0 P s -> freed s0 Q s.
Proof. intros HPQ [? ? ? Hf]. split; [done..|]. intros q Hq. by rewrite Hf, HPQ. Qed.

Lemma z1_geo : zone_geo z1.
Proof.
  clear Hzi Ht.
  split; cbn [base_pfn end_pfn bitmap z1]; [lia..|]. split; [done|].
  pose proof (low_one_half lo hi t ltac:(lia)) as [?|?]; [|done]. unfold bitmap_bytes in *. cbn in *.
  Z.div_mod_to_equations. lia.
Qed.

Lemma marked_freed s0 s : marked zi lo hi t s0 s -> freed s0 (fun _ => False) s.
Proof.
  intros (Hg & Hz & Hf & Hr). fold z1 in Hz, Hf. split; [done|done| |].
  - rewrite Hz, count_free_none; [done|]. intros q Hq. apply Hf. unfold in_zone, zone_frames in *. cbn in *. lia.
  - intros q Hq. by rewrite Hf.
Qed.

(** One frame. *)
Lemma free_one s0 P e p :
  zone_index e = zi -> in_zone z1 p -> ~ P p ->
  runs (freed s0 P) (init_free_pages 1 e (p * PAGE_SIZE)) (fun _ => freed s0 (fun q => P q \/ q = p)).
Proof.
  intros He Hp Hnp s [Hg Hr Hz Hf]. cbn [init_free_pages]. rewrite He.
  unfold get_zone, upd_zone. msimpl. rewrite Hz.
  set (c := count_free _ _ _ _) in *.
  rewrite (list_lookup_total_correct _ zi (set_free_pages c z1)) by by apply list_lookup_insert_eq.
  unfold PAGE_SIZE. rewrite Z.div_mul by lia. pose proof Hp as Hp'. unfold in_zone in Hp'.
  cbn [total_pages base_pfn end_pfn set_free_pages free_pages bitmap z1] in *. tests. cbn [orb andb negb].
  set (m' := bitmap_clear (ram s) 0x100000 (p - lo)).
  assert (Hm' : forall q, in_zone z1 q -> frame_free m' z1 q = (p =? q) || frame_free (ram s) z1 q)
    by (intros q Hq; apply (bitmap_clear_free (ram s) z1 p q z1_geo Hp Hq)).
  assert (Hc : c = count_free (zone_frames z1) m' z1 lo - 1).
  { apply count_free_take with (a := p); unfold zone_frames in *; cbn [base_pfn end_pfn z1] in *; [lia..| |].
    - intros q Hq. rewrite Hm' by (unfold in_zone; cbn; lia). by test_true.
    - intros q Hq. rewrite Hm' by (unfold in_zone; cbn; lia).
      destruct (Z.eqb_spec p q) as [->|]; [|case_tests; simpl; done || lia].
      tests. simpl. apply not_true_iff_false. rewrite Hf by done. done. }
  pose proof (count_free_range (zone_frames z1) m' z1 lo) as Hcr.
  eexists _, _. split; [reflexivity|]. split; cbn [pmm ram zones set_zones set_ram set_pmm].
  - etransitivity; [exact Hg|]. by destruct s.
  - eapply only_changes_trans; [exact Hr|]. eapply only_changes_weaken.
    + eapply bitmap_clear_frame; [apply (low_one_half lo hi t); lia|lia|apply (bitmap_bytes_word z1 p Hp)].
    + done.
    + change (lin 0x100000) with 0x100000. rewrite (init_area_bytes lo hi t). fold z1. lia.
  - rewrite Hz, (list_lookup_total_correct _ zi (set_free_pages c z1)) by by apply list_lookup_insert_eq.
    unfold only_zone. rewrite list_insert_insert_eq. cbn [free_pages set_free_pages]. f_equal.
    assert (Z.of_nat (zone_frames z1) = hi - lo) by (unfold zone_frames; cbn; lia). rewrite u64_small by lia.
    by replace (c + 1) with (count_free (zone_frames z1) m' z1 lo) by lia.
  - intros q Hq. rewrite Hm' by done. rewrite orb_true_iff, Hf, Z.eqb_eq by done. naive_solver.
Qed.

Lemma init_free_pages_S k e addr s :
  init_free_pages (S k) e addr s = (init_free_pages 1 e addr;; init_free_pages k e (addr + PAGE_SIZE)) s.
Proof. cbn [init_free_pages]. unfold get_zone, upd_zone. msimpl. by destruct (_ && _). Qed.

(** The frames of an entry. *)
Lemma free_frames s0 P e k p :
  zone_index e = zi -> lo <= p -> p + Z.of_nat k <= hi -> (forall q, p <= q < p + Z.of_nat k -> ~ P q) ->
  runs (freed s0 P) (init_free_pages k e (p * PAGE_SIZE)) (fun _ => freed s0 (fun q => P q \/ p <= q < p + Z.of_nat k)).
Proof.
  intros He. revert P p. induction k as [|k IH]; intros P p Hp Hk Hno.
  - apply runs_ret. intros s. apply freed_ext. intros q _. intuition lia.
  - intros s Hs. rewrite init_free_pages_S. revert s Hs. change (runs (freed s0 P)
      (init_free_pages 1 e (p * PAGE_SIZE);; init_free_pages k e (p * PAGE_SIZE + PAGE_SIZE))
      (fun _ => freed s0 (fun q => P q \/ p <= q < p + Z.of_nat (S k)))).
    eapply runs_bind; [apply free_one; [done|unfold in_zone; cbn; lia|apply Hno; lia]|]. cbv beta. intros _ s Hs.
    replace (p * PAGE_SIZE + PAGE_SIZE) with ((p + 1) * PAGE_SIZE) by lia.
    destruct (IH (fun q => P q \/ q = p) (p + 1) ltac:(lia) ltac:(lia)) with (s := s) as ([] & s' & E & Hs'); [|done|].
    + intros q Hq [HP| ->]; [|lia]. apply (Hno q); [lia|done].
    + exists tt, s'. split; [done|]. eapply freed_ext; [|exact Hs']. intros q _. cbv beta. intuition lia.
Qed.

(** One frame of the reservation. *)
Lemma reserve_one s0 P p :
  zi = ZONE_NORMAL -> in_zone z1 p -> P p ->
  runs (freed s0 P) (init_reserve 1 p) (fun _ => freed s0 (fun q => P q /\ q <> p)).
Proof.
  intros He Hp HP s [Hg Hr Hz Hf]. cbn [init_reserve]. rewrite <- He. unfold get_zone, upd_zone. msimpl. rewrite Hz.
  set (c := count_free _ _ _ _) in *.
  rewrite (list_lookup_total_correct _ zi (set_free_pages c z1)) by by apply list_lookup_insert_eq.
  pose proof Hp as Hp'. unfold in_zone in Hp'. cbn [base_pfn end_pfn set_free_pages free_pages bitmap z1] in *. tests.
  cbn [negb]. set (m' := bitmap_set (ram s) 0x100000 (p - lo)).
  assert (Hm' : forall q, in_zone z1 q -> frame_free m' z1 q = negb ((p <=? q) && (q <? p + 1)) && frame_free (ram s) z1 q)
    by (intros q Hq; apply (mark_run_free z1 z1_geo 1); cbn [base_pfn end_pfn z1] in *; done || lia).
  assert (Hc : count_free (zone_frames z1) m' z1 lo = c - 1).
  { apply count_free_take with (a := p); unfold zone_frames in *; cbn [base_pfn end_pfn z1] in *; [lia..| |].
    - intros q Hq. replace q with p by lia. by apply Hf.
    - intros q Hq. apply Hm'. unfold in_zone. cbn. lia. }
  pose proof (count_free_range (zone_frames z1) m' z1 lo) as Hcr. tests. cbn [whenM].
  eexists _, _. split; [reflexivity|]. split; cbn [pmm ram zones set_zones set_ram set_pmm].
  - etransitivity; [exact Hg|]. by destruct s.
  - eapply only_changes_trans; [exact Hr|]. eapply only_changes_weaken.
    + apply (mark_run_frame z1 z1_geo 1 _ p); cbn [base_pfn end_pfn z1] in *; lia.
    + done.
    + cbn [bitmap z1]. rewrite (init_area_bytes lo hi t). fold z1. lia.
  - rewrite Hz, (list_lookup_total_correct _ zi (set_free_pages c z1)) by by apply list_lookup_insert_eq.
    unfold only_zone. rewrite list_insert_insert_eq. fold m'. by rewrite Hc.
  - intros q Hq. rewrite Hm' by done. rewrite andb_true_iff, Hf by done. case_tests; cbn [andb negb]; intuition (lia || done).
Qed.

Lemma init_reserve_S k p s :
  p < end_pfn (zones (pmm s) !!! ZONE_NORMAL) ->
  init_reserve (S k) p s = (init_reserve 1 p;; init_reserve k (p + 1)) s.
Proof.
  intros Hp. cbn [init_reserve]. unfold get_zone, upd_zone. msimpl. tests. cbn [negb].
  destruct (base_pfn _ <=? p); cbn [whenM]; [|done]. msimpl. by destruct (0 <? _).
Qed.

(** The frames from [p] on, which are all free. *)
Lemma reserve_frames s0 P k p :
  zi = ZONE_NORMAL -> (forall q, in_zone z1 q -> p <= q < p + Z.of_nat k -> P q) ->
  runs (freed s0 P) (init_reserve k p) (fun _ => freed s0 (fun q => P q /\ ~ p <= q < p + Z.of_nat k)).
Proof.
  intros He. revert P p. induction k as [|k IH]; intros P p HP s Hs.
  { exists tt, s. split; [done|]. eapply freed_ext; [|exact Hs]. intros q _. intuition lia. }
  assert (Ez : zones (pmm s) !!! ZONE_NORMAL = set_free_pages (count_free (zone_frames z1) (ram s) z1 lo) z1)
    by (rewrite (fd_zone _ _ _ Hs), <- He; by apply list_lookup_total_correct, only_zone_at).
  destruct (Z.le_gt_cases hi p) as [Hge|Hlt].
  { exists tt, s. split; [cbn [init_reserve]; unfold get_zone; msimpl; rewrite Ez; cbn [end_pfn set_free_pages z1]; by tests|].
    eapply freed_ext; [|exact Hs]. intros q Hq. unfold in_zone in Hq. cbn [end_pfn z1] in Hq. intuition lia. }
  assert (E : runs (freed s0 P) (init_reserve 1 p) (fun _ => freed s0 (fun q => P q /\ q <> p))).
  { destruct (Z.le_gt_cases lo p) as [Hl|Hl].
    { apply reserve_one; [done|split; cbn; lia|]. apply HP; [split; cbn; lia|lia]. }
    intros s' Hs'. exists tt, s'. split.
    - cbn [init_reserve]. unfold get_zone. msimpl. rewrite (fd_zone _ _ _ Hs'), <- He.
      rewrite (list_lookup_total_correct _ _ _ (only_zone_at _ _ Hzi)). cbn [end_pfn base_pfn set_free_pages z1]. by tests.
    - eapply freed_ext; [|exact Hs']. intros q [Hq _]. cbn [base_pfn z1] in Hq. intuition lia. }
  rewrite init_reserve_S by (rewrite Ez; cbn; lia).
  destruct (E s Hs) as ([] & s1 & E1 & Hs1). rewrite (bind_ret _ _ _ _ _ E1).
  destruct (IH (fun q => P q /\ q <> p) (p + 1)) with (s := s1) as ([] & s2 & E2 & Hs2); [|done|].
  { intros q Hq Hr. split; [apply HP; [done|lia]|lia]. }
  exists tt, s2. split; [done|]. eapply freed_ext; [|exact Hs2]. intros q _. cbv beta. intuition lia.
Qed.
End free.

(** * The reservation for the kernel *)
Lemma init_reserve_none k p s z :
  zones (pmm s) !! ZONE_NORMAL = Some z -> end_pfn z <= p -> init_reserve k p s = Ret tt s.
Proof.
  intros Hz Hp. destruct k as [|k]; [done|]. cbn [init_reserve].
  unfold get_zone. rewrite bind_gets, (list_lookup_total_correct _ _ _ Hz). by tests.
Qed.

(** The map stays in memory that pmm_init does not write. *)
Definition map_apart (mmap n size : Z) : Prop :=
  one_half mmap (16 + 24 * n)
  /\ (lin mmap + 16 + 24 * n <= 0x100000 \/ 0x100000 + size <= lin mmap).

Lemma entry_kept m m' mmap n size i :
  map_apart mmap n size -> only_changes 0x100000 (0x100000 + size) m m' -> 0 <= i < n ->
  entry_base m' mmap i = entry_base m mmap i /\ entry_length m' mmap i = entry_length m mmap i
  /\ entry_type m' mmap i = entry_type m mmap i.
Proof.
  intros [Hh Ha] Hm Hi. unfold entry_base, entry_length, entry_type.
  rewrite <- !(Z.add_assoc mmap), !(lin_shift mmap (16 + 24 * n)) by (done || lia).
  split; [|split]; apply load_le_ext; intros b Hb; apply Hm; lia.
Qed.

Section second.
Context (m : gmap Z Z) (mmap n : Z) (zi : nat) (lo hi t : Z).
Context (Hmap : one_zone m mmap n zi lo hi) (Ht : 0 < t) (Hap : map_apart mmap n (init_area lo hi)).

Lemma one_zone_range : 256 <= lo < hi /\ hi <= 2 ^ 32.
Proof.
  destruct (oz_lo _ _ _ _ _ _ Hmap) as (i & Hi & Hu & E). pose proof (usable_lt _ _ _ Hu).
  destruct (oz_in _ _ _ _ _ _ Hmap i Hi Hu). pose proof (oz_top _ _ _ _ _ _ Hmap). lia.
Qed.

Lemma init_free_run s0 k :
  ram s0 = m -> 0 <= k < n ->
  runs (freed zi lo hi t s0 (available m mmap k)) (m' ← gets ram; init_free m' mmap k)
    (fun _ => freed zi lo hi t s0 (available m mmap (k + 1))).
Proof.
  intros H0 Hk s Hs. pose proof one_zone_range as Hr. rewrite bind_gets. pose proof (fd_ram _ _ _ _ _ _ _ Hs) as Hram.
  rewrite H0 in Hram. destruct (entry_kept _ _ _ _ _ _ Hap Hram Hk) as (Eb & El & Et).
  destruct (region_bytes m mmap k) as (Es & Ee & _). pose proof (usable_region m mmap k) as Hu.
  unfold init_free. rewrite Et. unfold entry_start, entry_end in *. rewrite Eb, El, Es, Ee.
  assert (Hskip : usable m mmap k = false -> freed zi lo hi t s0 (available m mmap (k + 1)) s).
  { intros Hf. eapply freed_ext; [|exact Hs]. intros q _. rewrite available_succ by lia. rewrite Hf. intuition done. }
  destruct (Z.eqb_spec (entry_type m mmap k) MULTIBOOT_MEMORY_AVAILABLE) as [Ety|Hty]; cbn [negb].
  2:{ exists tt, s. split; [done|]. apply Hskip. unfold usable. by rewrite (proj2 (Z.eqb_neq _ _) Hty). }
  specialize (Hu Ety). replace (_ / PAGE_SIZE) with (region_end m mmap k - region_start m mmap k)
    by (unfold PAGE_SIZE; Z.div_mod_to_equations; lia).
  destruct (usable m mmap k) eqn:Eu.
  - destruct (oz_in _ _ _ _ _ _ Hmap k Hk Eu) as [Hlo Hhi]. pose proof (usable_lt _ _ _ Eu) as Hlt.
    destruct (free_frames zi lo hi t (zone_in_range _ _ _ _ _ _ Hmap) Ht ltac:(lia) ltac:(lia) s0
      (available m mmap k) (region_end m mmap k * 4096) (Z.to_nat (region_end m mmap k - region_start m mmap k))
      (region_start m mmap k)) with (s := s) as ([] & s' & E & Hs'); [|lia|lia| |done|].
    + rewrite <- Ee. by apply (oz_zone _ _ _ _ _ _ Hmap).
    + intros q Hq (j & Hj & Hju & Hjq).
      destruct (oz_once _ _ _ _ _ _ Hmap k j Hk ltac:(lia) ltac:(lia) Eu Hju); lia.
    + exists tt, s'. split; [exact E|]. eapply freed_ext; [|exact Hs']. intros q _. cbv beta.
      rewrite available_succ, Eu by lia. intuition lia.
  - symmetry in Hu. apply Z.ltb_ge in Hu. rewrite Z2Nat.nonpos by lia. exists tt, s. split; [done|]. by apply Hskip.
Qed.

Lemma second_pass_run s0 :
  ram s0 = m ->
  runs (freed zi lo hi t s0 (available m mmap 0)) (for_entries (Z.to_nat n) 0 (fun i => m' ← gets ram; init_free m' mmap i))
    (fun _ => freed zi lo hi t s0 (available m mmap n)).
Proof.
  intros H0. pose proof (oz_count _ _ _ _ _ _ Hmap).
  replace (available m mmap n) with (available m mmap (0 + Z.of_nat (Z.to_nat n))) by (f_equal; lia).
  apply (runs_for_entries (fun k => freed zi lo hi t s0 (available m mmap k))). intros j Hj.
  apply init_free_run; [done|lia].
Qed.

Lemma reserve_run s0 :
  runs (freed zi lo hi t s0 (available m mmap n)) (init_reserve (N.to_nat 0x1000) 0)
    (fun _ => freed zi lo hi t s0 (handed_out m mmap n zi)).
Proof.
  pose proof one_zone_range as Hr. pose proof (zone_in_range _ _ _ _ _ _ Hmap) as Hzi.
  intros s Hs. destruct (decide (zi = ZONE_NORMAL)) as [Ez|Ez].
  - destruct (reserve_frames zi lo hi t Hzi ltac:(lia) ltac:(lia) s0 (available m mmap n) (N.to_nat 0x1000) 0 Ez)
      with (s := s) as ([] & s' & E & Hs'); [|done|].
    { intros q [Hq1 Hq2] Hq. cbn in Hq1, Hq2. apply (oz_kernel _ _ _ _ _ _ Hmap Ez); lia. }
    exists tt, s'. split; [done|]. eapply freed_ext; [|exact Hs']. intros q [Hq _]. cbn in Hq.
    unfold handed_out. replace (Z.of_nat (N.to_nat 0x1000)) with 0x1000 by lia. intuition lia.
  - exists tt, s. split.
    + apply (init_reserve_none _ _ _ empty_zone); [|done]. rewrite (fd_zone _ _ _ _ _ _ _ Hs).
      unfold only_zone. by rewrite list_lookup_insert_ne.
    + eapply freed_ext; [|exact Hs]. intros q _. unfold handed_out. intuition done.
Qed.
End second.

(** * The invariant *)
Lemma freed_pmm_ok zi lo hi t s0 P s :
  (zi < ZONE_COUNT)%nat -> 0 < t -> 0 <= lo < hi -> hi <= 2 ^ 32 ->
  0x100000 + 8 * ((hi - lo + 63) / 64) <= lo * PAGE_SIZE ->
  freed zi lo hi t s0 P s ->
  pmm_ok s /\ frames_once s /\ forall i q, is_free s i q <-> i = zi /\ lo <= q < hi /\ P q.
Proof.
  intros Hzi Ht Hlo Hhi Hroom [Hg Hr Hz Hf]. set (z1 := Zone lo hi t 0 0x100000 (replicate 13 0) 0) in *.
  set (z := set_free_pages _ z1) in Hz.
  assert (Hgeo : zone_geo z) by (destruct (z1_geo lo hi t Hlo Hhi); by split).
  assert (Hbytes : bitmap_bytes z = 8 * ((hi - lo + 63) / 64)) by (unfold bitmap_bytes; cbn; f_equal; f_equal; lia).
  assert (Hsmall : 0 <= (hi - lo + 63) / 64 <= 2 ^ 27) by (Z.div_mod_to_equations; lia).
  assert (Hlook : forall j z', zones (pmm s) !! j = Some z' -> j = zi /\ z' = z \/ j <> zi /\ z' = empty_zone).
  { intros j z'. rewrite Hz. by apply only_zone_lookup. }
  assert (Hfree : forall i q, is_free s i q <-> i = zi /\ lo <= q < hi /\ P q).
  { intros i q. split.
    - intros (z' & Hz' & Hq & Hfq). destruct (Hlook _ _ Hz') as [[-> ->]|[_ ->]]; [|unfold in_zone in Hq; cbn in Hq; lia].
      split; [done|]. split; [done|]. by apply Hf.
    - intros (-> & Hq & HP). exists z. split; [rewrite Hz; by apply list_lookup_insert_eq|]. split; [done|].
      by apply (Hf q). }
  split; [split|split; [|done]].
  - rewrite Hz. unfold only_zone. by rewrite length_insert.
  - intros j z' Hz'. destruct (Hlook _ _ Hz') as [[-> ->]|[_ ->]].
    { split; [done| |done]. by apply (count_free_ext (zone_frames z1)). }
    split; [split; vm_compute; repeat split; discriminate|by vm_compute|done].
  - intros i j z2 z3 H2 H3. destruct (Hlook _ _ H2) as [[_ ->]|[_ ->]], (Hlook _ _ H3) as [[_ ->]|[_ ->]];
      unfold bitmap_off_frames, ranges_disjoint; rewrite ?Hbytes; cbn [bitmap base_pfn end_pfn z z1 set_free_pages empty_zone];
      change (bitmap_bytes empty_zone) with 0; unfold PAGE_SIZE in *; lia.
  - intros i j z2 z3 H2 H3 Hne. destruct (Hlook _ _ H2) as [[-> ->]|[_ ->]], (Hlook _ _ H3) as [[-> ->]|[_ ->]];
      unfold bitmaps_apart, ranges_disjoint; rewrite ?Hbytes; cbn [bitmap z z1 set_free_pages empty_zone];
      change (bitmap_bytes empty_zone) with 0; lia || done.
  - intros i j q Hi Hj. apply Hfree in Hi as [-> _], Hj as [-> _]. done.
Qed.

(** The allocator's bytes are the bitmap's and those of free frames. *)
Lemma freed_reserved zi lo hi t s0 P s b :
  (zi < ZONE_COUNT)%nat -> 0 < t -> 0 <= lo < hi -> hi <= 2 ^ 32 ->
  0x100000 + 8 * ((hi - lo + 63) / 64) <= lo * PAGE_SIZE ->
  freed zi lo hi t s0 P s -> reserved s b ->
  0x100000 <= b < 0x100000 + init_area lo hi \/ P (b / PAGE_SIZE).
Proof.
  intros Hzi Ht Hlo Hhi Hroom Hf. destruct (freed_pmm_ok _ _ _ _ _ _ _ Hzi Ht Hlo Hhi Hroom Hf) as (_ & _ & Hfree).
  intros [(i & z & Hi & Hb)|(i & q & Hq & ->%in_frame_div)]; [left|right; by destruct (proj1 (Hfree _ _) Hq) as (_ & _ & ?)].
  rewrite (fd_zone _ _ _ _ _ _ _ Hf) in Hi.
  destruct (only_zone_lookup _ _ _ _ Hzi Hi) as [[_ ->]|[_ ->]]; [|cbn in Hb; change (bitmap_bytes empty_zone) with 0 in Hb; lia].
  rewrite (init_area_bytes lo hi t). change (bitmap_bytes (set_free_pages _ ?z)) with (bitmap_bytes z) in Hb. cbn in Hb |- *. lia.
Qed.

(** * pmm_init *)

(** The kernel starts in [s] with such a map of [n] entries at [mmap]. *)
Record starts_with (s : kst) (fuel : nat) (mb_info_phys mmap n : Z) (zi : nat) (lo hi : Z) : Prop := {
  sw_find : find_mmap fuel (ram s) (PHYS_TO_VIRT mb_info_phys + 8) = Some mmap;
  sw_mmap : mmap <> 0;
  sw_size : mmap_entry_size (ram s) mmap <> 0;
  sw_count : mmap_num_entries (ram s) mmap = n;
  sw_map : one_zone (ram s) mmap n zi lo hi;
  sw_apart : map_apart mmap n (init_area lo hi);
  sw_early : early_bitmap (pmm s) = 0;
}.

Lemma pmm_init_run s fuel mb_info_phys mmap n zi lo hi :
  starts_with s fuel mb_info_phys mmap n zi lo hi ->
  exists s', pmm_init fuel mb_info_phys s = Ret tt s' /\ frames_ok s'
  /\ (forall i q, is_free s' i q <-> i = zi /\ handed_out (ram s) mmap n zi q)
  /\ same_globals s s' /\ only_changes 0x100000 (0x100000 + init_area lo hi) (ram s) (ram s')
  /\ (forall b, reserved s' b ->
        0x100000 <= b < 0x100000 + init_area lo hi \/ available (ram s) mmap n (b / PAGE_SIZE)).
Proof.
  intros [Hfind Hnz Hsz Hcount Hmap Hap Heb]. pose proof (one_zone_range _ _ _ _ _ _ Hmap) as Hr.
  pose proof (zone_in_range _ _ _ _ _ _ Hmap) as Hzi.
  unfold pmm_init, kprintf. rewrite bind_emit, bind_gets. cbn [ram set_trace]. rewrite Hfind.
  rewrite (proj2 (Z.eqb_neq _ _) Hnz), (proj2 (Z.eqb_neq _ _) Hsz), bind_modify, Hcount.
  set (sz := set_pmm _ _).
  assert (H0 : pass1 (ram s) mmap zi sz 0 sz).
  { split; [done|done|done|]. exists empty_zone. split; [destruct zi as [|[|[|]]]; done|].
    left. split; [done|]. intros i ?. lia. }
  destruct (first_pass_run _ _ _ _ _ _ Hmap sz sz H0) as ([] & s1 & E1 & [Hg1 Hm1 He1 (z & Hz1 & Hext)]).
  rewrite (bind_ret _ _ _ _ _ E1). destruct (extended_all _ _ _ _ _ _ Hmap z Hext) as (t & Ht & ->).
  edestruct (init_bitmaps_run zi lo hi t s1) as (s2 & -> & Hm2); [done|done|lia|done|done|].
  assert (Hf2 : freed zi lo hi t s1 (fun _ => False) s2) by (apply marked_freed; done || lia).
  assert (Hf20 : freed zi lo hi t s1 (available (ram s) mmap 0) s2).
  { eapply freed_ext; [|exact Hf2]. intros q _. split; [done|]. intros (i & ? & _). lia. }
  destruct (second_pass_run _ _ _ _ _ _ t Hmap Ht Hap s1 Hm1 s2 Hf20) as ([] & s3 & E3 & Hf3).
  rewrite (bind_ret _ _ _ _ _ E3).
  destruct (reserve_run _ _ _ _ _ _ t Hmap s1 s3 Hf3) as ([] & s4 & E4 & Hf4).
  destruct (freed_pmm_ok zi lo hi t s1 _ s4 Hzi Ht ltac:(lia) ltac:(lia) (oz_room _ _ _ _ _ _ Hmap) Hf4)
    as (Hok & Honce & Hfree).
  rewrite (bind_ret _ _ _ _ _ E4), bind_gets. eexists. split; [reflexivity|].
  pose proof (fd_ram _ _ _ _ _ _ _ Hf4) as Hram. rewrite Hm1 in Hram.
  split; [by apply (frames_ok_frame s4)|]. split; [|split; [|split; [exact Hram|]]].
  - intros i q. change (is_free (set_trace _ s4) i q) with (is_free s4 i q). rewrite Hfree.
    split; [by intros (? & _ & ?)|]. intros [-> Hq]. split; [done|]. split; [|done].
    destruct Hq as [(j & Hj & Hu & Hq) _]. destruct (oz_in _ _ _ _ _ _ Hmap j Hj Hu). lia.
  - transitivity s4; [|by destruct s4]. transitivity s1; [|apply (fd_rest _ _ _ _ _ _ _ Hf4)].
    transitivity sz; [by destruct s|done].
  - intros b Hb. destruct (freed_reserved zi lo hi t s1 (handed_out (ram s) mmap n zi) s4 b) as [?|[? _]]; auto; [lia..|].
    apply (oz_room _ _ _ _ _ _ Hmap).
Qed.

(** C1 pmm_init turns the boot loader's memory map into the invariant the rest
    of the kernel relies on: it returns, the allocator's state is well formed
    ([pmm_ok]: counters, locks and bitmaps agree and no bitmap lies in memory
    that is handed out), and the free frames are exactly those of the available
    entries above 1 MB, less the frames below 16 MB if they are in ZONE_NORMAL.
    Nothing has been written but the bitmap at 1 MB.

    The maps are those of [starts_with]: the tags end in a memory map outside the
    area at 1 MB, every usable entry is in the same zone and none overlaps
    another, the frames of that zone are below 2^32 and all behind its bitmap, and
    if it is ZONE_NORMAL (with an entry that ends above 4 GB) all its frames below
    16 MB are available: the loop that reserves them decrements free_pages for
    each one, free or not. *)
Theorem pmm_init_establishes (s : kst) (fuel : nat) (mb_info_phys mmap n : Z) (zi : nat) (lo hi : Z) :
  starts_with s fuel mb_info_phys mmap n zi lo hi ->
  exists s', pmm_init fuel mb_info_phys s = Ret tt s' /\ pmm_ok s'
  /\ (forall i q, is_free s' i q <-> i = zi /\ handed_out (ram s) mmap n zi q)
  /\ same_globals s s' /\ only_changes 0x100000 (0x100000 + init_area lo hi) (ram s) (ram s').
Proof.
  intros Hs. destruct (pmm_init_run _ _ _ _ _ _ _ _ Hs) as (s' & E & [Hok _] & Hfree & Hg & Hr & _).
  by exists s'.
Qed.

Module InitExample.
(** A boot information block at 0x9000 whose map has five entries: 640 KB of low
    memory, a reserved range, two available ranges with a hole between them, and
    an empty one. *)
Definition mb_info : Z := 0x9000.
Definition entry (base len type : Z) : list Z := le_split 8 base ++ le_split 8 len ++ le_split 4 type ++ le_split 4 0.
Definition mem : gmap Z Z :=
  store_bytes ∅ (mb_info + 8)
    (le_split 4 6 ++ le_split 4 136 ++ le_split 4 24 ++ le_split 4 0
     ++ entry 0 0xA0000 1 ++ entry 0xF0000 0x10000 2 ++ entry 0x200000 0x80800 1 ++ entry 0x300000 0x10000 1
     ++ entry 0x400000 0x100 1 ++ le_split 4 0 ++ le_split 4 8).
Definition s : kst :=
  Kst mem [] (Pmm [] 0 0 0) (Heap [] 0 false) 0 0 (Sched [] 0 0 ∅) (Net 0 0 0 0 0 0 0 0 [] [] 0) plat_initial.
Definition mmap : Z := PHYS_TO_VIRT mb_info + 8.

Lemma five i : 0 <= i < 5 -> i = 0 \/ i = 1 \/ i = 2 \/ i = 3 \/ i = 4.
Proof. lia. Qed.

Lemma s_map : one_zone mem mmap 5 ZONE_DMA 0x200 0x310.
Proof.
  split.
  - lia.
  - intros i [->|[->|[->|[->| ->]]]]%five; by vm_compute.
  - exists 2. split; [lia|]. split; by vm_compute.
  - exists 3. split; [lia|]. split; by vm_compute.
  - intros i [->|[->|[->|[->| ->]]]]%five; vm_compute; intuition discriminate.
  - intros i j [->|[->|[->|[->| ->]]]]%five [->|[->|[->|[->| ->]]]]%five; vm_compute; intuition discriminate.
  - lia.
  - by vm_compute.
  - done.
Qed.

Lemma s_starts : starts_with s 2 mb_info mmap 5 ZONE_DMA 0x200 0x310.
Proof.
  split; [by vm_compute|done|by vm_compute|by vm_compute|apply s_map| |done].
  split; [right; by vm_compute|left; by vm_compute].
Qed.
End InitExample.

(** A map with one range from 2 MB to 5 GB, which is all in ZONE_NORMAL. *)
Module NormalExample.
Definition mem : gmap Z Z :=
  store_bytes ∅ (InitExample.mb_info + 8)
    (le_split 4 6 ++ le_split 4 64 ++ le_split 4 24 ++ le_split 4 0
     ++ InitExample.entry 0 0xA0000 1 ++ InitExample.entry 0x200000 0x13FE00000 1 ++ le_split 4 0 ++ le_split 4 8).
Definition s : kst := set_ram mem InitExample.s.

Lemma two i : 0 <= i < 2 -> i = 0 \/ i = 1.
Proof. lia. Qed.

Lemma normal_map : one_zone mem InitExample.mmap 2 ZONE_NORMAL 0x200 0x140000.
Proof.
  split.
  - lia.
  - intros i [->| ->]%two; by vm_compute.
  - exists 1. split; [lia|]. split; by vm_compute.
  - exists 1. split; [lia|]. split; by vm_compute.
  - intros i [->| ->]%two; vm_compute; intuition discriminate.
  - intros i j [->| ->]%two [->| ->]%two; vm_compute; intuition discriminate.
  - lia.
  - by vm_compute.
  - intros _ q Hq1 Hq2. exists 1. split; [lia|]. split; [by vm_compute|].
    change (0x200 <= q < 0x140000). lia.
Qed.

Lemma normal_starts : starts_with s 2 InitExample.mb_info InitExample.mmap 2 ZONE_NORMAL 0x200 0x140000.
Proof.
  split; [by vm_compute|done|by vm_compute|by vm_compute|apply normal_map| |done].
  split; [right; by vm_compute|left; by vm_compute].
Qed.
End NormalExample.

(** There frame 0x200, at 2 MB, is not free and frame 0x1000, at 16 MB, is. *)
Lemma pmm_init_establishes_witness :
  exists s', pmm_init 2 InitExample.mb_info NormalExample.s = Ret tt s' /\ pmm_ok s'
  /\ (forall i q, is_free s' i q <-> i = ZONE_NORMAL /\ handed_out NormalExample.mem InitExample.mmap 2 ZONE_NORMAL q)
  /\ same_globals NormalExample.s s'
  /\ only_changes 0x100000 (0x100000 + init_area 0x200 0x140000) (ram NormalExample.s) (ram s').
Proof.
  apply (pmm_init_establishes NormalExample.s 2 InitExample.mb_info InitExample.mmap 2 ZONE_NORMAL 0x200 0x140000).
  apply NormalExample.normal_starts.
Defined.
