(* ===== verification/Kmalloc.v ===== *)
(** kmalloc.c: the kernel heap.

    [slabs], [kmalloc_lock] and [kmalloc_initialized] are the static variables;
    a slab header (next, magic, size: 16 bytes) lies in RAM before each object. *)
From S2P Require Import Prelude Machine Globals Strings Pmm.

(** * struct slab_header *)
Definition SLAB_HEADER_SIZE : Z := 16.
Definition SLAB_MAGIC : Z := 0xDEADBEEF.
Definition hdr_next (m : gmap Z Z) (h : Z) : Z := load64 m (lin h).
Definition hdr_magic (m : gmap Z Z) (h : Z) : Z := load32 m (lin (h + 8)).
Definition hdr_size (m : gmap Z Z) (h : Z) : Z := load32 m (lin (h + 12)).
Definition set_hdr_next (h v : Z) (m : gmap Z Z) : gmap Z Z := store64 m (lin h) v.
Definition set_hdr_magic (h v : Z) (m : gmap Z Z) : gmap Z Z := store32 m (lin (h + 8)) v.
Definition set_hdr_size (h v : Z) (m : gmap Z Z) : gmap Z Z := store32 m (lin (h + 12)) v.

(** * The static variables *)
#[export] Instance slab_cache_inhabited : Inhabited slab_cache := populate (Slab 0 0 0 0).
Definition get_slab (i : nat) : M slab_cache := gets (fun s => slabs (heap s) !!! i).
Definition upd_slab (i : nat) (f : slab_cache -> slab_cache) : M unit :=
  modify (fun s =>
    set_heap (Heap (<[i := f (slabs (heap s) !!! i)]> (slabs (heap s)))
                (kmalloc_lock (heap s)) (kmalloc_initialized (heap s))) s).

Definition set_free_list (p : Z) (c : slab_cache) : slab_cache :=
  Slab (slab_size c) p (allocations c) (frees c).
Definition inc_allocations (c : slab_cache) : slab_cache :=
  Slab (slab_size c) (free_list c) (u64 (allocations c + 1)) (frees c).
Definition inc_frees (c : slab_cache) : slab_cache :=
  Slab (slab_size c) (free_list c) (allocations c) (u64 (frees c + 1)).

Definition set_kmalloc_lock (x : Z) : M unit :=
  modify (fun s => set_heap (Heap (slabs (heap s)) x (kmalloc_initialized (heap s))) s).
(** spin_lock(&kmalloc_lock) on one CPU. *)
Definition kmalloc_spin_lock : M unit :=
  l ← gets (fun s => kmalloc_lock (heap s));
  if truthy l then hang else set_kmalloc_lock 1.
Definition kmalloc_spin_unlock : M unit := set_kmalloc_lock 0.

(** * kmalloc_init *)
Definition slab_sizes : list Z := [16; 32; 64; 128; 256; 512; 1024; 2048].
Definition kmalloc_init : M unit :=
  modify (fun s =>
    set_heap (Heap (map (fun sz => Slab sz 0 0 0) slab_sizes) 0 true) s);;
  kprintf "kmalloc: Initialized\n" [].

(** * size_to_index: the first class that holds [size], [None] for -1 *)
Fixpoint size_to_index_from (cs : list slab_cache) (i : nat) (size : Z) : option nat :=
  match cs with
  | [] => None
  | c :: cs' => if size <=? slab_size c then Some i else size_to_index_from cs' (S i) size
  end.
Definition size_to_index (cs : list slab_cache) (size : Z) : option nat :=
  size_to_index_from cs 0 size.

(** * kmalloc *)

(** The loop that links the objects of a new page, [n] iterations from [i]. *)
Fixpoint split_page (n : nat) (m : gmap Z Z) (ptr size i : Z) : gmap Z Z :=
  match n with
  | O => m
  | S n' =>
      let h := ptr + u32 (i * size) in
      let m := set_hdr_next h (ptr + u32 (u32 (i + 1) * size)) m in
      let m := set_hdr_size h 0 (set_hdr_magic h 0 m) in
      split_page n' m ptr size (i + 1)
  end.

(** The last object of the page. *)
Definition split_last (m : gmap Z Z) (last : Z) : gmap Z Z :=
  set_hdr_size last 0 (set_hdr_magic last 0 (set_hdr_next last 0 m)).

(** Take the first object of class [i]'s free list and release the lock. *)
Definition pop_object (i : nat) : M Z :=
  c ← get_slab i;
  let obj := free_list c in
  m ← gets ram;
  upd_slab i (set_free_list (hdr_next m obj));;
  upd_slab i inc_allocations;;
  kmalloc_spin_unlock;;
  upd_ram (set_hdr_magic obj SLAB_MAGIC);;
  c ← get_slab i;
  upd_ram (set_hdr_size obj (slab_size c));;
  mret (obj + SLAB_HEADER_SIZE).

Definition kmalloc (size : Z) : M Z :=
  init ← gets (fun s => kmalloc_initialized (heap s));
  whenM (negb init) kmalloc_init;;
  if size =? 0 then mret 0
  else if KMALLOC_MAX_SIZE <? size then
    let pages := u64 (size + PAGE_SIZE - 1) / PAGE_SIZE in
    addr ← pmm_alloc_pages pages;
    whenM (truthy addr) (upd_ram (fun m => memset m (lin addr) 0 (pages * PAGE_SIZE)));;
    mret addr
  else
    cs ← gets (fun s => slabs (heap s));
    match size_to_index cs size with
    | None => mret 0
    | Some i =>
        kmalloc_spin_lock;;
        c ← get_slab i;
        if truthy (free_list c) then pop_object i
        else
          page ← pmm_alloc_page;
          if page =? 0 then kmalloc_spin_unlock;; mret 0
          else
            c ← get_slab i;
            let num_objs := PAGE_SIZE / slab_size c in
            upd_ram (fun m => split_page (Z.to_nat (u32 (num_objs - 1))) m page (slab_size c) 0);;
            upd_ram (fun m => split_last m (page + u32 (u32 (num_objs - 1) * slab_size c)));;
            upd_slab i (set_free_list page);;
            pop_object i
    end.

Definition kzalloc (size : Z) : M Z :=
  ptr ← kmalloc size;
  whenM (truthy ptr) (upd_ram (fun m => memset m (lin ptr) 0 size));;
  mret ptr.

(** * kfree *)
Definition kfree (ptr : Z) : M unit :=
  if ptr =? 0 then mret tt
  else
    let obj := ptr - SLAB_HEADER_SIZE in
    m ← gets ram;
    if negb (hdr_magic m obj =? SLAB_MAGIC) then mret tt
    else
      let size := hdr_size m obj in
      if KMALLOC_MAX_SIZE <? size then
        let pages := u32 (size + PAGE_SIZE - 1) / PAGE_SIZE in
        pmm_free_pages ptr pages
      else
        cs ← gets (fun s => slabs (heap s));
        match size_to_index cs size with
        | None => mret tt
        | Some i =>
            kmalloc_spin_lock;;
            c ← get_slab i;
            upd_ram (set_hdr_next obj (free_list c));;
            upd_slab i (set_free_list obj);;
            upd_slab i inc_frees;;
            kmalloc_spin_unlock
        end.
