(* ===== verification/KmallocFacts.v ===== *)
(** The invariant of the kernel heap and what its operations do to the free
    lists.

    The abstract heap is [fl], a list of free slots (physical addresses) per
    size class.  [heap_inv] ties it to the linked lists in RAM; a byte is
    [heap_used] when the heap or the page allocator below it may still write
    it.  The page allocator is known by its contract only. *)
From S2P Require Import Prelude Machine Globals Strings Pmm Frames Kmalloc.

(** * Header accesses through higher-half pointers *)
Lemma PHYS_add a d :
  0 <= a -> 0 <= d -> a + d < 2 ^ 47 -> PHYS_TO_VIRT a + d = PHYS_TO_VIRT (a + d).
Proof. intros. rewrite !PHYS_TO_VIRT_val by lia. lia. Qed.

Lemma lin_PHYS_add a d :
  0 <= a -> 0 <= d -> a + d < 2 ^ 47 -> lin (PHYS_TO_VIRT a + d) = a + d.
Proof. intros. rewrite PHYS_add by done. apply lin_PHYS_TO_VIRT. lia. Qed.

Definition write_header (h next magic size : Z) (m : gmap Z Z) : gmap Z Z :=
  set_hdr_size h size (set_hdr_magic h magic (set_hdr_next h next m)).

Section header.
Context (a : Z) (Ha : 0 <= a) (Ha' : a + 16 <= 2 ^ 47).
Let h := PHYS_TO_VIRT a.

Lemma hdr_next_addr : lin h = a.
Proof. apply lin_PHYS_TO_VIRT. lia. Qed.
Lemma hdr_magic_addr : lin (h + 8) = a + 8.
Proof. apply lin_PHYS_add; lia. Qed.
Lemma hdr_size_addr : lin (h + 12) = a + 12.
Proof. apply lin_PHYS_add; lia. Qed.

Lemma set_hdr_next_frame v m : only_changes a (a + 8) m (set_hdr_next h v m).
Proof. unfold set_hdr_next. rewrite hdr_next_addr. apply (store_le_frame 8). Qed.
Lemma set_hdr_magic_frame v m : only_changes (a + 8) (a + 12) m (set_hdr_magic h v m).
Proof.
  unfold set_hdr_magic. rewrite hdr_magic_addr.
  eapply only_changes_weaken; [apply (store_le_frame 4)|lia..].
Qed.
Lemma set_hdr_size_frame v m : only_changes (a + 12) (a + 16) m (set_hdr_size h v m).
Proof.
  unfold set_hdr_size. rewrite hdr_size_addr.
  eapply only_changes_weaken; [apply (store_le_frame 4)|lia..].
Qed.

Lemma set_hdr_frame magic size m :
  only_changes (a + 8) (a + 16) m (set_hdr_size h size (set_hdr_magic h magic m)).
Proof.
  eapply only_changes_trans; (eapply only_changes_weaken;
    [apply set_hdr_magic_frame || apply set_hdr_size_frame|lia..]).
Qed.

Lemma write_header_frame next magic size m :
  only_changes a (a + 16) m (write_header h next magic size m).
Proof.
  eapply only_changes_trans; (eapply only_changes_weaken;
    [apply set_hdr_next_frame || apply set_hdr_frame|lia..]).
Qed.

Lemma hdr_next_set v m : hdr_next (set_hdr_next h v m) h = u64 v.
Proof. apply load64_store64. Qed.

Lemma hdr_next_frame lo hi m m' :
  only_changes lo hi m m' -> a + 8 <= lo \/ hi <= a -> hdr_next m' h = hdr_next m h.
Proof.
  intros Hm Hd. unfold hdr_next. rewrite hdr_next_addr.
  eapply (load_le_frame 8); [exact Hm|lia].
Qed.

Lemma hdr_next_write next magic size m :
  hdr_next (write_header h next magic size m) h = u64 next.
Proof.
  unfold write_header. erewrite hdr_next_frame; [apply hdr_next_set|apply set_hdr_frame|lia].
Qed.

Lemma hdr_magic_set magic size m :
  hdr_magic (set_hdr_size h size (set_hdr_magic h magic m)) h = u32 magic.
Proof.
  unfold hdr_magic. rewrite hdr_magic_addr.
  erewrite (load_le_frame 4); [|apply set_hdr_size_frame|lia].
  unfold set_hdr_magic. rewrite hdr_magic_addr. apply load32_store32.
Qed.

Lemma hdr_size_set size m : hdr_size (set_hdr_size h size m) h = u32 size.
Proof. apply load32_store32. Qed.
End header.

(** * Free lists *)

(** The list at [p] links the slots [l]. *)
Fixpoint chain (m : gmap Z Z) (p : Z) (l : list Z) : Prop :=
  match l with
  | [] => p = 0
  | a :: l' => p = PHYS_TO_VIRT a /\ chain m (hdr_next m p) l'
  end.

Lemma chain_ext m m' p l :
  (forall a, a ∈ l -> 0 <= a /\ a + 16 <= 2 ^ 47 /\ agree_on a (a + 8) m' m) ->
  chain m p l -> chain m' p l.
Proof.
  revert p. induction l as [|a l IH]; intros p Hl; simpl; [done|].
  intros [-> Hc]. split; [done|].
  destruct (Hl a ltac:(rewrite elem_of_cons; auto)) as (H1 & H2 & H3).
  replace (hdr_next m' (PHYS_TO_VIRT a)) with (hdr_next m (PHYS_TO_VIRT a)).
  - apply IH; [|done]. intros b Hb. apply Hl. rewrite elem_of_cons. auto.
  - unfold hdr_next. rewrite (hdr_next_addr a) by lia. symmetry. by apply (load_le_ext 8).
Qed.

(** [n] slots of [c] bytes from [a]. *)
Fixpoint slots (n : nat) (a c : Z) : list Z :=
  match n with O => [] | S n' => a :: slots n' (a + c) c end.

Lemma elem_of_slots n a c x :
  x ∈ slots n a c <-> exists k, 0 <= k < Z.of_nat n /\ x = a + k * c.
Proof.
  revert a. induction n as [|n IH]; intros a; simpl.
  - rewrite elem_of_nil. split; [done|intros (k & ? & _); lia].
  - rewrite elem_of_cons, IH. split.
    + intros [->|(k & ? & ->)]; [exists 0; lia|exists (k + 1); lia].
    + intros (k & ? & ->). destruct (decide (k = 0)) as [->|]; [left; lia|].
      right. exists (k - 1). lia.
Qed.

Lemma slots_NoDup n a c : 0 < c -> NoDup (slots n a c).
Proof.
  intros Hc. revert a. induction n as [|n IH]; intros a; simpl; constructor; [|done].
  rewrite elem_of_slots. intros (k & ? & ?). nia.
Qed.

(** ** Splitting a page *)
Section split.
Context (a c n : Z) (Ha : 0 <= a) (Ha' : a + PAGE_SIZE <= 2 ^ 47).
Context (Hc : 16 <= c) (Hn : n * c <= PAGE_SIZE).

Definition split_all (k : nat) (m : gmap Z Z) (i : Z) : gmap Z Z :=
  split_last (split_page k m (PHYS_TO_VIRT a) c i) (PHYS_TO_VIRT a + (n - 1) * c).

Lemma slot_bound i : 0 <= i < n -> 0 <= i * c /\ i * c + c <= n * c /\ n * c <= 4096.
Proof. intros. unfold PAGE_SIZE in *. nia. Qed.

Lemma split_slot_ptr i :
  0 <= i < n -> PHYS_TO_VIRT a + u32 (i * c) = PHYS_TO_VIRT (a + i * c).
Proof.
  intros Hi. destruct (slot_bound i Hi) as (?&?&?). unfold PAGE_SIZE in *.
  rewrite u32_small by lia. apply PHYS_add; lia.
Qed.

Lemma write_slot_frame i next m :
  0 <= i < n ->
  only_changes (a + i * c) (a + n * c) m
    (write_header (PHYS_TO_VIRT (a + i * c)) next 0 0 m).
Proof.
  intros Hi. destruct (slot_bound i Hi) as (?&?&?). unfold PAGE_SIZE in *.
  eapply only_changes_weaken; [apply write_header_frame; lia|lia..].
Qed.

Lemma split_page_step k m i :
  0 <= i -> i + 1 < n ->
  split_page (S k) m (PHYS_TO_VIRT a) c i =
  split_page k (write_header (PHYS_TO_VIRT (a + i * c)) (PHYS_TO_VIRT (a + (i + 1) * c)) 0 0 m)
    (PHYS_TO_VIRT a) c (i + 1).
Proof.
  intros. cbn [split_page]. destruct (slot_bound (i + 1) ltac:(lia)) as (?&?&?).
  rewrite (u32_small (i + 1)) by nia. by rewrite !split_slot_ptr by lia.
Qed.

Lemma split_last_header m :
  0 < n ->
  split_last m (PHYS_TO_VIRT a + (n - 1) * c) = write_header (PHYS_TO_VIRT (a + (n - 1) * c)) 0 0 0 m.
Proof.
  intros. destruct (slot_bound (n - 1) ltac:(lia)) as (?&?&?). unfold PAGE_SIZE in *.
  by rewrite PHYS_add by lia.
Qed.

Lemma split_all_frame k m i :
  0 <= i -> i + Z.of_nat k + 1 = n ->
  only_changes (a + i * c) (a + n * c) m (split_all k m i).
Proof.
  revert m i. induction k as [|k IH]; intros m i ??; unfold split_all.
  - simpl. rewrite split_last_header by lia. replace i with (n - 1) by lia.
    apply write_slot_frame. lia.
  - rewrite split_page_step by lia. eapply only_changes_trans; [apply write_slot_frame; lia|].
    eapply only_changes_weaken; [apply IH; lia|nia..].
Qed.

Lemma split_all_chain k m i :
  0 <= i -> i + Z.of_nat k + 1 = n ->
  chain (split_all k m i) (PHYS_TO_VIRT (a + i * c)) (slots (S k) (a + i * c) c).
Proof.
  revert m i. induction k as [|k IH]; intros m i ??; (split; [done|]);
    destruct (slot_bound i ltac:(lia)) as (?&?&?); unfold PAGE_SIZE in *.
  - unfold split_all. rewrite split_last_header by lia.
    replace i with (n - 1) in * by lia. rewrite hdr_next_write by lia. done.
  - change (slots (S k) (a + i * c + c) c) with (slots (S k) (a + i * c + c) c).
    replace (a + i * c + c) with (a + (i + 1) * c) by lia.
    unfold split_all. rewrite split_page_step by lia. set (m1 := write_header _ _ _ _ _).
    replace (hdr_next _ _) with (PHYS_TO_VIRT (a + (i + 1) * c)); [by apply IH; lia|].
    pose proof (split_all_frame k m1 (i + 1) ltac:(lia) ltac:(lia)) as Hf.
    erewrite (hdr_next_frame (a + i * c)); [|lia|lia|exact Hf|lia].
    unfold m1. rewrite hdr_next_write by lia. symmetry. apply u64_idem.
Qed.
End split.

(** * The invariant *)
Definition class_size (i : nat) : Z := slab_sizes !!! i.
Definition free_slot (fl : list (list Z)) (i : nat) (a : Z) : Prop :=
  exists l, fl !! i = Some l /\ a ∈ l.

(** Two slots of classes [i] and [j] are apart. *)
Definition apart (i : nat) (a : Z) (j : nat) (b : Z) : Prop :=
  a + class_size i <= b \/ b + class_size j <= a.

Lemma class_size_range i :
  (i < KMALLOC_NUM_SIZES)%nat -> 16 <= class_size i <= 2048 /\ PAGE_SIZE mod class_size i = 0.
Proof. intros. do 8 (destruct i as [|i]; [done|]). unfold KMALLOC_NUM_SIZES in *. lia. Qed.

Lemma free_slot_insert fl i j l a :
  free_slot (<[i := l]> fl) j a -> (j = i /\ a ∈ l) \/ (j <> i /\ free_slot fl j a).
Proof.
  intros (l' & Hl & Ha). destruct (decide (j = i)) as [->|].
  - apply list_lookup_insert_Some in Hl as [(_ & -> & _)|[? _]]; [auto|done].
  - rewrite list_lookup_insert_ne in Hl by done. right. split; [done|]. by exists l'.
Qed.

Lemma free_slot_insert_eq fl i l a : (i < length fl)%nat -> a ∈ l -> free_slot (<[i := l]> fl) i a.
Proof. intros. exists l. by rewrite list_lookup_insert_eq. Qed.

Lemma free_slot_insert_ne fl i j l a : j <> i -> free_slot fl j a -> free_slot (<[i := l]> fl) j a.
Proof. intros Hne (l' & Hl & Ha). exists l'. by rewrite list_lookup_insert_ne. Qed.

Section heap.
Context {FA : FrameAllocator pmm_alloc_page pmm_alloc_pages}.

(** [a] is a slot of class [i] in memory the heap owns. *)
Definition own_slot (s : kst) (i : nat) (a : Z) : Prop :=
  0 <= a /\ a + class_size i <= 2 ^ 47
  /\ forall b, a <= b < a + class_size i -> ~ fa_reserved s b.

Record heap_inv (s : kst) (fl : list (list Z)) : Prop := {
  hi_frames : fa_ok s;
  hi_init : kmalloc_initialized (heap s) = true;
  hi_sizes : slab_size <$> slabs (heap s) = slab_sizes;
  hi_len : length fl = KMALLOC_NUM_SIZES;
  hi_chain : forall i c l, slabs (heap s) !! i = Some c -> fl !! i = Some l ->
    chain (ram s) (free_list c) l;
  hi_slot : forall i a, free_slot fl i a -> own_slot s i a;
  hi_nodup : forall i l, fl !! i = Some l -> NoDup l;
  hi_apart : forall i j a b, free_slot fl i a -> free_slot fl j b ->
    (i = j /\ a = b) \/ apart i a j b;
}.

(** The heap between calls: its lock is free. *)
Definition heap_ok (s : kst) (fl : list (list Z)) : Prop :=
  heap_inv s fl /\ kmalloc_lock (heap s) = 0.

(** Bytes that the heap or the page allocator may write. *)
Definition heap_used (s : kst) (fl : list (list Z)) (b : Z) : Prop :=
  fa_reserved s b \/ exists i a, free_slot fl i a /\ a <= b < a + class_size i.

Lemma heap_slab s fl i :
  heap_inv s fl -> (i < KMALLOC_NUM_SIZES)%nat ->
  exists c, slabs (heap s) !! i = Some c /\ slab_size c = class_size i.
Proof.
  intros Hs Hi.
  assert (Hlen : length (slabs (heap s)) = 8%nat).
  { by rewrite <- (length_fmap slab_size), (hi_sizes _ _ Hs). }
  destruct (lookup_lt_is_Some_2 (slabs (heap s)) i) as [c Hc].
  { rewrite Hlen. exact Hi. }
  exists c. split; [done|]. unfold class_size. rewrite <- (hi_sizes _ _ Hs).
  symmetry. apply list_lookup_total_correct. by rewrite list_lookup_fmap, Hc.
Qed.

Lemma free_slot_class s fl i a :
  heap_inv s fl -> free_slot fl i a -> (i < KMALLOC_NUM_SIZES)%nat.
Proof.
  intros Hs (l & Hl & _). rewrite <- (hi_len _ _ Hs). by eapply lookup_lt_Some.
Qed.

(** Replace the free list of one class. *)
Lemma heap_inv_update s s' fl i c' l' :
  heap_inv s fl -> (i < KMALLOC_NUM_SIZES)%nat -> fa_ok s' ->
  kmalloc_initialized (heap s') = true ->
  slabs (heap s') = <[i := c']> (slabs (heap s)) -> slab_size c' = class_size i ->
  chain (ram s') (free_list c') l' -> NoDup l' ->
  (forall b, fa_reserved s' b -> fa_reserved s b) ->
  (forall j a, j <> i -> free_slot fl j a -> agree_on a (a + 8) (ram s') (ram s)) ->
  (forall a, a ∈ l' -> own_slot s' i a) ->
  (forall a b, a ∈ l' -> b ∈ l' -> a = b \/ apart i a i b) ->
  (forall j a b, j <> i -> a ∈ l' -> free_slot fl j b -> apart i a j b) ->
  heap_inv s' (<[i := l']> fl).
Proof.
  intros Hs Hi Hok Hinit Hslabs Hsize Hch Hnd Hres Hram Hown Hap1 Hap2.
  destruct (heap_slab s fl i Hs Hi) as (c & Hc & Hcs). split; [done|done|..].
  - rewrite Hslabs, list_fmap_insert, (hi_sizes _ _ Hs), Hsize. apply list_insert_id.
    apply list_lookup_lookup_total_lt. exact Hi.
  - by rewrite length_insert, (hi_len _ _ Hs).
  - intros j cj lj Hj Hlj. rewrite Hslabs in Hj. destruct (decide (j = i)) as [->|].
    + rewrite list_lookup_insert_eq in Hj by (by eapply lookup_lt_Some).
      rewrite list_lookup_insert_eq in Hlj by (by rewrite (hi_len _ _ Hs)). naive_solver.
    + rewrite list_lookup_insert_ne in Hj by done. rewrite list_lookup_insert_ne in Hlj by done.
      eapply chain_ext; [|by eapply (hi_chain _ _ Hs)]. intros a Ha.
      assert (Hfs : free_slot fl j a) by (by exists lj).
      destruct (hi_slot _ _ Hs _ _ Hfs) as (?&?&_).
      pose proof (class_size_range j (free_slot_class s fl j a Hs Hfs)).
      split; [done|]. split; [lia|]. by apply (Hram j).
  - intros j a [[-> Ha]|[Hne Ha]]%free_slot_insert; [by apply Hown|].
    destruct (hi_slot _ _ Hs _ _ Ha) as (?&?&Hb). split; [done|]. split; [done|].
    intros b Hab Hr. by apply (Hb b Hab), Hres.
  - intros j lj Hj. destruct (decide (j = i)) as [->|].
    + rewrite list_lookup_insert_eq in Hj by (by rewrite (hi_len _ _ Hs)). naive_solver.
    + rewrite list_lookup_insert_ne in Hj by done. by eapply (hi_nodup _ _ Hs).
  - intros j k a b [[-> Ha]|[Hj Ha]]%free_slot_insert [[-> Hb]|[Hk Hb]]%free_slot_insert.
    + destruct (Hap1 a b Ha Hb); auto.
    + right. by apply Hap2.
    + right. destruct (Hap2 j b a Hj Hb Ha); [by right|by left].
    + by apply (hi_apart _ _ Hs).
Qed.

(** The heap's lock and the trace are not part of the invariant. *)
Lemma heap_inv_same s s' fl :
  heap_inv s fl -> pmm s' = pmm s -> ram s' = ram s -> slabs (heap s') = slabs (heap s) ->
  kmalloc_initialized (heap s') = true -> heap_inv s' fl.
Proof.
  intros Hs Hp Hr Hsl Hin.
  destruct (fa_rest s s' (hi_frames _ _ Hs) Hp Hr) as [Hok Hres].
  split; [done|done|by rewrite Hsl; apply Hs|apply Hs| | |apply Hs|apply Hs].
  - rewrite Hsl, Hr. apply (hi_chain _ _ Hs).
  - intros i a Ha. destruct (hi_slot _ _ Hs _ _ Ha) as (?&?&Hb).
    split; [done|]. split; [done|]. intros b Hab. rewrite Hres. by apply Hb.
Qed.

(** ** Taking the first free slot *)
Definition pop_state (s : kst) (i : nat) (c : slab_cache) : kst :=
  let h := free_list c in
  set_ram (set_hdr_size h (slab_size c) (set_hdr_magic h SLAB_MAGIC (ram s)))
    (set_heap (Heap (<[i := inc_allocations (set_free_list (hdr_next (ram s) h) c)]>
                       (slabs (heap s))) 0 (kmalloc_initialized (heap s))) s).

Lemma pop_object_run s i c :
  slabs (heap s) !! i = Some c ->
  pop_object i s = Ret (free_list c + 16) (pop_state s i c).
Proof.
  intros Hc. assert (Hlt : (i < length (slabs (heap s)))%nat) by (by eapply lookup_lt_Some).
  unfold pop_object, get_slab, upd_slab, kmalloc_spin_unlock, set_kmalloc_lock. msimpl.
  cbn [slabs kmalloc_lock kmalloc_initialized].
  rewrite !list_lookup_total_insert_eq by (rewrite ?length_insert; done).
  rewrite !list_insert_insert_eq. by rewrite (list_lookup_total_correct _ _ _ Hc).
Qed.

Section pop.
Context (s : kst) (fl : list (list Z)) (i : nat) (c : slab_cache) (a : Z) (l : list Z).
Context (Hs : heap_inv s fl) (Hc : slabs (heap s) !! i = Some c).
Context (Hl : fl !! i = Some (a :: l)).
Let s' := pop_state s i c.

Lemma pop_class : (i < KMALLOC_NUM_SIZES)%nat.
Proof. rewrite <- (hi_len _ _ Hs). by eapply lookup_lt_Some. Qed.

Lemma pop_slot : free_slot fl i a.
Proof. exists (a :: l). set_solver. Qed.

Lemma pop_head : free_list c = PHYS_TO_VIRT a /\ chain (ram s) (hdr_next (ram s) (PHYS_TO_VIRT a)) l.
Proof. destruct (hi_chain _ _ Hs _ _ _ Hc Hl) as [E H]. split; [done|]. by rewrite <- E. Qed.

Lemma pop_size : slab_size c = class_size i.
Proof.
  destruct (heap_slab s fl i Hs pop_class) as (c' & Hc' & E). congruence.
Qed.

Lemma pop_range : 0 <= a /\ a + 16 <= a + class_size i <= 2 ^ 47.
Proof.
  destruct (hi_slot _ _ Hs _ _ pop_slot) as (?&?&_).
  pose proof (class_size_range i pop_class). lia.
Qed.

Lemma pop_frame : only_changes (a + 8) (a + 16) (ram s) (ram s').
Proof.
  unfold s', pop_state. cbn [ram set_ram]. destruct pop_head as [-> _].
  pose proof pop_range. apply set_hdr_frame; lia.
Qed.

Lemma pop_alloc : fa_ok s' /\ (forall b, fa_reserved s' b <-> fa_reserved s b).
Proof.
  destruct (hi_slot _ _ Hs _ _ pop_slot) as (?&?&Hb). pose proof pop_range.
  apply (fa_frame s); [by apply (hi_frames _ _ Hs)|done|].
  intros b Hr. apply pop_frame. destruct (Z.ltb_spec b a), (Z.ltb_spec b (a + 16)); try lia.
  exfalso. apply (Hb b); [lia|done].
Qed.

Lemma pop_inv : heap_inv s' (<[i := l]> fl).
Proof.
  pose proof pop_range. pose proof pop_class.
  assert (Hin : forall b, b ∈ l -> free_slot fl i b) by (intros b ?; exists (a :: l); rewrite elem_of_cons; auto).
  assert (Hnd : NoDup (a :: l)) by (by eapply (hi_nodup _ _ Hs)). apply NoDup_cons in Hnd as [Hna Hnd].
  assert (Hram : forall j b, (j <> i \/ b <> a) -> free_slot fl j b ->
                 agree_on b (b + 8) (ram s') (ram s)).
  { intros j b Hne Hb. pose proof (class_size_range j (free_slot_class _ _ _ _ Hs Hb)).
    eapply agree_on_frame; [exact pop_frame|].
    destruct (hi_apart _ _ Hs _ _ _ _ pop_slot Hb) as [[-> ->]|[?|?]]; [tauto|lia..]. }
  apply (heap_inv_update s) with (c' := inc_allocations (set_free_list (hdr_next (ram s) (free_list c)) c)).
  - done.
  - done.
  - apply pop_alloc.
  - apply (hi_init _ _ Hs).
  - done.
  - apply pop_size.
  - cbn [free_list inc_allocations set_free_list]. destruct pop_head as [E Hch]. rewrite E.
    eapply chain_ext; [|exact Hch].
    intros b Hb. destruct (hi_slot _ _ Hs _ _ (Hin b Hb)) as (?&?&_).
    split; [done|]. split; [lia|]. apply (Hram i); [right; by intros ->|by apply Hin].
  - done.
  - intros b. by rewrite (proj2 pop_alloc).
  - intros j b Hj. apply Hram. by left.
  - intros b Hb. destruct (hi_slot _ _ Hs _ _ (Hin b Hb)) as (?&?&Hr).
    split; [done|]. split; [done|]. intros x Hx. rewrite (proj2 pop_alloc). by apply Hr.
  - intros b1 b2 H1 H2. destruct (hi_apart _ _ Hs _ _ _ _ (Hin _ H1) (Hin _ H2)) as [[_ ?]|?]; auto.
  - intros j b1 b2 Hj H1 H2.
    destruct (hi_apart _ _ Hs _ _ _ _ (Hin _ H1) H2) as [[? _]|?]; [by subst|done].
Qed.
End pop.

(** ** A new page *)
Lemma same_rest_heap s s' : same_rest s s' -> heap s' = heap s.
Proof. intros <-. by destruct s'. Qed.

Section new_page.
Context (s s1 : kst) (fl : list (list Z)) (a n : Z) (Hn : 0 < n).
Context (Hs : heap_inv s fl) (Hok : fa_ok s1) (Hrest : same_rest s s1).
Context (Hfresh : fresh fa_reserved s s1 a n).

Lemma fresh_apart i b :
  free_slot fl i b -> b + class_size i <= a \/ a + n * PAGE_SIZE <= b.
Proof.
  intros Hb. destruct (hi_slot _ _ Hs _ _ Hb) as (?&?&Hr).
  pose proof (class_size_range i (free_slot_class _ _ _ _ Hs Hb)).
  destruct (Z.leb_spec (b + class_size i) a); [by left|right].
  destruct (Z.leb_spec (a + n * PAGE_SIZE) b); [done|].
  exfalso. apply (Hr (Z.max a b)); [lia|]. apply (fr_was _ _ _ _ _ Hfresh).
  unfold PAGE_SIZE in *. lia.
Qed.

Lemma new_page_inv : heap_inv s1 fl.
Proof.
  pose proof (same_rest_heap _ _ Hrest) as Hh.
  split; rewrite ?Hh; [done|apply Hs..| | |apply Hs|apply Hs].
  - intros i c l Hc Hl. eapply chain_ext; [|by eapply (hi_chain _ _ Hs)].
    intros b Hb. assert (Hf : free_slot fl i b) by (by exists l).
    destruct (hi_slot _ _ Hs _ _ Hf) as (?&?&Hr).
    pose proof (class_size_range i (free_slot_class _ _ _ _ Hs Hf)).
    split; [done|]. split; [lia|]. intros x Hx.
    apply (fr_other _ _ _ _ _ Hfresh). apply Hr. lia.
  - intros i b Hb. destruct (hi_slot _ _ Hs _ _ Hb) as (?&?&Hr).
    split; [done|]. split; [done|]. intros x Hx. apply (fr_other _ _ _ _ _ Hfresh). by apply Hr.
Qed.
End new_page.

(** The state after a page at [a] has been split for class [i]. *)
Definition refill_state (s : kst) (i : nat) (c : slab_cache) (a : Z) : kst :=
  let num_objs := PAGE_SIZE / slab_size c in
  set_ram (split_all a (slab_size c) num_objs (Z.to_nat (num_objs - 1)) (ram s) 0)
    (set_heap (Heap (<[i := set_free_list (PHYS_TO_VIRT a) c]> (slabs (heap s)))
                 (kmalloc_lock (heap s)) (kmalloc_initialized (heap s))) s).

(** The number of slots in a page. *)
Definition slots_per_page (i : nat) : nat := Z.to_nat (PAGE_SIZE / class_size i).

Lemma slots_per_page_val i :
  (i < KMALLOC_NUM_SIZES)%nat ->
  (2 <= slots_per_page i)%nat
  /\ Z.of_nat (slots_per_page i) * class_size i = PAGE_SIZE
  /\ Z.of_nat (slots_per_page i) = PAGE_SIZE / class_size i.
Proof.
  intros Hi. destruct (class_size_range i Hi) as [Hc Hm]. unfold slots_per_page, PAGE_SIZE in *.
  assert (2 <= 4096 / class_size i) by (apply Z.div_le_lower_bound; lia).
  split; [lia|]. rewrite Z2Nat.id by lia. split; [|done]. Z.div_mod_to_equations. lia.
Qed.

Section refill.
Context (s0 s : kst) (fl : list (list Z)) (i : nat) (c : slab_cache) (a : Z).
Context (Hs0 : heap_inv s0 fl) (Hs : heap_inv s fl) (Hfresh : fresh fa_reserved s0 s a 1).
Context (Hc : slabs (heap s) !! i = Some c) (Hl : fl !! i = Some []).
Let s' := refill_state s i c a.
Let n := slots_per_page i.
Let l := slots n a (class_size i).

Lemma refill_class : (i < KMALLOC_NUM_SIZES)%nat.
Proof. rewrite <- (hi_len _ _ Hs). by eapply lookup_lt_Some. Qed.

Lemma refill_size : slab_size c = class_size i.
Proof. destruct (heap_slab s fl i Hs refill_class) as (c' & ? & ?). congruence. Qed.

Lemma refill_frame : only_changes a (a + PAGE_SIZE) (ram s) (ram s').
Proof.
  destruct (slots_per_page_val i refill_class) as (?&Hsz&Hnum).
  destruct (class_size_range i refill_class). destruct (fr_range _ _ _ _ _ Hfresh) as (?&_&?).
  unfold s', refill_state. cbn [ram set_ram]. rewrite refill_size, <- Hnum.
  eapply only_changes_weaken; [apply split_all_frame; lia|lia..].
Qed.

Lemma refill_chain : chain (ram s') (PHYS_TO_VIRT a) l.
Proof.
  destruct (slots_per_page_val i refill_class) as (?&Hsz&Hnum).
  destruct (class_size_range i refill_class). destruct (fr_range _ _ _ _ _ Hfresh) as (?&_&?).
  unfold s', refill_state. cbn [ram set_ram]. rewrite refill_size, <- Hnum.
  pose proof (split_all_chain a (class_size i) (Z.of_nat n) ltac:(done) ltac:(lia) ltac:(lia)
    ltac:(lia) (Z.to_nat (Z.of_nat n - 1)) (ram s) 0 ltac:(lia) ltac:(lia)) as Hch.
  rewrite Z.mul_0_l, Z.add_0_r in Hch. unfold l.
  replace (S (Z.to_nat (Z.of_nat n - 1))) with n in Hch by (unfold n; lia). exact Hch.
Qed.

Lemma refill_slot b : b ∈ l -> exists k, 0 <= k /\ b = a + k * class_size i /\ a <= b
  /\ b + class_size i <= a + PAGE_SIZE.
Proof.
  destruct (slots_per_page_val i refill_class) as (?&Hsz&_). destruct (class_size_range i refill_class).
  intros (k & Hk & ->)%elem_of_slots. exists k. fold n in Hsz. nia.
Qed.

Lemma refill_alloc : fa_ok s' /\ (forall b, fa_reserved s' b <-> fa_reserved s b).
Proof.
  apply (fa_frame s); [by apply (hi_frames _ _ Hs)|done|].
  intros b Hr. apply refill_frame. destruct (Z.ltb_spec b a), (Z.leb_spec (a + PAGE_SIZE) b); try lia.
  exfalso. apply (proj1 (fr_now _ _ _ _ _ Hfresh b ltac:(lia))). done.
Qed.

Lemma refill_inv : heap_inv s' (<[i := l]> fl).
Proof.
  pose proof refill_class as Hi. destruct (class_size_range i Hi).
  destruct (fr_range _ _ _ _ _ Hfresh) as (?&_&?).
  assert (Hfar : forall j b, free_slot fl j b -> b + class_size j <= a \/ a + PAGE_SIZE <= b).
  { intros j b Hb. pose proof (fresh_apart s0 s fl a 1 ltac:(lia) Hs0 Hfresh j b Hb). lia. }
  apply (heap_inv_update s) with (c' := set_free_list (PHYS_TO_VIRT a) c).
  - done.
  - done.
  - apply refill_alloc.
  - apply (hi_init _ _ Hs).
  - done.
  - apply refill_size.
  - apply refill_chain.
  - apply slots_NoDup. lia.
  - intros b. by rewrite (proj2 refill_alloc).
  - intros j b Hj Hb. pose proof (class_size_range j (free_slot_class _ _ _ _ Hs Hb)).
    eapply agree_on_frame; [exact refill_frame|]. specialize (Hfar j b Hb). lia.
  - intros b Hb. destruct (refill_slot b Hb) as (k & ? & -> & ? & ?).
    split; [lia|]. split; [lia|]. intros x Hx. rewrite (proj2 refill_alloc).
    apply (fr_now _ _ _ _ _ Hfresh). lia.
  - intros b1 b2 Hb1 Hb2. destruct (refill_slot b1 Hb1) as (k1 & ? & -> & _),
      (refill_slot b2 Hb2) as (k2 & ? & -> & _).
    destruct (Z.lt_trichotomy k1 k2) as [?|[->|?]]; unfold apart; [right; left; nia|by left|
      right; right; nia].
  - intros j b1 b2 _ Hb1 Hb2. destruct (refill_slot b1 Hb1) as (_ & _ & _ & ? & ?).
    specialize (Hfar j b2 Hb2). unfold apart. lia.
Qed.
End refill.

(** ** What a call leaves alone

    Only RAM, the zones and the heap may differ. *)
Definition heap_only (s s' : kst) : Prop :=
  set_ram (ram s) (set_pmm (pmm s) (set_heap (heap s) s')) = s.

#[export] Instance heap_only_equivalence : Equivalence heap_only.
Proof.
  unfold heap_only, set_ram, set_pmm, set_heap. split.
  - intros []; done.
  - intros [] []; simpl. congruence.
  - intros [] [] []; simpl. congruence.
Qed.

Lemma heap_only_vars s s' : heap_only s s' -> net s' = net s /\ trace s' = trace s.
Proof. by intros <-. Qed.

#[export] Instance set_trace_heap_only t : Proper (heap_only ==> heap_only) (set_trace t).
Proof. unfold heap_only. by intros s s' <-. Qed.
#[export] Instance set_net_heap_only n : Proper (heap_only ==> heap_only) (set_net n).
Proof. unfold heap_only. by intros s s' <-. Qed.

Lemma same_rest_heap_only s s' : same_rest s s' -> heap_only s s'.
Proof. unfold same_rest, heap_only, set_ram, set_pmm, set_heap. destruct s, s'. simpl. congruence. Qed.

(**

    Memory that neither the heap nor the page allocator could write stays
    theirs and keeps its contents. *)
Definition shrinks (s : kst) (fl : list (list Z)) (s' : kst) (fl' : list (list Z)) : Prop :=
  forall b, ~ heap_used s fl b -> ~ heap_used s' fl' b /\ load8 (ram s') b = load8 (ram s) b.

Lemma shrinks_trans s1 l1 s2 l2 s3 l3 :
  shrinks s1 l1 s2 l2 -> shrinks s2 l2 s3 l3 -> shrinks s1 l1 s3 l3.
Proof.
  intros H1 H2 b Hb. destruct (H1 b Hb) as [Hb2 E1]. destruct (H2 b Hb2) as [? E2].
  split; [done|]. by rewrite E2.
Qed.

Lemma shrinks_same s s' fl :
  fa_ok s -> pmm s' = pmm s -> ram s' = ram s -> shrinks s fl s' fl.
Proof.
  intros Hs Hp Hr b Hb. destruct (fa_rest s s' Hs Hp Hr) as [_ Hres]. rewrite Hr. split; [|done].
  intros [H|H]; apply Hb; [left; by apply Hres|by right].
Qed.

Lemma shrinks_pop s fl i c a l :
  heap_inv s fl -> slabs (heap s) !! i = Some c -> fl !! i = Some (a :: l) ->
  shrinks s fl (pop_state s i c) (<[i := l]> fl)
  /\ (forall b, a <= b < a + class_size i ->
       heap_used s fl b /\ ~ heap_used (pop_state s i c) (<[i := l]> fl) b).
Proof.
  intros Hs Hc Hl. pose proof (pop_slot s fl i c a l Hs Hc Hl) as Ha.
  pose proof (proj2 (pop_alloc s fl i c a l Hs Hc Hl)) as Hres.
  assert (Hnd : a ∉ l).
  { pose proof (hi_nodup _ _ Hs _ _ Hl) as Hnd. by apply NoDup_cons in Hnd as [? _]. }
  assert (Hsub : forall j b, free_slot (<[i := l]> fl) j b ->
                   free_slot fl j b /\ ~ (j = i /\ b = a)).
  { intros j b [[-> Hb]|[Hj Hb]]%free_slot_insert; (split; [|naive_solver]); [|done].
    exists (a :: l). rewrite elem_of_cons. auto. }
  split.
  - intros b Hb. split.
    + intros [Hr|(j & x & Hx & Hbx)]; apply Hb; [left; by apply Hres|right].
      apply Hsub in Hx as [Hx _]. eauto.
    + apply (pop_frame s fl i c a l Hs Hc Hl).
      pose proof (pop_range s fl i c a l Hs Hc Hl).
      destruct (Z.ltb_spec b (a + 8)), (Z.leb_spec (a + 16) b); try lia.
      exfalso. apply Hb. right. exists i, a. split; [done|lia].
  - intros b Hb. split; [right; eauto|]. intros [Hr|(j & x & Hx & Hbx)].
    + apply Hres in Hr. by apply (hi_slot _ _ Hs _ _ Ha) in Hr.
    + apply Hsub in Hx as [Hx Hne]. unfold apart in *.
      destruct (hi_apart _ _ Hs _ _ _ _ Ha Hx) as [[<- <-]|[?|?]]; [tauto|lia..].
Qed.

Lemma shrinks_alloc s s1 fl a n :
  fresh fa_reserved s s1 a n -> shrinks s fl s1 fl.
Proof.
  intros Hf b Hb. assert (Hr : ~ fa_reserved s b) by (intros ?; apply Hb; by left).
  destruct (fr_other _ _ _ _ _ Hf b Hr) as [Hr' ?]. split; [|done].
  intros [?|?]; [done|]. apply Hb. by right.
Qed.

(** The whole refill, seen from the state before the allocation. *)
Lemma shrinks_refill s0 s fl i c a :
  heap_inv s0 fl -> heap_inv s fl -> fresh fa_reserved s0 s a 1 ->
  slabs (heap s) !! i = Some c -> fl !! i = Some [] ->
  shrinks s0 fl (refill_state s i c a) (<[i := slots (slots_per_page i) a (class_size i)]> fl).
Proof.
  intros Hs0 Hs Hf Hc Hl b Hb. assert (Hr : ~ fa_reserved s0 b) by (intros ?; apply Hb; by left).
  destruct (fr_other _ _ _ _ _ Hf b Hr) as [Hr' E].
  assert (Hpage : ~ a <= b < a + PAGE_SIZE).
  { intros ?. apply Hr, (fr_was _ _ _ _ _ Hf). lia. }
  split.
  - intros [H|(j & x & Hx & Hbx)].
    + by apply (proj2 (refill_alloc s0 s fl i c a Hs Hf Hc Hl)) in H.
    + apply free_slot_insert in Hx as [[-> Hx]|[_ Hx]].
      * destruct (refill_slot s fl i a Hs Hl x Hx) as (_ & _ & _ & ? & ?). lia.
      * apply Hb. right. eauto.
  - rewrite <- E. apply (refill_frame s0 s fl i c a Hs Hf Hc Hl). lia.
Qed.

(** No byte is lost: what was the heap's or the page allocator's still is, but for
    [lo, hi). *)
Definition hands_out (s : kst) (fl : list (list Z)) (s' : kst) (fl' : list (list Z)) (lo hi : Z) : Prop :=
  forall b, heap_used s fl b -> heap_used s' fl' b \/ lo <= b < hi.

Lemma hands_out_same s s' fl :
  fa_ok s -> pmm s' = pmm s -> ram s' = ram s -> forall b, heap_used s fl b -> heap_used s' fl b.
Proof.
  intros Hs Hp Hr b. destruct (fa_rest s s' Hs Hp Hr) as [_ Hres]. unfold heap_used. by rewrite Hres.
Qed.

Lemma hands_out_pop s fl i c a l :
  heap_inv s fl -> slabs (heap s) !! i = Some c -> fl !! i = Some (a :: l) ->
  hands_out s fl (pop_state s i c) (<[i := l]> fl) a (a + class_size i).
Proof.
  intros Hs Hc Hl b [Hr|(j & x & Hx & Hb)].
  { left. left. by apply (pop_alloc s fl i c a l Hs Hc Hl). }
  destruct (decide (j = i)) as [->|Hne]; [|left; right; exists j, x; split; [by apply free_slot_insert_ne|done]].
  destruct Hx as (l' & Hl' & Hx). rewrite Hl in Hl'. injection Hl' as <-.
  apply elem_of_cons in Hx as [->|Hx]; [by right|left; right; exists i, x].
  split; [|done]. apply free_slot_insert_eq; [by eapply lookup_lt_Some|done].
Qed.

(** The slots of a page are all of it. *)
Lemma slots_cover i a b :
  (i < KMALLOC_NUM_SIZES)%nat -> a <= b < a + PAGE_SIZE ->
  exists x, x ∈ slots (slots_per_page i) a (class_size i) /\ x <= b < x + class_size i.
Proof.
  intros Hi Hb. destruct (slots_per_page_val i Hi) as (_ & Hmul & _). destruct (class_size_range i Hi).
  exists (a + (b - a) / class_size i * class_size i).
  assert (Hd : b - a = class_size i * ((b - a) / class_size i) + (b - a) mod class_size i)
    by (apply Z.div_mod; lia).
  pose proof (Z.mod_pos_bound (b - a) (class_size i) ltac:(lia)).
  split; [|lia]. apply elem_of_slots. exists ((b - a) / class_size i). split; [|done].
  split; [apply Z.div_pos; lia|]. apply Z.div_lt_upper_bound; lia.
Qed.

Lemma hands_out_refill s0 s fl i c a :
  heap_inv s fl -> fresh fa_reserved s0 s a 1 ->
  slabs (heap s) !! i = Some c -> fl !! i = Some [] ->
  forall b, heap_used s0 fl b ->
    heap_used (refill_state s i c a) (<[i := slots (slots_per_page i) a (class_size i)]> fl) b.
Proof.
  intros Hs Hf Hc Hl b [Hr|(j & x & Hx & Hb)].
  - destruct (fr_keep _ _ _ _ _ Hf b Hr) as [Hr2|Hb].
    { left. by apply (refill_alloc s0 s fl i c a Hs Hf Hc Hl). }
    right. pose proof (refill_class s fl i Hs Hl) as Hi. rewrite Z.mul_1_l in Hb.
    destruct (slots_cover i a b Hi Hb) as (x & Hx & ?). exists i, x. split; [|done].
    apply free_slot_insert_eq; [by rewrite (hi_len _ _ Hs)|done].
  - right. exists j, x. split; [|done]. apply free_slot_insert_ne; [|done].
    intros ->. destruct Hx as (l & Hl2 & Hx). rewrite Hl in Hl2. injection Hl2 as <-. by apply elem_of_nil in Hx.
Qed.

(** * Size classes *)
Lemma size_to_index_from_spec cs k size :
  match size_to_index_from cs k size with
  | Some j => exists d c, j = (k + d)%nat /\ cs !! d = Some c /\ size <= slab_size c
      /\ forall d' c', (d' < d)%nat -> cs !! d' = Some c' -> slab_size c' < size
  | None => forall d c, cs !! d = Some c -> slab_size c < size
  end.
Proof.
  revert k. induction cs as [|c cs IH]; intros k; simpl; [done|].
  destruct (Z.leb_spec size (slab_size c)).
  - exists 0%nat, c. split; [lia|]. split; [done|]. split; [done|]. lia.
  - specialize (IH (S k)). destruct (size_to_index_from cs (S k) size).
    + destruct IH as (d & c' & -> & Hc' & ? & Hlt). exists (S d), c'.
      split; [lia|]. split; [done|]. split; [done|].
      intros [|d'] c'' Hd Hc''; simpl in Hc''; [naive_solver|]. apply (Hlt d'); [lia|done].
    + intros [|d] c'; simpl; [naive_solver|apply IH].
Qed.

(** The least class that holds [size], when there is one. *)
Definition is_class_of (size : Z) (i : nat) : Prop :=
  (i < KMALLOC_NUM_SIZES)%nat /\ size <= class_size i
  /\ forall j, (j < i)%nat -> class_size j < size.

Lemma size_to_index_class cs size :
  slab_size <$> cs = slab_sizes -> size <= KMALLOC_MAX_SIZE ->
  exists i, size_to_index cs size = Some i /\ is_class_of size i.
Proof.
  intros Hcs Hsize. pose proof (size_to_index_from_spec cs 0 size) as H.
  assert (Hat : forall d c, cs !! d = Some c -> (d < KMALLOC_NUM_SIZES)%nat /\ slab_size c = class_size d).
  { intros d c Hd. assert (Hd' : slab_sizes !! d = Some (slab_size c)).
    { by rewrite <- Hcs, list_lookup_fmap, Hd. }
    split; [by apply lookup_lt_Some in Hd'|]. symmetry. by apply list_lookup_total_correct. }
  unfold size_to_index. destruct (size_to_index_from cs 0 size) as [i|].
  - destruct H as (d & c & -> & Hc & Hle & Hlt). exists d. split; [done|].
    unfold is_class_of. destruct (Hat _ _ Hc) as [? E]. split; [done|]. rewrite <- E. split; [done|]. intros j Hj.
    destruct (lookup_lt_is_Some_2 cs j) as [c' Hc'].
    { apply lookup_lt_Some in Hc. lia. }
    destruct (Hat _ _ Hc') as [_ <-]. by apply (Hlt j).
  - exfalso. assert (H7 : exists c, cs !! 7%nat = Some c).
    { apply lookup_lt_is_Some_2. rewrite <- (length_fmap slab_size), Hcs. simpl. lia. }
    destruct H7 as [c Hc]. pose proof (H _ _ Hc). destruct (Hat _ _ Hc) as [_ E].
    rewrite E in *. unfold KMALLOC_MAX_SIZE in *. change (class_size 7) with 2048 in *. lia.
Qed.

Lemma class_size_max i size : is_class_of size i -> size <= KMALLOC_MAX_SIZE.
Proof.
  intros (Hi & Hle & _). destruct (class_size_range i Hi). unfold KMALLOC_MAX_SIZE. lia.
Qed.

Lemma size_to_index_of_class cs size i :
  slab_size <$> cs = slab_sizes -> is_class_of size i -> size_to_index cs size = Some i.
Proof.
  intros Hcs Hcl. destruct (size_to_index_class cs size Hcs (class_size_max i size Hcl))
    as (j & -> & _ & Hj2 & Hj3). destruct Hcl as (_ & Hle & Hmin). f_equal.
  destruct (Nat.lt_trichotomy i j) as [Hij|[?|Hij]]; [|done|].
  - specialize (Hj3 i Hij). lia.
  - specialize (Hmin j Hij). lia.
Qed.

Lemma class_size_mono i j :
  (i < j)%nat -> (j < KMALLOC_NUM_SIZES)%nat -> class_size i < class_size j.
Proof.
  unfold KMALLOC_NUM_SIZES. intros Hij Hj.
  do 8 (destruct j as [|j]; [do 8 (destruct i as [|i]; [first [lia|done]|]); lia|]). lia.
Qed.

Lemma class_of_class_size cs i :
  slab_size <$> cs = slab_sizes -> (i < KMALLOC_NUM_SIZES)%nat ->
  size_to_index cs (class_size i) = Some i.
Proof.
  intros Hcs Hi. apply size_to_index_of_class; [done|]. split; [done|]. split; [lia|].
  intros j Hj. by apply class_size_mono.
Qed.
End heap.
