(* ===== verification/KmallocRun.v ===== *)
(** The runs of kmalloc, kzalloc and kfree from a well-formed heap. *)
From S2P Require Import Prelude Machine Globals Strings Pmm Frames Kmalloc KmallocFacts.

Section run.
Context {FA : FrameAllocator pmm_alloc_page pmm_alloc_pages}.

Definition locked (s : kst) : kst :=
  set_heap (Heap (slabs (heap s)) 1 (kmalloc_initialized (heap s))) s.

(** kmalloc of a small size, up to the choice of the slot. *)
Lemma kmalloc_small_start s size i c :
  kmalloc_initialized (heap s) = true -> kmalloc_lock (heap s) = 0 -> 0 < size <= KMALLOC_MAX_SIZE ->
  size_to_index (slabs (heap s)) size = Some i -> slabs (heap s) !! i = Some c ->
  kmalloc size s =
  (if truthy (free_list c) then pop_object i
   else
     page ← pmm_alloc_page;
     if page =? 0 then kmalloc_spin_unlock;; mret 0
     else
       c ← get_slab i;
       let num_objs := PAGE_SIZE / slab_size c in
       upd_ram (fun m => split_page (Z.to_nat (u32 (num_objs - 1))) m page (slab_size c) 0);;
       upd_ram (fun m => split_last m (page + u32 (u32 (num_objs - 1) * slab_size c)));;
       upd_slab i (set_free_list page);;
       pop_object i) (locked s).
Proof.
  intros Hinit Hlock Hsize Hi Hc. unfold kmalloc, kmalloc_spin_lock, set_kmalloc_lock, get_slab.
  unfold mbind at 1 2, M_bind at 1 2. unfold gets at 1. rewrite Hinit. cbn [negb whenM].
  unfold mret at 1, M_ret at 1. unfold KMALLOC_MAX_SIZE in *. do 2 test_false.
  unfold mbind at 1, M_bind at 1. unfold gets at 1. rewrite Hi.
  unfold mbind at 1, M_bind at 1. msimpl. rewrite Hlock. cbn [truthy Z.eqb negb].
  cbn [slabs]. by rewrite (list_lookup_total_correct _ _ _ Hc).
Qed.

(** Whatever the memory holds, the head of the free list is handed out. *)
Lemma kmalloc_pop_raw s size i c :
  kmalloc_initialized (heap s) = true -> kmalloc_lock (heap s) = 0 -> 0 < size <= KMALLOC_MAX_SIZE ->
  size_to_index (slabs (heap s)) size = Some i -> slabs (heap s) !! i = Some c -> free_list c <> 0 ->
  kmalloc size s = Ret (free_list c + 16) (pop_state (locked s) i c).
Proof.
  intros Hinit Hlock Hsize Hi Hc Hf. rewrite (kmalloc_small_start s size i c) by done.
  rewrite (proj2 (truthy_true _)) by done. by apply pop_object_run.
Qed.

(** What a successful small allocation of class [i] does. *)
Record allocates (s : kst) (fl : list (list Z)) (i : nat) (a : Z) (s' : kst)
    (fl' : list (list Z)) : Prop := {
  al_ok : heap_ok s' fl';
  al_own : forall b, a <= b < a + class_size i -> heap_used s fl b /\ ~ heap_used s' fl' b;
  al_keep : shrinks s fl s' fl';
  al_left : hands_out s fl s' fl' a (a + class_size i);
  al_magic : hdr_magic (ram s') (PHYS_TO_VIRT a) = SLAB_MAGIC;
  al_size : hdr_size (ram s') (PHYS_TO_VIRT a) = class_size i;
  al_range : 0 <= a /\ a + class_size i <= 2 ^ 47;
  al_rest : heap_only s s';
}.

Lemma pop_allocates s0 fl0 s fl i c a l :
  heap_inv s fl -> slabs (heap s) !! i = Some c -> fl !! i = Some (a :: l) ->
  shrinks s0 fl0 s fl -> heap_only s0 s ->
  (forall b, a <= b < a + class_size i -> heap_used s0 fl0 b) ->
  (forall b, heap_used s0 fl0 b -> heap_used s fl b) ->
  pop_object i s = Ret (PHYS_TO_VIRT a + 16) (pop_state s i c)
  /\ allocates s0 fl0 i a (pop_state s i c) (<[i := l]> fl).
Proof.
  intros Hs Hc Hl Hsh Hon Hu Hleft. destruct (shrinks_pop s fl i c a l Hs Hc Hl) as [Hsh2 Hown].
  destruct (pop_head s fl i c a l Hs Hc Hl) as [E _].
  pose proof (pop_range s fl i c a l Hs Hc Hl) as Hr.
  split; [by rewrite (pop_object_run _ _ _ Hc), E|]. split.
  - split; [by apply (pop_inv s fl i c a)|done].
  - intros b Hb. split; [by apply Hu|by apply Hown].
  - by eapply shrinks_trans.
  - intros b Hb. by apply (hands_out_pop s fl i c a l Hs Hc Hl), Hleft.
  - unfold pop_state. cbn [ram set_ram]. rewrite E. rewrite hdr_magic_set by lia. done.
  - unfold pop_state. cbn [ram set_ram]. rewrite E, hdr_size_set.
    rewrite (pop_size s fl i c a l Hs Hc Hl). apply u32_small.
    pose proof (class_size_range i (pop_class s fl i a l Hs Hl)). lia.
  - split; lia.
  - etransitivity; [exact Hon|]. by destruct s.
Qed.

Lemma locked_inv s fl : heap_inv s fl -> heap_inv (locked s) fl.
Proof. intros Hs. apply (heap_inv_same s); [done..|]. apply (hi_init _ _ Hs). Qed.

Lemma locked_shrinks s fl : heap_inv s fl -> shrinks s fl (locked s) fl.
Proof. intros Hs. by apply shrinks_same; [apply Hs|..]. Qed.

Lemma heap_used_locked s fl b : heap_inv s fl -> heap_used (locked s) fl b -> heap_used s fl b.
Proof.
  intros Hs. destruct (fa_rest s (locked s)) as [_ H]; [apply Hs|done..|].
  unfold heap_used. rewrite H. done.
Qed.

(** A non-empty free list: the first slot. *)
Lemma kmalloc_pop s fl size i a l :
  heap_ok s fl -> 0 < size <= KMALLOC_MAX_SIZE ->
  size_to_index (slabs (heap s)) size = Some i -> fl !! i = Some (a :: l) ->
  exists s', kmalloc size s = Ret (PHYS_TO_VIRT a + 16) s'
             /\ allocates s fl i a s' (<[i := l]> fl).
Proof.
  intros Hok Hsize Hi Hl. pose proof (proj1 Hok) as Hs.
  assert (Hlt : (i < KMALLOC_NUM_SIZES)%nat).
  { rewrite <- (hi_len _ _ Hs). by eapply lookup_lt_Some. }
  destruct (heap_slab s fl i Hs Hlt) as (c & Hc & Hsz).
  pose proof (locked_inv s fl Hs) as Hs1.
  pose proof (pop_range (locked s) fl i c a l Hs1 Hc Hl) as Hr.
  rewrite (kmalloc_small_start s size i c (hi_init _ _ Hs) (proj2 Hok) Hsize Hi Hc).
  destruct (pop_head (locked s) fl i c a l Hs1 Hc Hl) as [-> _].
  rewrite (proj2 (truthy_true _)) by (apply PHYS_TO_VIRT_nonnull; lia).
  eexists. apply pop_allocates; [done..|by apply locked_shrinks|by destruct s| |].
  - intros b Hb. right. exists i, a. split; [|done]. by apply (pop_slot (locked s) fl i c a l).
  - by apply hands_out_same; [apply Hs|..].
Qed.

(** The page split, in the terms of [refill_state]. *)
Lemma refill_run s fl i c a :
  heap_inv s fl -> slabs (heap s) !! i = Some c -> slab_size c = class_size i ->
  (i < KMALLOC_NUM_SIZES)%nat ->
  (c ← get_slab i;
   let num_objs := PAGE_SIZE / slab_size c in
   upd_ram (fun m => split_page (Z.to_nat (u32 (num_objs - 1))) m (PHYS_TO_VIRT a) (slab_size c) 0);;
   upd_ram (fun m => split_last m (PHYS_TO_VIRT a + u32 (u32 (num_objs - 1) * slab_size c)));;
   upd_slab i (set_free_list (PHYS_TO_VIRT a));;
   pop_object i) s = pop_object i (refill_state s i c a).
Proof.
  intros Hs Hc Hsz Hi. unfold get_slab, upd_slab. msimpl. cbn zeta.
  rewrite (list_lookup_total_correct _ _ _ Hc). cbn [slabs kmalloc_lock kmalloc_initialized].
  destruct (slots_per_page_val i Hi) as (?&Hmul&Hdiv). destruct (class_size_range i Hi).
  f_equal. unfold refill_state, split_all. rewrite Hsz, <- Hdiv. unfold PAGE_SIZE in *.
  assert (Hsmall : Z.of_nat (slots_per_page i) <= 256) by nia.
  rewrite (u32_small (Z.of_nat _ - 1)), u32_small by nia. done.
Qed.

(** An empty free list: a new page is split, or there is none. *)
Lemma kmalloc_refill s fl size i :
  heap_ok s fl -> 0 < size <= KMALLOC_MAX_SIZE ->
  size_to_index (slabs (heap s)) size = Some i -> fl !! i = Some [] ->
  exists s', (kmalloc size s = Ret 0 s' /\ heap_ok s' fl /\ shrinks s fl s' fl /\ heap_only s s'
               /\ (forall b, heap_used s fl b -> heap_used s' fl b))
  \/ exists a l, slots (slots_per_page i) a (class_size i) = a :: l /\ a mod PAGE_SIZE = 0
     /\ (forall b, a <= b < a + PAGE_SIZE -> fa_reserved s b)
     /\ kmalloc size s = Ret (PHYS_TO_VIRT a + 16) s'
     /\ allocates s fl i a s' (<[i := l]> fl).
Proof.
  intros Hok Hsize Hi Hl. pose proof (proj1 Hok) as Hs.
  assert (Hlt : (i < KMALLOC_NUM_SIZES)%nat).
  { rewrite <- (hi_len _ _ Hs). by eapply lookup_lt_Some. }
  destruct (heap_slab s fl i Hs Hlt) as (c & Hc & Hsz).
  pose proof (locked_inv s fl Hs) as Hs1.
  pose proof (kmalloc_small_start s size i c (hi_init _ _ Hs) (proj2 Hok) Hsize Hi Hc) as Estart.
  pose proof (hi_chain _ _ Hs _ _ _ Hc Hl) as E. simpl in E. rewrite E in Estart.
  cbn [truthy Z.eqb negb] in Estart.
  destruct (fa_alloc (locked s) (hi_frames _ _ Hs1)) as (r & s2 & Er & Hok2 & Hrest & Hr).
  pose proof (same_rest_heap _ _ Hrest) as Hheap.
  unfold mbind at 1, M_bind at 1 in Estart. rewrite Er in Estart. destruct Hr as [[-> ->]|(a & -> & Hf)].
  - eexists. left. split; [exact Estart|]. split.
    + split; [|done]. by apply (heap_inv_same (locked s)); [..|apply (hi_init _ _ Hs)].
    + split; [by apply shrinks_same; [apply Hs|..]|]. split; [|by apply hands_out_same; [apply Hs|..]].
      transitivity (locked s); [by destruct s|by destruct (locked s)].
  - pose proof (new_page_inv _ _ _ _ _ Hs1 Hok2 Hrest Hf) as Hs2.
    destruct (fr_range _ _ _ _ _ Hf) as (Ha & Hal & Ha2). unfold PAGE_SIZE in Ha2.
    pose proof (PHYS_TO_VIRT_nonnull a ltac:(lia)). rewrite (proj2 (Z.eqb_neq _ 0)) in Estart by done.
    cbv beta match in Estart.
    assert (Hc2 : slabs (heap s2) !! i = Some c) by by rewrite Hheap.
    pose proof (refill_run s2 fl i c a Hs2 Hc2 Hsz Hlt) as Erefill. cbv zeta in Erefill.
    rewrite Erefill in Estart.
    pose proof (refill_inv _ _ _ _ _ _ Hs1 Hs2 Hf Hc2 Hl) as Hs3.
    destruct (slots_per_page_val i Hlt) as (Hn & Hmul & _). destruct (class_size_range i Hlt).
    destruct (slots_per_page i) as [|n] eqn:En; [lia|].
    destruct (fa_rest s (locked s) (hi_frames _ _ Hs) eq_refl eq_refl) as [_ Hres].
    destruct (pop_allocates s fl (refill_state s2 i c a) (<[i := slots (S n) a (class_size i)]> fl) i
      (set_free_list (PHYS_TO_VIRT a) c) a (slots n (a + class_size i) (class_size i)))
      as [Erun Hal']; [exact Hs3|..].
    { simpl. rewrite Hheap. apply list_lookup_insert_eq. by eapply lookup_lt_Some. }
    { apply list_lookup_insert_eq. by rewrite (hi_len _ _ Hs). }
    { eapply shrinks_trans; [by apply locked_shrinks|]. rewrite <- En.
      apply (shrinks_refill (locked s) s2); done. }
    { transitivity s2; [|by destruct s2]. transitivity (locked s); [by destruct s|].
      by apply same_rest_heap_only. }
    { intros b Hb. left. apply Hres, (fr_was _ _ _ _ _ Hf). unfold PAGE_SIZE in *. nia. }
    { intros b Hb. rewrite <- En. apply (hands_out_refill (locked s)); [done..|].
      by apply (hands_out_same s); [apply Hs|..]. }
    eexists. right. exists a, (slots n (a + class_size i) (class_size i)).
    split; [done|]. split; [done|]. split.
    { intros b Hb. apply Hres, (fr_was _ _ _ _ _ Hf). lia. }
    split; [by rewrite Estart|]. by rewrite list_insert_insert_eq in Hal'.
Qed.

(** * Live objects *)

(** An object of class [i] that was allocated and whose header is intact. *)
Record live_slot (s : kst) (fl : list (list Z)) (i : nat) (a : Z) : Prop := {
  lv_class : (i < KMALLOC_NUM_SIZES)%nat;
  lv_own : own_slot s i a;
  lv_apart : forall j b, free_slot fl j b -> apart i a j b;
  lv_magic : hdr_magic (ram s) (PHYS_TO_VIRT a) = SLAB_MAGIC;
  lv_size : hdr_size (ram s) (PHYS_TO_VIRT a) = class_size i;
}.

Lemma allocates_live s fl i a s' fl' :
  (i < KMALLOC_NUM_SIZES)%nat -> allocates s fl i a s' fl' -> live_slot s' fl' i a.
Proof.
  intros Hi [[Hs' _] Hown _ _ Hm Hsz [? ?] _]. destruct (class_size_range i Hi).
  split; [done| | |done|done].
  - split; [done|]. split; [done|]. intros b Hb Hr. apply (Hown b Hb). by left.
  - intros j b Hb. pose proof (class_size_range j (free_slot_class _ _ _ _ Hs' Hb)).
    unfold apart. destruct (Z.leb_spec (a + class_size i) b); [by left|right].
    destruct (Z.leb_spec (b + class_size j) a); [done|]. exfalso.
    apply (Hown (Z.max a b) ltac:(lia)). right. exists j, b. split; [done|lia].
Qed.

(** Writes to memory the heap does not use keep it well formed. *)
Lemma heap_ok_client_write s fl m :
  heap_ok s fl -> (forall b, heap_used s fl b -> load8 m b = load8 (ram s) b) ->
  heap_ok (set_ram m s) fl /\ (forall b, heap_used (set_ram m s) fl b <-> heap_used s fl b).
Proof.
  intros [Hs Hl] Hm.
  destruct (fa_frame s (set_ram m s)) as [Hok Hres]; [apply Hs|done| |].
  { intros b Hb. apply Hm. by left. }
  split; [split; [|done]|].
  - split; [done|apply Hs..| | |apply Hs|apply Hs].
    + intros i c l Hc Hfl. eapply chain_ext; [|by eapply (hi_chain _ _ Hs)].
      intros b Hb. assert (Hf : free_slot fl i b) by (by exists l).
      destruct (hi_slot _ _ Hs _ _ Hf) as (?&?&_).
      pose proof (class_size_range i (free_slot_class _ _ _ _ Hs Hf)).
      split; [done|]. split; [lia|]. intros x Hx. apply Hm. right. exists i, b. split; [done|lia].
    + intros i b Hb. destruct (hi_slot _ _ Hs _ _ Hb) as (?&?&Hr).
      split; [done|]. split; [done|]. intros x Hx. rewrite Hres. by apply Hr.
  - intros b. unfold heap_used. by rewrite Hres.
Qed.

(** ** kfree of a live object puts it in front of its free list *)
Definition push_state (s : kst) (i : nat) (c : slab_cache) (a : Z) : kst :=
  let h := PHYS_TO_VIRT a in
  set_ram (set_hdr_next h (free_list c) (ram s))
    (set_heap (Heap (<[i := inc_frees (set_free_list h c)]> (slabs (heap s))) 0
                 (kmalloc_initialized (heap s))) s).

Section push.
Context (s : kst) (fl : list (list Z)) (i : nat) (c : slab_cache) (a : Z) (l : list Z).
Context (Hok : heap_ok s fl) (Hc : slabs (heap s) !! i = Some c).
Context (Hl : fl !! i = Some l) (Hlv : live_slot s fl i a).
Let Hs : heap_inv s fl := proj1 Hok.
Let s' := push_state s i c a.

Lemma push_range : 0 <= a /\ a + 16 <= a + class_size i <= 2 ^ 47 /\ class_size i <= 2048.
Proof.
  destruct (lv_own _ _ _ _ Hlv) as (?&?&_). pose proof (class_size_range i (lv_class _ _ _ _ Hlv)). lia.
Qed.

Lemma kfree_run : kfree (PHYS_TO_VIRT a + 16) s = Ret tt s'.
Proof.
  destruct push_range as (Ha&?&?).
  assert (Hlt : (i < length (slabs (heap s)))%nat) by (by eapply lookup_lt_Some).
  unfold kfree, SLAB_HEADER_SIZE.
  assert (E0 : (PHYS_TO_VIRT a + 16 =? 0) = false).
  { apply Z.eqb_neq. rewrite PHYS_TO_VIRT_val by lia. unfold KERNEL_HIGHER_HALF. lia. }
  rewrite E0. replace (PHYS_TO_VIRT a + 16 - 16) with (PHYS_TO_VIRT a) by lia.
  unfold mbind at 1, M_bind at 1. unfold gets at 1.
  rewrite (lv_magic _ _ _ _ Hlv), (lv_size _ _ _ _ Hlv), Z.eqb_refl. cbn [negb].
  unfold KMALLOC_MAX_SIZE. test_false. unfold mbind at 1, M_bind at 1. unfold gets at 1.
  rewrite (class_of_class_size _ i (hi_sizes _ _ Hs) (lv_class _ _ _ _ Hlv)).
  unfold kmalloc_spin_lock, kmalloc_spin_unlock, set_kmalloc_lock, get_slab, upd_slab. msimpl.
  rewrite (proj2 Hok). cbn [truthy Z.eqb negb slabs kmalloc_lock kmalloc_initialized].
  by rewrite (list_lookup_total_correct _ _ _ Hc), list_lookup_total_insert_eq,
    list_insert_insert_eq by done.
Qed.

Lemma push_frame : only_changes a (a + 8) (ram s) (ram s').
Proof. pose proof push_range. apply set_hdr_next_frame; lia. Qed.

Lemma push_alloc : fa_ok s' /\ (forall b, fa_reserved s' b <-> fa_reserved s b).
Proof.
  pose proof push_range. destruct (lv_own _ _ _ _ Hlv) as (?&?&Hown).
  apply (fa_frame s); [apply Hs|done|]. intros b Hr. apply push_frame.
  destruct (Z.ltb_spec b a), (Z.leb_spec (a + 8) b); try lia.
  exfalso. apply (Hown b); [lia|done].
Qed.

Lemma push_agree j b : free_slot fl j b -> agree_on b (b + 8) (ram s') (ram s).
Proof.
  intros Hb. pose proof push_range.
  pose proof (class_size_range j (free_slot_class _ _ _ _ Hs Hb)).
  eapply agree_on_frame; [exact push_frame|].
  destruct (lv_apart _ _ _ _ Hlv j b Hb); lia.
Qed.

Lemma push_in b : b ∈ l -> free_slot fl i b.
Proof. intros. by exists l. Qed.

Lemma push_chain : chain (ram s') (PHYS_TO_VIRT a) (a :: l).
Proof.
  pose proof push_range. split; [done|].
  pose proof (hi_chain _ _ Hs _ _ _ Hc Hl) as Hch.
  replace (hdr_next (ram s') (PHYS_TO_VIRT a)) with (free_list c).
  - eapply chain_ext; [|exact Hch]. intros b Hb.
    destruct (hi_slot _ _ Hs _ _ (push_in b Hb)) as (?&?&_). split; [done|]. split; [lia|].
    by apply (push_agree i), push_in.
  - unfold s', push_state. cbn [ram set_ram]. rewrite hdr_next_set. symmetry. apply u64_small.
    destruct l as [|b l']; simpl in Hch; [lia|]. destruct Hch as [-> _]. apply u64_range.
Qed.

Lemma push_own b : b ∈ a :: l -> own_slot s' i b.
Proof.
  intros Hb. assert (Ho : own_slot s i b).
  { apply elem_of_cons in Hb as [->|Hb]; [apply Hlv|]. by apply (hi_slot _ _ Hs), push_in. }
  destruct Ho as (?&?&Hr). split; [done|]. split; [done|].
  intros x Hx. rewrite (proj2 push_alloc). by apply Hr.
Qed.

Lemma push_apart b1 b2 : b1 ∈ a :: l -> b2 ∈ a :: l -> b1 = b2 \/ apart i b1 i b2.
Proof.
  pose proof (lv_apart _ _ _ _ Hlv i) as Hap.
  intros [->|H1]%elem_of_cons [->|H2]%elem_of_cons; [by left|right; by apply Hap, push_in| |].
  - right. destruct (Hap b1 (push_in _ H1)); [by right|by left].
  - destruct (hi_apart _ _ Hs _ _ _ _ (push_in _ H1) (push_in _ H2)) as [[_ ?]|?]; auto.
Qed.

Lemma push_inv : heap_ok s' (<[i := a :: l]> fl).
Proof.
  pose proof push_range. split; [|done].
  apply (heap_inv_update s) with (c' := inc_frees (set_free_list (PHYS_TO_VIRT a) c)).
  - done.
  - apply Hlv.
  - apply push_alloc.
  - apply (hi_init _ _ Hs).
  - done.
  - destruct (heap_slab s fl i Hs (lv_class _ _ _ _ Hlv)) as (c' & ? & <-). simpl. congruence.
  - exact push_chain.
  - constructor; [|by eapply (hi_nodup _ _ Hs)]. intros Ha.
    destruct (lv_apart _ _ _ _ Hlv i a (push_in a Ha)); lia.
  - intros b. by rewrite (proj2 push_alloc).
  - intros j b _. apply push_agree.
  - exact push_own.
  - exact push_apart.
  - intros j b1 b2 Hj [->|H1]%elem_of_cons H2; [by apply (lv_apart _ _ _ _ Hlv)|].
    destruct (hi_apart _ _ Hs _ _ _ _ (push_in _ H1) H2) as [[? _]|?]; [by subst|done].
Qed.
End push.

Lemma kfree_live s fl i a l :
  heap_ok s fl -> fl !! i = Some l -> live_slot s fl i a ->
  exists s', kfree (PHYS_TO_VIRT a + 16) s = Ret tt s'
    /\ heap_ok s' (<[i := a :: l]> fl) /\ only_changes a (a + 8) (ram s) (ram s').
Proof.
  intros Hok Hl Hlv. destruct (heap_slab s fl i (proj1 Hok) (lv_class _ _ _ _ Hlv)) as (c & Hc & _).
  exists (push_state s i c a). split; [by apply (kfree_run s fl)|].
  split; [by apply push_inv|]. by apply (push_frame s fl).
Qed.

(** * Large sizes: whole zeroed pages from the page allocator *)
Lemma kmalloc_large_run s size :
  fa_ok s -> kmalloc_initialized (heap s) = true -> KMALLOC_MAX_SIZE < size < 2 ^ 64 ->
  exists r s', kmalloc size s = Ret r s' /\ fa_ok s' /\ same_rest s s'
  /\ ((r = 0 /\ s' = s)
      \/ exists a pages, r = PHYS_TO_VIRT a /\ fresh fa_reserved s s' a pages
           /\ size <= pages * PAGE_SIZE < size + PAGE_SIZE /\ size + PAGE_SIZE <= 2 ^ 64).
Proof.
  intros Hs Hinit Hsize. unfold KMALLOC_MAX_SIZE in Hsize. set (pages := u64 (size + PAGE_SIZE - 1) / PAGE_SIZE).
  assert (Hp : 0 <= pages) by (apply Z.div_pos; [apply u64_range|unfold PAGE_SIZE; lia]).
  destruct (fa_alloc_n s pages Hs Hp) as (r & s1 & E & Hs1 & Hrest & Hr).
  assert (Erun : kmalloc size s =
    (whenM (truthy r) (upd_ram (fun m => memset m (lin r) 0 (pages * PAGE_SIZE)));; mret r) s1).
  { unfold kmalloc. unfold mbind at 1 2, M_bind at 1 2. unfold gets at 1. rewrite Hinit. cbn [negb whenM].
    unfold mret at 1, M_ret at 1. unfold KMALLOC_MAX_SIZE. test_false. test_true.
    fold pages. unfold mbind at 1, M_bind at 1. by rewrite E. }
  rewrite Erun. destruct Hr as [[-> ->]|(Hpos & a & -> & Hf)].
  { exists 0, s. split; [done|]. split; [done|]. split; [done|]. by left. }
  destruct (fr_range _ _ _ _ _ Hf) as (Ha & Hal & Ha2). unfold PAGE_SIZE in Ha2.
  rewrite (proj2 (truthy_true _)) by (apply PHYS_TO_VIRT_nonnull; lia). msimpl.
  rewrite lin_PHYS_TO_VIRT by lia. set (m' := memset _ _ _ _).
  assert (Hm : forall b, load8 m' b = load8 (ram s1) b).
  { intros b. unfold m'. rewrite memset_load. unfold PAGE_SIZE.
    rewrite Z2Nat.id by lia.
    destruct (Z.leb_spec a b), (Z.ltb_spec b (a + pages * 4096)); try done. simpl.
    symmetry. apply (fr_now _ _ _ _ _ Hf). unfold PAGE_SIZE. lia. }
  destruct (fa_frame s1 (set_ram m' s1) Hs1 eq_refl ltac:(intros; apply Hm)) as [Hs2 Hres].
  exists (PHYS_TO_VIRT a), (set_ram m' s1). split; [done|]. split; [done|].
  split; [etransitivity; [exact Hrest|]; by destruct s1|].
  right. exists a, pages. split; [done|]. split.
  { destruct Hf as [? Hw Hn Ho Hkp]. split; [done|done|..].
    - intros b Hb. rewrite Hres. cbn [ram set_ram]. rewrite Hm. by apply Hn.
    - intros b Hb. rewrite Hres. cbn [ram set_ram]. rewrite Hm. by apply Ho.
    - intros b Hb. rewrite Hres. by apply Hkp. }
  assert (Hw : size + PAGE_SIZE - 1 < 2 ^ 64).
  { destruct (Z.ltb_spec (size + PAGE_SIZE - 1) (2 ^ 64)); [done|]. exfalso.
    unfold pages, u64, PAGE_SIZE in *. Z.div_mod_to_equations. lia. }
  split.
  { unfold pages. rewrite u64_small by (unfold PAGE_SIZE in *; lia). unfold PAGE_SIZE.
    Z.div_mod_to_equations. lia. }
  unfold PAGE_SIZE in *. lia.
Qed.
End run.
