(* ===== verification/Objects.v ===== *)
(** The interface of the kernel heap, as the network stack uses it, and its
    implementation by kmalloc.c.

    A client knows its objects ([obj]), which bytes the heap may write
    ([ha_used]) and that the heap is well formed ([ha_ok]).  The contract: an
    allocation returns NULL or an object made of bytes that were the heap's; what
    the client owns is not touched; a released object is put back, and no byte is
    lost; a client may write its objects and every byte the heap does not use. *)
From S2P Require Import Prelude Machine Globals Strings Pmm Frames Kmalloc KmallocFacts KmallocRun.

(** The pointer and the size the client asked for, and the bytes [olo, ohi) of
    class [oclass] set aside for it. *)
Record obj := Obj { optr : Z; osize : Z; olo : Z; ohi : Z; oclass : nat }.
#[export] Instance obj_eq_dec : EqDecision obj.
Proof. solve_decision. Defined.

Record obj_ok (o : obj) : Prop := {
  ob_null : optr o <> 0;
  ob_half : one_half (optr o) (osize o);
  ob_size : 0 < osize o;
  ob_lo : olo o <= lin (optr o);
  ob_hi : lin (optr o) + osize o <= ohi o;
}.

Class HeapAllocator (alloc : Z -> M Z) (free : Z -> M unit) := {
  heap_view : Type;
  ha_ok : kst -> heap_view -> Prop;
  ha_used : kst -> heap_view -> Z -> Prop;
  ha_live : kst -> heap_view -> obj -> Prop;
  ha_fits : Z -> Prop;                          (* the sizes with room for the header *)
  ha_room : heap_view -> list Z -> Prop;        (* these sizes need no new page *)
  ha_push : obj -> heap_view -> heap_view;
  ha_alloc : forall s h n, ha_ok s h -> ha_fits n ->
    exists r s' h', alloc n s = Ret r s' /\ ha_ok s' h' /\ heap_only s s'
    /\ (forall b, ~ ha_used s h b -> ~ ha_used s' h' b /\ load8 (ram s') b = load8 (ram s) b)
    /\ ((r = 0 /\ (forall b, ha_used s h b -> ha_used s' h' b) /\ forall ns, ~ ha_room h (n :: ns))
        \/ exists o, optr o = r /\ osize o = n /\ obj_ok o /\ ha_live s' h' o
           /\ (forall b, olo o <= b < ohi o -> ha_used s h b)
           /\ (forall b, ha_used s h b -> ha_used s' h' b \/ olo o <= b < ohi o)
           /\ (forall ns, ha_room h (n :: ns) -> ha_push o h' = h /\ ha_room h' ns));
  ha_free : forall s h o, ha_ok s h -> ha_live s h o ->
    exists s', free (optr o) s = Ret tt s' /\ ha_ok s' (ha_push o h) /\ heap_only s s'
    /\ (forall b, ~ ha_used s h b -> ~ olo o <= b < ohi o ->
          ~ ha_used s' (ha_push o h) b /\ load8 (ram s') b = load8 (ram s) b)
    /\ (forall b, ha_used s h b \/ olo o <= b < ohi o -> ha_used s' (ha_push o h) b);
  ha_own : forall s h o b, ha_ok s h -> ha_live s h o -> olo o <= b < ohi o -> ~ ha_used s h b;
  ha_client : forall s s' h, ha_ok s h -> pmm s' = pmm s -> heap s' = heap s ->
    (forall b, ha_used s h b -> load8 (ram s') b = load8 (ram s) b) ->
    ha_ok s' h /\ (forall b, ha_used s' h b <-> ha_used s h b);
  ha_keep : forall s h s' h' o, ha_ok s' h' -> ha_live s h o ->
    (forall b, olo o <= b < ohi o -> ~ ha_used s' h' b) ->
    (forall b, olo o <= b < ohi o -> ~ lin (optr o) <= b < lin (optr o) + osize o ->
       load8 (ram s') b = load8 (ram s) b) ->
    ha_live s' h' o;
}.

(** * The implementation *)
Section kmalloc.
Context {FA : FrameAllocator pmm_alloc_page pmm_alloc_pages}.

Definition slot_obj (i : nat) (a n : Z) : obj := Obj (PHYS_TO_VIRT a + 16) n a (a + class_size i) i.

Definition slot_live (s : kst) (fl : list (list Z)) (o : obj) : Prop :=
  exists i a n, o = slot_obj i a n /\ live_slot s fl i a /\ 0 < n /\ n + 16 <= class_size i.

(** A slot holds the header and the object. *)
Definition fits (n : Z) : Prop := 0 < n /\ exists i, is_class_of n i /\ n + 16 <= class_size i.

Fixpoint room (fl : list (list Z)) (ns : list Z) : Prop :=
  match ns with
  | [] => True
  | n :: ns' => exists i a l, is_class_of n i /\ fl !! i = Some (a :: l) /\ room (<[i := l]> fl) ns'
  end.

Definition push_slot (o : obj) (fl : list (list Z)) : list (list Z) :=
  <[oclass o := olo o :: fl !!! oclass o]> fl.

Lemma is_class_of_inj n i j : is_class_of n i -> is_class_of n j -> i = j.
Proof.
  intros (Hi & Hi1 & Hi2) (Hj & Hj1 & Hj2).
  destruct (Nat.lt_trichotomy i j) as [H|[H|H]]; [|done|].
  - specialize (Hj2 i H). lia.
  - specialize (Hi2 j H). lia.
Qed.

Lemma slot_obj_ok i a n :
  0 <= a -> a + class_size i <= 2 ^ 47 -> 0 < n -> n + 16 <= class_size i -> obj_ok (slot_obj i a n).
Proof.
  intros. assert (El : lin (PHYS_TO_VIRT a + 16) = a + 16) by (apply lin_PHYS_add; lia).
  assert (Ev : PHYS_TO_VIRT a = a + KERNEL_HIGHER_HALF) by (apply PHYS_TO_VIRT_val; lia).
  split; cbn [optr osize olo ohi slot_obj]; rewrite ?El; [|right|lia..];
    rewrite Ev; unfold KERNEL_HIGHER_HALF; lia.
Qed.

Lemma push_slot_back i a n l fl :
  fl !! i = Some (a :: l) -> push_slot (slot_obj i a n) (<[i := l]> fl) = fl.
Proof.
  intros Hl. assert (i < length fl)%nat by (by eapply lookup_lt_Some).
  unfold push_slot. cbn [oclass olo slot_obj].
  rewrite list_lookup_total_insert_eq, list_insert_insert_eq by done. by apply list_insert_id.
Qed.

Lemma kmalloc_contract s fl n :
  heap_ok s fl -> fits n ->
  exists r s' fl', kmalloc n s = Ret r s' /\ heap_ok s' fl' /\ heap_only s s' /\ shrinks s fl s' fl'
  /\ ((r = 0 /\ (forall b, heap_used s fl b -> heap_used s' fl' b) /\ forall ns, ~ room fl (n :: ns))
      \/ exists o, optr o = r /\ osize o = n /\ obj_ok o /\ slot_live s' fl' o
         /\ (forall b, olo o <= b < ohi o -> heap_used s fl b)
         /\ (forall b, heap_used s fl b -> heap_used s' fl' b \/ olo o <= b < ohi o)
         /\ (forall ns, room fl (n :: ns) -> push_slot o fl' = fl /\ room fl' ns)).
Proof.
  intros Hok (Hpos & i & Hcl & Hfit). pose proof (class_size_max i n Hcl) as Hmax.
  pose proof (size_to_index_of_class _ n i (hi_sizes _ _ (proj1 Hok)) Hcl) as Hidx.
  assert (Hobj : forall a l s' fl0, allocates s fl i a s' (<[i := l]> fl) -> fl0 = <[i := l]> fl ->
    exists o, optr o = PHYS_TO_VIRT a + 16 /\ osize o = n /\ obj_ok o /\ slot_live s' fl0 o
      /\ (forall b, olo o <= b < ohi o -> heap_used s fl b)
      /\ (forall b, heap_used s fl b -> heap_used s' fl0 b \/ olo o <= b < ohi o) /\ o = slot_obj i a n).
  { intros a l s' fl0 Hal ->. destruct (al_range _ _ _ _ _ _ Hal).
    exists (slot_obj i a n). split; [done|]. split; [done|]. split; [by apply slot_obj_ok|].
    split; [|split; [|split; [apply (al_left _ _ _ _ _ _ Hal)|done]]].
    - exists i, a, n. split; [done|]. split; [|done]. eapply allocates_live; [apply Hcl|exact Hal].
    - intros b Hb. apply (al_own _ _ _ _ _ _ Hal b Hb). }
  destruct (lookup_lt_is_Some_2 fl i) as [[|a l] Hl].
  { rewrite (hi_len _ _ (proj1 Hok)). apply Hcl. }
  - assert (Hno : forall ns, ~ room fl (n :: ns)).
    { intros ns (j & a & l & Hj & Hj2 & _). rewrite (is_class_of_inj n j i Hj Hcl) in Hj2. congruence. }
    destruct (kmalloc_refill s fl n i Hok ltac:(lia) Hidx Hl)
      as (s' & [(E & ? & ? & ? & ?)|(a & l & _ & _ & _ & E & Hal)]).
    + exists 0, s', fl. do 4 (split; [done|]). left. done.
    + exists (PHYS_TO_VIRT a + 16), s', (<[i := l]> fl). split; [done|].
      split; [apply Hal|]. split; [apply Hal|]. split; [apply Hal|]. right.
      destruct (Hobj a l s' _ Hal eq_refl) as (o & ? & ? & ? & ? & ? & ? & _). exists o.
      do 6 (split; [done|]). intros ns Hr. by destruct (Hno ns).
  - destruct (kmalloc_pop s fl n i a l Hok ltac:(lia) Hidx Hl) as (s' & E & Hal).
    exists (PHYS_TO_VIRT a + 16), s', (<[i := l]> fl). split; [done|].
    split; [apply Hal|]. split; [apply Hal|]. split; [apply Hal|]. right.
    destruct (Hobj a l s' _ Hal eq_refl) as (o & ? & ? & ? & ? & ? & ? & ->). eexists.
    do 6 (split; [done|]). intros ns (j & a' & l' & Hj & Hj2 & Hr).
    rewrite (is_class_of_inj n j i Hj Hcl) in *. rewrite Hl in Hj2. injection Hj2 as <- <-.
    split; [by apply push_slot_back|done].
Qed.

Lemma kfree_contract s fl o :
  heap_ok s fl -> slot_live s fl o ->
  exists s', kfree (optr o) s = Ret tt s' /\ heap_ok s' (push_slot o fl) /\ heap_only s s'
  /\ (forall b, ~ heap_used s fl b -> ~ olo o <= b < ohi o ->
        ~ heap_used s' (push_slot o fl) b /\ load8 (ram s') b = load8 (ram s) b)
  /\ (forall b, heap_used s fl b \/ olo o <= b < ohi o -> heap_used s' (push_slot o fl) b).
Proof.
  intros Hok (i & a & n & -> & Hlv & Hn & Hfit). cbn [optr olo ohi slot_obj].
  pose proof (lv_class _ _ _ _ Hlv) as Hi. destruct (heap_slab s fl i (proj1 Hok) Hi) as (c & Hc & _).
  destruct (lookup_lt_is_Some_2 fl i) as [l Hl]; [by rewrite (hi_len _ _ (proj1 Hok))|].
  assert (Epush : push_slot (slot_obj i a n) fl = <[i := a :: l]> fl).
  { unfold push_slot. cbn [oclass olo slot_obj]. by rewrite (list_lookup_total_correct _ _ _ Hl). }
  rewrite Epush. exists (push_state s i c a). split; [by apply (kfree_run s fl)|].
  split; [by apply push_inv|]. split; [by destruct s|]. split; [intros b Hb Hout; split|].
  - intros [Hr|(j & x & Hx & Hbx)]; apply Hb.
    + left. by apply (push_alloc s fl i c a Hok Hlv).
    + right. apply free_slot_insert in Hx as [[-> Hx]|[_ Hx]]; [|eauto].
      apply elem_of_cons in Hx as [->|Hx]; [lia|]. exists i, x. split; [by exists l|done].
  - apply (push_frame s fl i c a Hlv). pose proof (class_size_range i Hi). lia.
  - assert (Hlt : (i < length fl)%nat) by (by eapply lookup_lt_Some).
    intros b [[Hr|(j & x & Hx & Hb)]|Hb]; [left; by apply (push_alloc s fl i c a Hok Hlv)|right..].
    + exists j, x. split; [|done]. destruct (decide (j = i)) as [->|]; [|by apply free_slot_insert_ne].
      destruct Hx as (l' & Hl' & Hx). rewrite Hl in Hl'. injection Hl' as <-.
      apply free_slot_insert_eq; [done|by right].
    + exists i, a. split; [apply free_slot_insert_eq; [done|by left]|done].
Qed.

(** Writes to what the heap does not use, and changes of the other variables. *)
Lemma heap_ok_client s s' fl :
  heap_ok s fl -> pmm s' = pmm s -> heap s' = heap s ->
  (forall b, heap_used s fl b -> load8 (ram s') b = load8 (ram s) b) ->
  heap_ok s' fl /\ (forall b, heap_used s' fl b <-> heap_used s fl b).
Proof.
  intros Hok Hp Hh Hb. destruct (heap_ok_client_write s fl (ram s') Hok Hb) as [[Hs1 Hl1] Hu].
  destruct (fa_rest (set_ram (ram s') s) s' (hi_frames _ _ Hs1) Hp eq_refl) as [_ Hres].
  split.
  - split; [|by rewrite Hh]. apply (heap_inv_same (set_ram (ram s') s)); [done..|by rewrite Hh|].
    rewrite Hh. apply (hi_init _ _ Hs1).
  - intros b. rewrite <- Hu. unfold heap_used. by rewrite Hres.
Qed.

(** A live object stays live while nobody else writes its slot. *)
Lemma slot_live_keep s fl s' fl' o :
  heap_ok s' fl' -> slot_live s fl o ->
  (forall b, olo o <= b < ohi o -> ~ heap_used s' fl' b) ->
  (forall b, olo o <= b < ohi o -> ~ lin (optr o) <= b < lin (optr o) + osize o ->
     load8 (ram s') b = load8 (ram s) b) ->
  slot_live s' fl' o.
Proof.
  intros [Hs' _] (i & a & n & -> & [Hi Hown Hap Hm Hsz] & Hn & Hfit) Hu Hb.
  cbn [optr olo ohi osize slot_obj] in *. destruct Hown as (? & ? & Hown).
  destruct (class_size_range i Hi). rewrite (lin_PHYS_add a 16) in Hb by lia.
  exists i, a, n. split; [done|]. split; [|done]. split; [done|..].
  - split; [done|]. split; [done|]. intros b Hab Hr. apply (Hu b Hab). by left.
  - intros j b Hf. pose proof (class_size_range j (free_slot_class _ _ _ _ Hs' Hf)).
    unfold apart. destruct (Z.leb_spec (a + class_size i) b); [by left|right].
    destruct (Z.leb_spec (b + class_size j) a); [done|]. exfalso.
    apply (Hu (Z.max a b) ltac:(lia)). right. exists j, b. split; [done|lia].
  - rewrite <- Hm. unfold hdr_magic. rewrite (hdr_magic_addr a) by lia.
    apply (load_le_ext 4). intros j Hj. apply Hb; lia.
  - rewrite <- Hsz. unfold hdr_size. rewrite (hdr_size_addr a) by lia.
    apply (load_le_ext 4). intros j Hj. apply Hb; lia.
Qed.

Lemma slot_live_own s fl o b : heap_ok s fl -> slot_live s fl o -> olo o <= b < ohi o -> ~ heap_used s fl b.
Proof.
  intros [Hs _] (i & a & n & -> & [Hi (? & ? & Hown) Hap _ _] & _ & _) Hb [Hr|(j & x & Hx & Hbx)];
    cbn [olo ohi slot_obj] in Hb; [by eapply Hown|].
  destruct (Hap j x Hx); lia.
Qed.

#[export] Instance kmalloc_heap_allocator : HeapAllocator kmalloc kfree := {
  ha_ok := heap_ok;
  ha_used := heap_used;
  ha_live := slot_live;
  ha_fits := fits;
  ha_room := room;
  ha_push := push_slot;
  ha_alloc := kmalloc_contract;
  ha_free := kfree_contract;
  ha_own := slot_live_own;
  ha_client := heap_ok_client;
  ha_keep := slot_live_keep;
}.
End kmalloc.

(** * A client and its objects *)
Section client.
Context {alloc : Z -> M Z} {free : Z -> M unit} {HA : HeapAllocator alloc free}.

Definition objs_apart (o1 o2 : obj) : Prop := ohi o1 <= olo o2 \/ ohi o2 <= olo o1.

(** The client owns the objects [os]. *)
Record holds (s : kst) (h : heap_view) (os : list obj) : Prop := {
  ho_ok : ha_ok s h;
  ho_live : Forall (fun o => ha_live s h o /\ obj_ok o) os;
  ho_apart : ForallOrdPairs objs_apart os;
}.

(** A byte of the client outside its objects. *)
Definition mine (s : kst) (h : heap_view) (os : list obj) (b : Z) : Prop :=
  ~ ha_used s h b /\ forall o, o ∈ os -> ~ olo o <= b < ohi o.

Lemma holds_obj s h os o : holds s h os -> o ∈ os -> ha_live s h o /\ obj_ok o.
Proof. intros [_ Hl _] Ho. rewrite Forall_forall in Hl. by apply Hl. Qed.

Lemma holds_own s h os o b : holds s h os -> o ∈ os -> olo o <= b < ohi o -> ~ ha_used s h b.
Proof. intros Hh Ho. eapply ha_own; [apply Hh|by apply (holds_obj s h os)]. Qed.

Lemma holds_alloc s h os n :
  holds s h os -> ha_fits n ->
  exists r s' h', alloc n s = Ret r s' /\ heap_only s s'
  /\ (forall b, ~ ha_used s h b -> ~ ha_used s' h' b /\ load8 (ram s') b = load8 (ram s) b)
  /\ ((r = 0 /\ (forall ns, ~ ha_room h (n :: ns)) /\ holds s' h' os
       /\ (forall b, mine s h os b -> mine s' h' os b) /\ (forall b, ha_used s h b -> ha_used s' h' b))
      \/ exists o, optr o = r /\ osize o = n /\ holds s' h' (o :: os)
         /\ (forall b, mine s h os b -> mine s' h' (o :: os) b)
         /\ (forall b, olo o <= b < ohi o -> ha_used s h b)
         /\ (forall b, ha_used s h b -> ha_used s' h' b \/ olo o <= b < ohi o)
         /\ (forall ns, ha_room h (n :: ns) -> ha_push o h' = h /\ ha_room h' ns)).
Proof.
  intros Hh Hn. pose proof Hh as [Hok Hlive Hap].
  destruct (ha_alloc s h n Hok Hn) as (r & s' & h' & E & Hok' & Hon & Hkeep & Hr).
  exists r, s', h'. do 3 (split; [done|]).
  assert (Hold : Forall (fun o => ha_live s' h' o /\ obj_ok o) os).
  { rewrite Forall_forall in *. intros o Ho. destruct (Hlive o Ho) as [Hl ?]. split; [|done].
    apply (ha_keep s h s' h' o Hok' Hl).
    - intros b Hb. apply Hkeep. by eapply holds_own.
    - intros b Hb _. apply Hkeep. by eapply holds_own. }
  destruct Hr as [(-> & Hback & Hno)|(o & Ep & Es & Ho & Hlo & Hus & Hback & Hroom)]; [left|right; exists o].
  - do 3 (split; [done|]). split; [|done]. intros b [Hb ?]. split; [by apply Hkeep|done].
  - split; [done|]. split; [done|]. split; [|split; [|done]].
    + split; [done|by constructor|]. constructor; [|done].
      rewrite Forall_forall. intros o' Ho'. unfold objs_apart.
      destruct (holds_obj s h os o' Hh Ho') as [_ Hobj].
      destruct (Z.leb_spec (ohi o) (olo o')); [by left|right].
      destruct (Z.leb_spec (ohi o') (olo o)); [done|]. exfalso. destruct Ho, Hobj.
      apply (holds_own s h os o' (Z.max (olo o) (olo o')) Hh Ho'); [lia|]. apply Hus. lia.
    + intros b [Hb Hb']. split; [by apply Hkeep|]. intros o' [->|Ho']%elem_of_cons; [|by apply Hb'].
      intros ?. by apply Hb, Hus.
Qed.

Lemma holds_free s h o os :
  holds s h (o :: os) ->
  exists s', free (optr o) s = Ret tt s' /\ heap_only s s' /\ holds s' (ha_push o h) os
  /\ (forall b, ~ ha_used s h b -> ~ olo o <= b < ohi o ->
        ~ ha_used s' (ha_push o h) b /\ load8 (ram s') b = load8 (ram s) b)
  /\ (forall b, mine s h (o :: os) b -> mine s' (ha_push o h) os b)
  /\ (forall b, ha_used s h b \/ olo o <= b < ohi o -> ha_used s' (ha_push o h) b).
Proof.
  intros Hh. pose proof Hh as [Hok Hlive Hap]. apply Forall_cons in Hlive as [[Hl Ho] Hlive].
  inversion Hap as [|? ? Hap1 Hap2]; subst.
  destruct (ha_free s h o Hok Hl) as (s' & E & Hok' & Hon & Hkeep & Hback).
  exists s'. split; [done|]. split; [done|].
  assert (Hout : forall o' b, o' ∈ os -> olo o' <= b < ohi o' -> ~ ha_used s h b /\ ~ olo o <= b < ohi o).
  { intros o' b Ho' Hb. split; [eapply holds_own; [exact Hh|by right|done]|].
    rewrite Forall_forall in Hap1. destruct (Hap1 o' Ho'); lia. }
  split; [|split; [done|split; [|done]]].
  - split; [done| |done]. rewrite Forall_forall in *. intros o' Ho'.
    destruct (Hlive o' Ho') as [Hl' ?]. split; [|done].
    apply (ha_keep s h s' _ o' Hok' Hl'); intros b Hb; [|intros _];
      destruct (Hout o' b Ho' Hb); by apply Hkeep.
  - intros b [Hb Hb']. split; [apply Hkeep; [done|apply Hb'; by left]|].
    intros o' Ho'. apply Hb'. by right.
Qed.

(** The client writes into an object and may change other variables. *)
Lemma holds_write s h os o s' :
  holds s h os -> o ∈ os -> pmm s' = pmm s -> heap s' = heap s ->
  only_changes (lin (optr o)) (lin (optr o) + osize o) (ram s) (ram s') ->
  holds s' h os /\ (forall b, mine s h os b <-> mine s' h os b)
  /\ (forall b, ha_used s' h b <-> ha_used s h b).
Proof.
  intros Hh Ho Hp Hhp Hw. pose proof Hh as [Hok Hlive Hap].
  destruct (holds_obj s h os o Hh Ho) as [Hl [_ _ Hsz Hlo Hhi]].
  assert (Huse : forall b, ha_used s h b -> load8 (ram s') b = load8 (ram s) b).
  { intros b Hb. apply Hw. destruct (Z.ltb_spec b (lin (optr o))), (Z.leb_spec (lin (optr o) + osize o) b);
      [lia..|]. exfalso. eapply holds_own; [exact Hh|exact Ho| |exact Hb]. lia. }
  destruct (ha_client s s' h Hok Hp Hhp Huse) as [Hok' Hu].
  split; [|split; [|done]].
  - split; [done| |done]. rewrite Forall_forall in *. intros o' Ho'.
    destruct (Hlive o' Ho') as [Hl' Hob']. split; [|done].
    apply (ha_keep s h s' h o' Hok' Hl'); intros b Hb.
    + rewrite Hu. by eapply holds_own.
    + intros Hb2. apply Hw. destruct (decide (o' = o)) as [->|Hne]; [lia|].
      destruct (ForallOrdPairs_In Hap o' o) as [?|[Hd|Hd]]; try done;
        [by apply list_elem_of_In..| |]; unfold objs_apart in Hd; lia.
  - intros b. unfold mine. by rewrite Hu.
Qed.

(** The client writes outside its objects. *)
Lemma holds_client s h os s' :
  holds s h os -> pmm s' = pmm s -> heap s' = heap s ->
  (forall b, ~ mine s h os b -> load8 (ram s') b = load8 (ram s) b) ->
  holds s' h os /\ (forall b, mine s h os b <-> mine s' h os b)
  /\ (forall b, ha_used s' h b <-> ha_used s h b).
Proof.
  intros Hh Hp Hhp Hw. pose proof Hh as [Hok Hlive Hap].
  destruct (ha_client s s' h Hok Hp Hhp) as [Hok' Hu].
  { intros b Hb. apply Hw. by intros [? _]. }
  split; [|split; [|done]].
  - split; [done| |done]. rewrite Forall_forall in *. intros o Ho. destruct (Hlive o Ho) as [Hl ?].
    split; [|done]. apply (ha_keep s h s' h o Hok' Hl); intros b Hb.
    + rewrite Hu. by eapply holds_own.
    + intros _. apply Hw. intros [_ Hm]. by apply (Hm o Ho).
  - intros b. unfold mine. by rewrite Hu.
Qed.
End client.
