(* ===== verification/KmallocProps.v ===== *)
(** Properties of kmalloc.c, each with a witness on a concrete heap. *)
From S2P Require Import Prelude Machine Globals Strings Pmm PmmFacts PmmProps Frames.
From S2P Require Import Kmalloc KmallocFacts KmallocRun.

(** * Concrete heaps: three free slots of one class at 2 MB *)
Module KmallocExample.
Definition ram0 : gmap Z Z := ram PmmExample.s.
Definition base : Z := 0x200000.
Lemma example_frames : frames_ok PmmExample.s.
Proof.
  split; [apply PmmExample.s_ok|].
  intros i j q (z1 & H1 & Hq1 & _) (z2 & H2 & Hq2 & _).
  destruct i as [|[|[|i]]], j as [|[|[|j]]]; try done; injection H1 as <-; injection H2 as <-;
    unfold in_zone in *; simpl in *; lia.
Qed.

(** The two bitmaps and the frames are elsewhere. *)
Lemma example_zone i z :
  zones (pmm PmmExample.s) !! i = Some z ->
  (bitmap z + bitmap_bytes z <= 0x101008 /\ 0 <= bitmap z)
  /\ (0x1000 <= base_pfn z).
Proof.
  intros Hz. destruct i as [|[|[|i]]]; [..|done]; injection Hz as <-; vm_compute;
    repeat split; discriminate.
Qed.

(** Below the zones' frames (16 MB) and above their bitmaps. *)
Lemma example_unreserved b : 0x101008 <= b < 0x1000000 -> ~ reserved PmmExample.s b.
Proof.
  intros Hb [(i & z & Hz & Hr)|(i & q & (z & Hz & Hq & _) & Hf)];
    destruct (example_zone i z Hz) as ([? ?]&?); [lia|].
  unfold in_zone, in_frame, PAGE_SIZE in *. lia.
Qed.

Section one_class.
Context (k : nat) (Hk : (k <= 6)%nat).
Let c : Z := class_size k.

Definition ram_of : gmap Z Z := split_all base c 3 2 ram0 0.
Definition slabs_of : list slab_cache :=
  <[k := Slab c (PHYS_TO_VIRT base) 0 0]> (map (fun sz => Slab sz 0 0 0) slab_sizes).
Definition heap_of : kst := set_ram ram_of (set_heap (Heap slabs_of 0 true) PmmExample.s).
Definition free_of : list (list Z) := <[k := slots 3 base c]> (replicate 8 []).

Lemma class_range : 16 <= c /\ 3 * c <= PAGE_SIZE.
Proof.
  unfold c. clear c. revert k Hk. intros j Hj.
  do 7 (destruct j as [|j]; [vm_compute; split; discriminate|]). lia.
Qed.

Lemma ram_of_frame : only_changes base (base + PAGE_SIZE) ram0 ram_of.
Proof.
  pose proof class_range. pose proof (split_all_frame base c 3 ltac:(unfold base; lia)
    ltac:(unfold base, PAGE_SIZE; lia) ltac:(lia) ltac:(lia) 2 ram0 0) as Hf.
  eapply only_changes_weaken; [apply Hf|..]; lia.
Qed.

Lemma heap_of_frames : frames_ok heap_of /\ (forall b, reserved heap_of b <-> reserved PmmExample.s b).
Proof.
  apply frames_ok_frame; [exact example_frames|done|]. intros b Hb.
  change (load8 ram_of b = load8 ram0 b). apply ram_of_frame.
  destruct (Z.ltb_spec b base), (Z.leb_spec (base + PAGE_SIZE) b); [lia|lia|lia|].
  exfalso. by apply (example_unreserved b); [unfold base, PAGE_SIZE in *; lia|].
Qed.

Lemma heap_of_chain : chain (ram heap_of) (PHYS_TO_VIRT base) (slots 3 base c).
Proof.
  pose proof class_range. change (ram heap_of) with ram_of. unfold ram_of.
  replace base with (base + 0 * c) at 2 3 by lia.
  apply (split_all_chain base c 3); unfold base, PAGE_SIZE in *; lia.
Qed.

Lemma free_of_slot i a : free_slot free_of i a -> i = k /\ a ∈ slots 3 base c.
Proof.
  intros [[-> Ha]|[_ (l & Hl & Ha)]]%free_slot_insert; [done|].
  apply lookup_replicate in Hl as [-> _]. by apply elem_of_nil in Ha.
Qed.

Lemma heap_of_ok : heap_ok heap_of free_of.
Proof.
  pose proof class_range as [Hc1 Hc3]. unfold PAGE_SIZE in Hc3. split; [split|done].
  - apply heap_of_frames.
  - done.
  - cbn [slabs heap heap_of set_ram set_heap]. unfold slabs_of.
    rewrite list_fmap_insert. apply list_insert_id. unfold c, class_size.
    by apply list_lookup_lookup_total_lt; change (length slab_sizes) with 8%nat; lia.
  - unfold free_of. by rewrite length_insert.
  - intros i x l Hx Hl. cbn [slabs heap heap_of set_ram set_heap] in Hx. unfold slabs_of, free_of in *.
    destruct (decide (i = k)) as [->|Hne].
    + rewrite list_lookup_insert_eq in Hx by (simpl; lia). rewrite list_lookup_insert_eq in Hl by (simpl; lia).
      injection Hx as <-. injection Hl as <-. exact heap_of_chain.
    + rewrite list_lookup_insert_ne in Hx by done.
      rewrite list_lookup_insert_ne in Hl by done. apply lookup_replicate in Hl as [-> _].
      rewrite list_lookup_fmap in Hx. destruct (slab_sizes !! i); [|done]. by injection Hx as <-.
  - intros i a [-> Ha]%free_of_slot. apply elem_of_slots in Ha as (j & Hj & ->).
    unfold own_slot. fold c. split; [unfold base; nia|]. split; [unfold base; nia|]. intros b Hb.
    change (~ reserved heap_of b). rewrite (proj2 heap_of_frames). apply example_unreserved.
    unfold base in *. nia.
  - intros i l Hl. destruct (decide (i = k)) as [->|Hne]; unfold free_of in Hl.
    + rewrite list_lookup_insert_eq in Hl by (simpl; lia). injection Hl as <-. exact (slots_NoDup 3 base c ltac:(lia)).
    + rewrite list_lookup_insert_ne in Hl by done. apply lookup_replicate in Hl as [-> _]. apply NoDup_nil_2.
  - intros i j a b Hia Hjb. apply free_of_slot in Hia as [-> Ha], Hjb as [-> Hb].
    apply elem_of_slots in Ha as (k1 & ? & ->), Hb as (k2 & ? & ->).
    unfold apart. fold c.
    destruct (Z.lt_trichotomy k1 k2) as [?|[->|?]]; [right; left; nia|by left|right; right; nia].
Qed.

(** The memory after the slots' page is the caller's. *)
Lemma heap_of_unused b : base + PAGE_SIZE <= b < 0x1000000 -> ~ heap_used heap_of free_of b.
Proof.
  intros Hb [Hr|(i & a & Ha & Hab)].
  - apply heap_of_frames in Hr. revert Hr. apply example_unreserved. unfold base, PAGE_SIZE in *. lia.
  - apply free_of_slot in Ha as [-> Ha]. apply elem_of_slots in Ha as (j & ? & ->). fold c in Hab.
    destruct class_range. nia.
Qed.
End one_class.

(** Three slots of 64 bytes. *)
Definition s : kst := heap_of 2.
Definition fl : list (list Z) := free_of 2.

Lemma s_heap_ok : heap_ok s fl.
Proof. apply heap_of_ok. lia. Qed.
Lemma s_frames : frames_ok s /\ (forall b, reserved s b <-> reserved PmmExample.s b).
Proof. apply heap_of_frames. lia. Qed.
Lemma fl_slot i a : free_slot fl i a -> i = 2%nat /\ a ∈ slots 3 base 64.
Proof. apply (free_of_slot 2). Qed.
End KmallocExample.

(** C6 kmalloc of at most 2048 bytes picks the least size class that holds the
    size and, from any well-formed heap, always returns: either the first slot of
    that class's free list, or the first slot of a new page that is split into
    slots, or NULL when the list is empty and there is no page.  The slot it
    returns was free and is not used by the heap any more, memory that callers
    already own is not touched, and the heap stays well formed. *)
Theorem kmalloc_small_refines (s : kst) (fl : list (list Z)) (size : Z) :
  heap_ok s fl -> 0 < size <= KMALLOC_MAX_SIZE ->
  exists i r s', is_class_of size i /\ kmalloc size s = Ret r s'
  /\ ((r = 0 /\ fl !! i = Some [] /\ heap_ok s' fl /\ shrinks s fl s' fl)
      \/ exists a l, r = PHYS_TO_VIRT a + 16 /\ allocates s fl i a s' (<[i := l]> fl)
           /\ (fl !! i = Some (a :: l)
               \/ fl !! i = Some [] /\ slots (slots_per_page i) a (class_size i) = a :: l
                  /\ a mod PAGE_SIZE = 0
                  /\ forall b, a <= b < a + PAGE_SIZE -> fa_reserved s b)).
Proof.
  intros Hok Hsize. destruct (size_to_index_class (slabs (heap s)) size) as (i & Hi & Hcl);
    [apply (hi_sizes _ _ (proj1 Hok))|lia|].
  destruct (lookup_lt_is_Some_2 fl i) as [[|a l] Hl].
  { rewrite (hi_len _ _ (proj1 Hok)). apply Hcl. }
  - destruct (kmalloc_refill s fl size i Hok Hsize Hi Hl)
      as (s' & [(E & ? & ? & _)|(a & l & Hsl & Hal & Hres & E & Ha)]); exists i.
    + exists 0, s'. split; [done|]. split; [done|]. by left.
    + exists (PHYS_TO_VIRT a + 16), s'. split; [done|]. split; [done|]. right. exists a, l. auto 10.
  - destruct (kmalloc_pop s fl size i a l Hok Hsize Hi Hl) as (s' & E & Ha).
    exists i, (PHYS_TO_VIRT a + 16), s'. split; [done|]. split; [done|]. right. exists a, l. auto.
Qed.

Lemma kmalloc_small_refines_witness :
  exists i r s', is_class_of 48 i /\ kmalloc 48 KmallocExample.s = Ret r s'
  /\ ((r = 0 /\ KmallocExample.fl !! i = Some [] /\ heap_ok s' KmallocExample.fl
       /\ shrinks KmallocExample.s KmallocExample.fl s' KmallocExample.fl)
      \/ exists a l, r = PHYS_TO_VIRT a + 16
           /\ allocates KmallocExample.s KmallocExample.fl i a s' (<[i := l]> KmallocExample.fl)
           /\ (KmallocExample.fl !! i = Some (a :: l)
               \/ KmallocExample.fl !! i = Some []
                  /\ slots (slots_per_page i) a (class_size i) = a :: l
                  /\ a mod PAGE_SIZE = 0
                  /\ forall b, a <= b < a + PAGE_SIZE -> fa_reserved KmallocExample.s b)).
Proof.
  apply (kmalloc_small_refines KmallocExample.s KmallocExample.fl 48);
    [apply KmallocExample.s_heap_ok|unfold KMALLOC_MAX_SIZE; lia].
Defined.

(** C7 kfree of an object kmalloc returned makes it the first of its class's
    free list and writes its link field only; the next kmalloc of a size of that
    class returns the same pointer, and the free lists are back where they
    were. *)
Theorem kfree_kmalloc_roundtrip (s : kst) (fl : list (list Z)) (i : nat) (a size : Z) (l : list Z) :
  heap_ok s fl -> fl !! i = Some l -> live_slot s fl i a ->
  0 < size -> is_class_of size i ->
  exists s1, kfree (PHYS_TO_VIRT a + 16) s = Ret tt s1
    /\ heap_ok s1 (<[i := a :: l]> fl) /\ only_changes a (a + 8) (ram s) (ram s1)
    /\ exists s2, kmalloc size s1 = Ret (PHYS_TO_VIRT a + 16) s2 /\ heap_ok s2 fl.
Proof.
  intros Hok Hl Hlv Hpos Hcl. destruct (kfree_live s fl i a l Hok Hl Hlv) as (s1 & E1 & Hok1 & Hf).
  exists s1. split; [done|]. split; [done|]. split; [done|].
  assert (Hlt : (i < length fl)%nat) by (by eapply lookup_lt_Some).
  assert (Hmax : size <= KMALLOC_MAX_SIZE) by by apply (class_size_max i).
  pose proof (size_to_index_of_class _ size i (hi_sizes _ _ (proj1 Hok1)) Hcl) as Hidx.
  destruct (kmalloc_pop s1 (<[i := a :: l]> fl) size i a l) as (s2 & E2 & Ha); [done..| |].
  { by apply list_lookup_insert_eq. }
  exists s2. split; [done|]. pose proof (al_ok _ _ _ _ _ _ Ha) as Hok2.
  rewrite list_insert_insert_eq, list_insert_id in Hok2 by done. exact Hok2.
Qed.

(** A live object of 64 bytes after the free ones. *)
Definition live_state : kst :=
  set_ram (set_hdr_size (PHYS_TO_VIRT 0x200400) 64
             (set_hdr_magic (PHYS_TO_VIRT 0x200400) SLAB_MAGIC (ram KmallocExample.s)))
    KmallocExample.s.

Lemma live_state_ok : heap_ok live_state KmallocExample.fl
  /\ live_slot live_state KmallocExample.fl 2 0x200400.
Proof.
  assert (Hunused : forall b, 0x200400 <= b < 0x200440 ->
            ~ heap_used KmallocExample.s KmallocExample.fl b).
  { intros b Hb [Hr|(i & a & Ha & Hab)].
    - apply KmallocExample.s_frames in Hr. revert Hr. apply KmallocExample.example_unreserved.
      unfold KmallocExample.base, PAGE_SIZE. lia.
    - apply KmallocExample.fl_slot in Ha as [-> Ha]. apply elem_of_slots in Ha as (k & ? & ->).
      change (class_size 2) with 64 in *. unfold KmallocExample.base in *. lia. }
  assert (Hf : only_changes (0x200400 + 8) (0x200400 + 16) (ram KmallocExample.s) (ram live_state))
    by (apply set_hdr_frame; lia).
  destruct (heap_ok_client_write KmallocExample.s KmallocExample.fl (ram live_state)
    KmallocExample.s_heap_ok) as [Hok Hu].
  { intros b Hb. apply Hf. destruct (Z.ltb_spec b 0x200408), (Z.leb_spec 0x200410 b); try lia.
    exfalso. apply (Hunused b); [lia|done]. }
  split; [exact Hok|]. split.
  - unfold KMALLOC_NUM_SIZES. lia.
  - unfold own_slot. change (class_size 2) with 64. split; [lia|]. split; [lia|].
    intros b Hb Hr. apply (Hunused b ltac:(lia)). apply Hu. by left.
  - intros j b [-> Hb]%KmallocExample.fl_slot. apply elem_of_slots in Hb as (k & ? & ->).
    unfold apart. change (class_size 2) with 64. unfold KmallocExample.base. lia.
  - unfold live_state. cbn [ram set_ram]. rewrite hdr_magic_set by lia. done.
  - unfold live_state. cbn [ram set_ram]. rewrite hdr_size_set. done.
Qed.

Lemma kfree_kmalloc_roundtrip_witness :
  exists s1, kfree (PHYS_TO_VIRT 0x200400 + 16) live_state = Ret tt s1
    /\ heap_ok s1 (<[2%nat := 0x200400 :: slots 3 0x200000 64]> KmallocExample.fl)
    /\ only_changes 0x200400 (0x200400 + 8) (ram live_state) (ram s1)
    /\ exists s2, kmalloc 40 s1 = Ret (PHYS_TO_VIRT 0x200400 + 16) s2
                  /\ heap_ok s2 KmallocExample.fl.
Proof.
  apply (kfree_kmalloc_roundtrip live_state KmallocExample.fl 2 0x200400 40 (slots 3 0x200000 64)).
  - apply live_state_ok.
  - reflexivity.
  - apply live_state_ok.
  - lia.
  - split; [unfold KMALLOC_NUM_SIZES; lia|]. split; [vm_compute; discriminate|].
    intros [|[|j]] Hj; [reflexivity|reflexivity|lia].
Defined.

(** C32 kmalloc of more than 2048 bytes returns whole, zeroed pages straight
    from the page allocator, enough for the size, or NULL with nothing changed; a
    size whose rounding up overflows 64 bits gives NULL.  Such an object has no
    header, and kfree looks for one in the 16 bytes before the pages: it changes
    nothing if the magic number is not there.  (It is there when a live slot of
    16 bytes ends there; kfree then takes the object for that slot.) *)
Theorem kmalloc_large_refines (s : kst) (size : Z) :
  frames_ok s -> kmalloc_initialized (heap s) = true ->
  KMALLOC_MAX_SIZE < size < 2 ^ 64 ->
  exists r s', kmalloc size s = Ret r s' /\ frames_ok s' /\ same_rest s s'
  /\ ((r = 0 /\ s' = s)
      \/ exists a pages, r = PHYS_TO_VIRT a /\ fresh reserved s s' a pages
           /\ size <= pages * PAGE_SIZE < size + PAGE_SIZE /\ size + PAGE_SIZE <= 2 ^ 64
           /\ (hdr_magic (ram s') (r - 16) <> SLAB_MAGIC -> kfree r s' = Ret tt s')).
Proof.
  intros Hs Hinit Hsize. destruct (kmalloc_large_run (FA := pmm_frame_allocator) s size Hs Hinit Hsize) as (r & s' & E & Hs' & Hrest & Hr).
  exists r, s'. do 3 (split; [done|]). destruct Hr as [?|(a & pages & -> & Hf & ? & ?)]; [by left|right].
  exists a, pages. do 4 (split; [done|]). intros Hmagic. destruct (fr_range _ _ _ _ _ Hf) as (Ha & _ & Ha2).
  unfold kfree. pose proof (PHYS_TO_VIRT_nonnull a ltac:(unfold KMALLOC_MAX_SIZE, PAGE_SIZE in *; lia)).
  test_false. unfold SLAB_HEADER_SIZE. unfold mbind, M_bind, gets. apply Z.eqb_neq in Hmagic. by rewrite Hmagic.
Qed.

Lemma kmalloc_large_refines_witness :
  exists r s', kmalloc 5000 KmallocExample.s = Ret r s' /\ frames_ok s'
  /\ same_rest KmallocExample.s s'
  /\ ((r = 0 /\ s' = KmallocExample.s)
      \/ exists a pages, r = PHYS_TO_VIRT a /\ fresh reserved KmallocExample.s s' a pages
           /\ 5000 <= pages * PAGE_SIZE < 5000 + PAGE_SIZE /\ 5000 + PAGE_SIZE <= 2 ^ 64
           /\ (hdr_magic (ram s') (r - 16) <> SLAB_MAGIC -> kfree r s' = Ret tt s')).
Proof.
  apply (kmalloc_large_refines KmallocExample.s 5000);
    [apply KmallocExample.s_frames|reflexivity|unfold KMALLOC_MAX_SIZE; lia].
Defined.

(** kzalloc after a small allocation that succeeded. *)
Lemma kzalloc_run {FA : FrameAllocator pmm_alloc_page pmm_alloc_pages} s size a s1 :
  0 <= a -> a + 16 < 2 ^ 47 -> kmalloc size s = Ret (PHYS_TO_VIRT a + 16) s1 ->
  kzalloc size s = Ret (PHYS_TO_VIRT a + 16) (set_ram (memset (ram s1) (a + 16) 0 size) s1).
Proof.
  intros H1 H2 E. unfold kzalloc. rewrite (bind_ret _ _ _ _ _ E).
  rewrite (proj2 (truthy_true _)).
  - msimpl. by rewrite lin_PHYS_add by lia.
  - rewrite PHYS_TO_VIRT_val by lia. unfold KERNEL_HIGHER_HALF. lia.
Qed.

(** A slot of [c] bytes holds its own 16-byte header, so an object has room
    for [c - 16] bytes only: while the size stays 16 bytes below its class,
    kzalloc returns zeroed memory of the caller's own and keeps the heap well
    formed. *)
Theorem kzalloc_fits (s : kst) (fl : list (list Z)) (size : Z) (i : nat) (a : Z) (l : list Z) :
  heap_ok s fl -> 0 < size -> is_class_of size i -> size + 16 <= class_size i ->
  fl !! i = Some (a :: l) ->
  exists s', kzalloc size s = Ret (PHYS_TO_VIRT a + 16) s'
    /\ allocates s fl i a s' (<[i := l]> fl)
    /\ forall b, a + 16 <= b < a + 16 + size -> load8 (ram s') b = 0.
Proof.
  intros Hok Hpos Hcl Hfit Hl. destruct (class_size_range i (proj1 Hcl)) as [Hc _].
  assert (Hmax : size <= KMALLOC_MAX_SIZE) by by apply (class_size_max i).
  pose proof (size_to_index_of_class _ size i (hi_sizes _ _ (proj1 Hok)) Hcl) as Hidx.
  destruct (kmalloc_pop s fl size i a l) as (s1 & E & Hal); [done..|].
  destruct Hal as [Hok1 Hown Hkeep Hleft Hmg Hsz [Hr1 Hr2] Hon].
  set (m' := memset (ram s1) (a + 16) 0 size).
  assert (Hf : only_changes (a + 16) (a + 16 + size) (ram s1) m')
    by (eapply only_changes_weaken; [apply memset_frame|lia..]).
  destruct (heap_ok_client_write s1 (<[i := l]> fl) m' Hok1) as [Hok2 Hu].
  { intros b Hb. apply Hf. destruct (Z.ltb_spec b (a + 16)), (Z.leb_spec (a + 16 + size) b);
      [lia..|]. exfalso. apply (Hown b); [lia|done]. }
  exists (set_ram m' s1). split; [by apply kzalloc_run; [..|lia|]|]. split.
  - split; [done| | |intros b Hb; rewrite Hu; by apply Hleft| | |done|etransitivity; [exact Hon|by destruct s1]]; cbn [ram set_ram].
    + intros b Hb. rewrite Hu. by apply Hown.
    + intros b Hb. rewrite Hu. destruct (Hkeep b Hb) as [? <-]. split; [done|]. apply Hf.
      destruct (Z.ltb_spec b (a + 16)), (Z.leb_spec (a + 16 + size) b); [lia..|].
      exfalso. apply Hb. apply Hown. lia.
    + rewrite <- Hmg. unfold hdr_magic. rewrite (hdr_magic_addr a) by lia.
      eapply (load_le_frame 4); [exact Hf|lia].
    + rewrite <- Hsz. unfold hdr_size. rewrite (hdr_size_addr a) by lia.
      eapply (load_le_frame 4); [exact Hf|lia].
  - intros b Hb. cbn [ram set_ram]. unfold m'. rewrite memset_load. by tests.
Qed.

Lemma kzalloc_fits_witness :
  exists s', kzalloc 48 KmallocExample.s = Ret (PHYS_TO_VIRT 0x200000 + 16) s'
    /\ allocates KmallocExample.s KmallocExample.fl 2 0x200000 s'
         (<[2%nat := slots 2 0x200040 64]> KmallocExample.fl)
    /\ forall b, 0x200000 + 16 <= b < 0x200000 + 16 + 48 -> load8 (ram s') b = 0.
Proof.
  apply (kzalloc_fits KmallocExample.s KmallocExample.fl 48 2 0x200000 (slots 2 0x200040 64)).
  - apply KmallocExample.s_heap_ok.
  - lia.
  - split; [unfold KMALLOC_NUM_SIZES; lia|]. split; [vm_compute; discriminate|].
    intros [|[|j]] Hj; [reflexivity|reflexivity|lia].
  - vm_compute. discriminate.
  - reflexivity.
Defined.

(** A request of exactly a class's size gets a slot of that class, whose
    last 16 bytes are the header of the next slot: when the next free slot
    follows in memory, as after every page split, kzalloc clears its link, and
    every further slot of the free list is lost. *)
Theorem kzalloc_full_class_loses_list (s : kst) (fl : list (list Z)) (i : nat) (a : Z) (l : list Z) :
  heap_ok s fl -> (i < KMALLOC_NUM_SIZES)%nat ->
  fl !! i = Some (a :: (a + class_size i) :: l) ->
  exists s' c, kzalloc (class_size i) s = Ret (PHYS_TO_VIRT a + 16) s'
    /\ slabs (heap s') !! i = Some c
    /\ chain (ram s') (free_list c) [a + class_size i].
Proof.
  intros Hok Hi Hl. destruct (class_size_range i Hi) as [Hc _].
  pose proof (class_of_class_size _ i (hi_sizes _ _ (proj1 Hok)) Hi) as Hidx.
  destruct (kmalloc_pop s fl (class_size i) i a _ Hok ltac:(unfold KMALLOC_MAX_SIZE; lia) Hidx Hl)
    as (s1 & E & Hal).
  destruct (al_range _ _ _ _ _ _ Hal) as [Hr1 Hr2]. pose proof (proj1 (al_ok _ _ _ _ _ _ Hal)) as Hs1.
  destruct (heap_slab s1 _ i Hs1 Hi) as (c & Hcl & _).
  assert (Hl1 : <[i := (a + class_size i) :: l]> fl !! i = Some ((a + class_size i) :: l)).
  { apply list_lookup_insert_eq. by eapply lookup_lt_Some. }
  destruct (hi_chain _ _ Hs1 _ _ _ Hcl Hl1) as [Ec _].
  destruct (hi_slot _ _ Hs1 i (a + class_size i)) as (?&?&_); [by eexists; split; [exact Hl1|left]|].
  exists (set_ram (memset (ram s1) (a + 16) 0 (class_size i)) s1), c.
  split; [by apply kzalloc_run; [..|lia|]|]. split; [done|]. split; [done|].
  rewrite Ec. cbn [ram set_ram].
  unfold hdr_next. rewrite lin_PHYS_TO_VIRT by lia. apply (memset_zero_load_le 8); lia.
Qed.

Lemma kzalloc_full_class_loses_list_witness :
  exists s' c, kzalloc 64 KmallocExample.s = Ret (PHYS_TO_VIRT 0x200000 + 16) s'
    /\ slabs (heap s') !! 2%nat = Some c /\ chain (ram s') (free_list c) [0x200040].
Proof.
  apply (kzalloc_full_class_loses_list KmallocExample.s KmallocExample.fl 2 0x200000 [0x200080]).
  - apply KmallocExample.s_heap_ok.
  - unfold KMALLOC_NUM_SIZES. lia.
  - reflexivity.
Defined.
