(* ===== verification/Vmm.v ===== *)
(** vmm.c: the four-level page tables.

    A table is a page of RAM with 512 64-bit entries; functions take pointers
    (virtual addresses) to tables as the source does.  [_kernel_end] is a symbol
    of the linker script and a parameter of [vmm_init]. *)
From S2P Require Import Prelude Machine Globals Strings Pmm.

Definition PT_PRESENT : Z := 0x001.
Definition PT_WRITABLE : Z := 0x002.
Definition PT_HUGE : Z := 0x080.
Definition PT_GLOBAL : Z := 0x100.
Definition PT_NX : Z := 0x8000000000000000.

Definition PML4_INDEX (v : Z) : Z := (v .>> 39) .& 0x1FF.
Definition PDPT_INDEX (v : Z) : Z := (v .>> 30) .& 0x1FF.
Definition PD_INDEX (v : Z) : Z := (v .>> 21) .& 0x1FF.
Definition PT_INDEX (v : Z) : Z := (v .>> 12) .& 0x1FF.
Definition RECURSIVE_INDEX : Z := 510.

(** [table[index]] *)
Definition entry (m : gmap Z Z) (table index : Z) : Z := load64 m (lin (table + 8 * index)).
Definition set_entry (table index v : Z) (m : gmap Z Z) : gmap Z Z :=
  store64 m (lin (table + 8 * index)) v.
Definition present (e : Z) : bool := truthy (e .& PT_PRESENT).
Definition huge (e : Z) : bool := truthy (e .& PT_HUGE).
(** The table an entry points to. *)
Definition entry_table (e : Z) : Z := PHYS_TO_VIRT (e .& PAGE_MASK).

Definition get_or_create_table (parent index flags : Z) : M Z :=
  m ← gets ram;
  if present (entry m parent index) then mret (entry_table (entry m parent index))
  else
    table ← pmm_alloc_page;
    if table =? 0 then mret 0
    else
      upd_ram (fun m => memset m (lin table) 0 PAGE_SIZE);;
      upd_ram (set_entry parent index (VIRT_TO_PHYS table .| flags));;
      mret table.

(** Clear an entry that is present, then write it. *)
Definition replace_entry (table index virt v : Z) : M unit :=
  m ← gets ram;
  whenM (present (entry m table index))
    (upd_ram (set_entry table index 0);; invlpg virt);;
  upd_ram (set_entry table index v);;
  invlpg virt.

Definition vmm_map_page (pml4 virt phys flags : Z) : M bool :=
  pdpt ← get_or_create_table pml4 (PML4_INDEX virt) (PT_PRESENT .| PT_WRITABLE);
  if pdpt =? 0 then mret false else
  pd ← get_or_create_table pdpt (PDPT_INDEX virt) (PT_PRESENT .| PT_WRITABLE);
  if pd =? 0 then mret false else
  pt ← get_or_create_table pd (PD_INDEX virt) (PT_PRESENT .| PT_WRITABLE);
  if pt =? 0 then mret false else
  replace_entry pt (PT_INDEX virt) virt ((phys .& PAGE_MASK) .| flags);;
  mret true.

Definition vmm_map_huge_page (pml4 virt phys flags : Z) : M bool :=
  pdpt ← get_or_create_table pml4 (PML4_INDEX virt) (PT_PRESENT .| PT_WRITABLE);
  if pdpt =? 0 then mret false else
  pd ← get_or_create_table pdpt (PDPT_INDEX virt) (PT_PRESENT .| PT_WRITABLE);
  if pd =? 0 then mret false else
  replace_entry pd (PD_INDEX virt) virt ((phys .& HUGE_PAGE_MASK) .| flags .| PT_HUGE);;
  mret true.

Definition vmm_unmap_page (pml4 virt : Z) : M unit :=
  m ← gets ram;
  let e4 := entry m pml4 (PML4_INDEX virt) in
  if negb (present e4) then mret tt else
  let pdpt := entry_table e4 in
  let e3 := entry m pdpt (PDPT_INDEX virt) in
  if negb (present e3) then mret tt else
  let pd := entry_table e3 in
  let e2 := entry m pd (PD_INDEX virt) in
  if negb (present e2) then mret tt else
  if huge e2 then
    upd_ram (set_entry pd (PD_INDEX virt) 0);;
    invlpg virt
  else
    upd_ram (set_entry (entry_table e2) (PT_INDEX virt) 0);;
    invlpg virt.

(** The rollback of vmm_map_pages: [n] pages from [v]. *)
Fixpoint unmap_pages (n : nat) (pml4 v : Z) : M unit :=
  match n with
  | O => mret tt
  | S n' => vmm_unmap_page pml4 v;; unmap_pages n' pml4 (u64 (v + PAGE_SIZE))
  end.

(** The loop of vmm_map_pages: [n] pages left, [i] done. *)
Fixpoint map_pages_loop (n : nat) (pml4 v flags i : Z) : M bool :=
  match n with
  | O => mret true
  | S n' =>
      page ← pmm_alloc_page;
      if page =? 0 then unmap_pages (Z.to_nat i) pml4 v;; mret false
      else
        ok ← vmm_map_page pml4 (u64 (v + i * PAGE_SIZE)) (VIRT_TO_PHYS page) flags;
        if negb ok then mret false else map_pages_loop n' pml4 v flags (i + 1)
  end.
Definition vmm_map_pages (pml4 virt count flags : Z) : M bool :=
  map_pages_loop (Z.to_nat count) pml4 virt flags 0.

(** The copy of the kernel's half: entries [i, i + n). *)
Fixpoint copy_kernel_entries (n : nat) (kpml4 pml4 i : Z) (m : gmap Z Z) : gmap Z Z :=
  match n with
  | O => m
  | S n' =>
      let m := if present (entry m kpml4 i) then set_entry pml4 i (entry m kpml4 i) m else m in
      copy_kernel_entries n' kpml4 pml4 (i + 1) m
  end.

Definition vmm_create_address_space : M Z :=
  pml4 ← pmm_alloc_page;
  if pml4 =? 0 then mret 0
  else
    upd_ram (fun m => memset m (lin pml4) 0 PAGE_SIZE);;
    k ← gets kernel_pml4;
    upd_ram (copy_kernel_entries 256 k pml4 256);;
    upd_ram (set_entry pml4 RECURSIVE_INDEX (VIRT_TO_PHYS pml4 .| PT_PRESENT .| PT_WRITABLE));;
    mret (VIRT_TO_PHYS pml4).

Definition vmm_switch_pml4 (pml4_phys : Z) : M unit := write_cr3 pml4_phys.

(** vmm_get_phys only reads RAM. *)
Definition get_phys (m : gmap Z Z) (pml4 virt : Z) : Z :=
  let e4 := entry m pml4 (PML4_INDEX virt) in
  if negb (present e4) then 0 else
  let e3 := entry m (entry_table e4) (PDPT_INDEX virt) in
  if negb (present e3) then 0 else
  let e2 := entry m (entry_table e3) (PD_INDEX virt) in
  if negb (present e2) then 0 else
  if huge e2 then (e2 .& HUGE_PAGE_MASK) .| (virt .& (HUGE_PAGE_SIZE - 1)) else
  let e1 := entry m (entry_table e2) (PT_INDEX virt) in
  if negb (present e1) then 0 else
  (e1 .& PAGE_MASK) .| (virt .& (PAGE_SIZE - 1)).
Definition vmm_get_phys (pml4 virt : Z) : M Z := gets (fun s => get_phys (ram s) pml4 virt).

(** * vmm_init *)

(** The identity map, [n] huge pages from [addr]. *)
Fixpoint init_identity (n : nat) (addr : Z) : M unit :=
  match n with
  | O => mret tt
  | S n' =>
      k ← gets kernel_pml4;
      vmm_map_huge_page k addr addr (PT_PRESENT .| PT_WRITABLE .| PT_HUGE);;
      init_identity n' (addr + HUGE_PAGE_SIZE)
  end.
(** The kernel's half, [n] pages from offset [off]. *)
Fixpoint init_kernel_half (n : nat) (off : Z) : M unit :=
  match n with
  | O => mret tt
  | S n' =>
      k ← gets kernel_pml4;
      vmm_map_page k (u64 (KERNEL_TEXT_START + off)) (u64 (0x100000 + off))
        (PT_PRESENT .| PT_WRITABLE .| PT_GLOBAL);;
      init_kernel_half n' (off + PAGE_SIZE)
  end.

(** The turns of that loop: kernel_size is a uint64_t, and [off] goes up to it in
    steps of a page.  (For the last 4095 values of a uint64_t [off] would wrap
    and the loop not end; a kernel_size that large is within 1 MB of the wrap that
    [kernel_pages_wraps] is about.) *)
Definition kernel_pages (kernel_end : Z) : Z :=
  (u64 (VIRT_TO_PHYS kernel_end - 0x100000) + PAGE_SIZE - 1) / PAGE_SIZE.

Definition vmm_init (kernel_end : Z) : M unit :=
  page ← pmm_alloc_page;
  modify (set_kernel_pml4 page);;
  whenM (page =? 0) (kernel_panic "VMM: Failed to allocate PML4");;
  upd_ram (fun m => memset m (lin page) 0 PAGE_SIZE);;
  init_identity 512 0;;
  init_kernel_half (Z.to_nat (kernel_pages kernel_end)) 0;;
  vmm_map_page page 0xFFFFFFFF800B8000 0xB8000 (PT_PRESENT .| PT_WRITABLE .| PT_GLOBAL);;
  upd_ram (set_entry page RECURSIVE_INDEX (VIRT_TO_PHYS page .| PT_PRESENT .| PT_WRITABLE));;
  write_cr3 (VIRT_TO_PHYS page);;
  kprintf "VMM: Kernel PML4 at %p, 4-level paging active\n" [AInt page].
