(* ===== verification/VmmFacts.v ===== *)
(** The invariant of a tree of page tables and what the operations of vmm.c do
    to the address translation.

    A tree is described by [tbl], which gives the table (a physical address) of
    level [L] for each prefix of the virtual page number: level 3 is the PML4
    (prefix 0), level 0 the page tables (prefix of 27 bits).  PML4 entry 510, the
    recursive one, is not part of the tree.  The page allocator is known by its
    contract only. *)
From S2P Require Import Prelude Machine Globals Strings Pmm Frames Vmm.

(** * Entries *)
Lemma present_odd e : present e = Z.odd e.
Proof.
  unfold present, truthy, PT_PRESENT. change 1 with (2 ^ 1 - 1). rewrite land_low by lia.
  rewrite Zmod_odd. by destruct (Z.odd e).
Qed.

Lemma huge_bit e : huge e = Z.testbit e 7.
Proof.
  unfold huge, truthy, PT_HUGE. change 0x80 with (2 ^ 7).
  destruct (Z.testbit e 7) eqn:E.
  - replace (e .& 2 ^ 7) with (2 ^ 7); [done|]. apply Z.bits_inj'. intros i Hi.
    rewrite Z.land_spec, testbit_pow2 by lia. destruct (Z.eqb_spec 7 i) as [<-|]; by rewrite ?E, ?andb_false_r.
  - replace (e .& 2 ^ 7) with 0; [done|]. apply Z.bits_inj'. intros i Hi.
    rewrite Z.land_spec, testbit_pow2, Z.bits_0 by lia.
    destruct (Z.eqb_spec 7 i) as [<-|]; by rewrite ?E, ?andb_false_r.
Qed.

Lemma table_entry a :
  0 <= a -> a mod 4096 = 0 -> a + 4096 <= 2 ^ 47 ->
  let e := a .| 3 in
  u64 e = e /\ present e = true /\ huge e = false /\ e .& PAGE_MASK = a.
Proof.
  intros H0 Hal Hmax e.
  assert (E : e = a + 3) by (unfold e; apply (lor_add_disjoint a 3 12); [lia|exact Hal|lia]).
  split; [rewrite E; apply u64_small; lia|]. split.
  { rewrite present_odd, E, Z.odd_add. replace a with (2 * (a / 2)); [by rewrite Z.odd_mul|].
    Z.div_mod_to_equations. lia. }
  split.
  { rewrite huge_bit, E. rewrite <- (Z.mod_pow2_bits_low _ 12) by lia.
    change (2 ^ 12) with 4096. replace ((a + 3) mod 4096) with 3; [done|].
    Z.div_mod_to_equations. lia. }
  rewrite E, page_mask_val by lia. Z.div_mod_to_equations. lia.
Qed.

(** * Virtual page numbers *)
Definition vpage (v : Z) : Z := (v / 2 ^ 12) mod 2 ^ 36.

Lemma index_val v k : 0 <= v -> 0 <= k -> (v .>> k) .& 0x1FF = (v / 2 ^ k) mod 512.
Proof.
  intros. rewrite Z.shiftr_div_pow2 by done. change 0x1FF with (2 ^ 9 - 1).
  by rewrite land_low by lia.
Qed.

Lemma vpage_range v : 0 <= vpage v < 2 ^ 36.
Proof. apply Z.mod_pos_bound. lia. Qed.

Section indices.
Context (v : Z) (Hv : 0 <= v).

Lemma PT_INDEX_val : PT_INDEX v = vpage v mod 512.
Proof. unfold PT_INDEX, vpage. rewrite index_val by lia. Z.div_mod_to_equations. lia. Qed.
Lemma PD_INDEX_val : PD_INDEX v = (vpage v / 512) mod 512.
Proof. unfold PD_INDEX, vpage. rewrite index_val by lia. Z.div_mod_to_equations. lia. Qed.
Lemma PDPT_INDEX_val : PDPT_INDEX v = (vpage v / 512 / 512) mod 512.
Proof. unfold PDPT_INDEX, vpage. rewrite index_val by lia. Z.div_mod_to_equations. lia. Qed.
Lemma PML4_INDEX_val : PML4_INDEX v = vpage v / 512 / 512 / 512.
Proof. unfold PML4_INDEX, vpage. rewrite index_val by lia. Z.div_mod_to_equations. lia. Qed.
End indices.

(** The prefixes of level [L], those under the recursive entry excluded. *)
Definition key_ok (L : nat) (p : Z) : Prop :=
  match L with
  | 0%nat => 0 <= p < 2 ^ 27 /\ p / 512 / 512 <> 510
  | 1%nat => 0 <= p < 2 ^ 18 /\ p / 512 <> 510
  | 2%nat => 0 <= p < 2 ^ 9 /\ p <> 510
  | 3%nat => p = 0
  | _ => False
  end.

Lemma key_parent L p : (L < 3)%nat -> key_ok L p -> key_ok (S L) (p / 512).
Proof.
  intros HL. destruct L as [|[|[|L]]]; simpl; [| | |lia]; intros [? ?].
  - split; [|done]. Z.div_mod_to_equations. lia.
  - split; [|done]. Z.div_mod_to_equations. lia.
  - Z.div_mod_to_equations. lia.
Qed.

(** Not under the recursive entry. *)
Definition mappable (v : Z) : Prop := 0 <= v < 2 ^ 64 /\ PML4_INDEX v <> RECURSIVE_INDEX.

Lemma mappable_keys v :
  mappable v ->
  key_ok 0 (vpage v / 512) /\ key_ok 1 (vpage v / 512 / 512)
  /\ key_ok 2 (vpage v / 512 / 512 / 512).
Proof.
  intros [Hv Hr]. rewrite PML4_INDEX_val in Hr by lia. unfold RECURSIVE_INDEX in Hr.
  pose proof (vpage_range v). unfold key_ok.
  repeat split; try done; Z.div_mod_to_equations; lia.
Qed.

(** * Trees of tables *)
Definition ent (m : gmap Z Z) (b i : Z) : Z := load64 m (b + 8 * i).

(** The child of level [L] that entry [i] of [b] points to. *)
Definition child (m : gmap Z Z) (b i : Z) (L : nat) : option Z :=
  let e := ent m b i in
  if present e && negb (Nat.eqb L 0 && huge e) then Some (e .& PAGE_MASK) else None.

(** The translation a tree gives. *)
Definition leaf4k (e v : Z) : Z :=
  if present e then (e .& PAGE_MASK) .| (v .& (PAGE_SIZE - 1)) else 0.
Definition leaf2m (e v : Z) : Z :=
  if present e && huge e then (e .& HUGE_PAGE_MASK) .| (v .& (HUGE_PAGE_SIZE - 1)) else 0.
Definition walk (m : gmap Z Z) (tbl : gmap (nat * Z) Z) (v : Z) : Z :=
  let q := vpage v in
  match tbl !! (0%nat, q / 512) with
  | Some pt => leaf4k (ent m pt (q mod 512)) v
  | None =>
      match tbl !! (1%nat, q / 512 / 512) with
      | Some pd => leaf2m (ent m pd ((q / 512) mod 512)) v
      | None => 0
      end
  end.

(** The shape vmm_get_phys and vmm_unmap_page share: down to the page directory
    at a huge page, to the page table otherwise. *)
Definition descend {A} (m : gmap Z Z) (pml4 virt : Z) (none : A) (on_pd on_pt : Z -> A) : A :=
  let e4 := entry m pml4 (PML4_INDEX virt) in
  if negb (present e4) then none else
  let e3 := entry m (entry_table e4) (PDPT_INDEX virt) in
  if negb (present e3) then none else
  let e2 := entry m (entry_table e3) (PD_INDEX virt) in
  if negb (present e2) then none else
  if huge e2 then on_pd (entry_table e3) else on_pt (entry_table e2).

Section tables.
Context {FA : FrameAllocator pmm_alloc_page pmm_alloc_pages}.

Definition table_page (s : kst) (a : Z) : Prop :=
  0 <= a /\ a mod PAGE_SIZE = 0 /\ a + PAGE_SIZE <= 2 ^ 47
  /\ forall b, a <= b < a + PAGE_SIZE -> ~ fa_reserved s b.

Record tables_ok (s : kst) (root : Z) (tbl : gmap (nat * Z) Z) : Prop := {
  to_frames : fa_ok s;
  to_root : tbl !! (3%nat, 0) = Some root;
  to_key : forall L p a, tbl !! (L, p) = Some a -> key_ok L p;
  to_page : forall k a, tbl !! k = Some a -> table_page s a;
  to_inj : forall k1 k2 a, tbl !! k1 = Some a -> tbl !! k2 = Some a -> k1 = k2;
  to_child : forall L p, (L < 3)%nat -> key_ok L p ->
    tbl !! (L, p) = (b ← tbl !! (S L, p / 512); child (ram s) b (p mod 512) L);
}.

(** Bytes the page tables or the page allocator may use. *)
Definition pt_used (s : kst) (tbl : gmap (nat * Z) Z) (x : Z) : Prop :=
  fa_reserved s x \/ exists k a, tbl !! k = Some a /\ a <= x < a + PAGE_SIZE.

Definition keeps (s : kst) (tbl : gmap (nat * Z) Z) (s' : kst) (tbl' : gmap (nat * Z) Z) : Prop :=
  forall x, ~ pt_used s tbl x -> ~ pt_used s' tbl' x /\ load8 (ram s') x = load8 (ram s) x.

Lemma keeps_refl s tbl : keeps s tbl s tbl.
Proof. by intros x Hx. Qed.

Lemma keeps_trans s1 t1 s2 t2 s3 t3 :
  keeps s1 t1 s2 t2 -> keeps s2 t2 s3 t3 -> keeps s1 t1 s3 t3.
Proof.
  intros H1 H2 x Hx. destruct (H1 x Hx) as [Hx2 E1], (H2 x Hx2) as [? E2].
  split; [done|]. by rewrite E2.
Qed.

(** ** Accesses through pointers to tables *)
Lemma entry_ent m a i :
  0 <= a -> a + PAGE_SIZE <= 2 ^ 47 -> 0 <= i < 512 -> entry m (PHYS_TO_VIRT a) i = ent m a i.
Proof.
  intros. unfold entry, ent, PAGE_SIZE in *. f_equal.
  rewrite (lin_add (PHYS_TO_VIRT a)); [by rewrite lin_PHYS_TO_VIRT by lia|lia|].
  right. rewrite PHYS_TO_VIRT_val by lia. unfold KERNEL_HIGHER_HALF. lia.
Qed.

Lemma set_entry_store m a i v :
  0 <= a -> a + PAGE_SIZE <= 2 ^ 47 -> 0 <= i < 512 ->
  set_entry (PHYS_TO_VIRT a) i v m = store64 m (a + 8 * i) v.
Proof.
  intros. unfold set_entry, PAGE_SIZE in *. f_equal.
  rewrite (lin_add (PHYS_TO_VIRT a)); [by rewrite lin_PHYS_TO_VIRT by lia|lia|].
  right. rewrite PHYS_TO_VIRT_val by lia. unfold KERNEL_HIGHER_HALF. lia.
Qed.

(** Two entries of aligned tables are the same word or disjoint. *)
Lemma ent_store m a i v b j :
  a mod PAGE_SIZE = 0 -> b mod PAGE_SIZE = 0 -> 0 <= i < 512 -> 0 <= j < 512 ->
  ent (store64 m (a + 8 * i) v) b j = if decide (a = b /\ i = j) then u64 v else ent m b j.
Proof.
  intros Ha Hb Hi Hj. unfold ent. destruct (decide (a = b /\ i = j)) as [[-> ->]|Hne].
  - apply load64_store64.
  - apply load_store_disjoint. unfold PAGE_SIZE in *.
    destruct (Z.eq_dec a b) as [->|]; [lia|]. Z.div_mod_to_equations. lia.
Qed.

Section one_tree.
Context (s : kst) (root : Z) (tbl : gmap (nat * Z) Z) (Ht : tables_ok s root tbl).

Lemma tbl_page L p a : tbl !! (L, p) = Some a -> 0 <= a /\ a mod PAGE_SIZE = 0 /\ a + PAGE_SIZE <= 2 ^ 47.
Proof. intros H. destruct (to_page _ _ _ Ht _ _ H) as (?&?&?&_). auto. Qed.

Lemma tbl_step L p b :
  (L < 3)%nat -> key_ok L p -> tbl !! (S L, p / 512) = Some b ->
  tbl !! (L, p) = child (ram s) b (p mod 512) L.
Proof. intros HL Hp Hb. by rewrite (to_child _ _ _ Ht L p HL Hp), Hb. Qed.

(** An entry, seen through the pointer that get_phys and the others follow. *)
Lemma entry_step L p b :
  tbl !! (L, p) = Some b -> forall i, 0 <= i < 512 -> entry (ram s) (PHYS_TO_VIRT b) i = ent (ram s) b i.
Proof. intros H i Hi. destruct (tbl_page _ _ _ H) as (?&?&?). by apply entry_ent. Qed.

Lemma mod512 x : 0 <= x mod 512 < 512.
Proof. by apply Z.mod_pos_bound. Qed.

Lemma walk_None2 q : key_ok 1 (q / 512 / 512) -> key_ok 0 (q / 512) ->
  tbl !! (1%nat, q / 512 / 512) = None -> tbl !! (0%nat, q / 512) = None.
Proof. intros _ H0 H. by rewrite (to_child _ _ _ Ht 0 _ ltac:(lia) H0), H. Qed.

(** The descent of vmm_get_phys and vmm_unmap_page, in terms of the tree. *)
Lemma descend_tbl {A} v (none : A) (on_pd on_pt : Z -> A) :
  mappable v ->
  descend (ram s) (PHYS_TO_VIRT root) v none on_pd on_pt =
  let q := vpage v in
  match tbl !! (0%nat, q / 512) with
  | Some pt => on_pt (PHYS_TO_VIRT pt)
  | None =>
      match tbl !! (1%nat, q / 512 / 512) with
      | Some pd =>
          let e := ent (ram s) pd ((q / 512) mod 512) in
          if present e && huge e then on_pd (PHYS_TO_VIRT pd) else none
      | None => none
      end
  end.
Proof.
  intros Hv. destruct (mappable_keys v Hv) as (K0 & K1 & K2). pose proof (vpage_range v) as Hq.
  unfold descend. cbv zeta.
  rewrite PD_INDEX_val, PDPT_INDEX_val, PML4_INDEX_val by apply Hv. set (q := vpage v) in *.
  assert (Hq3 : q / 512 / 512 / 512 / 512 = 0) by (Z.div_mod_to_equations; lia).
  assert (Hm3 : (q / 512 / 512 / 512) mod 512 = q / 512 / 512 / 512)
    by (Z.div_mod_to_equations; lia).
  assert (H3 : tbl !! (3%nat, q / 512 / 512 / 512 / 512) = Some root) by (rewrite Hq3; apply Ht).
  assert (E2 := tbl_step 2 _ _ ltac:(lia) K2 H3). unfold child in E2. cbn [Nat.eqb andb negb] in E2.
  rewrite (entry_step _ _ _ H3), <- Hm3 by (rewrite <- Hm3; apply mod512).
  rewrite andb_true_r in E2. set (e4 := ent (ram s) root _) in *.
  destruct (present e4); cbn [negb]; [|]; cycle 1.
  { rewrite (walk_None2 q K1 K0); by rewrite (to_child _ _ _ Ht 1 _ ltac:(lia) K1), E2. }
  change (entry_table e4) with (PHYS_TO_VIRT (e4 .& PAGE_MASK)).
  rewrite (entry_step _ _ _ E2) by apply mod512.
  assert (E1 := tbl_step 1 _ _ ltac:(lia) K1 E2). unfold child in E1. cbn [Nat.eqb andb negb] in E1.
  rewrite andb_true_r in E1. set (e3 := ent (ram s) (e4 .& PAGE_MASK) _) in *.
  destruct (present e3); cbn [negb]; [|by rewrite (walk_None2 q K1 K0), E1].
  change (entry_table e3) with (PHYS_TO_VIRT (e3 .& PAGE_MASK)).
  rewrite (entry_step _ _ _ E1) by apply mod512.
  assert (E0 := tbl_step 0 _ _ ltac:(lia) K0 E1). unfold child in E0. cbn [Nat.eqb andb negb] in E0.
  rewrite E1. set (e2 := ent (ram s) (e3 .& PAGE_MASK) _) in *.
  by destruct (present e2), (huge e2); cbn [negb andb] in *; rewrite E0.
Qed.

(** vmm_get_phys computes the translation of the tree. *)
Lemma get_phys_walk v : mappable v -> get_phys (ram s) (PHYS_TO_VIRT root) v = walk (ram s) tbl v.
Proof.
  intros Hv.
  change (get_phys (ram s) (PHYS_TO_VIRT root) v) with (descend (ram s) (PHYS_TO_VIRT root) v 0
    (fun pd => (entry (ram s) pd (PD_INDEX v) .& HUGE_PAGE_MASK) .| (v .& (HUGE_PAGE_SIZE - 1)))
    (fun pt => let e1 := entry (ram s) pt (PT_INDEX v) in
       if negb (present e1) then 0 else (e1 .& PAGE_MASK) .| (v .& (PAGE_SIZE - 1)))).
  rewrite descend_tbl, PD_INDEX_val, PT_INDEX_val by (done || apply Hv). unfold walk, leaf4k, leaf2m.
  cbv zeta.
  destruct (tbl !! (0%nat, vpage v / 512)) as [pt|] eqn:E0.
  { rewrite (entry_step _ _ _ E0) by apply mod512. by destruct (present _). }
  destruct (tbl !! (1%nat, vpage v / 512 / 512)) as [pd|] eqn:E1; [|done].
  by rewrite (entry_step _ _ _ E1) by apply mod512.
Qed.
End one_tree.

(** ** A new table *)
Lemma ent_ext m m' c j :
  (forall x, c <= x < c + PAGE_SIZE -> load8 m' x = load8 m x) -> 0 <= j < 512 ->
  ent m' c j = ent m c j.
Proof. intros Hm Hj. apply (load_le_ext 8). intros x Hx. apply Hm. unfold PAGE_SIZE. lia. Qed.

(** Tables are whole pages, so different tables are disjoint. *)
Lemma pages_apart a c x :
  a mod PAGE_SIZE = 0 -> c mod PAGE_SIZE = 0 -> a <> c -> c <= x < c + PAGE_SIZE ->
  ~ a <= x < a + PAGE_SIZE.
Proof. unfold PAGE_SIZE. intros. Z.div_mod_to_equations. lia. Qed.

Section create.
Context (s s1 : kst) (root : Z) (tbl : gmap (nat * Z) Z) (L : nat) (p b a : Z).
Context (Ht : tables_ok s root tbl) (Hs1 : fa_ok s1) (Hf : fresh fa_reserved s s1 a 1).
Context (HL : (L < 3)%nat) (Hp : key_ok L p) (Hb : tbl !! (S L, p / 512) = Some b).
Context (Hnew : present (ent (ram s) b (p mod 512)) = false).

Let m1 := memset (ram s1) a 0 PAGE_SIZE.
Let s2 := set_ram (store64 m1 (b + 8 * (p mod 512)) (a .| 3)) s1.
Let tbl2 := <[(L, p) := a]> tbl.

Lemma create_page : 0 <= a /\ a mod PAGE_SIZE = 0 /\ a + PAGE_SIZE <= 2 ^ 47.
Proof. destruct (fr_range _ _ _ _ _ Hf) as (?&?&?). unfold PAGE_SIZE in *. split; [done|split; [done|lia]]. Qed.

Lemma create_none : tbl !! (L, p) = None.
Proof. rewrite (tbl_step s root tbl Ht L p b HL Hp Hb). unfold child. by rewrite Hnew. Qed.

Lemma create_ne k c : tbl !! k = Some c -> c <> a.
Proof.
  intros Hc ->. destruct (to_page _ _ _ Ht _ _ Hc) as (_&_&_&Hr).
  apply (Hr a); [unfold PAGE_SIZE; lia|]. apply (fr_was _ _ _ _ _ Hf). unfold PAGE_SIZE. lia.
Qed.

Lemma create_b : 0 <= b /\ b mod PAGE_SIZE = 0 /\ b + PAGE_SIZE <= 2 ^ 47.
Proof. by eapply tbl_page. Qed.

(** The memory of the other tables before the entry is written. *)
Lemma create_m1 k c x :
  tbl !! k = Some c -> c <= x < c + PAGE_SIZE -> load8 m1 x = load8 (ram s) x.
Proof.
  intros Hc Hx. destruct (to_page _ _ _ Ht _ _ Hc) as (?&Hal&_&Hr).
  unfold m1. rewrite (memset_frame _ a).
  - by apply (fr_other _ _ _ _ _ Hf), Hr.
  - pose proof (pages_apart a c x (proj1 (proj2 create_page)) Hal
      (not_eq_sym (create_ne k c Hc)) Hx). unfold PAGE_SIZE in *. lia.
Qed.

Lemma create_ent k c j :
  tbl !! k = Some c -> 0 <= j < 512 ->
  ent (ram s2) c j = if decide (b = c /\ p mod 512 = j) then a .| 3 else ent (ram s) c j.
Proof.
  intros Hc Hj. destruct (to_page _ _ _ Ht _ _ Hc) as (_&Hal&_&_). cbn [s2 ram set_ram].
  rewrite ent_store by (done || apply create_b || apply mod512 || lia).
  destruct (decide _); [apply table_entry; apply create_page|].
  apply ent_ext; [|done]. intros x. by apply (create_m1 k).
Qed.

Lemma create_zero j : 0 <= j < 512 -> ent (ram s2) a j = 0.
Proof.
  intros Hj. cbn [s2 ram set_ram].
  rewrite ent_store by (apply create_page || apply create_b || apply mod512 || lia).
  rewrite decide_False.
  - unfold ent, m1, PAGE_SIZE. apply (memset_zero_load_le 8); lia.
  - intros [E _]. by apply (create_ne _ _ Hb).
Qed.

Lemma create_frames : fa_ok s2 /\ (forall x, fa_reserved s2 x <-> fa_reserved s1 x).
Proof.
  apply (fa_frame s1); [done|done|]. intros x Hx. cbn [s2 ram set_ram].
  destruct (to_page _ _ _ Ht _ _ Hb) as (?&_&_&Hr).
  rewrite (store_le_frame 8).
  - unfold m1. apply memset_frame.
    destruct (Z.ltb_spec x a), (Z.leb_spec (a + PAGE_SIZE) x); unfold PAGE_SIZE in *; try lia.
    exfalso. apply (proj1 (fr_now _ _ _ _ _ Hf x ltac:(unfold PAGE_SIZE; lia)) Hx).
  - pose proof (mod512 p).
    destruct (Z.ltb_spec x (b + 8 * (p mod 512))),
      (Z.leb_spec (b + 8 * (p mod 512) + Z.of_nat 8) x); try lia.
    exfalso. refine (proj1 (fr_other _ _ _ _ _ Hf x _) Hx). apply Hr. unfold PAGE_SIZE. lia.
Qed.

Lemma create_reserved x : fa_reserved s2 x -> fa_reserved s1 x.
Proof. apply create_frames. Qed.

Lemma create_lookup k c : tbl2 !! k = Some c -> (k = (L, p) /\ c = a) \/ (k <> (L, p) /\ tbl !! k = Some c).
Proof. unfold tbl2. rewrite lookup_insert_Some. intuition. Qed.

Lemma create_child L' p' :
  (L' < 3)%nat -> key_ok L' p' ->
  tbl2 !! (L', p') = (c ← tbl2 !! (S L', p' / 512); child (ram s2) c (p' mod 512) L').
Proof.
  intros HL' Hp'. unfold tbl2. destruct (decide ((L', p') = (L, p))) as [E|Hne].
  { injection E as -> ->. rewrite lookup_insert_eq, lookup_insert_ne by (intros [=]; lia).
    rewrite Hb. change (Some a = child (ram s2) b (p mod 512) L). unfold child. rewrite (create_ent _ _ _ Hb) by apply mod512.
    rewrite decide_True by done.
    destruct (table_entry a) as (_ & E1 & E2 & E3); [apply create_page..|].
    rewrite E1, E2, E3. by rewrite andb_false_r. }
  rewrite (lookup_insert_ne _ (L, p) (L', p')) by congruence.
  destruct (decide ((S L', p' / 512) = (L, p))) as [E|Hne2].
  - rewrite E, lookup_insert_eq.
    change (tbl !! (L', p') = child (ram s2) a (p' mod 512) L').
    unfold child. rewrite create_zero by apply mod512.
    rewrite (to_child _ _ _ Ht L' p' HL' Hp'). rewrite E, create_none. done.
  - rewrite lookup_insert_ne by congruence.
    rewrite (to_child _ _ _ Ht L' p' HL' Hp').
    destruct (tbl !! (S L', p' / 512)) as [c|] eqn:Hc; [|done].
    change (child (ram s) c (p' mod 512) L' = child (ram s2) c (p' mod 512) L').
    unfold child. rewrite (create_ent _ _ _ Hc) by apply mod512. rewrite decide_False; [done|].
    intros [<- Em]. apply Hne. pose proof (to_inj _ _ _ Ht _ _ _ Hb Hc) as [= ? Ed].
    f_equal; [lia|]. rewrite (Z.div_mod p' 512), (Z.div_mod p 512) by lia. by rewrite <- Ed, <- Em.
Qed.

Lemma create_tables_ok : tables_ok s2 root tbl2.
Proof.
  split.
  - apply create_frames.
  - unfold tbl2. rewrite lookup_insert_ne by (intros [=]; lia). apply Ht.
  - intros L' p' c [[[= -> ->] ->]|[_ H]]%create_lookup; [done|by eapply (to_key _ _ _ Ht)].
  - intros k c [[-> ->]|[_ H]]%create_lookup.
    + destruct create_page as (?&?&?). repeat split; try done.
      intros x Hx Hr%create_reserved. apply (proj1 (fr_now _ _ _ _ _ Hf x ltac:(lia)) Hr).
    + destruct (to_page _ _ _ Ht _ _ H) as (?&?&?&Hr). repeat split; try done.
      intros x Hx Hr'%create_reserved. exact (proj1 (fr_other _ _ _ _ _ Hf x (Hr x Hx)) Hr').
  - intros k1 k2 c [[-> ->]|[_ H1]]%create_lookup [[-> ?]|[_ H2]]%create_lookup.
    + done.
    + by destruct (create_ne _ _ H2).
    + subst. by destruct (create_ne _ _ H1).
    + by eapply (to_inj _ _ _ Ht).
  - apply create_child.
Qed.

Lemma create_keeps : keeps s tbl s2 tbl2.
Proof.
  intros x Hx. assert (Hr : ~ fa_reserved s x) by (intros ?; apply Hx; by left).
  destruct (fr_other _ _ _ _ _ Hf x Hr) as [Hr1 E].
  assert (Hxa : ~ a <= x < a + PAGE_SIZE).
  { intros ?. apply Hr, (fr_was _ _ _ _ _ Hf). lia. }
  split.
  - intros [?%create_reserved|(k & c & [[-> ->]|[_ H]]%create_lookup & Hc)]; [done|done|].
    apply Hx. right. eauto.
  - rewrite <- E. cbn [s2 ram set_ram]. rewrite (store_le_frame 8).
    + unfold m1. apply memset_frame. unfold PAGE_SIZE in *. lia.
    + pose proof (mod512 p). destruct (Z.ltb_spec x (b + 8 * (p mod 512))); [by left|].
      destruct (Z.leb_spec (b + 8 * (p mod 512) + Z.of_nat 8) x); [by right|]. exfalso.
      apply Hx. right. exists (S L, p / 512), b. split; [done|]. unfold PAGE_SIZE. lia.
Qed.

Lemma leaf_zero v : leaf4k 0 v = 0 /\ leaf2m 0 v = 0.
Proof. done. Qed.

Lemma leaf_absent e v : present e = false -> leaf4k e v = 0 /\ leaf2m e v = 0.
Proof. intros E. unfold leaf4k, leaf2m. by rewrite E. Qed.

(** A new table translates nothing. *)
Lemma create_walk v : mappable v -> walk (ram s2) tbl2 v = walk (ram s) tbl v.
Proof.
  intros Hv. destruct (mappable_keys v Hv) as (K0 & K1 & _). unfold walk.
  set (q := vpage v) in *. pose proof create_none as Hnone.
  assert (H4 : forall pt, tbl !! (0%nat, q / 512) = Some pt ->
            leaf4k (ent (ram s2) pt (q mod 512)) v = leaf4k (ent (ram s) pt (q mod 512)) v).
  { intros pt Hpt. rewrite (create_ent _ _ _ Hpt) by apply mod512.
    rewrite decide_False; [done|]. intros [<- _]. by injection (to_inj _ _ _ Ht _ _ _ Hb Hpt). }
  assert (H2 : forall pd, tbl !! (1%nat, q / 512 / 512) = Some pd ->
            leaf2m (ent (ram s2) pd ((q / 512) mod 512)) v
            = leaf2m (ent (ram s) pd ((q / 512) mod 512)) v \/ (L, p) = (0%nat, q / 512)).
  { intros pd Hpd. rewrite (create_ent _ _ _ Hpd) by apply mod512.
    destruct (decide _) as [[<- Em]|]; [|by left]. right.
    injection (to_inj _ _ _ Ht _ _ _ Hb Hpd) as ? Ed. f_equal; [lia|].
    rewrite (Z.div_mod (q / 512) 512), (Z.div_mod p 512) by lia. by rewrite Ed, Em. }
  unfold tbl2. destruct (decide ((L, p) = (0%nat, q / 512))) as [E|Hne].
  - assert (E1 : (1%nat, q / 512 / 512) = (S L, p / 512)) by (injection E; congruence).
    assert (Em : (q / 512) mod 512 = p mod 512) by (injection E; congruence).
    rewrite <- E, lookup_insert_eq, create_zero by apply mod512.
    rewrite Hnone, E1, Hb, Em. by rewrite (proj2 (leaf_absent _ v Hnew)).
  - rewrite lookup_insert_ne by done. destruct (tbl !! (0%nat, q / 512)) eqn:E0; [by apply H4|].
    destruct (decide ((L, p) = (1%nat, q / 512 / 512))) as [E|Hne1].
    + rewrite <- E, lookup_insert_eq, create_zero by apply mod512. by rewrite Hnone.
    + rewrite lookup_insert_ne by done. destruct (tbl !! (1%nat, _)) eqn:E1; [|done].
      destruct (H2 _ eq_refl); done.
Qed.
End create.

(** ** Writing an entry of a table of the tree *)
Section store.
Context (s s' : kst) (root : Z) (tbl : gmap (nat * Z) Z) (k : nat * Z) (b i e : Z).
Context (Ht : tables_ok s root tbl) (Hb : tbl !! k = Some b) (Hi : 0 <= i < 512).
Context (Hpmm : pmm s' = pmm s) (Hram : ram s' = store64 (ram s) (b + 8 * i) e).

Lemma store_frame : only_changes b (b + PAGE_SIZE) (ram s) (ram s').
Proof.
  rewrite Hram. eapply only_changes_weaken; [apply (store_le_frame 8)|unfold PAGE_SIZE; lia..].
Qed.

Lemma store_frames : fa_ok s' /\ (forall x, fa_reserved s' x <-> fa_reserved s x).
Proof.
  destruct (to_page _ _ _ Ht _ _ Hb) as (_&_&_&Hr).
  apply (fa_frame s); [apply Ht|done|]. intros x Hx. apply store_frame.
  destruct (Z.ltb_spec x b); [by left|]. destruct (Z.leb_spec (b + PAGE_SIZE) x); [by right|].
  exfalso. by apply (Hr x).
Qed.

Lemma store_ent k' c j :
  tbl !! k' = Some c -> 0 <= j < 512 ->
  ent (ram s') c j = if decide (k' = k /\ j = i) then u64 e else ent (ram s) c j.
Proof.
  intros Hc Hj. destruct (to_page _ _ _ Ht _ _ Hb) as (_&Hal&_), (to_page _ _ _ Ht _ _ Hc) as (_&Hal'&_).
  rewrite Hram, ent_store by done. destruct (decide (b = c /\ i = j)) as [[<- <-]|Hne].
  - rewrite decide_True; [done|]. split; [by eapply (to_inj _ _ _ Ht)|done].
  - rewrite decide_False; [done|]. intros [-> ->]. apply Hne. split; [congruence|done].
Qed.

Lemma store_page a : table_page s a -> table_page s' a.
Proof.
  intros (?&?&?&Hr). do 3 (split; [done|]). intros x Hx. rewrite (proj2 store_frames). by apply Hr.
Qed.

Lemma store_keeps tbl' :
  (forall k' a, tbl' !! k' = Some a -> tbl !! k' = Some a) -> keeps s tbl s' tbl'.
Proof.
  intros Hsub x Hx. split.
  - intros [Hr|(k' & a & Ha & Hax)]; apply Hx; [left; by apply store_frames|right; eauto].
  - apply store_frame. destruct (Z.ltb_spec x b); [by left|].
    destruct (Z.leb_spec (b + PAGE_SIZE) x); [by right|].
    exfalso. apply Hx. right. eauto.
Qed.
End store.

(** A page-table entry: one page gets the new translation. *)
Lemma store_leaf4k s s' root tbl q pt e :
  tables_ok s root tbl -> tbl !! (0%nat, q / 512) = Some pt ->
  pmm s' = pmm s -> ram s' = store64 (ram s) (pt + 8 * (q mod 512)) e ->
  tables_ok s' root tbl /\ keeps s tbl s' tbl
  /\ (forall v, mappable v ->
       walk (ram s') tbl v = if vpage v =? q then leaf4k (u64 e) v else walk (ram s) tbl v)
  /\ (forall L p c j, tbl !! (S L, p) = Some c -> 0 <= j < 512 ->
       ent (ram s') c j = ent (ram s) c j).
Proof.
  intros Ht Hpt Hpmm Hram. pose proof (mod512 q) as Hi.
  pose proof (fun k' c j => store_ent s s' root tbl _ pt _ e Ht Hpt Hi Hram k' c j) as Hent.
  assert (Hup : forall L p c j, tbl !! (S L, p) = Some c -> 0 <= j < 512 ->
            ent (ram s') c j = ent (ram s) c j).
  { intros L p c j Hc Hj. rewrite (Hent _ _ _ Hc Hj), decide_False; [done|]. by intros [[=] _]. }
  split; [|split; [by eapply store_keeps; eauto|split; [|exact Hup]]].
  - split; [by eapply store_frames|apply Ht|apply Ht| |apply Ht|].
    + intros k a Ha. pose proof (to_page _ _ _ Ht _ _ Ha).
      by apply (store_page s s' root tbl _ pt _ e Ht Hpt Hi Hpmm Hram).
    + intros L p HL Hp. rewrite (to_child _ _ _ Ht L p HL Hp).
      destruct (tbl !! (S L, p / 512)) as [c|] eqn:Hc; [|done].
      change (child (ram s) c (p mod 512) L = child (ram s') c (p mod 512) L).
      unfold child. by rewrite (Hup _ _ _ _ Hc) by apply mod512.
  - intros v Hv. unfold walk. destruct (Z.eqb_spec (vpage v) q) as [->|Hne].
    + rewrite Hpt, (Hent _ _ _ Hpt) by done. by rewrite decide_True.
    + destruct (tbl !! (0%nat, vpage v / 512)) as [c|] eqn:Hc.
      * rewrite (Hent _ _ _ Hc) by apply mod512. rewrite decide_False; [done|].
        intros [[= Hd] Hm]. apply Hne. rewrite (Z.div_mod (vpage v) 512), (Z.div_mod q 512) by lia.
        by rewrite Hd, Hm.
      * destruct (tbl !! (1%nat, vpage v / 512 / 512)) as [c'|] eqn:Hc'; [|done].
        by rewrite (Hup _ _ _ _ Hc') by apply mod512.
Qed.

(** A page-directory entry that is no table: 2 MB get the new translation, and
    the page table the entry pointed to, if any, leaves the tree. *)
Lemma store_leaf2m s s' root tbl h pd e :
  tables_ok s root tbl -> key_ok 0 h -> tbl !! (1%nat, h / 512) = Some pd ->
  pmm s' = pmm s -> ram s' = store64 (ram s) (pd + 8 * (h mod 512)) e ->
  present (u64 e) && negb (huge (u64 e)) = false ->
  let tbl' := delete (0%nat, h) tbl in
  tables_ok s' root tbl' /\ keeps s tbl s' tbl'
  /\ (forall v, mappable v ->
       walk (ram s') tbl' v = if vpage v / 512 =? h then leaf2m (u64 e) v else walk (ram s) tbl v).
Proof.
  intros Ht Hh Hpd Hpmm Hram He tbl'. pose proof (mod512 h) as Hi.
  pose proof (fun k' c j => store_ent s s' root tbl _ pd _ e Ht Hpd Hi Hram k' c j) as Hent.
  assert (Hsub : forall k a, tbl' !! k = Some a -> tbl !! k = Some a)
    by (intros k a; unfold tbl'; by intros [_ ?]%lookup_delete_Some).
  assert (Hup : forall L p, tbl' !! (S L, p) = tbl !! (S L, p)) by (intros; by apply lookup_delete_ne).
  split; [|split; [by eapply store_keeps; eauto|]].
  - split; [by eapply store_frames|rewrite Hup; apply Ht|..].
    + intros L p a H%Hsub. by eapply (to_key _ _ _ Ht).
    + intros k a H%Hsub. pose proof (to_page _ _ _ Ht _ _ H).
      by apply (store_page s s' root tbl _ pd _ e Ht Hpd Hi Hpmm Hram).
    + intros k1 k2 a H1%Hsub H2%Hsub. by eapply (to_inj _ _ _ Ht).
    + intros L p HL Hp. rewrite Hup. destruct (decide ((0%nat, h) = (L, p))) as [E|Hne].
      * unfold tbl'. rewrite <- E, lookup_delete_eq. injection E as <- <-. rewrite Hpd.
        change (None = child (ram s') pd (h mod 512) 0). unfold child.
        rewrite (Hent _ _ _ Hpd), decide_True by done. cbn [Nat.eqb andb]. by rewrite He.
      * unfold tbl'. rewrite lookup_delete_ne by done. rewrite (to_child _ _ _ Ht L p HL Hp).
        destruct (tbl !! (S L, p / 512)) as [c|] eqn:Hc; [|done].
        change (child (ram s) c (p mod 512) L = child (ram s') c (p mod 512) L).
        unfold child. rewrite (Hent _ _ _ Hc) by apply mod512. rewrite decide_False; [done|].
        intros [[= -> Hd] Hm]. apply Hne. f_equal.
        rewrite (Z.div_mod p 512), (Z.div_mod h 512) by lia. by rewrite Hd, Hm.
  - intros v Hv. destruct (mappable_keys v Hv) as (K0 & _). unfold walk.
    destruct (Z.eqb_spec (vpage v / 512) h) as [->|Hne].
    + unfold tbl'. rewrite lookup_delete_eq, lookup_delete_ne by done. rewrite Hpd.
      by rewrite (Hent _ _ _ Hpd), decide_True by done.
    + rewrite Hup. unfold tbl'. rewrite lookup_delete_ne by congruence.
      destruct (tbl !! (0%nat, vpage v / 512)) as [c|] eqn:Hc.
      * rewrite (Hent _ _ _ Hc) by apply mod512. rewrite decide_False; [done|]. by intros [[=] _].
      * destruct (tbl !! (1%nat, vpage v / 512 / 512)) as [c'|] eqn:Hc'; [|done].
        rewrite (Hent _ _ _ Hc') by apply mod512. rewrite decide_False; [done|].
        intros [[= Hd] Hm]. apply Hne.
        rewrite (Z.div_mod (vpage v / 512) 512), (Z.div_mod h 512) by lia. by rewrite Hd, Hm.
Qed.

(** Only RAM and the page allocator matter. *)
Lemma tables_ok_same s s' root tbl :
  tables_ok s root tbl -> pmm s' = pmm s -> ram s' = ram s -> tables_ok s' root tbl.
Proof.
  intros Ht Hp Hr. destruct (fa_rest s s') as [Hok Hres]; [apply Ht|done..|].
  split; [done|apply Ht|apply Ht| |apply Ht|by rewrite Hr; apply Ht].
  intros k a Ha. destruct (to_page _ _ _ Ht _ _ Ha) as (?&?&?&Hn). do 3 (split; [done|]).
  intros x Hx. rewrite Hres. by apply Hn.
Qed.
End tables.
