(* ===== verification/VmmRun.v ===== *)
(** The runs of the operations of vmm.c on a tree of page tables. *)
From S2P Require Import Prelude Machine Globals Strings Pmm Frames Vmm VmmFacts.

Section run.
Context {FA : FrameAllocator pmm_alloc_page pmm_alloc_pages}.

Lemma same_rest_globals s s' : same_rest s s' -> same_globals s s'.
Proof. unfold same_rest, same_globals. intros <-. by destruct s'. Qed.

(** No huge page covers page [q]. *)
Definition not_huge (m : gmap Z Z) (tbl : gmap (nat * Z) Z) (q : Z) : Prop :=
  forall pd, tbl !! (1%nat, q / 512 / 512) = Some pd ->
    present (ent m pd ((q / 512) mod 512)) && huge (ent m pd ((q / 512) mod 512)) = false.

(** The tree may have more tables, and translates as before. *)
Record grows (s : kst) (tbl : gmap (nat * Z) Z) (s' : kst) (tbl' : gmap (nat * Z) Z) : Prop := {
  gr_walk : forall v, mappable v -> walk (ram s') tbl' v = walk (ram s) tbl v;
  gr_keeps : keeps s tbl s' tbl';
  gr_globals : same_globals s s';
  gr_sub : tbl ⊆ tbl';
}.

Lemma grows_refl s tbl : grows s tbl s tbl.
Proof. split; [done|apply keeps_refl|done|done]. Qed.

Lemma grows_trans s1 t1 s2 t2 s3 t3 :
  grows s1 t1 s2 t2 -> grows s2 t2 s3 t3 -> grows s1 t1 s3 t3.
Proof.
  intros [W1 K1 G1 S1] [W2 K2 G2 S2]. split.
  - intros v Hv. by rewrite W2, W1.
  - by eapply keeps_trans.
  - by etransitivity.
  - by transitivity t2.
Qed.

(** Every page taken is a table: at most [k] of them. *)
Definition account (s : kst) (tbl : gmap (nat * Z) Z) : Z := fa_left s + Z.of_nat (size tbl).
Record spends (k : Z) (s : kst) (tbl : gmap (nat * Z) Z) (s' : kst) (tbl' : gmap (nat * Z) Z) : Prop := {
  sp_account : account s' tbl' = account s tbl;
  sp_tables : Z.of_nat (size tbl) <= Z.of_nat (size tbl') <= Z.of_nat (size tbl) + k;
}.

Lemma spends_same k s tbl s' : 0 <= k -> pmm s' = pmm s -> spends k s tbl s' tbl.
Proof. intros Hk Hp. split; [|lia]. unfold account. by rewrite (fa_left_same _ _ Hp). Qed.

Lemma spends_trans k1 k2 s1 t1 s2 t2 s3 t3 :
  spends k1 s1 t1 s2 t2 -> spends k2 s2 t2 s3 t3 -> spends (k1 + k2) s1 t1 s3 t3.
Proof. intros [A1 T1] [A2 T2]. split; [by rewrite A2|lia]. Qed.

Lemma spends_left k s tbl s' tbl' :
  spends k s tbl s' tbl' -> fa_left s - k <= fa_left s' <= fa_left s.
Proof. intros [A T]. unfold account in A. lia. Qed.

Lemma fresh_nonnull s s' a n : fresh fa_reserved s s' a n -> 0 < n -> PHYS_TO_VIRT a <> 0.
Proof. intros Hf Hn. destruct (fr_range _ _ _ _ _ Hf) as (? & _ & ?). apply PHYS_TO_VIRT_nonnull. unfold PAGE_SIZE in *. lia. Qed.

(** ** get_or_create_table *)
Lemma get_or_create_table_run s root tbl L p b :
  tables_ok s root tbl -> (L < 3)%nat -> key_ok L p -> tbl !! (S L, p / 512) = Some b ->
  (L = 0%nat -> present (ent (ram s) b (p mod 512)) && huge (ent (ram s) b (p mod 512)) = false) ->
  exists r s', get_or_create_table (PHYS_TO_VIRT b) (p mod 512) (PT_PRESENT .| PT_WRITABLE) s = Ret r s'
  /\ ((r = 0 /\ s' = s /\ fa_left s = 0)
      \/ exists a tbl', r = PHYS_TO_VIRT a /\ tables_ok s' root tbl' /\ tbl' !! (L, p) = Some a
           /\ grows s tbl s' tbl' /\ spends 1 s tbl s' tbl'
           /\ (forall q, not_huge (ram s) tbl q -> not_huge (ram s') tbl' q)).
Proof.
  intros Ht HL Hp Hb Hh. pose proof (mod512 p) as Hi.
  unfold get_or_create_table. unfold mbind at 1, M_bind at 1. unfold gets at 1.
  rewrite (entry_step s root tbl Ht _ _ _ Hb _ Hi).
  pose proof (tbl_step s root tbl Ht L p b HL Hp Hb) as Hc. unfold child in Hc.
  destruct (present (ent (ram s) b (p mod 512))) eqn:Hpr.
  - exists (PHYS_TO_VIRT (ent (ram s) b (p mod 512) .& PAGE_MASK)), s. split; [done|]. right.
    eexists _, tbl. split; [done|]. split; [done|].
    split; [|split; [apply grows_refl|split; [by apply spends_same; [lia|]|done]]].
    rewrite Hc. cbn [andb]. destruct (Nat.eqb_spec L 0) as [->|]; [|done]. cbn [andb].
    specialize (Hh eq_refl). cbn [andb] in Hh. by rewrite Hh.
  - destruct (fa_alloc s (to_frames _ _ _ Ht)) as (r & s1 & Er & Hok1 & Hrest & Hr).
    unfold mbind at 1, M_bind at 1. rewrite Er.
    destruct (fa_left_alloc s r s1 (to_frames _ _ _ Ht) Er) as [[-> Hl]|(Hnn & _ & Hl)].
    { destruct Hr as [[_ ->]|(a & E0 & Hf)]; [exists 0, s; auto|]. by destruct (fresh_nonnull _ _ _ _ Hf). }
    destruct Hr as [[-> _]|(a & -> & Hf)]; [done|].
    destruct (create_page s s1 L a Hf HL) as (Ha & Hal & Ha2). unfold PAGE_SIZE in Ha2. test_false.
    pose proof (tbl_page s root tbl Ht _ _ _ Hb) as (Hb1 & Hb2 & Hb3).
    eexists _, _. split; [msimpl; reflexivity|]. right.
    rewrite set_entry_store, lin_PHYS_TO_VIRT, VIRT_TO_PHYS_TO_VIRT by (done || lia).
    change (PT_PRESENT .| PT_WRITABLE) with 3.
    pose proof (create_tables_ok s s1 root tbl L p b a Ht Hok1 Hf HL Hp Hb Hpr) as Ht2.
    exists a, (<[(L, p) := a]> tbl). split; [done|].
    assert (Eram : forall m2, set_ram m2 (set_ram (memset (ram s1) a 0 PAGE_SIZE) s1) = set_ram m2 s1)
      by done.
    rewrite Eram. split; [exact Ht2|]. split; [by rewrite lookup_insert_eq|]. split.
    + split.
      * by apply create_walk with (root := root).
      * by apply create_keeps with (root := root).
      * apply same_rest_globals. unfold same_rest in *. rewrite <- Hrest. by destruct s1.
      * apply insert_subseteq. by apply (create_none s root tbl L p b).
    + split.
      * split; unfold account; rewrite map_size_insert_None by by apply (create_none s root tbl L p b).
        -- rewrite (fa_left_same s1) by done. lia.
        -- lia.
      * intros q Hq pd Hpd.
        destruct (decide ((L, p) = (1%nat, q / 512 / 512))) as [E|Hne].
        -- rewrite E, lookup_insert_eq in Hpd. injection Hpd as <-.
          by rewrite (create_zero s s1 root tbl L p b a Ht Hf HL Hb) by apply mod512.
        -- rewrite lookup_insert_ne in Hpd by done.
          rewrite (create_ent s s1 root tbl L p b a Ht Hf HL Hb _ _ _ Hpd) by apply mod512.
          destruct (decide _); [|by apply Hq].
          destruct (table_entry a) as (_ & _ & -> & _); [done|done|lia|]. apply andb_false_r.
Qed.

(** ** The descent to the page directory, which both map functions share *)
Definition with_pd (pml4 virt : Z) (K : Z -> M bool) : M bool :=
  pdpt ← get_or_create_table pml4 (PML4_INDEX virt) (PT_PRESENT .| PT_WRITABLE);
  if pdpt =? 0 then mret false else
  pd ← get_or_create_table pdpt (PDPT_INDEX virt) (PT_PRESENT .| PT_WRITABLE);
  if pd =? 0 then mret false else K pd.

Lemma table_nonnull s root tbl k a :
  tables_ok s root tbl -> tbl !! k = Some a -> (PHYS_TO_VIRT a =? 0) = false.
Proof.
  intros Ht Ha. destruct (to_page _ _ _ Ht _ _ Ha) as (?&_&?&_). unfold PAGE_SIZE in *.
  apply Z.eqb_neq, PHYS_TO_VIRT_nonnull. lia.
Qed.

Lemma with_pd_run s root tbl virt K :
  tables_ok s root tbl -> mappable virt ->
  exists s' tbl', tables_ok s' root tbl' /\ grows s tbl s' tbl' /\ spends 2 s tbl s' tbl'
  /\ (forall q, not_huge (ram s) tbl q -> not_huge (ram s') tbl' q)
  /\ (with_pd (PHYS_TO_VIRT root) virt K s = Ret false s' /\ fa_left s' = 0
      \/ exists pd, tbl' !! (1%nat, vpage virt / 512 / 512) = Some pd
           /\ with_pd (PHYS_TO_VIRT root) virt K s = K (PHYS_TO_VIRT pd) s').
Proof.
  intros Ht Hv. destruct (mappable_keys virt Hv) as (K0 & K1 & K2). pose proof (vpage_range virt).
  unfold with_pd. rewrite PML4_INDEX_val, PDPT_INDEX_val by apply Hv.
  set (q := vpage virt) in *.
  assert (E3 : q / 512 / 512 / 512 = (q / 512 / 512 / 512) mod 512) by (Z.div_mod_to_equations; lia).
  assert (H3 : tbl !! (3%nat, q / 512 / 512 / 512 / 512) = Some root).
  { replace (q / 512 / 512 / 512 / 512) with 0 by (Z.div_mod_to_equations; lia). apply Ht. }
  destruct (get_or_create_table_run s root tbl 2 _ root Ht ltac:(lia) K2 H3 ltac:(done))
    as (r & s1 & Er & Hr).
  rewrite <- E3 in Er. rewrite (bind_ret _ _ _ _ _ Er).
  destruct Hr as [(-> & -> & Hl)|(pdpt & tbl1 & -> & Ht1 & H2 & Hg1 & Hs1 & Hn1)].
  { exists s, tbl. split; [done|]. split; [apply grows_refl|]. split; [by apply spends_same; [lia|]|].
    split; [done|]. by left. }
  rewrite (table_nonnull _ _ _ _ _ Ht1 H2).
  destruct (get_or_create_table_run s1 root tbl1 1 _ pdpt Ht1 ltac:(lia) K1 H2 ltac:(done))
    as (r & s2 & Er2 & Hr). rewrite (bind_ret _ _ _ _ _ Er2).
  destruct Hr as [(-> & -> & Hl)|(pd & tbl2 & -> & Ht2 & H1 & Hg2 & Hs2 & Hn2)].
  { exists s1, tbl1. split; [done|]. split; [done|]. split; [destruct Hs1; split; [done|lia]|]. split; [auto|].
    by left. }
  rewrite (table_nonnull _ _ _ _ _ Ht2 H1).
  exists s2, tbl2. split; [done|]. split; [by eapply grows_trans|]. split; [by eapply (spends_trans 1 1)|].
  split; [auto|]. right. eauto.
Qed.

(** ** Writing the last entry *)
Lemma replace_entry_run s a i virt v :
  exists s', replace_entry a i virt v s = Ret tt s' /\ pmm s' = pmm s
  /\ same_globals s s' /\ ram s' = set_entry a i v (ram s).
Proof.
  unfold replace_entry, same_globals. msimpl. destruct (present _); msimpl;
    (eexists; split; [reflexivity|]; split; [done|]; split; [by destruct s|]).
  - cbn [ram set_ram set_trace]. unfold set_entry. apply store_le_twice.
  - done.
Qed.

Lemma leaf4k_flags phys flags v :
  0 <= phys < 2 ^ 64 -> 0 <= flags < 4096 -> Z.odd flags = true -> 0 <= v < 2 ^ 64 ->
  leaf4k (u64 ((phys .& PAGE_MASK) .| flags)) v = phys - phys mod 4096 + v mod 4096.
Proof.
  intros Hp Hf Hodd Hv. rewrite page_mask_val by done.
  set (f := phys - phys mod 4096).
  assert (Hm : f mod 2 ^ 12 = 0) by (unfold f; Z.div_mod_to_equations; lia).
  assert (Hr : 0 <= f <= phys) by (unfold f; Z.div_mod_to_equations; lia).
  rewrite (lor_add_disjoint f flags 12) by lia.
  assert (Hfl : f + flags < 2 ^ 64) by (change (2 ^ 12) with 4096 in Hm; Z.div_mod_to_equations; lia).
  rewrite u64_small by lia. unfold leaf4k. rewrite present_odd.
  replace (Z.odd (f + flags)) with true.
  - rewrite page_mask_val by lia. change (PAGE_SIZE - 1) with (2 ^ 12 - 1). rewrite land_low by lia.
    change (2 ^ 12) with 4096 in *.
    replace (f + flags - (f + flags) mod 4096) with f by (Z.div_mod_to_equations; lia).
    apply (lor_add_disjoint f _ 12); [lia|done|]. apply Z.mod_pos_bound. lia.
  - rewrite Z.odd_add, Hodd. replace f with (2 * (f / 2)); [by rewrite Z.odd_mul|].
    change (2 ^ 12) with 4096 in Hm. Z.div_mod_to_equations. lia.
Qed.

(** What a change of the page tables does to the translation: [f] inside the
    pages selected by [sel], nothing elsewhere. *)
Record remaps (s s' : kst) (root : Z) (tbl tbl' : gmap (nat * Z) Z) (sel : Z -> bool)
    (f : Z -> Z) : Prop := {
  rm_tables : tables_ok s' root tbl';
  rm_keeps : keeps s tbl s' tbl';
  rm_globals : same_globals s s';
  rm_phys : forall v, mappable v ->
    get_phys (ram s') (PHYS_TO_VIRT root) v
    = if sel v then f v else get_phys (ram s) (PHYS_TO_VIRT root) v;
}.

Lemma grows_remaps s s' root tbl tbl' f :
  tables_ok s root tbl -> tables_ok s' root tbl' -> grows s tbl s' tbl' ->
  remaps s s' root tbl tbl' (fun _ => false) f.
Proof.
  intros Ht Ht' [Hw Hk Hg _]. split; [done..|]. intros v Hv.
  by rewrite (get_phys_walk s' root tbl' Ht' v Hv), (get_phys_walk s root tbl Ht v Hv), Hw.
Qed.

(** vmm_map_page *)
Lemma vmm_map_page_run s root tbl virt phys flags :
  tables_ok s root tbl -> mappable virt -> not_huge (ram s) tbl (vpage virt) ->
  exists r s' tbl', vmm_map_page (PHYS_TO_VIRT root) virt phys flags s = Ret r s'
  /\ remaps s s' root tbl tbl' (fun v => r && (vpage v =? vpage virt))
       (leaf4k (u64 ((phys .& PAGE_MASK) .| flags)))
  /\ (forall q, not_huge (ram s) tbl q -> not_huge (ram s') tbl' q)
  /\ spends 3 s tbl s' tbl' /\ (r = false -> fa_left s' = 0).
Proof.
  intros Ht Hv Hnh. destruct (mappable_keys virt Hv) as (K0 & _ & _).
  set (K := fun pd =>
    pt ← get_or_create_table pd (PD_INDEX virt) (PT_PRESENT .| PT_WRITABLE);
    if pt =? 0 then mret false else
    replace_entry pt (PT_INDEX virt) virt ((phys .& PAGE_MASK) .| flags);;
    mret true).
  change (vmm_map_page (PHYS_TO_VIRT root) virt phys flags) with (with_pd (PHYS_TO_VIRT root) virt K).
  destruct (with_pd_run s root tbl virt K Ht Hv) as (s1 & tbl1 & Ht1 & Hg1 & Hs1 & Hn1 & [[-> Hl]|(pd & Hpd & ->)]).
  { exists false, s1, tbl1. split; [done|]. split; [by apply grows_remaps|]. split; [done|].
    split; [destruct Hs1; split; [done|lia]|done]. }
  unfold K. rewrite PD_INDEX_val, PT_INDEX_val by apply Hv. set (q := vpage virt) in *.
  destruct (get_or_create_table_run s1 root tbl1 0 _ pd Ht1 ltac:(lia) K0 Hpd) as (r & s2 & Er & Hr).
  { intros _. by apply Hn1. }
  rewrite (bind_ret _ _ _ _ _ Er). destruct Hr as [(-> & -> & Hl)|(pt & tbl2 & -> & Ht2 & Hpt & Hg2 & Hs2 & Hn2)].
  { exists false, s1, tbl1. split; [done|]. split; [by apply grows_remaps|]. split; [done|].
    split; [destruct Hs1; split; [done|lia]|done]. }
  rewrite (table_nonnull _ _ _ _ _ Ht2 Hpt).
  destruct (replace_entry_run s2 (PHYS_TO_VIRT pt) (q mod 512) virt ((phys .& PAGE_MASK) .| flags))
    as (s3 & E3 & Hp3 & Hg3 & Hr3).
  rewrite (bind_ret _ _ _ _ _ E3).
  destruct (tbl_page s2 root tbl2 Ht2 _ _ _ Hpt) as (?&?&?).
  rewrite set_entry_store in Hr3 by (done || apply mod512).
  destruct (store_leaf4k s2 s3 root tbl2 q pt _ Ht2 Hpt Hp3 Hr3) as (Ht3 & Hk3 & Hw3 & Hup).
  assert (Hg : grows s tbl s2 tbl2) by (by eapply grows_trans).
  exists true, s3, tbl2. split; [done|]. split.
  - split; [done| | |].
    + eapply keeps_trans; [apply Hg|done].
    + etransitivity; [apply Hg|done].
    + intros v Hmv. rewrite (get_phys_walk s3 root tbl2 Ht3 v Hmv), Hw3 by done. simpl.
      rewrite (get_phys_walk s root tbl Ht v Hmv). rewrite (gr_walk _ _ _ _ Hg v Hmv). done.
  - split; [|split; [|done]].
    + intros q' Hq' pd' Hpd'. pose proof (Hn1 q' Hq') as Hq1.
      rewrite (Hup _ _ _ _ Hpd') by apply mod512. by apply Hn2.
    + apply (spends_trans 3 0 _ _ s2 tbl2); [by eapply (spends_trans 2 1)|by apply spends_same].
Qed.

(** vmm_map_huge_page *)
Definition huge_entry (phys flags : Z) : Z := (phys .& HUGE_PAGE_MASK) .| flags .| PT_HUGE.

Lemma huge_entry_huge phys flags : huge (u64 (huge_entry phys flags)) = true.
Proof.
  rewrite huge_bit, u64_testbit by lia. unfold huge_entry. rewrite Z.lor_spec.
  change (Z.testbit PT_HUGE 7) with true. apply orb_true_r.
Qed.

Lemma vmm_map_huge_page_run s root tbl virt phys flags :
  tables_ok s root tbl -> mappable virt ->
  exists r s' tbl', vmm_map_huge_page (PHYS_TO_VIRT root) virt phys flags s = Ret r s'
  /\ remaps s s' root tbl tbl' (fun v => r && (vpage v / 512 =? vpage virt / 512))
       (leaf2m (u64 (huge_entry phys flags)))
  /\ fa_left s - 2 <= fa_left s' <= fa_left s /\ (r = false -> fa_left s' = 0).
Proof.
  intros Ht Hv. destruct (mappable_keys virt Hv) as (K0 & _ & _).
  set (K := fun pd =>
    replace_entry pd (PD_INDEX virt) virt ((phys .& HUGE_PAGE_MASK) .| flags .| PT_HUGE);;
    mret true).
  change (vmm_map_huge_page (PHYS_TO_VIRT root) virt phys flags) with (with_pd (PHYS_TO_VIRT root) virt K).
  destruct (with_pd_run s root tbl virt K Ht Hv) as (s1 & tbl1 & Ht1 & Hg1 & Hs1 & _ & [[-> Hl]|(pd & Hpd & ->)]);
    apply spends_left in Hs1.
  { exists false, s1, tbl1. split; [done|]. split; [by apply grows_remaps|done]. }
  unfold K. rewrite PD_INDEX_val by apply Hv. set (h := vpage virt / 512) in *.
  destruct (replace_entry_run s1 (PHYS_TO_VIRT pd) (h mod 512) virt (huge_entry phys flags))
    as (s2 & E2 & Hp2 & Hg2 & Hr2).
  unfold huge_entry in E2 at 1. rewrite (bind_ret _ _ _ _ _ E2).
  destruct (tbl_page s1 root tbl1 Ht1 _ _ _ Hpd) as (?&?&?).
  rewrite set_entry_store in Hr2 by (done || apply mod512).
  destruct (store_leaf2m s1 s2 root tbl1 h pd _ Ht1 K0 Hpd Hp2 Hr2) as (Ht2 & Hk2 & Hw2).
  { rewrite huge_entry_huge. apply andb_false_r. }
  exists true, s2, (delete (0%nat, h) tbl1). split; [done|].
  split; [|rewrite (fa_left_same s1 s2 Hp2); by split]. split; [done| | |].
  - eapply keeps_trans; [apply Hg1|done].
  - etransitivity; [apply Hg1|done].
  - intros v Hmv. rewrite (get_phys_walk s2 root _ Ht2 v Hmv), Hw2 by done. simpl.
    rewrite (get_phys_walk s root tbl Ht v Hmv). by rewrite (gr_walk _ _ _ _ Hg1 v Hmv).
Qed.

Lemma leaf2m_flags phys flags v :
  0 <= phys < 2 ^ 64 -> 0 <= flags < 4096 -> Z.odd flags = true -> 0 <= v < 2 ^ 64 ->
  leaf2m (u64 (huge_entry phys flags)) v = phys - phys mod HUGE_PAGE_SIZE + v mod HUGE_PAGE_SIZE.
Proof.
  intros Hp Hf Hodd Hv. unfold leaf2m. rewrite huge_entry_huge, andb_true_r.
  unfold huge_entry. rewrite huge_mask_val by done. unfold HUGE_PAGE_SIZE.
  change (2 * 1024 * 1024) with (2 ^ 21). set (f := phys - phys mod 2 ^ 21).
  assert (Hm : f mod 2 ^ 21 = 0) by (unfold f; Z.div_mod_to_equations; lia).
  assert (Hr : 0 <= f <= phys) by (unfold f; Z.div_mod_to_equations; lia).
  rewrite <- Z.lor_assoc. set (g := flags .| PT_HUGE).
  assert (Hg : 0 <= g < 2 ^ 12) by (apply lor_bound; unfold PT_HUGE; lia).
  assert (Hgo : Z.odd g = true).
  { unfold g. rewrite <- Z.bit0_odd, Z.lor_spec, Z.bit0_odd, Hodd. done. }
  rewrite (lor_add_disjoint f g 21) by lia.
  rewrite u64_small by (Z.div_mod_to_equations; lia). rewrite present_odd.
  replace (Z.odd (f + g)) with true.
  - rewrite huge_mask_val by (Z.div_mod_to_equations; lia).
    rewrite land_low by lia. unfold HUGE_PAGE_SIZE. change (2 * 1024 * 1024) with (2 ^ 21).
    replace (f + g - (f + g) mod 2 ^ 21) with f by (Z.div_mod_to_equations; lia).
    apply (lor_add_disjoint f _ 21); [lia|done|]. apply Z.mod_pos_bound. lia.
  - rewrite Z.odd_add, Hgo. replace f with (2 * (f / 2)); [by rewrite Z.odd_mul|].
    Z.div_mod_to_equations. lia.
Qed.

(** vmm_unmap_page *)

(** A huge page covers [virt]. *)
Definition in_huge (m : gmap Z Z) (tbl : gmap (nat * Z) Z) (virt : Z) : bool :=
  match tbl !! (0%nat, vpage virt / 512), tbl !! (1%nat, vpage virt / 512 / 512) with
  | None, Some pd =>
      let e := ent m pd ((vpage virt / 512) mod 512) in present e && huge e
  | _, _ => false
  end.

Lemma unmap_store_run s a i virt :
  exists s', (upd_ram (set_entry a i 0);; invlpg virt) s = Ret tt s' /\ pmm s' = pmm s
  /\ same_globals s s' /\ ram s' = set_entry a i 0 (ram s).
Proof. msimpl. eexists. split; [reflexivity|]. split; [done|]. split; [|done]. by destruct s. Qed.

Lemma vmm_unmap_page_run s root tbl virt :
  tables_ok s root tbl -> mappable virt ->
  exists s' tbl', vmm_unmap_page (PHYS_TO_VIRT root) virt s = Ret tt s'
  /\ remaps s s' root tbl tbl'
       (fun v => if in_huge (ram s) tbl virt then vpage v / 512 =? vpage virt / 512
                 else vpage v =? vpage virt) (fun _ => 0)
  /\ (in_huge (ram s) tbl virt = false ->
      pmm s' = pmm s /\ tbl' = tbl /\ forall q, not_huge (ram s) tbl q -> not_huge (ram s') tbl' q).
Proof.
  intros Ht Hv. destruct (mappable_keys virt Hv) as (K0 & _ & _).
  assert (E : vmm_unmap_page (PHYS_TO_VIRT root) virt s =
    descend (ram s) (PHYS_TO_VIRT root) virt (mret tt : M unit)
      (fun pd => upd_ram (set_entry pd (PD_INDEX virt) 0);; invlpg virt)
      (fun pt => upd_ram (set_entry pt (PT_INDEX virt) 0);; invlpg virt) s) by done.
  rewrite E, (descend_tbl s root tbl Ht) by done. cbv zeta.
  rewrite PD_INDEX_val, PT_INDEX_val by apply Hv. unfold in_huge. set (q := vpage virt) in *.
  destruct (tbl !! (0%nat, q / 512)) as [pt|] eqn:E0.
  { destruct (unmap_store_run s (PHYS_TO_VIRT pt) (q mod 512) virt) as (s' & -> & Hp & Hg & Hr).
    destruct (tbl_page s root tbl Ht _ _ _ E0) as (?&?&?).
    rewrite set_entry_store in Hr by (done || apply mod512).
    destruct (store_leaf4k s s' root tbl q pt 0 Ht E0 Hp Hr) as (Ht' & Hk & Hw & Hup).
    exists s', tbl. split; [done|]. split; [split; [done..|]|].
    - intros v Hmv.
      by rewrite (get_phys_walk s' root tbl Ht' v Hmv), (get_phys_walk s root tbl Ht v Hmv), Hw.
    - intros _. split; [done|]. split; [done|]. intros q' Hq' pd Hpd.
      rewrite (Hup _ _ _ _ Hpd) by apply mod512. by apply Hq'. }
  assert (Hnone : tables_ok s root tbl -> (forall v, mappable v -> vpage v = q ->
             walk (ram s) tbl v = 0) -> exists s' tbl', (mret tt : M unit) s = Ret tt s'
             /\ remaps s s' root tbl tbl' (fun v => vpage v =? q) (fun _ => 0)
             /\ (false = false -> pmm s' = pmm s /\ tbl' = tbl
                   /\ forall q', not_huge (ram s) tbl q' -> not_huge (ram s') tbl' q')).
  { intros _ Hz. exists s, tbl. split; [done|]. split; [|done]. split; [done|apply keeps_refl|done|].
    intros v Hmv. destruct (Z.eqb_spec (vpage v) q); [|done].
    rewrite (get_phys_walk s root tbl Ht v Hmv). by apply Hz. }
  destruct (tbl !! (1%nat, q / 512 / 512)) as [pd|] eqn:E1.
  - destruct (present (ent (ram s) pd ((q / 512) mod 512)) && huge (ent (ram s) pd ((q / 512) mod 512)))
      eqn:Eh.
    + destruct (unmap_store_run s (PHYS_TO_VIRT pd) ((q / 512) mod 512) virt) as (s' & -> & Hp & Hg & Hr).
      destruct (tbl_page s root tbl Ht _ _ _ E1) as (?&?&?).
      rewrite set_entry_store in Hr by (done || apply mod512).
      destruct (store_leaf2m s s' root tbl (q / 512) pd 0 Ht K0 E1 Hp Hr eq_refl) as (Ht' & Hk & Hw).
      eexists s', _. split; [done|]. split; [|done]. split; [exact Ht'|done|done|]. intros v Hmv.
      by rewrite (get_phys_walk s' root _ Ht' v Hmv), (get_phys_walk s root tbl Ht v Hmv), Hw.
    + apply Hnone; [done|]. intros v _ Hq. unfold walk. rewrite Hq, E0, E1. unfold leaf2m. by rewrite Eh.
  - apply Hnone; [done|]. intros v _ Hq. unfold walk. by rewrite Hq, E0, E1.
Qed.

(** ** vmm_create_address_space *)

(** Changes outside the tables keep the tree. *)
Lemma tables_ok_frame s s' root tbl :
  tables_ok s root tbl -> fa_ok s' ->
  (forall x, ~ fa_reserved s x -> ~ fa_reserved s' x) ->
  (forall k c x, tbl !! k = Some c -> c <= x < c + PAGE_SIZE -> load8 (ram s') x = load8 (ram s) x) ->
  tables_ok s' root tbl /\ (forall v, walk (ram s') tbl v = walk (ram s) tbl v).
Proof.
  intros Ht Hok Hres Hram.
  assert (Hent : forall k c j, tbl !! k = Some c -> 0 <= j < 512 -> ent (ram s') c j = ent (ram s) c j).
  { intros k c j Hc Hj. apply ent_ext; [|done]. intros x. by apply (Hram k). }
  split.
  - split; [done|apply Ht|apply Ht| |apply Ht|].
    + intros k c Hc. destruct (to_page _ _ _ Ht _ _ Hc) as (?&?&?&Hr). do 3 (split; [done|]).
      intros x Hx. by apply Hres, Hr.
    + intros L p HL Hp. rewrite (to_child _ _ _ Ht L p HL Hp).
      destruct (tbl !! (S L, p / 512)) as [c|] eqn:Hc; [|done].
      change (child (ram s) c (p mod 512) L = child (ram s') c (p mod 512) L).
      unfold child. by rewrite (Hent _ _ _ Hc) by apply mod512.
  - intros v. unfold walk. destruct (tbl !! (0%nat, vpage v / 512)) as [c|] eqn:Hc.
    { by rewrite (Hent _ _ _ Hc) by apply mod512. }
    destruct (tbl !! (1%nat, vpage v / 512 / 512)) as [c|] eqn:Hc'; [|done].
    by rewrite (Hent _ _ _ Hc') by apply mod512.
Qed.

Section copy.
Context (k a : Z) (Hk : 0 <= k) (Hk2 : k mod PAGE_SIZE = 0) (Hk3 : k + PAGE_SIZE <= 2 ^ 47).
Context (Ha : 0 <= a) (Ha2 : a mod PAGE_SIZE = 0) (Ha3 : a + PAGE_SIZE <= 2 ^ 47) (Hka : k <> a).

(** One entry is copied. *)
Definition copy_entry (m : gmap Z Z) (i : Z) : gmap Z Z :=
  if present (entry m (PHYS_TO_VIRT k) i)
  then set_entry (PHYS_TO_VIRT a) i (entry m (PHYS_TO_VIRT k) i) m else m.

Lemma copy_entry_ent m i b j :
  0 <= i < 512 -> 0 <= j < 512 -> b mod PAGE_SIZE = 0 ->
  ent (copy_entry m i) b j =
  if decide (b = a /\ j = i /\ present (ent m k i) = true) then ent m k i else ent m b j.
Proof.
  intros Hi Hj Hb. unfold copy_entry. rewrite !entry_ent, set_entry_store by done.
  destruct (present (ent m k i)); [|by rewrite decide_False by naive_solver].
  rewrite ent_store by done. destruct (decide (a = b /\ i = j)) as [[<- <-]|Hne].
  - rewrite decide_True by done. apply u64_small. apply load64_range.
  - rewrite decide_False; [done|]. naive_solver.
Qed.

Lemma copy_kernel_entries_ent n m i b j :
  0 <= i -> i + Z.of_nat n <= 512 -> 0 <= j < 512 -> b mod PAGE_SIZE = 0 ->
  ent (copy_kernel_entries n (PHYS_TO_VIRT k) (PHYS_TO_VIRT a) i m) b j =
  if decide (b = a /\ i <= j < i + Z.of_nat n /\ present (ent m k j) = true)
  then ent m k j else ent m b j.
Proof.
  intros Hi Hn Hj Hb. revert m i Hi Hn. induction n as [|n IH]; intros m i Hi Hn.
  { simpl. rewrite decide_False; [done|]. lia. }
  change (copy_kernel_entries (S n) _ _ i m)
    with (copy_kernel_entries n (PHYS_TO_VIRT k) (PHYS_TO_VIRT a) (i + 1) (copy_entry m i)).
  rewrite IH by lia. rewrite !(copy_entry_ent m i) by (done || lia).
  rewrite (decide_False (P := k = a /\ _)) by naive_solver.
  destruct (decide (b = a /\ i + 1 <= j < i + 1 + Z.of_nat n /\ present (ent m k j) = true)) as [D1|D1];
    destruct (decide (b = a /\ i <= j < i + Z.of_nat (S n) /\ present (ent m k j) = true)) as [D2|D2];
    try done.
  - exfalso. apply D2. destruct D1 as (?&?&?). split; [done|]. split; [lia|done].
  - destruct D2 as (-> & ? & Hp). assert (j = i) as ->.
    { destruct (Z.eq_dec j i); [done|]. exfalso. apply D1. split; [done|]. split; [lia|done]. }
    by rewrite decide_True.
  - rewrite decide_False; [done|]. intros (-> & -> & Hp). apply D2. split; [done|]. split; [lia|done].
Qed.

Lemma copy_kernel_entries_frame n m i :
  0 <= i -> i + Z.of_nat n <= 512 ->
  only_changes a (a + PAGE_SIZE) m (copy_kernel_entries n (PHYS_TO_VIRT k) (PHYS_TO_VIRT a) i m).
Proof.
  revert m i. induction n as [|n IH]; intros m i Hi Hn; simpl; [apply only_changes_refl|].
  eapply only_changes_trans; [|apply IH; lia]. destruct (present _); [|apply only_changes_refl].
  rewrite set_entry_store by (done || lia).
  eapply only_changes_weaken; [apply (store_le_frame 8)|unfold PAGE_SIZE in *; lia..].
Qed.
End copy.

(** Trees that walk alike translate alike. *)
Lemma walk_get_phys_eq s1 s2 root tbl v :
  tables_ok s1 root tbl -> tables_ok s2 root tbl -> walk (ram s1) tbl v = walk (ram s2) tbl v ->
  mappable v -> get_phys (ram s1) (PHYS_TO_VIRT root) v = get_phys (ram s2) (PHYS_TO_VIRT root) v.
Proof.
  intros H1 H2 Hw Hv. by rewrite (get_phys_walk s1 root tbl H1 v Hv), (get_phys_walk s2 root tbl H2 v Hv).
Qed.

Definition create_space_state (s1 : kst) (a : Z) : kst :=
  set_ram
    (set_entry (PHYS_TO_VIRT a) RECURSIVE_INDEX (a .| PT_PRESENT .| PT_WRITABLE)
       (copy_kernel_entries 256 (kernel_pml4 s1) (PHYS_TO_VIRT a) 256
          (memset (ram s1) a 0 PAGE_SIZE))) s1.

Section create_space.
Context (s s1 : kst) (kroot : Z) (tbl : gmap (nat * Z) Z) (a : Z).
Context (Ht : tables_ok s kroot tbl) (Hok : fa_ok s1) (Hrest : same_rest s s1).
Context (Hf : fresh fa_reserved s s1 a 1) (Hk : kernel_pml4 s = PHYS_TO_VIRT kroot).
Let s' := create_space_state s1 a.

Lemma space_page : 0 <= a /\ a mod PAGE_SIZE = 0 /\ a + PAGE_SIZE <= 2 ^ 47.
Proof. by apply (create_page s s1 0 a Hf ltac:(lia)). Qed.

Lemma space_kroot : 0 <= kroot /\ kroot mod PAGE_SIZE = 0 /\ kroot + PAGE_SIZE <= 2 ^ 47 /\ kroot <> a.
Proof.
  destruct (tbl_page s kroot tbl Ht _ _ _ (to_root _ _ _ Ht)) as (?&?&?). do 3 (split; [done|]).
  intros ->. destruct (to_page _ _ _ Ht _ _ (to_root _ _ _ Ht)) as (_&_&_&Hr).
  apply (Hr a); [unfold PAGE_SIZE; lia|]. apply (fr_was _ _ _ _ _ Hf). unfold PAGE_SIZE. lia.
Qed.

Lemma space_kernel_pml4 : kernel_pml4 s1 = PHYS_TO_VIRT kroot.
Proof. rewrite <- Hk. rewrite <- Hrest. by destruct s1. Qed.

Lemma space_frame : only_changes a (a + PAGE_SIZE) (ram s1) (ram s').
Proof.
  destruct space_page as (?&?&?), space_kroot as (?&?&?&?). unfold s', create_space_state.
  cbn [ram set_ram]. rewrite space_kernel_pml4, set_entry_store by (done || (unfold RECURSIVE_INDEX; lia)).
  set (m1 := memset _ _ _ _). set (m2 := copy_kernel_entries _ _ _ _ m1).
  apply only_changes_trans with m2; [apply only_changes_trans with m1|].
  - eapply only_changes_weaken; [apply memset_frame|unfold PAGE_SIZE; lia..].
  - apply copy_kernel_entries_frame; done || lia.
  - unfold RECURSIVE_INDEX.
    eapply only_changes_weaken; [apply (store_le_frame 8)|unfold PAGE_SIZE; lia..].
Qed.

Lemma space_ent j :
  0 <= j < 512 ->
  ent (ram s') a j =
  if j =? RECURSIVE_INDEX then a .| 3
  else if (256 <=? j) && present (ent (ram s) kroot j) then ent (ram s) kroot j else 0.
Proof.
  intros Hj. destruct space_page as (?&?&?), space_kroot as (?&?&?&?). unfold s', create_space_state.
  cbn [ram set_ram]. rewrite space_kernel_pml4, set_entry_store by (done || (unfold RECURSIVE_INDEX; lia)).
  rewrite ent_store by (done || (unfold RECURSIVE_INDEX; lia)).
  change (a .| PT_PRESENT .| PT_WRITABLE) with (a .| 1 .| 2). rewrite <- Z.lor_assoc.
  change (1 .| 2) with 3. unfold RECURSIVE_INDEX.
  destruct (Z.eqb_spec j 510) as [->|Hne].
  { rewrite decide_True by done. by apply table_entry. }
  rewrite decide_False by (intros [_ ?]; lia).
  rewrite copy_kernel_entries_ent by (done || lia).
  assert (Ek : ent (memset (ram s1) a 0 PAGE_SIZE) kroot j = ent (ram s) kroot j).
  { apply ent_ext; [|done]. intros x Hx. rewrite memset_frame.
    - apply (fr_other _ _ _ _ _ Hf). by apply (to_page _ _ _ Ht _ _ (to_root _ _ _ Ht)).
    - pose proof (pages_apart a kroot x ltac:(done) ltac:(done) ltac:(done) Hx).
      unfold PAGE_SIZE in *. lia. }
  rewrite Ek. destruct (Z.leb_spec 256 j); cbn [andb]; [destruct (present (ent (ram s) kroot j))|].
  - by rewrite decide_True by lia.
  - rewrite decide_False by naive_solver. unfold ent, PAGE_SIZE in *. apply (memset_zero_load_le 8); lia.
  - rewrite decide_False by lia. unfold ent, PAGE_SIZE in *. apply (memset_zero_load_le 8); lia.
Qed.

Lemma create_space_tables :
  tables_ok s' kroot tbl /\ same_rest s s' /\ (forall v, walk (ram s') tbl v = walk (ram s) tbl v)
  /\ ent (ram s') a RECURSIVE_INDEX = a .| 3.
Proof.
  assert (Hal : fa_ok s' /\ (forall x, fa_reserved s' x <-> fa_reserved s1 x)).
  { apply (fa_frame s1); [done|done|]. intros x Hx. apply space_frame.
    destruct (Z.ltb_spec x a); [by left|]. destruct (Z.leb_spec (a + PAGE_SIZE) x); [by right|].
    exfalso. apply (proj1 (fr_now _ _ _ _ _ Hf x ltac:(lia)) Hx). }
  destruct (tables_ok_frame s s' kroot tbl Ht (proj1 Hal)) as [Ht' Hw].
  - intros x Hx Hr. apply (proj2 Hal) in Hr. by apply (fr_other _ _ _ _ _ Hf x Hx).
  - intros k c x Hc Hx. destruct (to_page _ _ _ Ht _ _ Hc) as (?&Hcal&_&Hr).
    rewrite space_frame; [by apply (fr_other _ _ _ _ _ Hf), Hr|].
    assert (c <> a).
    { intros ->. apply (Hr a); [unfold PAGE_SIZE; lia|]. apply (fr_was _ _ _ _ _ Hf).
      unfold PAGE_SIZE. lia. }
    pose proof (pages_apart a c x (proj1 (proj2 space_page)) Hcal ltac:(done) Hx). lia.
  - split; [done|]. split; [etransitivity; [exact Hrest|]; by destruct s1|]. split; [done|].
    by rewrite space_ent.
Qed.

(** The new PML4 has the kernel's entries, so it translates like it. *)
Lemma create_space_phys v :
  mappable v ->
  get_phys (ram s') (PHYS_TO_VIRT a) v =
  if 256 <=? PML4_INDEX v then get_phys (ram s) (PHYS_TO_VIRT kroot) v else 0.
Proof.
  intros Hv. destruct create_space_tables as (Ht' & _ & Hw & _).
  destruct space_page as (?&?&?), space_kroot as (?&?&?&?).
  assert (Hi : 0 <= PML4_INDEX v < 512).
  { unfold PML4_INDEX. rewrite index_val by (lia || apply Hv). by apply Z.mod_pos_bound. }
  rewrite <- (walk_get_phys_eq s' s kroot tbl v) by done.
  assert (Ee : entry (ram s') (PHYS_TO_VIRT a) (PML4_INDEX v) =
    if (256 <=? PML4_INDEX v) && present (entry (ram s') (PHYS_TO_VIRT kroot) (PML4_INDEX v))
    then entry (ram s') (PHYS_TO_VIRT kroot) (PML4_INDEX v) else 0).
  { rewrite !entry_ent by done. rewrite space_ent by done.
    rewrite (proj2 (Z.eqb_neq _ _)) by apply Hv.
    assert (ent (ram s') kroot (PML4_INDEX v) = ent (ram s) kroot (PML4_INDEX v)) as ->; [|done].
    apply ent_ext; [|done]. intros x Hx.
    rewrite space_frame; [apply (fr_other _ _ _ _ _ Hf); by apply (to_page _ _ _ Ht _ _ (to_root _ _ _ Ht))|].
    pose proof (pages_apart a kroot x ltac:(done) ltac:(done) ltac:(done) Hx). lia. }
  unfold get_phys. cbv zeta. rewrite Ee.
  destruct (256 <=? PML4_INDEX v); cbn [andb]; [|done].
  by destruct (present (entry (ram s') (PHYS_TO_VIRT kroot) (PML4_INDEX v))) eqn:E; cbn [negb]; rewrite ?E.
Qed.
End create_space.
End run.
