(* ===== verification/VmmProps.v ===== *)
(** Properties of vmm.c, each with a witness on a concrete tree of tables. *)
From S2P Require Import Prelude Machine Globals Strings Pmm PmmFacts PmmProps Frames.
From S2P Require Import KmallocProps Vmm VmmFacts VmmRun.

(** * A concrete tree: an empty PML4 at 2 MB *)
Module VmmExample.
Definition root : Z := 0x200000.
Definition s : kst := set_kernel_pml4 (PHYS_TO_VIRT root) PmmExample.s.
Definition tbl : gmap (nat * Z) Z := {[ (3%nat, 0) := root ]}.

Lemma load_empty n a : load_le n ∅ a = 0.
Proof. revert a. induction n as [|n IH]; intros a; [done|]. cbn [load_le]. by rewrite IH. Qed.

Lemma root_ent i : 0 <= i < 512 -> ent (ram s) root i = 0.
Proof.
  intros Hi. unfold ent, root. change (ram s) with (store64 (store64 ∅ 0x100000 5) 0x101000 0).
  rewrite !load_store_disjoint by lia. apply load_empty.
Qed.

Lemma s_tables : tables_ok s root tbl.
Proof.
  destruct (frames_ok_frame PmmExample.s s KmallocExample.example_frames eq_refl) as [Hok Hres];
    [done|].
  assert (Hone : forall k a, tbl !! k = Some a -> k = (3%nat, 0) /\ a = root)
    by (intros k a Hka; unfold tbl in Hka; by apply lookup_singleton_Some in Hka as [<- <-]).
  split; [done|apply lookup_singleton_eq|..].
  - intros L p a [[= -> ->] _]%Hone. done.
  - intros k a [_ ->]%Hone. unfold table_page, root, PAGE_SIZE.
    split; [lia|]. split; [done|]. split; [lia|]. intros b Hb Hr.
    apply (KmallocExample.example_unreserved b); [unfold KmallocExample.base, PAGE_SIZE; lia|].
    by apply Hres.
  - intros k1 k2 a [-> _]%Hone [-> _]%Hone. done.
  - intros L p HL Hp. unfold tbl at 1. rewrite lookup_singleton_ne by (intros [=]; lia).
    destruct (tbl !! (S L, p / 512)) as [b|] eqn:Hb; [|done]. apply Hone in Hb as [_ ->].
    change (None = child (ram s) root (p mod 512) L). unfold child. by rewrite root_ent by apply mod512.
Qed.

Lemma s_not_huge q : not_huge (ram s) tbl q.
Proof. intros pd Hpd. unfold tbl in Hpd. by apply lookup_singleton_Some in Hpd as [[=] _]. Qed.
End VmmExample.

(** C9 vmm_map_page either fails, when no page is left for a table, and leaves
    every translation as it was, or makes the 4 KB page of [virt] translate to the frame of [phys], whatever it
    was mapped to before, and changes the translation of no other page; the
    tables stay a well-formed tree and no memory but tables and free frames is
    written.  It needs that no huge page covers [virt]. *)
Theorem vmm_map_page_correct (s : kst) (root : Z) (tbl : gmap (nat * Z) Z) (virt phys flags : Z) :
  tables_ok s root tbl -> mappable virt -> not_huge (ram s) tbl (vpage virt) ->
  0 <= phys < 2 ^ 64 -> 0 <= flags < 4096 -> Z.odd flags = true ->
  exists r s' tbl', vmm_map_page (PHYS_TO_VIRT root) virt phys flags s = Ret r s'
  /\ tables_ok s' root tbl' /\ keeps s tbl s' tbl' /\ same_globals s s'
  /\ (r = false -> fa_left s' = 0)
  /\ forall v, mappable v ->
       get_phys (ram s') (PHYS_TO_VIRT root) v
       = if r && (vpage v =? vpage virt) then phys - phys mod 4096 + v mod 4096
         else get_phys (ram s) (PHYS_TO_VIRT root) v.
Proof.
  intros Ht Hv Hnh Hphys Hflags Hodd.
  destruct (vmm_map_page_run s root tbl virt phys flags Ht Hv Hnh) as (r & s' & tbl' & E & [? ? ? Hp] & _ & _ & Hl).
  exists r, s', tbl'. do 5 (split; [done|]). intros v Hmv. rewrite Hp by done.
  destruct (r && _); [|done]. apply leaf4k_flags; try done. apply Hmv.
Qed.

Lemma vmm_map_page_correct_witness :
  exists r s' tbl', vmm_map_page (PHYS_TO_VIRT VmmExample.root) 0x400000 0x1234000 3 VmmExample.s = Ret r s'
  /\ tables_ok s' VmmExample.root tbl' /\ keeps VmmExample.s VmmExample.tbl s' tbl'
  /\ same_globals VmmExample.s s'
  /\ (r = false -> fa_left s' = 0)
  /\ forall v, mappable v ->
       get_phys (ram s') (PHYS_TO_VIRT VmmExample.root) v
       = if r && (vpage v =? vpage 0x400000) then 0x1234000 - 0x1234000 mod 4096 + v mod 4096
         else get_phys (ram VmmExample.s) (PHYS_TO_VIRT VmmExample.root) v.
Proof.
  apply (vmm_map_page_correct VmmExample.s VmmExample.root VmmExample.tbl).
  - apply VmmExample.s_tables.
  - split; [lia|discriminate].
  - apply VmmExample.s_not_huge.
  - lia.
  - lia.
  - reflexivity.
Defined.

(** vmm_map_huge_page either fails and leaves every translation as it was,
    or makes the 2 MB around [virt] translate to the 2 MB of [phys], replacing
    whatever the 512 pages were mapped to (a page table included), and changes
    the translation of nothing else. *)
Theorem vmm_map_huge_page_correct (s : kst) (root : Z) (tbl : gmap (nat * Z) Z) (virt phys flags : Z) :
  tables_ok s root tbl -> mappable virt ->
  0 <= phys < 2 ^ 64 -> 0 <= flags < 4096 -> Z.odd flags = true ->
  exists r s' tbl', vmm_map_huge_page (PHYS_TO_VIRT root) virt phys flags s = Ret r s'
  /\ tables_ok s' root tbl' /\ keeps s tbl s' tbl' /\ same_globals s s'
  /\ forall v, mappable v ->
       get_phys (ram s') (PHYS_TO_VIRT root) v
       = if r && (vpage v / 512 =? vpage virt / 512)
         then phys - phys mod HUGE_PAGE_SIZE + v mod HUGE_PAGE_SIZE
         else get_phys (ram s) (PHYS_TO_VIRT root) v.
Proof.
  intros Ht Hv Hphys Hflags Hodd.
  destruct (vmm_map_huge_page_run s root tbl virt phys flags Ht Hv) as (r & s' & tbl' & E & [? ? ? Hp] & _).
  exists r, s', tbl'. do 4 (split; [done|]). intros v Hmv. rewrite Hp by done.
  destruct (r && _); [|done]. apply leaf2m_flags; try done. apply Hmv.
Qed.

Lemma vmm_map_huge_page_correct_witness :
  exists r s' tbl', vmm_map_huge_page (PHYS_TO_VIRT VmmExample.root) 0x200000 0x600000 0x83 VmmExample.s
    = Ret r s'
  /\ tables_ok s' VmmExample.root tbl' /\ keeps VmmExample.s VmmExample.tbl s' tbl'
  /\ same_globals VmmExample.s s'
  /\ forall v, mappable v ->
       get_phys (ram s') (PHYS_TO_VIRT VmmExample.root) v
       = if r && (vpage v / 512 =? vpage 0x200000 / 512)
         then 0x600000 - 0x600000 mod HUGE_PAGE_SIZE + v mod HUGE_PAGE_SIZE
         else get_phys (ram VmmExample.s) (PHYS_TO_VIRT VmmExample.root) v.
Proof.
  apply (vmm_map_huge_page_correct VmmExample.s VmmExample.root VmmExample.tbl).
  - apply VmmExample.s_tables.
  - split; [lia|discriminate].
  - lia.
  - lia.
  - reflexivity.
Defined.

(** C11 vmm_unmap_page makes the page of [virt] translate to nothing (all 2 MB
    of it when a huge page covers it) and changes the translation of no other
    page, whether or not it was mapped. *)
Theorem vmm_unmap_page_correct (s : kst) (root : Z) (tbl : gmap (nat * Z) Z) (virt : Z) :
  tables_ok s root tbl -> mappable virt ->
  exists s' tbl', vmm_unmap_page (PHYS_TO_VIRT root) virt s = Ret tt s'
  /\ tables_ok s' root tbl' /\ keeps s tbl s' tbl' /\ same_globals s s'
  /\ forall v, mappable v ->
       get_phys (ram s') (PHYS_TO_VIRT root) v
       = if (if in_huge (ram s) tbl virt then vpage v / 512 =? vpage virt / 512
             else vpage v =? vpage virt)
         then 0 else get_phys (ram s) (PHYS_TO_VIRT root) v.
Proof.
  intros Ht Hv. destruct (vmm_unmap_page_run s root tbl virt Ht Hv) as (s' & tbl' & E & [] & _).
  by exists s', tbl'.
Qed.

Lemma vmm_unmap_page_correct_witness :
  exists s' tbl', vmm_unmap_page (PHYS_TO_VIRT VmmExample.root) 0x400000 VmmExample.s = Ret tt s'
  /\ tables_ok s' VmmExample.root tbl' /\ keeps VmmExample.s VmmExample.tbl s' tbl'
  /\ same_globals VmmExample.s s'
  /\ forall v, mappable v ->
       get_phys (ram s') (PHYS_TO_VIRT VmmExample.root) v
       = if (if in_huge (ram VmmExample.s) VmmExample.tbl 0x400000
             then vpage v / 512 =? vpage 0x400000 / 512 else vpage v =? vpage 0x400000)
         then 0 else get_phys (ram VmmExample.s) (PHYS_TO_VIRT VmmExample.root) v.
Proof.
  apply (vmm_unmap_page_correct VmmExample.s VmmExample.root VmmExample.tbl).
  - apply VmmExample.s_tables.
  - split; [lia|discriminate].
Defined.

(** C13 vmm_create_address_space returns 0 and changes nothing, or the physical
    address of a new PML4 whose upper half (PML4 entries 256 to 511 but the
    recursive one) translates as the kernel's, whose lower half is empty, and
    whose entry 510 is itself; the kernel's own tables translate as before. *)
Theorem vmm_create_address_space_correct (s : kst) (kroot : Z) (tbl : gmap (nat * Z) Z) :
  tables_ok s kroot tbl -> kernel_pml4 s = PHYS_TO_VIRT kroot ->
  exists r s', vmm_create_address_space s = Ret r s'
  /\ ((r = 0 /\ s' = s)
      \/ (forall b, r <= b < r + PAGE_SIZE -> fa_reserved s b)
         /\ tables_ok s' kroot tbl /\ same_rest s s'
         /\ entry (ram s') (PHYS_TO_VIRT r) RECURSIVE_INDEX = r .| 3
         /\ forall v, mappable v ->
              get_phys (ram s') (PHYS_TO_VIRT kroot) v = get_phys (ram s) (PHYS_TO_VIRT kroot) v
              /\ get_phys (ram s') (PHYS_TO_VIRT r) v
                 = if 256 <=? PML4_INDEX v then get_phys (ram s) (PHYS_TO_VIRT kroot) v else 0).
Proof.
  intros Ht Hk. destruct (fa_alloc s (to_frames _ _ _ Ht)) as (r & s1 & Er & Hok1 & Hrest & Hr).
  unfold vmm_create_address_space. rewrite (bind_ret _ _ _ _ _ Er).
  destruct Hr as [[-> ->]|(a & -> & Hf)]; [by exists 0, s; auto|].
  destruct (create_page s s1 0 a Hf ltac:(lia)) as (Ha & Hal & Ha2). unfold PAGE_SIZE in Ha2.
  pose proof (PHYS_TO_VIRT_nonnull a ltac:(lia)). test_false.
  exists a, (create_space_state s1 a). split.
  { msimpl. rewrite lin_PHYS_TO_VIRT, VIRT_TO_PHYS_TO_VIRT by lia.
    autorewrite with kos_state. reflexivity. }
  right. destruct (create_space_tables s s1 kroot tbl a Ht Hok1 Hrest Hf Hk) as (Ht' & Hg & Hw & Hent).
  split; [intros b Hb; apply (fr_was _ _ _ _ _ Hf); unfold PAGE_SIZE in *; lia|].
  split; [exact Ht'|]. split; [exact Hg|]. split.
  { rewrite entry_ent by (unfold RECURSIVE_INDEX, PAGE_SIZE; lia). exact Hent. }
  intros v Hv. assert (Ek : get_phys (ram (create_space_state s1 a)) (PHYS_TO_VIRT kroot) v
                            = get_phys (ram s) (PHYS_TO_VIRT kroot) v).
  { rewrite (get_phys_walk _ _ _ Ht' v Hv), (get_phys_walk s kroot tbl Ht v Hv). apply Hw. }
  split; [exact Ek|]. exact (create_space_phys s s1 kroot tbl a Ht Hok1 Hrest Hf Hk v Hv).
Qed.

Lemma vmm_create_address_space_correct_witness :
  exists r s', vmm_create_address_space VmmExample.s = Ret r s'
  /\ ((r = 0 /\ s' = VmmExample.s)
      \/ (forall b, r <= b < r + PAGE_SIZE -> fa_reserved VmmExample.s b)
         /\ tables_ok s' VmmExample.root VmmExample.tbl /\ same_rest VmmExample.s s'
         /\ entry (ram s') (PHYS_TO_VIRT r) RECURSIVE_INDEX = r .| 3
         /\ forall v, mappable v ->
              get_phys (ram s') (PHYS_TO_VIRT VmmExample.root) v
              = get_phys (ram VmmExample.s) (PHYS_TO_VIRT VmmExample.root) v
              /\ get_phys (ram s') (PHYS_TO_VIRT r) v
                 = if 256 <=? PML4_INDEX v
                   then get_phys (ram VmmExample.s) (PHYS_TO_VIRT VmmExample.root) v else 0).
Proof.
  apply (vmm_create_address_space_correct VmmExample.s VmmExample.root VmmExample.tbl).
  - apply VmmExample.s_tables.
  - reflexivity.
Defined.
