(* ===== verification/VmmPages.v ===== *)
(** vmm_map_pages: a range of pages, each backed by a frame of its own, mapped as
    a whole or rolled back. *)
From Stdlib Require Import ZifyBool.
From S2P Require Import Prelude Machine Globals Strings Pmm PmmFacts PmmProps Frames.
From S2P Require Import KmallocProps Vmm VmmFacts VmmRun VmmProps.

(** * Ranges of pages *)

(** [n] pages from [virt], none under the recursive entry, that do not pass the
    end of the 48-bit address space. *)
Definition page_range (virt n : Z) : Prop :=
  vpage virt + n <= 2 ^ 36 /\ forall i, 0 <= i < n -> mappable (virt + i * PAGE_SIZE).

Definition in_range (q n q' : Z) : bool := (q <=? q') && (q' <? q + n).

Lemma vpage_add v i :
  0 <= v -> 0 <= i -> vpage v + i < 2 ^ 36 -> vpage (v + i * PAGE_SIZE) = vpage v + i.
Proof.
  intros Hv Hi Hr. unfold vpage, PAGE_SIZE in *. change 4096 with (2 ^ 12).
  rewrite Z.div_add by lia. pose proof (Z.mod_pos_bound (v / 2 ^ 12) (2 ^ 36) ltac:(lia)).
  rewrite Z.add_mod, (Z.mod_small i) by lia. by rewrite Z.mod_small by lia.
Qed.

Lemma page_range_vpage virt n i :
  page_range virt n -> 0 <= i < n -> vpage (virt + i * PAGE_SIZE) = vpage virt + i.
Proof.
  intros [Hr Hm] Hi. destruct (Hm 0 ltac:(lia)) as [Hv _]. rewrite Z.mul_0_l, Z.add_0_r in Hv.
  apply vpage_add; lia.
Qed.

(** Addresses of the range do not wrap. *)
Lemma page_range_u64 virt n i :
  page_range virt n -> 0 <= i < n -> u64 (virt + i * PAGE_SIZE) = virt + i * PAGE_SIZE.
Proof. intros [_ Hm] Hi. apply u64_small. apply (Hm i Hi). Qed.

Lemma page_range_head virt n : page_range virt n -> 0 < n -> mappable virt.
Proof. intros [_ Hm] Hn. specialize (Hm 0 ltac:(lia)). by rewrite Z.mul_0_l, Z.add_0_r in Hm. Qed.

Lemma page_range_tail virt n :
  page_range virt n -> 1 < n ->
  page_range (virt + PAGE_SIZE) (n - 1) /\ vpage (virt + PAGE_SIZE) = vpage virt + 1.
Proof.
  intros Hr Hn. pose proof (page_range_vpage virt n 1 Hr ltac:(lia)) as Hq.
  rewrite Z.mul_1_l in Hq. split; [|done]. destruct Hr as [Hr Hm]. split; [lia|].
  intros i Hi. specialize (Hm (i + 1) ltac:(lia)).
  replace (virt + PAGE_SIZE + i * PAGE_SIZE) with (virt + (i + 1) * PAGE_SIZE) by lia. done.
Qed.

Lemma page_range_prefix virt n k : page_range virt n -> k <= n -> page_range virt k.
Proof. intros [Hr Hm] Hk. split; [lia|]. intros i Hi. apply Hm. lia. Qed.

(** * The pages that [fs] backs, one frame for each page from [q] *)
Definition backed (q : Z) (fs : list Z) (v : Z) : option Z :=
  if q <=? vpage v then fs !! Z.to_nat (vpage v - q) else None.

Lemma backed_nil q v : backed q [] v = None.
Proof. unfold backed. by destruct (q <=? vpage v). Qed.

Lemma backed_snoc q fs a v :
  backed q (fs ++ [a]) v
  = if vpage v =? q + Z.of_nat (length fs) then Some a else backed q fs v.
Proof.
  unfold backed. destruct (Z.eqb_spec (vpage v) (q + Z.of_nat (length fs))) as [E|Hne].
  - rewrite (proj2 (Z.leb_le _ _)) by lia. apply list_lookup_middle. lia.
  - destruct (Z.leb_spec q (vpage v)); [|done].
    destruct (decide (Z.to_nat (vpage v - q) < length fs)%nat).
    + by rewrite lookup_app_l.
    + rewrite !(proj2 (lookup_ge_None _ _)); rewrite ?length_app; simpl; done || lia.
Qed.

Lemma backed_range q fs v :
  is_Some (backed q fs v) <-> in_range q (Z.of_nat (length fs)) (vpage v) = true.
Proof.
  unfold backed, in_range. destruct (Z.leb_spec q (vpage v)); cbn [andb].
  - rewrite lookup_lt_is_Some, Z.ltb_lt. lia.
  - split; [by intros [? [=]]|done].
Qed.

Lemma backed_none q fs v :
  in_range q (Z.of_nat (length fs)) (vpage v) = false -> backed q fs v = None.
Proof. intros H. apply eq_None_not_Some. rewrite backed_range. by rewrite H. Qed.

Section pages.
Context {FA : FrameAllocator pmm_alloc_page pmm_alloc_pages}.

(** ** Allocating a frame for a client keeps the tree *)
Section client_frame.
Context (s s1 : kst) (root : Z) (tbl : gmap (nat * Z) Z) (a : Z).
Context (Ht : tables_ok s root tbl) (Hok : fa_ok s1) (Hrest : same_rest s s1).
Context (Hf : fresh fa_reserved s s1 a 1).

Lemma client_ent k c j : tbl !! k = Some c -> 0 <= j < 512 -> ent (ram s1) c j = ent (ram s) c j.
Proof.
  intros Hc Hj. destruct (to_page _ _ _ Ht _ _ Hc) as (_&_&_&Hr).
  apply ent_ext; [|done]. intros x Hx. by apply (fr_other _ _ _ _ _ Hf), Hr.
Qed.

Lemma client_tables :
  tables_ok s1 root tbl /\ (forall v, walk (ram s1) tbl v = walk (ram s) tbl v).
Proof.
  apply tables_ok_frame; [done|done|..].
  - intros x Hx. by apply (fr_other _ _ _ _ _ Hf).
  - intros k c x Hc Hx. destruct (to_page _ _ _ Ht _ _ Hc) as (_&_&_&Hr).
    by apply (fr_other _ _ _ _ _ Hf), Hr.
Qed.

Lemma client_grows : grows s tbl s1 tbl.
Proof.
  split; [intros v _; apply client_tables| |by apply same_rest_globals|done].
  intros x Hx. destruct (fr_other _ _ _ _ _ Hf x) as [Hr E]; [intros ?; apply Hx; by left|].
  split; [|done]. intros [?|?]; [done|]. apply Hx. by right.
Qed.

Lemma client_not_huge q : not_huge (ram s) tbl q -> not_huge (ram s1) tbl q.
Proof. intros Hq pd Hpd. rewrite (client_ent _ _ _ Hpd) by apply mod512. by apply Hq. Qed.

(** The frame is no table and no longer the allocator's. *)
Lemma client_unused b : a <= b < a + PAGE_SIZE -> ~ pt_used s1 tbl b /\ load8 (ram s1) b = 0.
Proof.
  intros Hb. destruct (fr_now _ _ _ _ _ Hf b ltac:(lia)) as [Hr Hz]. split; [|done].
  intros [?|(k & c & Hc & Hx)]; [done|]. destruct (to_page _ _ _ Ht _ _ Hc) as (_&_&_&Hn).
  apply (Hn b Hx), (fr_was _ _ _ _ _ Hf). lia.
Qed.
End client_frame.

(** ** The rollback *)
Lemma not_huge_in_huge s tbl virt : not_huge (ram s) tbl (vpage virt) -> in_huge (ram s) tbl virt = false.
Proof.
  intros H. unfold in_huge. destruct (tbl !! (0%nat, _)); [done|].
  destruct (tbl !! (1%nat, _)) eqn:E; [|done]. by apply H.
Qed.

Lemma remaps_trans s1 s2 s3 root t1 t2 t3 sel sel' sel2 f :
  remaps s1 s2 root t1 t2 sel f -> remaps s2 s3 root t2 t3 sel' f ->
  (forall v, sel2 v = sel' v || sel v) -> remaps s1 s3 root t1 t3 sel2 f.
Proof.
  intros [_ K1 G1 P1] [T2 K2 G2 P2] Hsel. split; [done|by eapply keeps_trans|by etransitivity|].
  intros v Hv. rewrite P2, P1, Hsel by done. by destruct (sel' v), (sel v).
Qed.


Definition range_not_huge (s : kst) (tbl : gmap (nat * Z) Z) (q n : Z) : Prop :=
  forall i, 0 <= i < n -> not_huge (ram s) tbl (q + i).

Lemma unmap_pages_run n s root tbl virt :
  tables_ok s root tbl -> page_range virt (Z.of_nat n) -> range_not_huge s tbl (vpage virt) (Z.of_nat n) ->
  exists s' tbl', unmap_pages n (PHYS_TO_VIRT root) virt s = Ret tt s'
  /\ remaps s s' root tbl tbl' (fun v => in_range (vpage virt) (Z.of_nat n) (vpage v)) (fun _ => 0)
  /\ pmm s' = pmm s /\ tbl' = tbl.
Proof.
  revert s tbl virt. induction n as [|n IH]; intros s tbl virt Ht Hr Hnh.
  { exists s, tbl. split; [done|]. split; [|done]. split; [done|apply keeps_refl|done|]. intros v _.
    unfold in_range. by replace (_ && _) with false by lia. }
  cbn [unmap_pages].
  assert (Hv : mappable virt) by (apply (page_range_head _ _ Hr); lia).
  assert (Hin : in_huge (ram s) tbl virt = false).
  { apply not_huge_in_huge. replace (vpage virt) with (vpage virt + 0) by lia. apply Hnh. lia. }
  destruct (vmm_unmap_page_run s root tbl virt Ht Hv) as (s1 & tbl1 & E1 & Hm1 & Hn1).
  rewrite Hin in Hm1. destruct (Hn1 Hin) as (Hp1 & -> & Hn2). rewrite (bind_ret _ _ _ _ _ E1).
  destruct n as [|n].
  { exists s1, tbl. split; [done|]. split; [|done]. destruct Hm1 as [? ? ? Hp]. split; [done..|]. intros v Hmv.
    rewrite Hp by done. unfold in_range. by replace (_ && _) with (vpage v =? vpage virt) by lia. }
  destruct (page_range_tail _ _ Hr ltac:(lia)) as [Hr' Hq].
  pose proof (page_range_u64 _ _ 1 Hr ltac:(lia)) as Hu. rewrite Z.mul_1_l in Hu. rewrite Hu.
  replace (Z.of_nat (S (S n)) - 1) with (Z.of_nat (S n)) in Hr' by lia.
  destruct (IH s1 tbl _ (rm_tables _ _ _ _ _ _ _ Hm1) Hr') as (s2 & tbl2 & E2 & Hm2 & Hp2 & ->).
  { intros i Hi. rewrite Hq. apply Hn2. rewrite <- Z.add_assoc. apply Hnh. lia. }
  exists s2, tbl. split; [done|]. split; [|split; [by rewrite Hp2|done]]. rewrite Hq in Hm2.
  eapply remaps_trans; [exact Hm1|exact Hm2|]. intros v. unfold in_range. lia.
Qed.

(** ** What vmm_map_pages has done after [length fs] pages *)

(** The frame at [a] is zero and belongs to neither the tables nor the
    allocator, and no byte of it was the client's. *)
Record own_frame (s0 : kst) (tbl0 : gmap (nat * Z) Z) (s : kst) (tbl : gmap (nat * Z) Z) (a : Z) : Prop := {
  of_range : 0 <= a /\ a mod PAGE_SIZE = 0 /\ a + PAGE_SIZE <= 2 ^ 47;
  of_zero : forall b, a <= b < a + PAGE_SIZE -> ~ pt_used s tbl b /\ load8 (ram s) b = 0;
  of_new : forall b, ~ pt_used s0 tbl0 b -> ~ a <= b < a + PAGE_SIZE;
}.

Lemma own_frame_keeps s0 tbl0 s tbl s' tbl' a :
  own_frame s0 tbl0 s tbl a -> keeps s tbl s' tbl' -> own_frame s0 tbl0 s' tbl' a.
Proof.
  intros [H1 H2 H3] Hk. split; [done| |done]. intros b Hb. destruct (H2 b Hb) as [Hu Hz].
  destruct (Hk b Hu) as [? E]. split; [done|]. by rewrite E.
Qed.

(** Only the tables differ, and the pages from [q] are backed by [fs]. *)
Record mapped (s0 : kst) (root : Z) (tbl0 : gmap (nat * Z) Z) (q : Z) (fs : list Z)
    (s : kst) (tbl : gmap (nat * Z) Z) : Prop := {
  mp_tables : tables_ok s root tbl;
  mp_keeps : keeps s0 tbl0 s tbl;
  mp_globals : same_globals s0 s;
  mp_frames : Forall (own_frame s0 tbl0 s tbl) fs;
  mp_distinct : NoDup fs;
  mp_phys : forall v, mappable v ->
    get_phys (ram s) (PHYS_TO_VIRT root) v
    = match backed q fs v with
      | Some a => a + v mod 4096
      | None => get_phys (ram s0) (PHYS_TO_VIRT root) v
      end;
}.

Lemma mapped_nil s root tbl q : tables_ok s root tbl -> mapped s root tbl q [] s tbl.
Proof.
  intros Ht. split; [done|apply keeps_refl|done|constructor|constructor|].
  intros v _. by rewrite backed_nil.
Qed.

(** The frame of the next page. *)
Lemma mapped_alloc s0 root tbl0 q fs s tbl s1 a :
  mapped s0 root tbl0 q fs s tbl -> fa_ok s1 -> same_rest s s1 -> fresh fa_reserved s s1 a 1 ->
  mapped s0 root tbl0 q fs s1 tbl /\ own_frame s0 tbl0 s1 tbl a /\ a ∉ fs.
Proof.
  intros [Ht Hk Hg Hfs Hd Hp] Hok Hrest Hf. pose proof (client_grows s s1 root tbl a Ht Hok Hrest Hf) as Hgr.
  destruct (client_tables s s1 root tbl a Ht Hok Hf) as [Ht1 Hw].
  pose proof (gr_keeps _ _ _ _ Hgr) as Hk1.
  assert (Hnew : forall b, ~ pt_used s tbl b -> ~ a <= b < a + PAGE_SIZE).
  { intros b Hb Hin. apply Hb. left. apply (fr_was _ _ _ _ _ Hf). lia. }
  destruct (create_page s s1 0 a Hf ltac:(lia)) as (?&?&?). split; [split|split].
  - done.
  - by eapply keeps_trans.
  - etransitivity; [exact Hg|apply Hgr].
  - eapply Forall_impl; [exact Hfs|]. intros c Hc. by eapply own_frame_keeps.
  - done.
  - intros v Hv. rewrite (get_phys_walk s1 root tbl Ht1 v Hv), Hw, <- (get_phys_walk s root tbl Ht v Hv).
    by apply Hp.
  - split; [done|intros b; by apply (client_unused s s1 root tbl a)|].
    intros b Hb. apply Hnew. by apply Hk.
  - intros Hin. rewrite Forall_forall in Hfs. destruct (Hfs a Hin) as [_ Hz _].
    destruct (Hz a ltac:(unfold PAGE_SIZE; lia)) as [Hu _]. apply (Hnew a Hu). unfold PAGE_SIZE. lia.
Qed.

(** The attempt to map it. *)
Lemma mapped_map s0 root tbl0 q fs s tbl a (ok : bool) s' tbl' virt flags :
  mapped s0 root tbl0 q fs s tbl -> own_frame s0 tbl0 s tbl a -> a ∉ fs ->
  vpage virt = q + Z.of_nat (length fs) -> 0 <= flags < 4096 -> Z.odd flags = true ->
  remaps s s' root tbl tbl' (fun v => ok && (vpage v =? vpage virt))
    (leaf4k (u64 ((a .& PAGE_MASK) .| flags))) ->
  mapped s0 root tbl0 q (if ok then fs ++ [a] else fs) s' tbl'.
Proof.
  intros [Ht Hk Hg Hfs Hd Hp] Ha Hnin Hq Hfl Hodd [Ht' Hk' Hg' Hp'].
  assert (Hfs' : Forall (own_frame s0 tbl0 s' tbl') fs).
  { eapply Forall_impl; [exact Hfs|]. intros c Hc. by eapply own_frame_keeps. }
  destruct (of_range _ _ _ _ _ Ha) as (Ha0 & Hal & Ha2). unfold PAGE_SIZE in Hal, Ha2.
  split; [done|by eapply keeps_trans|by etransitivity| | |].
  - destruct ok; [|done]. apply Forall_app. split; [done|]. constructor; [|done]. by eapply own_frame_keeps.
  - destruct ok; [|done]. apply NoDup_app. split; [done|]. split; [|apply NoDup_singleton].
    intros c Hc ->%list_elem_of_singleton. done.
  - intros v Hv. rewrite Hp', Hp by done. destruct ok; cbn [andb]; [|done]. rewrite backed_snoc, <- Hq.
    destruct (vpage v =? vpage virt); [|done].
    rewrite leaf4k_flags by (done || apply Hv || lia). lia.
Qed.

(** Memory ran out before a frame: everything is unmapped again. *)
Lemma mapped_rollback s0 root tbl0 virt n fs s tbl :
  mapped s0 root tbl0 (vpage virt) fs s tbl -> page_range virt n -> Z.of_nat (length fs) <= n ->
  range_not_huge s tbl (vpage virt) n ->
  exists s' tbl', unmap_pages (length fs) (PHYS_TO_VIRT root) virt s = Ret tt s'
  /\ remaps s0 s' root tbl0 tbl' (fun v => in_range (vpage virt) (Z.of_nat (length fs)) (vpage v)) (fun _ => 0)
  /\ pmm s' = pmm s /\ tbl' = tbl.
Proof.
  intros [Ht Hk Hg _ _ Hp] Hr Hn Hnh.
  destruct (unmap_pages_run (length fs) s root tbl virt Ht) as (s' & tbl' & E & [Ht' Hk' Hg' Hp'] & Hpm & ->).
  { by eapply page_range_prefix. }
  { intros i Hi. apply Hnh. lia. }
  exists s', tbl. split; [done|]. split; [|done]. split; [done|by eapply keeps_trans|by etransitivity|].
  intros v Hv. rewrite Hp', Hp by done. destruct (in_range _ _ _) eqn:Hin; [done|].
  by rewrite (backed_none _ _ _ Hin).
Qed.

(** How vmm_map_pages ends, by the pages it took: one for each page of the range
    it got to, and one for each new table.  All pages are backed; or no page was
    left to back the next one, and those before it translate to nothing; or the
    page to back the next one was taken, no page was left for a table on the way
    to it, and those before it stay. *)
Definition map_pages_outcome (s0 : kst) (root : Z) (tbl0 : gmap (nat * Z) Z) (q count : Z)
    (r : bool) (s' : kst) (tbl' : gmap (nat * Z) Z) : Prop :=
  if r then account s0 tbl0 = account s' tbl' + count
    /\ exists fs, Z.of_nat (length fs) = count /\ mapped s0 root tbl0 q fs s' tbl'
  else fa_left s' = 0 /\ exists n, 0 <= n < count
    /\ (account s0 tbl0 = account s' tbl' + n
         /\ remaps s0 s' root tbl0 tbl' (fun v => in_range q n (vpage v)) (fun _ => 0)
        \/ account s0 tbl0 = account s' tbl' + n + 1
         /\ exists fs, Z.of_nat (length fs) = n /\ mapped s0 root tbl0 q fs s' tbl').

Lemma map_pages_loop_run s0 root tbl0 virt count flags :
  page_range virt count -> 0 <= flags < 4096 -> Z.odd flags = true ->
  forall n fs s tbl, Z.of_nat (length fs) + Z.of_nat n = count ->
  mapped s0 root tbl0 (vpage virt) fs s tbl -> range_not_huge s tbl (vpage virt) count ->
  account s0 tbl0 = account s tbl + Z.of_nat (length fs) ->
  exists r s' tbl', map_pages_loop n (PHYS_TO_VIRT root) virt flags (Z.of_nat (length fs)) s = Ret r s'
  /\ map_pages_outcome s0 root tbl0 (vpage virt) count r s' tbl'.
Proof.
  intros Hr Hfl Hodd n. induction n as [|n IH]; intros fs s tbl Hlen Hm Hnh Hacc.
  { exists true, s, tbl. split; [done|]. split; [lia|]. exists fs. split; [lia|done]. }
  cbn [map_pages_loop]. pose proof (mp_tables _ _ _ _ _ _ _ Hm) as Ht.
  destruct (fa_alloc s (to_frames _ _ _ Ht)) as (p & s1 & E & Hok & Hrest & Hp).
  rewrite (bind_ret _ _ _ _ _ E).
  destruct (fa_left_alloc s p s1 (to_frames _ _ _ Ht) E) as [[-> Hl]|(Hnn & _ & Hl)].
  { destruct Hp as [[_ ->]|(a & E0 & Hf)]; [|by destruct (fresh_nonnull _ _ _ _ Hf)].
    destruct (mapped_rollback _ _ _ _ _ _ _ _ Hm Hr ltac:(lia) Hnh) as (s' & tbl' & E' & Hre & Hpm & ->).
    rewrite Nat2Z.id. rewrite Z.eqb_refl, (bind_ret _ _ _ _ _ E'). exists false, s', tbl. split; [done|].
    pose proof (fa_left_same _ _ Hpm) as Hl'. split; [by rewrite Hl'|].
    exists (Z.of_nat (length fs)). split; [lia|left]. split; [unfold account in *; by rewrite Hl'|done]. }
  destruct Hp as [[-> _]|(a & -> & Hf)]; [done|].
  destruct (create_page s s1 0 a Hf ltac:(lia)) as (Ha & Hal & Ha2). unfold PAGE_SIZE in Ha2.
  test_false. rewrite VIRT_TO_PHYS_TO_VIRT by lia.
  destruct (mapped_alloc _ _ _ _ _ _ _ _ _ Hm Hok Hrest Hf) as (Hm1 & Hown & Hnin).
  assert (Hi : 0 <= Z.of_nat (length fs) < count) by lia.
  rewrite (page_range_u64 _ _ _ Hr Hi). pose proof (page_range_vpage _ _ _ Hr Hi) as Hq.
  assert (Hnh1 : range_not_huge s1 tbl (vpage virt) count).
  { intros i Hii. eapply client_not_huge; [exact Ht|exact Hf|by apply Hnh]. }
  destruct (vmm_map_page_run s1 root tbl (virt + Z.of_nat (length fs) * PAGE_SIZE) a flags
    (mp_tables _ _ _ _ _ _ _ Hm1) (proj2 Hr _ Hi)) as (ok & s2 & tbl2 & E2 & Hre & Hn2 & [Hac2 _] & Hl2).
  { rewrite Hq. by apply Hnh1. }
  rewrite (bind_ret _ _ _ _ _ E2). assert (Hacc2 : account s0 tbl0 = account s2 tbl2 + Z.of_nat (length fs) + 1).
  { rewrite Hac2. unfold account in *. lia. }
  pose proof (mapped_map _ _ _ _ _ _ _ _ ok _ _ _ _ Hm1 Hown Hnin Hq Hfl Hodd Hre) as Hm2.
  destruct ok; cbn [negb].
  2: { exists false, s2, tbl2. split; [done|]. split; [by apply Hl2|]. exists (Z.of_nat (length fs)). eauto 6. }
  replace (Z.of_nat (length fs) + 1) with (Z.of_nat (length (fs ++ [a]))) by (rewrite length_app; simpl; lia).
  apply (IH _ s2 tbl2); [rewrite length_app; simpl; lia|done| |rewrite length_app; simpl; lia].
  intros i Hii. by apply Hn2, Hnh1.
Qed.
End pages.

(** * The property *)

(** C16 vmm_map_pages over any range that no huge page covers.  When it returns
    true, every page of the range translates to a zeroed frame of its own, which
    belongs to no table and was nobody's before.  It returns false only when the
    allocator has run out of pages.  If that was for the frame of the next page,
    the pages mapped before are unmapped again; if that frame was taken and a
    table for it was missing, they stay mapped.  Which of the two it was is told
    by the count of the pages taken: those mapped, the new tables and, in the
    second case, the frame that is lost.  In every case the translations outside
    the range, the memory of the callers and the other globals are as before. *)
Theorem vmm_map_pages_correct {FA : FrameAllocator pmm_alloc_page pmm_alloc_pages}
    (s : kst) (root : Z) (tbl : gmap (nat * Z) Z) (virt count flags : Z) :
  tables_ok s root tbl -> 0 <= count -> page_range virt count ->
  range_not_huge s tbl (vpage virt) count -> 0 <= flags < 4096 -> Z.odd flags = true ->
  exists r s' tbl', vmm_map_pages (PHYS_TO_VIRT root) virt count flags s = Ret r s'
  /\ map_pages_outcome s root tbl (vpage virt) count r s' tbl'.
Proof.
  intros Ht Hc Hr Hnh Hfl Hodd.
  apply (map_pages_loop_run s root tbl virt count flags Hr Hfl Hodd (Z.to_nat count) [] s tbl);
    [simpl; lia|by apply mapped_nil|done|simpl; lia].
Qed.

Lemma vmm_map_pages_correct_witness :
  exists r s' tbl', vmm_map_pages (PHYS_TO_VIRT VmmExample.root) 0x400000 3 3 VmmExample.s = Ret r s'
  /\ map_pages_outcome VmmExample.s VmmExample.root VmmExample.tbl (vpage 0x400000) 3 r s' tbl'.
Proof.
  apply (vmm_map_pages_correct (FA := pmm_frame_allocator)).
  - apply VmmExample.s_tables.
  - lia.
  - split; [by vm_compute|]. intros i Hi. unfold PAGE_SIZE.
    assert (i = 0 \/ i = 1 \/ i = 2) as [->|[->| ->]] by lia; (split; [lia|discriminate]).
  - intros i _. apply VmmExample.s_not_huge.
  - lia.
  - reflexivity.
Defined.

(** Both outcomes occur.  The example has 14 free frames and three tables to
    make, so eleven pages can be mapped and twelve cannot. *)
Definition ends_in (o : outcome bool) (r : bool) (v phys : Z) : Prop :=
  match o with
  | Ret r' s' => r' = r /\ get_phys (ram s') (PHYS_TO_VIRT VmmExample.root) v = phys
  | _ => False
  end.

Example map_eleven_pages :
  ends_in (vmm_map_pages (PHYS_TO_VIRT VmmExample.root) 0x400000 11 3 VmmExample.s) true 0x40A123 0x1007123.
Proof. by vm_compute. Qed.

(** The rollback unmaps the eleven pages and keeps their frames: no allocation
    succeeds afterwards. *)
Example map_twelve_pages_leaks :
  ends_in (vmm_map_pages (PHYS_TO_VIRT VmmExample.root) 0x400000 12 3 VmmExample.s) false 0x400123 0
  /\ match vmm_map_pages (PHYS_TO_VIRT VmmExample.root) 0x400000 12 3 VmmExample.s with
     | Ret _ s' => match pmm_alloc_page s' with Ret page _ => page = 0 | _ => False end
     | _ => False
     end.
Proof. split; by vm_compute. Qed.
