(* ===== verification/VmmInit.v ===== *)
(** vmm_init: the kernel's first address space.

    What its loops intend is a function of the address, [init_phys].  The results
    of the mapping functions are ignored, so when the pages run out parts of it
    are missing: then an address has its intended translation or none. *)
From Stdlib Require Import ZifyBool.
From S2P Require Import Prelude Machine Globals Strings Pmm PmmFacts PmmProps Frames.
From S2P Require Import KmallocProps Vmm VmmFacts VmmRun VmmProps.

(** The identity map of the 2 MB pages [lo, hi). *)
Definition identity_at (lo hi v : Z) : bool := (lo <=? vpage v / 512) && (vpage v / 512 <? hi).
(** The kernel's half: the pages [lo, hi) from KERNEL_TEXT_START. *)
Definition kernel_at (lo hi v : Z) : bool := (lo <=? vpage v - 2 ^ 35) && (vpage v - 2 ^ 35 <? hi).
(** The text screen. *)
Definition VGA_VIRT : Z := 0xFFFFFFFF800B8000.
Definition vga_at (v : Z) : bool := vpage v =? vpage VGA_VIRT.

(** The translation vmm_init intends, for a kernel of [n] pages: the first 1 GB at
    its own address, the kernel's half at 1 MB, the screen; nothing else. *)
Definition init_phys (n v : Z) : Z :=
  if identity_at 0 512 v then v mod 2 ^ 48
  else if kernel_at 0 n v then v mod 2 ^ 48 - 2 ^ 47 + 0x100000
  else if vga_at v then 0xB8000 + v mod 4096
  else 0.

Lemma kernel_pages_range kernel_end :
  0x100000 <= VIRT_TO_PHYS kernel_end <= 2 ^ 38 -> 0 <= kernel_pages kernel_end <= 2 ^ 26.
Proof.
  intros. unfold kernel_pages, PAGE_SIZE. rewrite u64_small by lia. Z.div_mod_to_equations. lia.
Qed.

(** The linker script puts _kernel_end at KERNEL_HIGHER_HALF plus the size of the
    kernel, not plus its load address too: for a kernel of less than 1 MB the
    subtraction wraps and the loop is to map 2^52 pages. *)
Lemma kernel_pages_wraps kernel_end :
  0 <= VIRT_TO_PHYS kernel_end < 0x100000 -> 2 ^ 52 - 2 ^ 8 <= kernel_pages kernel_end.
Proof.
  intros. unfold kernel_pages, PAGE_SIZE, u64.
  replace (VIRT_TO_PHYS kernel_end - 0x100000) with (VIRT_TO_PHYS kernel_end - 0x100000 + 2 ^ 64 + (-1) * 2 ^ 64) by lia.
  rewrite Z.mod_add by lia. rewrite Z.mod_small by lia. Z.div_mod_to_equations. lia.
Qed.

Lemma vpage_split v : 0 <= v -> v mod 2 ^ 48 = vpage v * 4096 + v mod 4096.
Proof. intros. unfold vpage. Z.div_mod_to_equations. lia. Qed.

Section init.
Context {FA : FrameAllocator pmm_alloc_page pmm_alloc_pages}.

(** Each address keeps its translation or, if it is selected, gets the one of [f];
    while pages are left every selected address has it; at most [k] pages are
    taken. *)
Record covers (sel : Z -> bool) (f : Z -> Z) (k : Z) (s s' : kst) (root : Z) (tbl tbl' : gmap (nat * Z) Z) : Prop := {
  cv_tables : tables_ok s' root tbl';
  cv_keeps : keeps s tbl s' tbl';
  cv_globals : same_globals s s';
  cv_phys : forall v, mappable v ->
    get_phys (ram s') (PHYS_TO_VIRT root) v = get_phys (ram s) (PHYS_TO_VIRT root) v
    \/ sel v = true /\ get_phys (ram s') (PHYS_TO_VIRT root) v = f v;
  cv_all : 0 < fa_left s' -> forall v, mappable v -> sel v = true ->
    get_phys (ram s') (PHYS_TO_VIRT root) v = f v;
  cv_left : fa_left s - k <= fa_left s' <= fa_left s;
}.

Lemma covers_none f s root tbl : tables_ok s root tbl -> covers (fun _ => false) f 0 s s root tbl tbl.
Proof. intros. split; [done|apply keeps_refl|done|auto|done|lia]. Qed.

Lemma covers_ext sel sel' f k s s' root tbl tbl' :
  covers sel f k s s' root tbl tbl' -> (forall v, sel' v = sel v) -> covers sel' f k s s' root tbl tbl'.
Proof.
  intros [T K G P A L] Hsel. split; [done..| | |done].
  - intros v. rewrite Hsel. apply P.
  - intros Hl v Hv. rewrite Hsel. by apply A.
Qed.

Lemma covers_trans sel1 sel2 sel f k1 k2 k s1 s2 s3 root t1 t2 t3 :
  covers sel1 f k1 s1 s2 root t1 t2 -> covers sel2 f k2 s2 s3 root t2 t3 ->
  (forall v, sel v = sel1 v || sel2 v) -> k1 + k2 <= k -> covers sel f k s1 s3 root t1 t3.
Proof.
  intros [_ K1 G1 P1 A1 L1] [T2 K2 G2 P2 A2 L2] Hsel Hk.
  split; [done|by eapply keeps_trans|by etransitivity|..|lia].
  - intros v Hv. rewrite Hsel. destruct (P2 v Hv) as [->|[-> ?]]; [|right; by rewrite orb_true_r].
    destruct (P1 v Hv) as [->|[-> ?]]; [by left|by right].
  - intros Hl v Hv. rewrite Hsel. intros [H1|H2]%orb_prop; [|by apply A2].
    destruct (P2 v Hv) as [->|[_ ?]]; [|done]. apply A1; [lia|done..].
Qed.

Lemma remaps_covers (sel : Z -> bool) f g k (r : bool) s s' root tbl tbl' :
  remaps s s' root tbl tbl' (fun v => r && sel v) g -> (forall v, mappable v -> sel v = true -> g v = f v) ->
  fa_left s - k <= fa_left s' <= fa_left s -> (r = false -> fa_left s' = 0) ->
  covers sel f k s s' root tbl tbl'.
Proof.
  intros [T K G P] HR Hl Hr. split; [done..| | |done].
  - intros v Hv. rewrite P by done. destruct r, (sel v) eqn:E; cbn [andb]; auto.
  - intros Hpos v Hv Hsel. rewrite P, Hsel by done. destruct r; [by apply HR|]. specialize (Hr eq_refl). lia.
Qed.

Lemma covers_pml4 sel f k s s' root tbl tbl' :
  covers sel f k s s' root tbl tbl' -> kernel_pml4 s' = kernel_pml4 s.
Proof. intros [_ _ <- _ _ _]. by destruct s'. Qed.

(** An untranslated page is under no huge page. *)
Lemma not_huge_untranslated s root tbl v :
  tables_ok s root tbl -> mappable v -> Z.odd v = true ->
  get_phys (ram s) (PHYS_TO_VIRT root) v = 0 -> not_huge (ram s) tbl (vpage v).
Proof.
  intros Ht Hv Hodd Hz pd Hpd. rewrite (get_phys_walk s root tbl Ht v Hv) in Hz.
  destruct (mappable_keys v Hv) as (K0 & _).
  set (e := ent _ _ _). destruct (present e && huge e) eqn:He; [|done].
  pose proof (tbl_step s root tbl Ht 0 _ pd ltac:(lia) K0 Hpd) as Hc. unfold child in Hc.
  fold e in Hc. apply andb_true_iff in He as [He1 He2]. rewrite He1, He2 in Hc. cbn [Nat.eqb andb negb] in Hc.
  unfold walk, leaf2m in Hz. rewrite Hc, Hpd in Hz. fold e in Hz. rewrite He1, He2 in Hz. cbn [andb] in Hz.
  apply Z.lor_eq_0_iff in Hz as [_ Hz]. change (HUGE_PAGE_SIZE - 1) with (2 ^ 21 - 1) in Hz.
  rewrite land_low in Hz by lia. rewrite <- Z.bit0_odd in Hodd.
  rewrite <- (Z.mod_pow2_bits_low v 21 0), Hz, Z.bits_0 in Hodd by lia. done.
Qed.

Lemma mappable_low a : 0 <= a < 2 ^ 47 -> mappable a.
Proof.
  intros Ha. split; [lia|]. rewrite PML4_INDEX_val by lia. unfold vpage, RECURSIVE_INDEX.
  Z.div_mod_to_equations. lia.
Qed.

(** ** The identity map *)
Lemma init_identity_run N n s root tbl k :
  tables_ok s root tbl -> kernel_pml4 s = PHYS_TO_VIRT root -> 0 <= k -> k + Z.of_nat n <= 512 ->
  exists s' tbl', init_identity n (k * HUGE_PAGE_SIZE) s = Ret tt s'
  /\ covers (identity_at k (k + Z.of_nat n)) (init_phys N) (2 * Z.of_nat n) s s' root tbl tbl'.
Proof.
  revert s tbl k. induction n as [|n IH]; intros s tbl k Ht Hk H0 Hn.
  { exists s, tbl. split; [done|]. eapply covers_ext; [by apply covers_none|].
    intros v. unfold identity_at. lia. }
  set (addr := k * HUGE_PAGE_SIZE). assert (Ha : addr = k * 2 ^ 21) by done.
  destruct (vmm_map_huge_page_run s root tbl addr addr (PT_PRESENT .| PT_WRITABLE .| PT_HUGE) Ht)
    as (r & s1 & tbl1 & E & Hre & Hl & Hr); [apply mappable_low; lia|].
  assert (Hq : vpage addr / 512 = k) by (rewrite Ha; unfold vpage; Z.div_mod_to_equations; lia).
  assert (Hm1 : covers (fun v => vpage v / 512 =? vpage addr / 512) (init_phys N) 2 s s1 root tbl tbl1).
  { eapply remaps_covers; [exact Hre| |done..]. intros v [Hv _] Hsel%Z.eqb_eq.
    rewrite leaf2m_flags by (done || lia). unfold HUGE_PAGE_SIZE. change (2 * 1024 * 1024) with (2 ^ 21).
    unfold init_phys. replace (identity_at 0 512 v) with true by (unfold identity_at; lia).
    rewrite Hq in Hsel. unfold vpage in Hsel. rewrite Ha. Z.div_mod_to_equations; lia. }
  destruct (IH s1 tbl1 (k + 1)) as (s2 & tbl2 & E2 & Hm2); [apply Hm1| |lia|lia|].
  { by rewrite (covers_pml4 _ _ _ _ _ _ _ _ Hm1). }
  exists s2, tbl2. split.
  { cbn [init_identity]. rewrite bind_gets, Hk, (bind_ret _ _ _ _ _ E).
    replace (addr + HUGE_PAGE_SIZE) with ((k + 1) * HUGE_PAGE_SIZE) by (unfold addr; lia). exact E2. }
  eapply covers_trans; [exact Hm1|exact Hm2| |lia]. intros v. rewrite Hq. unfold identity_at. lia.
Qed.

(** ** The kernel's half *)
Lemma vpage_kernel p : 0 <= p < 2 ^ 47 -> vpage (PHYS_TO_VIRT p) = 2 ^ 35 + p / 4096.
Proof.
  intros. rewrite PHYS_TO_VIRT_val by lia. unfold vpage, KERNEL_HIGHER_HALF. Z.div_mod_to_equations. lia.
Qed.

Lemma mappable_kernel p : 0 <= p < 2 ^ 38 -> mappable (PHYS_TO_VIRT p).
Proof.
  intros. split; [apply u64_range|]. rewrite PML4_INDEX_val by apply u64_range.
  rewrite vpage_kernel by lia. unfold RECURSIVE_INDEX. Z.div_mod_to_equations. lia.
Qed.

Lemma init_kernel_half_run N n s root tbl k :
  tables_ok s root tbl -> kernel_pml4 s = PHYS_TO_VIRT root -> 0 <= k -> k + Z.of_nat n <= N -> N <= 2 ^ 26 ->
  (forall j, 0 <= j < 2 ^ 26 -> not_huge (ram s) tbl (2 ^ 35 + j)) ->
  exists s' tbl', init_kernel_half n (k * PAGE_SIZE) s = Ret tt s'
  /\ covers (kernel_at k (k + Z.of_nat n)) (init_phys N) (3 * Z.of_nat n) s s' root tbl tbl'
  /\ (forall q, not_huge (ram s) tbl q -> not_huge (ram s') tbl' q).
Proof.
  revert s tbl k. induction n as [|n IH]; intros s tbl k Ht Hk H0 Hn HN Hnh.
  { exists s, tbl. split; [done|]. split; [|done]. eapply covers_ext; [by apply covers_none|].
    intros v. unfold kernel_at. lia. }
  set (off := k * PAGE_SIZE). assert (Ho : off = k * 4096) by done.
  assert (Hv : u64 (KERNEL_TEXT_START + off) = PHYS_TO_VIRT off)
    by (unfold PHYS_TO_VIRT; f_equal; unfold KERNEL_TEXT_START, KERNEL_HIGHER_HALF; lia).
  assert (Hq : vpage (PHYS_TO_VIRT off) = 2 ^ 35 + k) by (rewrite vpage_kernel by lia; Z.div_mod_to_equations; lia).
  destruct (vmm_map_page_run s root tbl (PHYS_TO_VIRT off) (u64 (0x100000 + off))
    (PT_PRESENT .| PT_WRITABLE .| PT_GLOBAL) Ht) as (r & s1 & tbl1 & E & Hre & Hn1 & Hl%spends_left & Hr);
    [apply mappable_kernel; lia|rewrite Hq; apply Hnh; lia|].
  assert (Hm1 : covers (fun v => vpage v =? vpage (PHYS_TO_VIRT off)) (init_phys N) 3 s s1 root tbl tbl1).
  { eapply remaps_covers; [exact Hre| |done..]. intros v [Hv' _] Hsel%Z.eqb_eq. rewrite Hq in Hsel.
    rewrite leaf4k_flags by (done || apply u64_range). rewrite u64_small by lia. unfold init_phys.
    replace (identity_at 0 512 v) with false by (unfold identity_at; Z.div_mod_to_equations; lia).
    replace (kernel_at 0 N v) with true by (unfold kernel_at; lia).
    rewrite vpage_split, Hsel, Ho by lia. Z.div_mod_to_equations; lia. }
  destruct (IH s1 tbl1 (k + 1)) as (s2 & tbl2 & E2 & Hm2 & Hn2); [apply Hm1| |lia|lia|lia|by auto|].
  { by rewrite (covers_pml4 _ _ _ _ _ _ _ _ Hm1). }
  exists s2, tbl2. split; [|split; [|by auto]].
  { cbn [init_kernel_half]. rewrite bind_gets, Hk, Hv, (bind_ret _ _ _ _ _ E).
    replace (off + PAGE_SIZE) with ((k + 1) * PAGE_SIZE) by (unfold off; lia). exact E2. }
  eapply covers_trans; [exact Hm1|exact Hm2| |lia]. intros v. rewrite Hq. unfold kernel_at. lia.
Qed.

(** ** The tables before and after the loops *)

(** A new PML4 alone is a tree that translates nothing, in memory that was the
    allocator's. *)
Lemma new_root s s1 s2 a :
  fa_ok s1 -> fresh fa_reserved s s1 a 1 -> pmm s2 = pmm s1 -> ram s2 = memset (ram s1) a 0 PAGE_SIZE ->
  let tbl : gmap (nat * Z) Z := {[ (3%nat, 0) := a ]} in
  tables_ok s2 a tbl /\ (forall v, walk (ram s2) tbl v = 0)
  /\ (forall b, ~ fa_reserved s b -> ~ pt_used s2 tbl b /\ load8 (ram s2) b = load8 (ram s) b).
Proof.
  intros Hok Hf Hp Hr tbl. destruct (create_page s s1 0 a Hf ltac:(lia)) as (Ha & Hal & Ha2).
  pose proof (memset_frame (ram s1) a 0 PAGE_SIZE) as Hm. rewrite <- Hr in Hm.
  assert (Hz : forall i, 0 <= i < 512 -> ent (ram s2) a i = 0).
  { intros i Hi. unfold ent. rewrite Hr. unfold PAGE_SIZE in *. apply (memset_zero_load_le 8); lia. }
  clear Hr.
  assert (Hx : forall b, fa_reserved s1 b -> load8 (ram s2) b = load8 (ram s1) b).
  { intros b Hb. apply Hm. destruct (Z.ltb_spec b a); [by left|]. destruct (Z.leb_spec (a + PAGE_SIZE) b); [by right|].
    exfalso. apply (proj1 (fr_now _ _ _ _ _ Hf b ltac:(lia)) Hb). }
  destruct (fa_frame s1 s2 Hok Hp Hx) as [Hok2 Hres].
  assert (Hone : forall k c, tbl !! k = Some c -> k = (3%nat, 0) /\ c = a)
    by (unfold tbl; intros k c Hkc; by apply lookup_singleton_Some in Hkc as [<- <-]).
  split; [split; [done|apply lookup_singleton_eq|..]|split].
  - intros L p c [[= -> ->] _]%Hone. done.
  - intros k c [_ ->]%Hone. do 3 (split; [done|]). intros b Hb Hrb%Hres.
    exact (proj1 (fr_now _ _ _ _ _ Hf b ltac:(lia)) Hrb).
  - intros k1 k2 c [-> _]%Hone [-> _]%Hone. done.
  - intros L p HL Hkp. unfold tbl. rewrite lookup_singleton_ne by (intros [=]; lia). fold tbl.
    destruct (tbl !! (S L, p / 512)) as [b|] eqn:Hb; [|done].
    apply Hone in Hb as [_ ->]. change (None = child (ram s2) a (p mod 512) L).
    unfold child. by rewrite Hz by apply mod512.
  - intros v. unfold walk, tbl. by rewrite !lookup_singleton_ne by done.
  - intros b Hb. destruct (fr_other _ _ _ _ _ Hf b Hb) as [Hb1 E].
    assert (Hout : ~ a <= b < a + PAGE_SIZE) by (intros ?; apply Hb, (fr_was _ _ _ _ _ Hf); lia).
    split; [intros [?%Hres|(k & c & [_ ->]%Hone & ?)]; done|].
    rewrite <- E. apply Hm. destruct (Z.ltb_spec b a); [by left|right; lia].
Qed.

(** The recursive entry is not part of the tree. *)
Lemma recursive_entry s s' root tbl e :
  tables_ok s root tbl -> pmm s' = pmm s -> ram s' = store64 (ram s) (root + 8 * RECURSIVE_INDEX) e ->
  tables_ok s' root tbl /\ keeps s tbl s' tbl /\ (forall v, walk (ram s') tbl v = walk (ram s) tbl v)
  /\ ent (ram s') root RECURSIVE_INDEX = u64 e.
Proof.
  intros Ht Hp Hr. assert (Hi : 0 <= RECURSIVE_INDEX < 512) by (unfold RECURSIVE_INDEX; lia).
  pose proof (to_root _ _ _ Ht) as H3.
  pose proof (fun k' c j => store_ent s s' root tbl _ root _ e Ht H3 Hi Hr k' c j) as Hent.
  assert (Hlow : forall L p c j, (L < 3)%nat -> tbl !! (L, p) = Some c -> 0 <= j < 512 ->
            ent (ram s') c j = ent (ram s) c j).
  { intros L p c j HL Hc Hj. rewrite (Hent _ _ _ Hc Hj), decide_False; [done|]. intros [[= -> _] _]. lia. }
  split; [|split; [by eapply store_keeps; eauto|split]].
  - split; [by eapply store_frames|apply Ht|apply Ht| |apply Ht|].
    + intros k a Ha. pose proof (to_page _ _ _ Ht _ _ Ha).
      by apply (store_page s s' root tbl _ root _ e Ht H3 Hi Hp Hr).
    + intros L p HL Hkp. rewrite (to_child _ _ _ Ht L p HL Hkp).
      destruct (tbl !! (S L, p / 512)) as [c|] eqn:Hc; [|done].
      change (child (ram s) c (p mod 512) L = child (ram s') c (p mod 512) L).
      unfold child. rewrite (Hent _ _ _ Hc) by apply mod512. rewrite decide_False; [done|].
      intros [[= -> Ep] Em]. destruct Hkp as [H9 Hne]. apply Hne. rewrite <- (Z.mod_small p 512) by lia. exact Em.
  - intros v. unfold walk. destruct (tbl !! (0%nat, _)) as [c|] eqn:Hc.
    { by rewrite (Hlow 0%nat _ _ _ ltac:(lia) Hc) by apply mod512. }
    destruct (tbl !! (1%nat, _)) as [c|] eqn:Hc'; [|done].
    by rewrite (Hlow 1%nat _ _ _ ltac:(lia) Hc') by apply mod512.
  - rewrite (Hent _ _ _ H3) by done. by rewrite decide_True.
Qed.

(** ** The loops together *)
Definition init_maps (kernel_end page : Z) : M bool :=
  init_identity 512 0;;
  init_kernel_half (Z.to_nat (kernel_pages kernel_end)) 0;;
  vmm_map_page page VGA_VIRT 0xB8000 (PT_PRESENT .| PT_WRITABLE .| PT_GLOBAL).

Lemma init_maps_bind kernel_end page (K : bool -> M unit) s :
  (init_identity 512 0;; init_kernel_half (Z.to_nat (kernel_pages kernel_end)) 0;;
   (vmm_map_page page VGA_VIRT 0xB8000 (PT_PRESENT .| PT_WRITABLE .| PT_GLOBAL) ≫= K)) s
  = (init_maps kernel_end page ≫= K) s.
Proof.
  unfold init_maps, mbind, M_bind. destruct (init_identity 512 0 s) as [[] s1|msg s1|s1]; [|done..].
  by destruct (init_kernel_half _ 0 s1) as [[] s2|msg s2|s2].
Qed.

(** The end of vmm_init. *)
Definition init_done (root : Z) (s : kst) : kst :=
  set_trace (EvPrintf "VMM: Kernel PML4 at %p, 4-level paging active\n" [AInt (PHYS_TO_VIRT root)]
    :: EvWriteCr3 root :: trace s)
    (set_cr3 root (set_ram (store64 (ram s) (root + 8 * RECURSIVE_INDEX) (root .| 3)) s)).

Lemma init_done_ok sel f k s2 s3 root tbl2 tbl :
  covers sel f k s2 s3 root tbl2 tbl -> tables_ok s2 root tbl2 -> (forall v, walk (ram s2) tbl2 v = 0) ->
  kernel_pml4 s2 = PHYS_TO_VIRT root -> (forall v, sel v = false -> f v = 0) ->
  let s' := init_done root s3 in
  let at_ v := get_phys (ram s') (PHYS_TO_VIRT root) v in
  kernel_pml4 s' = PHYS_TO_VIRT root /\ tables_ok s' root tbl /\ keeps s2 tbl2 s' tbl
  /\ entry (ram s') (PHYS_TO_VIRT root) RECURSIVE_INDEX = root .| 3
  /\ (forall v, mappable v -> at_ v = 0 \/ at_ v = f v)
  /\ (0 < fa_left s' -> forall v, mappable v -> at_ v = f v)
  /\ fa_left s2 - k <= fa_left s'.
Proof.
  intros Hm Ht2 Hz2 Hk Hsel s' at_. pose proof (covers_pml4 _ _ _ _ _ _ _ _ Hm) as Hk3.
  destruct Hm as [Ht3 Hk23 _ Hp3 Ha3 Hl3].
  destruct (recursive_entry s3 s' root tbl (root .| 3) Ht3 eq_refl eq_refl) as (Ht & Hks & Hw & Hent).
  destruct (tbl_page s3 root tbl Ht3 _ _ _ (to_root _ _ _ Ht3)) as (Ha & Hal & Ha2).
  destruct (table_entry root Ha Hal Ha2) as (Eu & _). rewrite Eu in Hent.
  assert (El : fa_left s' = fa_left s3) by by apply fa_left_same.
  assert (Eat : forall v, mappable v -> at_ v = get_phys (ram s3) (PHYS_TO_VIRT root) v).
  { intros v Hv. unfold at_. by rewrite (get_phys_walk s' root tbl Ht v Hv), Hw, <- (get_phys_walk s3 root tbl Ht3 v Hv). }
  assert (E2 : forall v, mappable v -> get_phys (ram s2) (PHYS_TO_VIRT root) v = 0).
  { intros v Hv. rewrite (get_phys_walk s2 root _ Ht2 v Hv). apply Hz2. }
  split; [by rewrite <- Hk, <- Hk3|]. split; [done|]. split; [by eapply keeps_trans|]. split.
  { by rewrite entry_ent by (done || (unfold RECURSIVE_INDEX; lia)). }
  split; [|split; [|rewrite El; lia]].
  - intros v Hv. rewrite Eat by done. destruct (Hp3 v Hv) as [->|[_ ?]]; [left; by apply E2|by right].
  - intros Hpos v Hv. rewrite Eat by done. destruct (sel v) eqn:E; [apply Ha3; [by rewrite <- El|done..]|].
    rewrite Hsel by done. destruct (Hp3 v Hv) as [->|[? _]]; [by apply E2|congruence].
Qed.

(** All that vmm_init maps, and no more. *)
Definition init_sel (n v : Z) : bool := identity_at 0 512 v || kernel_at 0 n v || vga_at v.

Lemma init_sel_none n v : init_sel n v = false -> init_phys n v = 0.
Proof.
  unfold init_sel, init_phys. by destruct (identity_at 0 512 v), (kernel_at 0 n v), (vga_at v).
Qed.

(** No direct map. *)
Lemma init_phys_direct n p :
  0 <= p < 2 ^ 38 ->
  init_phys n (PHYS_TO_VIRT p) = if p <? n * PAGE_SIZE then p + 0x100000 else 0.
Proof.
  intros Hp. pose proof (vpage_kernel p ltac:(lia)) as Hq. unfold init_phys, PAGE_SIZE.
  assert (Ei : identity_at 0 512 (PHYS_TO_VIRT p) = false)
    by (unfold identity_at; rewrite Hq; Z.div_mod_to_equations; lia).
  assert (Ek : kernel_at 0 n (PHYS_TO_VIRT p) = (p <? n * 4096))
    by (unfold kernel_at; rewrite Hq; Z.div_mod_to_equations; lia).
  assert (Ev : vga_at (PHYS_TO_VIRT p) = false).
  { unfold vga_at. rewrite Hq. change (vpage VGA_VIRT) with 0xFFFF800B8. Z.div_mod_to_equations; lia. }
  rewrite Ei, Ek, Ev. destruct (p <? n * 4096); [|done].
  rewrite PHYS_TO_VIRT_val by lia. unfold KERNEL_HIGHER_HALF. Z.div_mod_to_equations. lia.
Qed.

Lemma mappable_vga : mappable VGA_VIRT /\ mappable (VGA_VIRT + 1) /\ vpage (VGA_VIRT + 1) = vpage VGA_VIRT.
Proof. by vm_compute. Qed.

Lemma vga_step N s root tbl :
  tables_ok s root tbl -> not_huge (ram s) tbl (vpage VGA_VIRT) -> N <= 2 ^ 26 ->
  exists r s' tbl', vmm_map_page (PHYS_TO_VIRT root) VGA_VIRT 0xB8000 (PT_PRESENT .| PT_WRITABLE .| PT_GLOBAL) s
    = Ret r s' /\ covers vga_at (init_phys N) 3 s s' root tbl tbl'.
Proof.
  intros Ht Hnh HN. destruct mappable_vga as (Hv & _ & _).
  destruct (vmm_map_page_run s root tbl VGA_VIRT 0xB8000 (PT_PRESENT .| PT_WRITABLE .| PT_GLOBAL) Ht Hv Hnh)
    as (r & s' & tbl' & E & Hre & _ & Hl%spends_left & Hr).
  exists r, s', tbl'. split; [done|]. eapply remaps_covers; [exact Hre| |done..]. intros v [Hv' _] Hsel.
  rewrite leaf4k_flags by (done || lia). unfold init_phys. rewrite Hsel. apply Z.eqb_eq in Hsel.
  change (vpage VGA_VIRT) with 0xFFFF800B8 in Hsel.
  replace (identity_at 0 512 v) with false by (unfold identity_at; rewrite Hsel; Z.div_mod_to_equations; lia).
  replace (kernel_at 0 N v) with false by (unfold kernel_at; lia). done.
Qed.

(** How many pages the tables can take. *)
Definition init_pages (n : Z) : Z := 2 * 512 + 3 * n + 3.

Lemma init_maps_run s root tbl kernel_end :
  tables_ok s root tbl -> kernel_pml4 s = PHYS_TO_VIRT root -> (forall v, walk (ram s) tbl v = 0) ->
  0x100000 <= VIRT_TO_PHYS kernel_end <= 2 ^ 38 ->
  let n := kernel_pages kernel_end in
  exists r s' tbl', init_maps kernel_end (PHYS_TO_VIRT root) s = Ret r s'
  /\ covers (init_sel n) (init_phys n) (init_pages n) s s' root tbl tbl'.
Proof.
  intros Ht Hk Hz Hend n. pose proof (kernel_pages_range _ Hend) as Hn. fold n in Hn.
  assert (Hz0 : forall v, mappable v -> get_phys (ram s) (PHYS_TO_VIRT root) v = 0)
    by (intros v Hv; rewrite (get_phys_walk s root tbl Ht v Hv); apply Hz).
  destruct (init_identity_run n 512 s root tbl 0 Ht Hk ltac:(lia) ltac:(lia)) as (s1 & tbl1 & E1 & Hm1).
  destruct (init_kernel_half_run n (Z.to_nat n) s1 root tbl1 0) as (s2 & tbl2 & E2 & Hm2 & Hn2).
  { apply Hm1. } { by rewrite (covers_pml4 _ _ _ _ _ _ _ _ Hm1). } { lia. } { lia. } { lia. }
  { intros j Hj. set (v := PHYS_TO_VIRT (j * 4096 + 1)).
    assert (Hv : mappable v) by (apply mappable_kernel; lia).
    assert (Hq : vpage v = 2 ^ 35 + j) by (unfold v; rewrite vpage_kernel by lia; Z.div_mod_to_equations; lia).
    rewrite <- Hq. apply (not_huge_untranslated s1 root tbl1 v); [apply Hm1|done| |].
    - unfold v. rewrite PHYS_TO_VIRT_val by lia. unfold KERNEL_HIGHER_HALF.
      rewrite !Z.odd_add, Z.odd_mul. by destruct (Z.odd j).
    - destruct (cv_phys _ _ _ _ _ _ _ _ Hm1 v Hv) as [->|[Hsel _]]; [by apply Hz0|].
      unfold identity_at in Hsel. rewrite Hq in Hsel. exfalso. Z.div_mod_to_equations. lia. }
  rewrite Z2Nat.id in Hm2 by lia. destruct (vga_step n s2 root tbl2) as (r & s3 & tbl3 & E3 & Hm3); [apply Hm2| |lia|].
  { destruct mappable_vga as (_ & Hv & Hq). rewrite <- Hq.
    apply (not_huge_untranslated s2 root tbl2 _); [apply Hm2|done|done|].
    destruct (cv_phys _ _ _ _ _ _ _ _ Hm2 _ Hv) as [->|[Hr _]].
    - destruct (cv_phys _ _ _ _ _ _ _ _ Hm1 _ Hv) as [->|[Hr _]]; [by apply Hz0|].
      exfalso. unfold identity_at in Hr. change (vpage (VGA_VIRT + 1)) with 0xFFFF800B8 in Hr. by vm_compute in Hr.
    - exfalso. unfold kernel_at in Hr. change (vpage (VGA_VIRT + 1)) with 0xFFFF800B8 in Hr. lia. }
  exists r, s3, tbl3. split.
  { unfold init_maps. by rewrite (bind_ret _ _ _ _ _ E1), (bind_ret _ _ _ _ _ E2). }
  eapply covers_trans; [eapply covers_trans; [exact Hm1|exact Hm2|intros v; reflexivity|reflexivity]|exact Hm3|..].
  - intros v. reflexivity.
  - unfold init_pages. lia.
Qed.
End init.

(** * The property *)
Section outcome.
Context {FA : FrameAllocator pmm_alloc_page pmm_alloc_pages}.

(** The state [s'] in which vmm_init, called in [s], returns, for a kernel of [n]
    pages: the tree [tbl] under [root] is in cr3, entry 510 is the PML4 itself and
    no memory but tables and free frames was written.  Every address has the
    translation that is meant or none, and the one that is meant if a page is
    left; at most [1 + init_pages n] pages are used, so that with more than those
    free at the start one is left. *)
Record kernel_space (n : Z) (s s' : kst) (root : Z) (tbl : gmap (nat * Z) Z) : Prop := {
  ks_cr3 : cr3 s' = root;
  ks_pml4 : kernel_pml4 s' = PHYS_TO_VIRT root;
  ks_tables : tables_ok s' root tbl;
  ks_recursive : entry (ram s') (PHYS_TO_VIRT root) RECURSIVE_INDEX = root .| 3;
  ks_frame : forall b, ~ fa_reserved s b -> ~ pt_used s' tbl b /\ load8 (ram s') b = load8 (ram s) b;
  ks_phys : forall v, mappable v ->
    get_phys (ram s') (PHYS_TO_VIRT root) v = 0 \/ get_phys (ram s') (PHYS_TO_VIRT root) v = init_phys n v;
  ks_all : 0 < fa_left s' -> forall v, mappable v -> get_phys (ram s') (PHYS_TO_VIRT root) v = init_phys n v;
  ks_left : fa_left s - (1 + init_pages n) <= fa_left s';
}.

Lemma vmm_init_run (s : kst) (kernel_end : Z) :
  fa_ok s -> 0x100000 <= VIRT_TO_PHYS kernel_end <= 2 ^ 38 ->
  (fa_left s = 0 /\ exists s', vmm_init kernel_end s = Panic "VMM: Failed to allocate PML4" s')
  \/ (0 < fa_left s /\ exists root s' tbl, vmm_init kernel_end s = Ret tt s'
      /\ kernel_space (kernel_pages kernel_end) s s' root tbl).
Proof.
  intros Hs Hend. destruct (fa_alloc s Hs) as (page & s1 & E & Hok & Hrest & Hp).
  pose proof (fa_left_alloc _ _ _ Hs E) as Hleft.
  unfold vmm_init. rewrite (bind_ret _ _ _ _ _ E). destruct Hp as [[-> ->]|(root & -> & Hf)].
  { left. destruct Hleft as [[_ ?]|[? _]]; [|done]. split; [done|]. eexists. reflexivity. }
  right. destruct (create_page s s1 0 root Hf ltac:(lia)) as (Ha & Hal & Ha2).
  assert (Hnn : (PHYS_TO_VIRT root =? 0) = false)
    by (apply Z.eqb_neq, PHYS_TO_VIRT_nonnull; unfold PAGE_SIZE in *; lia).
  assert (Hlin : lin (PHYS_TO_VIRT root) = root) by (apply lin_PHYS_TO_VIRT; unfold PAGE_SIZE in *; lia).
  assert (Hphys0 : VIRT_TO_PHYS (PHYS_TO_VIRT root) = root)
    by (apply VIRT_TO_PHYS_TO_VIRT; unfold PAGE_SIZE in *; lia).
  assert (Hset : forall m, set_entry (PHYS_TO_VIRT root) RECURSIVE_INDEX (root .| 3) m
                           = store64 m (root + 8 * RECURSIVE_INDEX) (root .| 3))
    by (intros; apply set_entry_store; done || (unfold RECURSIVE_INDEX; lia)).
  set (s2 := set_ram (memset (ram s1) root 0 PAGE_SIZE) (set_kernel_pml4 (PHYS_TO_VIRT root) s1)).
  destruct (new_root s s1 s2 root Hok Hf eq_refl eq_refl) as (Ht2 & Hz2 & Hm2).
  assert (Hk2 : kernel_pml4 s2 = PHYS_TO_VIRT root) by reflexivity.
  assert (Hl2 : 0 < fa_left s /\ fa_left s2 = fa_left s - 1).
  { rewrite (fa_left_same s1 s2) by reflexivity. apply Z.eqb_neq in Hnn. destruct Hleft as [[? _]|[_ ?]]; done. }
  destruct (init_maps_run s2 root _ kernel_end Ht2 Hk2 Hz2 Hend) as (r & s3 & tbl & E3 & Hm3).
  split; [apply Hl2|]. exists root, (init_done root s3), tbl. split.
  { rewrite bind_modify, Hnn, bind_whenM, bind_upd_ram, Hlin.
    change (set_ram _ (set_kernel_pml4 _ s1)) with s2.
    rewrite (init_maps_bind kernel_end (PHYS_TO_VIRT root)), (bind_ret _ _ _ _ _ E3), bind_upd_ram, Hphys0.
    change (root .| PT_PRESENT .| PT_WRITABLE) with (root .| 1 .| 2). rewrite <- Z.lor_assoc.
    change (1 .| 2) with 3. rewrite Hset. reflexivity. }
  clearbody s2. clear E Hf Hrest Hok E3 Hleft.
  destruct (init_done_ok _ _ _ _ _ _ _ _ Hm3 Ht2 Hz2 Hk2 (init_sel_none _)) as (Hk & Ht & Hks & Hent & Hphys & Hall & Hl).
  split; [done..| |done|done|lia].
  intros b Hb. destruct (Hm2 b Hb) as [Hu <-]. by apply Hks.
Qed.
End outcome.

(** C19 vmm_init panics exactly when no page is left for the PML4.  Otherwise it
    returns with the new tables in cr3, well formed, entry 510 the PML4 itself, and
    no memory but tables and free frames written.  While pages last everything is
    mapped: if a page is left at the end (with more than 1028 + 3 per page of the
    kernel free at the start one is) every address has the intended translation,
    which is the identity below 1 GB, the kernel's half at 1 MB, the screen, and
    nothing elsewhere; when the pages run out an address has that or none.  This
    is for a kernel whose end is 1 MB or more above KERNEL_HIGHER_HALF; below that
    the loop over the kernel is to map 2^52 pages ([kernel_pages_wraps]).  What is
    intended is not what the kernel relies on: a PHYS_TO_VIRT pointer below the
    kernel's size is translated 1 MB off, any other (to the page tables themselves,
    to the local APIC, and with a small kernel to the screen) not at all. *)
Theorem vmm_init_correct {FA : FrameAllocator pmm_alloc_page pmm_alloc_pages} (s : kst) (kernel_end : Z) :
  fa_ok s -> 0x100000 <= VIRT_TO_PHYS kernel_end <= 2 ^ 38 ->
  let n := kernel_pages kernel_end in
  (fa_left s = 0 /\ exists s', vmm_init kernel_end s = Panic "VMM: Failed to allocate PML4" s')
  \/ (0 < fa_left s /\ exists root s' tbl, vmm_init kernel_end s = Ret tt s' /\ kernel_space n s s' root tbl
      /\ (forall p, 0 <= p < 2 ^ 38 -> let q := get_phys (ram s') (PHYS_TO_VIRT root) (PHYS_TO_VIRT p) in
            q = 0 \/ p < n * PAGE_SIZE /\ q = p + 0x100000)).
Proof.
  intros Hs Hend n. destruct (vmm_init_run s kernel_end Hs Hend) as [?|(Hl & root & s' & tbl & E & Hk)]; [by left|right].
  split; [done|]. exists root, s', tbl. do 2 (split; [done|]). intros p Hp q.
  destruct (ks_phys _ _ _ _ _ Hk _ (mappable_kernel p Hp)) as [?|Hq]; [by left|]. fold q in Hq.
  rewrite (init_phys_direct _ p Hp) in Hq. fold n in Hq. destruct (Z.ltb_spec p (n * PAGE_SIZE)); auto.
Qed.

(** A kernel of 64 KB above its load address, in the memory of the example. *)
Lemma vmm_init_correct_witness :
  let s := PmmExample.s in
  let kernel_end := PHYS_TO_VIRT 0x110000 in
  let n := kernel_pages kernel_end in
  (fa_left s = 0 /\ exists s', vmm_init kernel_end s = Panic "VMM: Failed to allocate PML4" s')
  \/ (0 < fa_left s /\ exists root s' tbl, vmm_init kernel_end s = Ret tt s' /\ kernel_space n s s' root tbl
      /\ (forall p, 0 <= p < 2 ^ 38 -> let q := get_phys (ram s') (PHYS_TO_VIRT root) (PHYS_TO_VIRT p) in
            q = 0 \/ p < n * PAGE_SIZE /\ q = p + 0x100000)).
Proof.
  cbv zeta. apply (vmm_init_correct (FA := pmm_frame_allocator)).
  - exact KmallocExample.example_frames.
  - change (VIRT_TO_PHYS (PHYS_TO_VIRT 0x110000)) with 0x110000. lia.
Defined.

(** It is the second case that occurs there, with all three maps complete: the
    screen, an identity-mapped page, and two PHYS_TO_VIRT pointers, one above the
    end of the kernel. *)
Example vmm_init_example :
  match vmm_init (PHYS_TO_VIRT 0x110000) PmmExample.s with
  | Ret _ s' =>
      (fun v => get_phys (ram s') (kernel_pml4 s') v) <$>
        [0xFFFFFFFF800B8004; 0x3FFFFFFF; PHYS_TO_VIRT 0x3008; PHYS_TO_VIRT 0x10000]
      = [0xB8004; 0x3FFFFFFF; 0x103008; 0]
  | _ => False
  end.
Proof. by vm_compute. Qed.
