(* ===== verification/Sched.v ===== *)
(** scheduler.c: run queues, schedule and process_create.

    [runqueues], [next_tid] and [next_pid] are the static variables; threads and
    processes are structs in RAM.  [cpu_get_current] is declared in kernel.h but
    defined nowhere: it is a parameter, the address of the current struct cpu.
    The register rsp that context_switch saves is a parameter too. *)
From S2P Require Import Prelude Machine Globals Strings Pmm Kmalloc Vmm.

(** * struct thread (64 bytes) and struct process (112 bytes) *)
Definition SIZEOF_THREAD : Z := 64.
Definition SIZEOF_PROCESS : Z := 112.
Definition set_t_tid (t v : Z) (m : gmap Z Z) : gmap Z Z := store32 m (lin t) v.
Definition t_state (m : gmap Z Z) (t : Z) : Z := load32 m (lin (t + 4)).
Definition set_t_state (t v : Z) (m : gmap Z Z) : gmap Z Z := store32 m (lin (t + 4)) v.
Definition set_t_prio (t v : Z) (m : gmap Z Z) : gmap Z Z := store32 m (lin (t + 8)) v.
(** &t->rsp *)
Definition t_rsp_ptr (t : Z) : Z := t + 24.
Definition t_rsp (m : gmap Z Z) (t : Z) : Z := load64 m (lin (t_rsp_ptr t)).
Definition set_t_rsp (t v : Z) (m : gmap Z Z) : gmap Z Z := store64 m (lin (t_rsp_ptr t)) v.
Definition t_kernel_stack (m : gmap Z Z) (t : Z) : Z := load64 m (lin (t + 32)).
Definition set_t_kernel_stack (t v : Z) (m : gmap Z Z) : gmap Z Z := store64 m (lin (t + 32)) v.
Definition t_parent (m : gmap Z Z) (t : Z) : Z := load64 m (lin (t + 40)).
Definition set_t_parent (t v : Z) (m : gmap Z Z) : gmap Z Z := store64 m (lin (t + 40)) v.
Definition t_next (m : gmap Z Z) (t : Z) : Z := load64 m (lin (t + 48)).
Definition set_t_next (t v : Z) (m : gmap Z Z) : gmap Z Z := store64 m (lin (t + 48)) v.

Definition set_p_pid (p v : Z) (m : gmap Z Z) : gmap Z Z := store32 m (lin p) v.
Definition p_pid (m : gmap Z Z) (p : Z) : Z := load32 m (lin p).
Definition p_name (p : Z) : Z := p + 4.
Definition p_cr3 (m : gmap Z Z) (p : Z) : Z := load64 m (lin (p + 40)).
Definition set_p_cr3 (p v : Z) (m : gmap Z Z) : gmap Z Z := store64 m (lin (p + 40)) v.
Definition p_main_thread (p : Z) : Z := p + 48.

(** * The run queues *)
#[export] Instance runqueue_inhabited : Inhabited runqueue := populate (Runqueue 0 0 0 0 0).

(** The initial values of the static variables; [cpus] is not one of them. *)
Definition sched_initial (cpus : gmap Z cpu) : sched_globals :=
  Sched (replicate MAX_CPUS (Runqueue 0 0 0 0 0)) 1 1 cpus.

Definition get_rq (i : nat) : M runqueue := gets (fun s => runqueues (sched s) !!! i).
Definition set_runqueues (rqs : list runqueue) (g : sched_globals) : sched_globals :=
  Sched rqs (next_tid g) (next_pid g) (cpus g).
Definition upd_rq (i : nat) (f : runqueue -> runqueue) : M unit :=
  modify (fun s =>
    set_sched (set_runqueues (<[i := f (runqueues (sched s) !!! i)]> (runqueues (sched s)))
                 (sched s)) s).

Definition set_head (x : Z) (rq : runqueue) : runqueue :=
  Runqueue x (tail rq) (nr_running rq) (min_vruntime rq) (rqlock rq).
Definition set_tail (x : Z) (rq : runqueue) : runqueue :=
  Runqueue (head rq) x (nr_running rq) (min_vruntime rq) (rqlock rq).
Definition set_nr_running (x : Z) (rq : runqueue) : runqueue :=
  Runqueue (head rq) (tail rq) x (min_vruntime rq) (rqlock rq).
Definition set_rqlock (x : Z) (rq : runqueue) : runqueue :=
  Runqueue (head rq) (tail rq) (nr_running rq) (min_vruntime rq) x.

Definition rq_spin_lock (i : nat) : M unit :=
  rq ← get_rq i;
  if truthy (rqlock rq) then hang else upd_rq i (set_rqlock 1).
Definition rq_spin_unlock (i : nat) : M unit := upd_rq i (set_rqlock 0).

Definition scheduler_init : M unit :=
  modify (fun s =>
    set_sched (set_runqueues (replicate MAX_CPUS (Runqueue 0 0 0 0 0)) (sched s)) s);;
  kprintf "Scheduler: CFS initialized\n" [].

Definition enqueue (i : nat) (t : Z) : M unit :=
  upd_ram (set_t_state t TASK_RUNNING);;
  rq ← get_rq i;
  (if head rq =? 0 then
     upd_rq i (fun rq => set_head t (set_tail t rq));;
     upd_ram (set_t_next t 0)
   else
     upd_ram (set_t_next (tail rq) t);;
     upd_rq i (set_tail t);;
     upd_ram (set_t_next t 0));;
  upd_rq i (fun rq => set_nr_running (u32 (nr_running rq + 1)) rq).

Definition dequeue (i : nat) : M Z :=
  rq ← get_rq i;
  if head rq =? 0 then mret 0
  else
    let t := head rq in
    m ← gets ram;
    upd_rq i (set_head (t_next m t));;
    rq ← get_rq i;
    whenM (head rq =? 0) (upd_rq i (set_tail 0));;
    upd_rq i (fun rq => set_nr_running (u32 (nr_running rq - 1)) rq);;
    upd_ram (set_t_next t 0);;
    mret t.

(** * schedule *)
Definition set_current_thread (c t : Z) : M unit :=
  modify (fun s =>
    match cpus (sched s) !! c with
    | Some k =>
        set_sched (Sched (runqueues (sched s)) (next_tid (sched s)) (next_pid (sched s))
          (<[c := Cpu (apic_id k) (acpi_id k) (lapic_base k) (tss_rsp0 k) t (online k) (bsp k)]>
             (cpus (sched s)))) s
    | None => s
    end).

#[export] Instance cpu_inhabited : Inhabited cpu := populate (Cpu 0 0 0 0 0 false false).

Section scheduler.
Variable cpu_get_current : kst -> Z.
Variable rsp_register : Z.

Definition context_switch (old_rsp new_rsp new_cr3 : Z) : M unit :=
  whenM (negb (old_rsp =? 0)) (upd_ram (fun m => store64 m (lin old_rsp) rsp_register));;
  c ← gets cr3;
  whenM (negb (new_cr3 =? 0) && negb (new_cr3 =? c)) (write_cr3 new_cr3);;
  emit (EvSwitch old_rsp new_rsp).

(** [t] was switched out inside schedule: the code that follows context_switch
    is where it resumes.  A thread that never ran resumes at the frame that
    process_create made for it instead. *)
Definition suspended_in_schedule (t : Z) (tr : list event) : bool :=
  existsb (fun e => match e with EvSwitch o _ => o =? t_rsp_ptr t | _ => false end) tr.

Definition schedule : M unit :=
  c ← gets cpu_get_current;
  k ← gets (fun s => cpus (sched s) !!! c);
  let i := Z.to_nat (acpi_id k) in
  let prev := current_thread k in
  rq_spin_lock i;;
  m ← gets ram;
  whenM (negb (prev =? 0) && (t_state m prev =? TASK_RUNNING)) (enqueue i prev);;
  next ← dequeue i;
  if next =? 0 then rq_spin_unlock i
  else
    set_current_thread c next;;
    if negb (prev =? 0) && negb (prev =? next) then
      m ← gets ram;
      emit (EvTssRsp0 (t_kernel_stack m next));;
      cr ← gets cr3;
      context_switch (t_rsp_ptr prev) (t_rsp m next)
        (if negb (t_parent m next =? 0) then p_cr3 m (t_parent m next) else cr);;
      (* control is now in [next] *)
      tr ← gets trace;
      whenM (suspended_in_schedule next tr) (rq_spin_unlock i)
    else rq_spin_unlock i.

Definition yield : M unit := schedule.
Definition sleep (ms : Z) : M unit := yield.
End scheduler.

(** * process_create *)

(** *(--sp) = v *)
Definition push (sp v : Z) (m : gmap Z Z) : gmap Z Z := store64 m (lin (sp - 8)) v.

(** The initial stack frame below [rsp]: return address, entry point, and six
    registers; the result is the new stack pointer. *)
Definition initial_frame (rsp entry : Z) (m : gmap Z Z) : gmap Z Z :=
  push (rsp - 56) 0 (push (rsp - 48) 0 (push (rsp - 40) 0 (push (rsp - 32) 0
    (push (rsp - 24) 0 (push (rsp - 16) 0 (push (rsp - 8) entry (push rsp 0 m))))))).

(** The top of the stack the code computes from the pages it allocates. *)
Definition stack_top (pages : Z) : Z := u64 (pages + 0x10000).

Definition process_create (name entry : Z) : M Z :=
  p ← kzalloc SIZEOF_PROCESS;
  if p =? 0 then mret 0
  else
    g ← gets sched;
    upd_ram (set_p_pid p (next_pid g));;
    modify (fun s => set_sched (Sched (runqueues (sched s)) (next_tid (sched s))
                                  (u32 (next_pid (sched s) + 1)) (cpus (sched s))) s);;
    upd_ram (fun m => strncpy m (lin (p_name p)) (lin name) 31);;
    upd_ram (fun m => store8 m (lin (p_name p + 31)) 0);;
    cr ← vmm_create_address_space;
    upd_ram (set_p_cr3 p cr);;
    t ← kzalloc SIZEOF_THREAD;
    if t =? 0 then kfree p;; mret 0
    else
      g ← gets sched;
      upd_ram (set_t_tid t (next_tid g));;
      modify (fun s => set_sched (Sched (runqueues (sched s)) (u32 (next_tid (sched s) + 1))
                                    (next_pid (sched s)) (cpus (sched s))) s);;
      upd_ram (set_t_state t TASK_RUNNING);;
      upd_ram (set_t_prio t 128);;
      upd_ram (set_t_parent t p);;
      pages ← pmm_alloc_pages 4;
      upd_ram (set_t_kernel_stack t (stack_top pages));;
      upd_ram (set_t_rsp t (u64 (stack_top pages - 8)));;
      m ← gets ram;
      let sp := t_rsp m t in
      upd_ram (initial_frame sp entry);;
      upd_ram (set_t_rsp t (u64 (sp - 64)));;
      upd_ram (fun m => memcpy m (lin (p_main_thread p)) (lin t) SIZEOF_THREAD);;
      enqueue 0 t;;
      m ← gets ram;
      kprintf "Process: %s (PID %u)\n" [AInt name; AInt (p_pid m p)];;
      mret p.
