(* ===== verification/SchedFacts.v ===== *)
(** The run queue as a list of threads, and what schedule does to it. *)
From S2P Require Import Prelude Machine Globals Strings Pmm Kmalloc Vmm Sched.

(** * Threads in RAM *)
Definition thread_ok (t : Z) : Prop := 0 < t < 2 ^ 64 /\ one_half t SIZEOF_THREAD.

(** Two threads do not overlap. *)
Definition threads_apart (t u : Z) : Prop :=
  lin t + SIZEOF_THREAD <= lin u \/ lin u + SIZEOF_THREAD <= lin t.

Section thread_fields.
Context (t : Z) (Ht : thread_ok t).

Lemma thread_lin d : 0 <= d < SIZEOF_THREAD -> lin (t + d) = lin t + d.
Proof. intros. eapply lin_shift; [apply Ht|done]. Qed.

Lemma set_t_next_frame v m : only_changes (lin t + 48) (lin t + 56) m (set_t_next t v m).
Proof.
  unfold set_t_next. rewrite thread_lin by (unfold SIZEOF_THREAD; lia).
  eapply only_changes_weaken; [apply (store_le_frame 8)|lia..].
Qed.
Lemma set_t_state_frame v m : only_changes (lin t + 4) (lin t + 8) m (set_t_state t v m).
Proof.
  unfold set_t_state. rewrite thread_lin by (unfold SIZEOF_THREAD; lia).
  eapply only_changes_weaken; [apply (store_le_frame 4)|lia..].
Qed.

Lemma t_next_set v m : t_next (set_t_next t v m) t = u64 v.
Proof. apply load64_store64. Qed.
Lemma t_state_set v m : t_state (set_t_state t v m) t = u32 v.
Proof. apply load32_store32. Qed.

Lemma t_next_frame lo hi m m' :
  only_changes lo hi m m' -> lin t + 56 <= lo \/ hi <= lin t + 48 -> t_next m' t = t_next m t.
Proof.
  intros Hm Hd. unfold t_next. rewrite thread_lin by (unfold SIZEOF_THREAD; lia).
  eapply (load_le_frame 8); [exact Hm|lia].
Qed.
Lemma t_state_frame lo hi m m' :
  only_changes lo hi m m' -> lin t + 8 <= lo \/ hi <= lin t + 4 -> t_state m' t = t_state m t.
Proof.
  intros Hm Hd. unfold t_state. rewrite thread_lin by (unfold SIZEOF_THREAD; lia).
  eapply (load_le_frame 4); [exact Hm|lia].
Qed.
Lemma t_rsp_frame lo hi m m' :
  only_changes lo hi m m' -> lin t + 32 <= lo \/ hi <= lin t + 24 -> t_rsp m' t = t_rsp m t.
Proof.
  intros Hm Hd. unfold t_rsp, t_rsp_ptr. rewrite thread_lin by (unfold SIZEOF_THREAD; lia).
  eapply (load_le_frame 8); [exact Hm|lia].
Qed.
Lemma t_kernel_stack_frame lo hi m m' :
  only_changes lo hi m m' -> lin t + 40 <= lo \/ hi <= lin t + 32 ->
  t_kernel_stack m' t = t_kernel_stack m t.
Proof.
  intros Hm Hd. unfold t_kernel_stack. rewrite thread_lin by (unfold SIZEOF_THREAD; lia).
  eapply (load_le_frame 8); [exact Hm|lia].
Qed.
End thread_fields.

(** A change inside thread [u] does not reach thread [t]. *)
Definition inside (u : Z) (m m' : gmap Z Z) : Prop := only_changes (lin u) (lin u + SIZEOF_THREAD) m m'.

Lemma set_t_next_inside u v m : thread_ok u -> inside u m (set_t_next u v m).
Proof.
  intros Hu. eapply only_changes_weaken; [by apply set_t_next_frame|unfold SIZEOF_THREAD; lia..].
Qed.
Lemma set_t_state_inside u v m : thread_ok u -> inside u m (set_t_state u v m).
Proof.
  intros Hu. eapply only_changes_weaken; [by apply set_t_state_frame|unfold SIZEOF_THREAD; lia..].
Qed.

Lemma t_next_other t u m m' :
  thread_ok t -> threads_apart t u -> inside u m m' -> t_next m' t = t_next m t.
Proof.
  intros Ht Ha Hm. eapply t_next_frame; [done|exact Hm|].
  unfold threads_apart, SIZEOF_THREAD in *. lia.
Qed.
Lemma t_state_other t u m m' :
  thread_ok t -> threads_apart t u -> inside u m m' -> t_state m' t = t_state m t.
Proof.
  intros Ht Ha Hm. eapply t_state_frame; [done|exact Hm|].
  unfold threads_apart, SIZEOF_THREAD in *. lia.
Qed.

(** * Linked segments *)
Fixpoint qseg (m : gmap Z Z) (p : Z) (l : list Z) (e : Z) : Prop :=
  match l with
  | [] => p = e
  | t :: l' => p = t /\ qseg m (t_next m t) l' e
  end.

Lemma qseg_app m p l1 l2 e : qseg m p (l1 ++ l2) e <-> exists q, qseg m p l1 q /\ qseg m q l2 e.
Proof.
  revert p. induction l1 as [|t l1 IH]; intros p; simpl.
  - split; [eauto|]. by intros (q & -> & ?).
  - rewrite IH. split; [intros (? & q & ? & ?); eauto|]. intros (q & (? & ?) & ?). eauto.
Qed.

Lemma qseg_ext m m' p l e :
  (forall t, t ∈ l -> t_next m' t = t_next m t) -> qseg m p l e -> qseg m' p l e.
Proof.
  revert p. induction l as [|t l IH]; intros p Hl; simpl; [done|]. intros [-> H].
  split; [done|]. rewrite Hl by (rewrite elem_of_cons; auto). apply IH; [|done].
  intros u Hu. apply Hl. rewrite elem_of_cons. auto.
Qed.

(** The threads of a list are well placed and pairwise disjoint. *)
Fixpoint all_apart (l : list Z) : Prop :=
  match l with
  | [] => True
  | t :: l' => thread_ok t /\ Forall (threads_apart t) l' /\ all_apart l'
  end.

Lemma threads_apart_sym t u : threads_apart t u -> threads_apart u t.
Proof. unfold threads_apart. lia. Qed.

Lemma all_apart_ok l t : all_apart l -> t ∈ l -> thread_ok t.
Proof.
  induction l as [|u l IH]; intros Hl Ht; [by apply elem_of_nil in Ht|].
  destruct Hl as (? & _ & ?). apply elem_of_cons in Ht as [->|Ht]; auto.
Qed.

Lemma all_apart_app l1 l2 :
  all_apart (l1 ++ l2) <->
  all_apart l1 /\ all_apart l2 /\ forall t u, t ∈ l1 -> u ∈ l2 -> threads_apart t u.
Proof.
  induction l1 as [|x l1 IH]; simpl.
  - split; [|tauto]. intros. split; [done|]. split; [done|]. intros t u Ht. by apply elem_of_nil in Ht.
  - rewrite Forall_app, IH, !Forall_forall. split.
    + intros (Hok & (H1 & H2) & Ha1 & Ha2 & Hx). split; [by split; [|split]|]. split; [done|].
      intros t u [->|Ht]%elem_of_cons Hu; auto.
    + intros ((Hok & H1 & Ha1) & Ha2 & Hx). split; [done|].
      split; [|split; [done|split; [done|]]].
      * split; [done|]. intros u Hu. apply Hx; [rewrite elem_of_cons; auto|done].
      * intros t u Ht Hu. apply Hx; [rewrite elem_of_cons; auto|done].
Qed.

(** A rotated list is as good. *)
Lemma all_apart_rotate l1 l2 : all_apart (l1 ++ l2) -> all_apart (l2 ++ l1).
Proof.
  rewrite !all_apart_app. intros (? & ? & Hx). split; [done|]. split; [done|].
  intros t u ??. apply threads_apart_sym. auto.
Qed.

(** * The run queue *)
Record rq_ok (m : gmap Z Z) (rq : runqueue) (l : list Z) : Prop := {
  ro_seg : qseg m (head rq) l 0;
  ro_tail : tail rq = default 0 (last l);
  ro_count : nr_running rq = Z.of_nat (length l);
  ro_bound : Z.of_nat (length l) < 2 ^ 32;
}.

Lemma rq_lookup s i rq : runqueues (sched s) !! i = Some rq -> runqueues (sched s) !!! i = rq.
Proof. apply list_lookup_total_correct. Qed.

Definition set_rqs (s : kst) (i : nat) (rq : runqueue) : sched_globals :=
  set_runqueues (<[i := rq]> (runqueues (sched s))) (sched s).

Lemma head_nonnull m rq t l : rq_ok m rq (t :: l) -> head rq = t.
Proof. by intros [[? _] _ _ _]. Qed.

(** ** enqueue appends *)
Definition enqueued (m : gmap Z Z) (rq : runqueue) (t : Z) : gmap Z Z :=
  let m := set_t_state t TASK_RUNNING m in
  set_t_next t 0 (if head rq =? 0 then m else set_t_next (tail rq) t m).

Lemma enqueue_run s i rq t :
  runqueues (sched s) !! i = Some rq ->
  enqueue i t s = Ret tt (set_ram (enqueued (ram s) rq t)
    (set_sched (set_rqs s i (Runqueue (if head rq =? 0 then t else head rq) t
                               (u32 (nr_running rq + 1)) (min_vruntime rq) (rqlock rq))) s)).
Proof.
  intros Hi. assert (Hlt : (i < length (runqueues (sched s)))%nat) by (by eapply lookup_lt_Some).
  unfold enqueue, get_rq, upd_rq, enqueued. msimpl. rewrite (rq_lookup _ _ _ Hi).
  destruct (head rq =? 0); msimpl; cbn [runqueues set_runqueues];
    rewrite !(rq_lookup _ _ _ Hi), ?list_lookup_total_insert_eq, ?list_insert_insert_eq by
      (rewrite ?length_insert; done); done.
Qed.

Lemma enqueued_next m rq t l u :
  rq_ok m rq l -> all_apart (l ++ [t]) -> u ∈ l -> Some u <> last l ->
  t_next (enqueued m rq t) u = t_next m u.
Proof.
  intros Hrq Hap Hu Hlast. apply all_apart_app in Hap as (Hl & [Ht _] & Hlt).
  assert (Hok : thread_ok u) by (by eapply all_apart_ok).
  assert (Hut : threads_apart u t) by (apply Hlt; [done|by left]).
  unfold enqueued. erewrite (t_next_other u t); [|done|done|by apply set_t_next_inside].
  destruct (Z.eqb_spec (head rq) 0); [by eapply t_next_other; [..|apply set_t_state_inside]|].
  destruct (last l) as [w|] eqn:Hw; [|by apply last_None in Hw as ->; apply elem_of_nil in Hu].
  rewrite (ro_tail _ _ _ Hrq), Hw. cbn [default id].
  apply last_Some in Hw as [l0 ->]. apply all_apart_app in Hl as (_ & [Hw _] & H0).
  apply elem_of_app in Hu as [Hu|Hu]; [|apply list_elem_of_singleton in Hu; congruence].
  erewrite (t_next_other u w); [|done|by apply H0; [|left]|by apply set_t_next_inside].
  by eapply t_next_other; [..|apply set_t_state_inside].
Qed.

Lemma threads_apart_ne t u : threads_apart t u -> t <> u.
Proof. intros Ha ->. unfold threads_apart, SIZEOF_THREAD in Ha. lia. Qed.

Lemma enqueue_ok m rq l t ml lk :
  rq_ok m rq l -> all_apart (l ++ [t]) -> Z.of_nat (length l) + 1 < 2 ^ 32 ->
  rq_ok (enqueued m rq t)
    (Runqueue (if head rq =? 0 then t else head rq) t (u32 (nr_running rq + 1)) ml lk) (l ++ [t]).
Proof.
  intros Hrq Hap Hlen. pose proof Hap as Hap'. apply all_apart_app in Hap as (Hl & [Ht _] & Hlt).
  split; cbn [head tail nr_running].
  - destruct (last l) as [w|] eqn:Hw.
    + pose proof (ro_tail _ _ _ Hrq) as Htail. rewrite Hw in Htail. cbn [default id] in Htail.
      apply last_Some in Hw as [l0 ->].
      pose proof Hl as Hl'. apply all_apart_app in Hl' as (_ & [Hwok _] & H0).
      pose proof (ro_seg _ _ _ Hrq) as Hseg. apply qseg_app in Hseg as (q & Hs0 & -> & Hnext).
      assert (Hh : head rq <> 0).
      { destruct l0 as [|x l0]; simpl in Hs0; [destruct Hwok; lia|]. destruct Hs0 as [-> _].
        destruct Hl as [[? _] _]. lia. }
      rewrite (proj2 (Z.eqb_neq _ _) Hh). rewrite <- app_assoc. apply qseg_app. exists w.
      split; [|split; [done|split]].
      * eapply qseg_ext; [|exact Hs0]. intros u Hu. apply (enqueued_next m rq t (l0 ++ [w])); [done..| |].
        { rewrite elem_of_app. auto. }
        rewrite last_snoc. intros [= ->]. by apply (threads_apart_ne w w); [apply H0; [|left]|].
      * unfold enqueued. rewrite (proj2 (Z.eqb_neq _ _) Hh), Htail.
        erewrite (t_next_other w t); [|done| |by apply set_t_next_inside].
        -- rewrite t_next_set by done. apply u64_small. destruct Ht. lia.
        -- apply Hlt; [rewrite elem_of_app; right; by left|by left].
      * unfold enqueued. by rewrite t_next_set by done.
    + apply last_None in Hw as ->. pose proof (ro_seg _ _ _ Hrq) as Hseg. simpl in Hseg.
      rewrite Hseg, Z.eqb_refl. split; [done|]. unfold enqueued. by rewrite t_next_set by done.
  - by rewrite last_snoc.
  - rewrite (ro_count _ _ _ Hrq), length_app. simpl. rewrite u32_small by lia. lia.
  - rewrite length_app. simpl. lia.
Qed.

(** Memory enqueue may write: the new thread's state and link, the old tail's
    link. *)
Lemma enqueued_state m rq l t u :
  rq_ok m rq l -> all_apart (l ++ [t]) -> u ∈ l -> t_state (enqueued m rq t) u = t_state m u.
Proof.
  intros Hrq Hap Hu. apply all_apart_app in Hap as (Hl & [Ht _] & Hlt).
  assert (Hok : thread_ok u) by (by eapply all_apart_ok).
  assert (Hut : threads_apart u t) by (apply Hlt; [done|by left]).
  unfold enqueued. erewrite (t_state_other u t); [|done|done|by apply set_t_next_inside].
  assert (E : t_state (set_t_state t TASK_RUNNING m) u = t_state m u)
    by (by eapply t_state_other; [..|apply set_t_state_inside]).
  destruct (Z.eqb_spec (head rq) 0); [done|]. rewrite <- E.
  rewrite (ro_tail _ _ _ Hrq). destruct (last l) as [w|] eqn:Hw; cbn [default id].
  - eapply t_state_frame; [done|apply set_t_next_frame|].
    { apply last_Some in Hw as [l0 ->]. eapply all_apart_ok; [exact Hl|]. rewrite elem_of_app. right. by left. }
    apply last_Some in Hw as [l0 ->]. apply all_apart_app in Hl as (_ & _ & H0).
    apply elem_of_app in Hu as [Hu|Hu].
    + specialize (H0 u w Hu ltac:(by left)). unfold threads_apart, SIZEOF_THREAD in H0. lia.
    + apply list_elem_of_singleton in Hu as ->. lia.
  - apply last_None in Hw as ->. by apply elem_of_nil in Hu.
Qed.

Lemma enqueued_running m rq l t :
  rq_ok m rq l -> all_apart (l ++ [t]) -> t_state (enqueued m rq t) t = TASK_RUNNING.
Proof.
  intros Hrq Hap. apply all_apart_app in Hap as (Hl & [Ht _] & Hlt).
  unfold enqueued. erewrite t_state_frame; [|done|by apply set_t_next_frame|lia].
  destruct (Z.eqb_spec (head rq) 0); [apply t_state_set|].
  rewrite (ro_tail _ _ _ Hrq). destruct (last l) as [w|] eqn:Hw; cbn [default id].
  - apply last_Some in Hw as [l0 ->].
    assert (Hw : w ∈ l0 ++ [w]) by (rewrite elem_of_app; right; by left).
    rewrite (t_state_other t w (set_t_state t TASK_RUNNING m)); [apply t_state_set|done|..].
    + apply threads_apart_sym, Hlt; [done|by left].
    + apply set_t_next_inside. by eapply all_apart_ok.
  - apply last_None in Hw as ->. pose proof (ro_seg _ _ _ Hrq). done.
Qed.

(** ** dequeue takes the first *)
Lemma dequeue_empty s i rq m :
  runqueues (sched s) !! i = Some rq -> rq_ok m rq [] -> dequeue i s = Ret 0 s.
Proof.
  intros Hi Hrq. pose proof (ro_seg _ _ _ Hrq) as Hh. simpl in Hh.
  unfold dequeue, get_rq. msimpl. by rewrite (rq_lookup _ _ _ Hi), Hh.
Qed.

Definition dequeued_rq (m : gmap Z Z) (rq : runqueue) : runqueue :=
  let h := t_next m (head rq) in
  Runqueue h (if h =? 0 then 0 else tail rq) (u32 (nr_running rq - 1)) (min_vruntime rq) (rqlock rq).

Lemma dequeue_run s i rq t l :
  runqueues (sched s) !! i = Some rq -> rq_ok (ram s) rq (t :: l) -> thread_ok t ->
  dequeue i s = Ret t (set_ram (set_t_next t 0 (ram s))
                  (set_sched (set_rqs s i (dequeued_rq (ram s) rq)) s)).
Proof.
  intros Hi Hrq [? _]. pose proof (head_nonnull _ _ _ _ Hrq) as Hh.
  assert (Hlt : (i < length (runqueues (sched s)))%nat) by (by eapply lookup_lt_Some).
  unfold dequeue, get_rq, upd_rq, dequeued_rq. msimpl. rewrite (rq_lookup _ _ _ Hi), Hh.
  test_false. msimpl. cbn [runqueues set_runqueues].
  rewrite (rq_lookup _ _ _ Hi), list_lookup_total_insert_eq by done. cbn [head set_head].
  destruct (t_next (ram s) t =? 0); msimpl; cbn [runqueues set_runqueues];
    rewrite ?list_lookup_total_insert_eq, ?list_insert_insert_eq by (rewrite ?length_insert; done);
    done.
Qed.

Lemma dequeue_ok m rq t l :
  rq_ok m rq (t :: l) -> all_apart (t :: l) ->
  rq_ok (set_t_next t 0 m) (dequeued_rq m rq) l.
Proof.
  intros Hrq (Ht & Hap & Hl). pose proof (ro_seg _ _ _ Hrq) as Hseg.
  cbn [qseg] in Hseg. destruct Hseg as [Hh Hseg]. rewrite Forall_forall in Hap.
  split; unfold dequeued_rq; cbn [head tail nr_running]; rewrite ?Hh.
  - eapply qseg_ext; [|exact Hseg]. intros u Hu.
    eapply t_next_other; [by eapply all_apart_ok|apply threads_apart_sym; by apply Hap|
      by apply set_t_next_inside].
  - rewrite (ro_tail _ _ _ Hrq). destruct l as [|u l]; simpl in Hseg; [by rewrite Hseg|].
    destruct Hseg as [-> _]. destruct Hl as [[? _] _]. test_false. done.
  - rewrite (ro_count _ _ _ Hrq). simpl. unfold u32.
    pose proof (ro_bound _ _ _ Hrq) as Hb. simpl in Hb. rewrite Z.mod_small by lia. lia.
  - pose proof (ro_bound _ _ _ Hrq) as Hb. simpl in Hb. lia.
Qed.
