(* ===== verification/SchedRun.v ===== *)
(** The runs of schedule on a well-formed run queue. *)
From S2P Require Import Prelude Machine Globals Strings Pmm Kmalloc Vmm Sched SchedFacts.

(** * Which bytes scheduling writes: the state and the link of some threads *)
Definition links_only (ts : list Z) (m m' : gmap Z Z) : Prop :=
  forall a, (forall t, t ∈ ts -> ~ (lin t + 4 <= a < lin t + 8) /\ ~ (lin t + 48 <= a < lin t + 56)) ->
    load8 m' a = load8 m a.

Lemma links_only_trans ts m1 m2 m3 :
  links_only ts m1 m2 -> links_only ts m2 m3 -> links_only ts m1 m3.
Proof. intros H1 H2 a Ha. by rewrite H2, H1. Qed.

Lemma links_only_refl ts m : links_only ts m m.
Proof. by intros a _. Qed.

Lemma links_next ts t v m : thread_ok t -> t ∈ ts -> links_only ts m (set_t_next t v m).
Proof.
  intros Ht Hin a Ha. destruct (Ha t Hin). apply set_t_next_frame; [done|]. lia.
Qed.

Lemma links_state ts t v m : thread_ok t -> t ∈ ts -> links_only ts m (set_t_state t v m).
Proof.
  intros Ht Hin a Ha. destruct (Ha t Hin). apply set_t_state_frame; [done|]. lia.
Qed.

(** Membership in a list of disjoint threads: the same thread or apart. *)
Lemma all_apart_elem l t u : all_apart l -> t ∈ l -> u ∈ l -> t = u \/ threads_apart t u.
Proof.
  induction l as [|x l IH]; intros Hl Ht Hu; [by apply elem_of_nil in Ht|].
  destruct Hl as (_ & Hx & Hl). rewrite Forall_forall in Hx.
  apply elem_of_cons in Ht as [->|Ht], Hu as [->|Hu]; auto.
  right. by apply threads_apart_sym, Hx.
Qed.

(** The other fields of the threads are kept. *)
Lemma links_field ts m m' u d n :
  all_apart ts -> links_only ts m m' -> u ∈ ts -> 8 <= d -> d + Z.of_nat n <= 48 ->
  load_le n m' (lin (u + d)) = load_le n m (lin (u + d)).
Proof.
  intros Hap Hm Hu Hd Hn. pose proof (all_apart_ok _ _ Hap Hu) as Hok.
  destruct (decide (n = 0%nat)) as [->|]; [done|].
  rewrite (thread_lin u Hok) by (unfold SIZEOF_THREAD; lia).
  apply load_le_ext. intros a Ha. apply Hm. intros t Ht.
  destruct (all_apart_elem _ _ _ Hap Ht Hu) as [->|Hapart]; [lia|].
  unfold threads_apart, SIZEOF_THREAD in Hapart. lia.
Qed.

Section fields.
Context (ts : list Z) (m m' : gmap Z Z) (Hap : all_apart ts) (Hm : links_only ts m m').
Lemma links_rsp u : u ∈ ts -> t_rsp m' u = t_rsp m u.
Proof. intros Hu. by apply (links_field ts m m' u 24 8). Qed.
Lemma links_kernel_stack u : u ∈ ts -> t_kernel_stack m' u = t_kernel_stack m u.
Proof. intros Hu. by apply (links_field ts m m' u 32 8). Qed.
Lemma links_parent u : u ∈ ts -> t_parent m' u = t_parent m u.
Proof. intros Hu. by apply (links_field ts m m' u 40 8). Qed.
End fields.

(** * States that differ in RAM and one run queue *)
Definition with_rq (s : kst) (i : nat) (m : gmap Z Z) (rq : runqueue) : kst :=
  set_ram m (set_sched (set_rqs s i rq) s).

Lemma with_rq_lookup s i m rq rq0 :
  runqueues (sched s) !! i = Some rq0 -> runqueues (sched (with_rq s i m rq)) !! i = Some rq.
Proof. intros Hi. simpl. apply list_lookup_insert_eq. by eapply lookup_lt_Some. Qed.

Lemma with_rq_with_rq s i m1 rq1 m2 rq2 :
  with_rq (with_rq s i m1 rq1) i m2 rq2 = with_rq s i m2 rq2.
Proof.
  unfold with_rq, set_rqs, set_runqueues. simpl. by rewrite list_insert_insert_eq.
Qed.

Lemma rq_ok_lock m rq l x : rq_ok m rq l -> rq_ok m (set_rqlock x rq) l.
Proof. intros []. by split. Qed.

Lemma rq_spin_lock_run s i rq :
  runqueues (sched s) !! i = Some rq -> rqlock rq = 0 ->
  rq_spin_lock i s = Ret tt (with_rq s i (ram s) (set_rqlock 1 rq)).
Proof.
  intros Hi Hl. unfold rq_spin_lock, get_rq, upd_rq. msimpl.
  rewrite (rq_lookup _ _ _ Hi), Hl. cbn [truthy Z.eqb negb]. by rewrite (rq_lookup _ _ _ Hi).
Qed.

Lemma rq_spin_unlock_run s i rq :
  runqueues (sched s) !! i = Some rq ->
  rq_spin_unlock i s = Ret tt (with_rq s i (ram s) (set_rqlock 0 rq)).
Proof. intros Hi. unfold rq_spin_unlock, upd_rq. msimpl. by rewrite (rq_lookup _ _ _ Hi). Qed.

(** * The choice of the next thread *)

(** The queue schedule looks at: the previous thread joins it if it is runnable. *)
Definition candidates (m : gmap Z Z) (prev : Z) (l : list Z) : list Z :=
  if negb (prev =? 0) && (t_state m prev =? TASK_RUNNING) then l ++ [prev] else l.

(** The threads schedule may touch. *)
Definition present_threads (prev : Z) (l : list Z) : list Z :=
  if prev =? 0 then l else l ++ [prev].

Section pick.
Context (s : kst) (i : nat) (rq : runqueue) (prev : Z) (l : list Z).
Context (Hi : runqueues (sched s) !! i = Some rq) (Hlock : rqlock rq = 0).
Context (Hrq : rq_ok (ram s) rq l) (Hap : all_apart (present_threads prev l)).
Context (Hlen : Z.of_nat (length l) + 1 < 2 ^ 32).

(** The state after the optional enqueue. *)
Lemma candidates_run :
  exists m1 rq1,
    (forall (A : Type) (K : M A), (rq_spin_lock i;; m ← gets ram;
       whenM (negb (prev =? 0) && (t_state m prev =? TASK_RUNNING)) (enqueue i prev);; K) s
     = K (with_rq s i m1 rq1))
    /\ rq_ok m1 rq1 (candidates (ram s) prev l) /\ rqlock rq1 = 1
    /\ links_only (present_threads prev l) (ram s) m1
    /\ (forall u, u ∈ present_threads prev l -> t_state m1 u = t_state (ram s) u).
Proof.
  pose proof (rq_ok_lock _ _ _ 1 Hrq) as Hrq1. set (rq0 := set_rqlock 1 rq) in *.
  assert (Estart : forall (A : Type) (K : M A), (rq_spin_lock i;; m ← gets ram;
      whenM (negb (prev =? 0) && (t_state m prev =? TASK_RUNNING)) (enqueue i prev);; K) s
    = (whenM (negb (prev =? 0) && (t_state (ram s) prev =? TASK_RUNNING)) (enqueue i prev);; K)
        (with_rq s i (ram s) rq0)).
  { intros A K. by rewrite (bind_ret _ _ _ _ _ (rq_spin_lock_run s i rq Hi Hlock)). }
  assert (Hskip : exists m1 rq1, (forall (A : Type) (K : M A),
      K (with_rq s i (ram s) rq0) = K (with_rq s i m1 rq1)) /\ rq_ok m1 rq1 l /\ rqlock rq1 = 1
    /\ links_only (present_threads prev l) (ram s) m1
    /\ (forall u, u ∈ present_threads prev l -> t_state m1 u = t_state (ram s) u)).
  { exists (ram s), rq0. split; [done|]. split; [done|]. split; [done|]. by split; [apply links_only_refl|]. }
  unfold candidates. destruct (negb (prev =? 0) && (t_state (ram s) prev =? TASK_RUNNING)) eqn:Econd.
  2: { destruct Hskip as (m1 & rq1 & E & Hrest). exists m1, rq1. split; [|done].
       intros A K. rewrite Estart. apply E. }
  apply andb_true_iff in Econd as [Hp%negb_true_iff Hrun%Z.eqb_eq].
  unfold present_threads in *. rewrite Hp in *.
  eexists _, _. split.
  { intros A K. rewrite Estart. cbn [whenM].
    rewrite (bind_ret _ _ _ _ _ (enqueue_run (with_rq s i (ram s) rq0) i rq0 prev
      ltac:(by eapply with_rq_lookup))).
    f_equal. change (set_ram ?m (set_sched (set_rqs ?x i ?q) ?x)) with (with_rq x i m q).
    rewrite with_rq_with_rq. reflexivity. }
  change (ram (with_rq s i (ram s) rq0)) with (ram s).
  split; [by apply enqueue_ok|]. split; [done|]. split.
  - pose proof Hap as Hap'. apply all_apart_app in Hap' as (Hl & [Hpok _] & _).
    assert (Hin : prev ∈ l ++ [prev]) by (rewrite elem_of_app; right; by left).
    unfold enqueued. eapply links_only_trans; [by apply (links_state _ prev)|].
    destruct (head rq0 =? 0) eqn:Eh; [by apply links_next|].
    eapply links_only_trans; [|by apply links_next].
    rewrite (ro_tail _ _ _ Hrq1). destruct (last l) as [w|] eqn:Hw; cbn [default id].
    + assert (Hwl : w ∈ l) by (apply last_Some in Hw as [l0 ->]; rewrite elem_of_app; right; by left).
      apply links_next; [by eapply all_apart_ok|]. rewrite elem_of_app. by left.
    + apply last_None in Hw as ->. pose proof (ro_seg _ _ _ Hrq1) as Hh. simpl in Hh.
      change (head rq0) with (head rq) in Eh. by rewrite Hh in Eh.
  - intros u [Hu|Hu%list_elem_of_singleton]%elem_of_app; [by eapply enqueued_state|].
    subst u. rewrite Hrun. by eapply enqueued_running.
Qed.

Lemma candidates_sub u : u ∈ candidates (ram s) prev l -> u ∈ present_threads prev l.
Proof.
  unfold candidates, present_threads. destruct (prev =? 0); cbn [negb andb]; [done|].
  destruct (_ =? _); [done|]. rewrite elem_of_app. auto.
Qed.

Lemma candidates_apart : all_apart (candidates (ram s) prev l).
Proof.
  unfold candidates, present_threads in *. destruct (prev =? 0); cbn [negb andb]; [done|].
  destruct (_ =? _); [done|]. by apply all_apart_app in Hap as [? _].
Qed.

Lemma pick_run :
  exists m1 rq1,
    (forall (A : Type) (K : Z -> M A), (rq_spin_lock i;; m ← gets ram;
       whenM (negb (prev =? 0) && (t_state m prev =? TASK_RUNNING)) (enqueue i prev);;
       next ← dequeue i; K next) s
     = K (hd 0 (candidates (ram s) prev l)) (with_rq s i m1 rq1))
    /\ rq_ok m1 rq1 (tl (candidates (ram s) prev l)) /\ rqlock rq1 = 1
    /\ links_only (present_threads prev l) (ram s) m1
    /\ (forall u, u ∈ present_threads prev l -> t_state m1 u = t_state (ram s) u).
Proof.
  destruct candidates_run as (m1 & rq1 & E & Hrq1 & Hl1 & Hlk & Hst).
  pose proof candidates_apart as Hca. pose proof candidates_sub as Hcs.
  set (s1 := with_rq s i m1 rq1).
  assert (Hi1 : runqueues (sched s1) !! i = Some rq1) by by eapply with_rq_lookup.
  destruct (candidates (ram s) prev l) as [|t q] eqn:Eq; cbn [hd tl].
  - exists m1, rq1. split; [|by auto]. intros A K. rewrite E.
    by rewrite (bind_ret _ _ _ _ _ (dequeue_empty s1 i rq1 m1 Hi1 Hrq1)).
  - destruct Hca as (Htok & Htap & Hq). assert (Htin : t ∈ present_threads prev l) by (apply Hcs; by left).
    exists (set_t_next t 0 m1), (dequeued_rq m1 rq1). split.
    + intros A K. rewrite E, (bind_ret _ _ _ _ _ (dequeue_run s1 i rq1 t q Hi1 Hrq1 Htok)).
      f_equal. unfold s1. change (ram (with_rq s i m1 rq1)) with m1.
      change (set_ram ?m (set_sched (set_rqs ?x i ?q) ?x)) with (with_rq x i m q).
      by rewrite with_rq_with_rq.
    + split; [by apply dequeue_ok|]. split; [done|]. split.
      * eapply links_only_trans; [done|by apply links_next].
      * intros u Hu. rewrite <- Hst by done.
        eapply t_state_frame; [exact (all_apart_ok _ _ Hap Hu)|by apply set_t_next_frame|].
        destruct (all_apart_elem _ _ _ Hap Hu Htin) as [->|Ha]; [lia|].
        unfold threads_apart, SIZEOF_THREAD in Ha. lia.
Qed.
End pick.

(** * schedule *)

(** The current CPU [c] has run queue [i], [rq], that holds the threads [l], and
    current thread [cur]. *)
Record on_cpu (s : kst) (c : Z) (i : nat) (cur : Z) (rq : runqueue) (l : list Z) : Prop := {
  oc_cpu : exists k, cpus (sched s) !! c = Some k /\ Z.to_nat (acpi_id k) = i /\ current_thread k = cur;
  oc_queue : runqueues (sched s) !! i = Some rq;
  oc_rq : rq_ok (ram s) rq l;
}.

(** schedule leaves [prev] for another thread. *)
Definition switches (prev next : Z) : bool :=
  negb (prev =? 0) && negb (next =? 0) && negb (prev =? next).

(** The page tables of thread [n], [c] when it has none of its own. *)
Definition switch_cr3 (m : gmap Z Z) (n c : Z) : Z :=
  if t_parent m n =? 0 then c
  else let v := p_cr3 m (t_parent m n) in if v =? 0 then c else v.

(** The process of [n] does not overlap the links of the threads [ts]. *)
Definition parent_apart (m : gmap Z Z) (ts : list Z) (n : Z) : Prop :=
  forall a t, lin (t_parent m n + 40) <= a < lin (t_parent m n + 40) + 8 -> t ∈ ts ->
    ~ (lin t <= a < lin t + SIZEOF_THREAD).

Definition set_current (s : kst) (c : Z) (k : cpu) (t : Z) : kst :=
  set_sched (Sched (runqueues (sched s)) (next_tid (sched s)) (next_pid (sched s))
    (<[c := Cpu (apic_id k) (acpi_id k) (lapic_base k) (tss_rsp0 k) t (online k) (bsp k)]>
       (cpus (sched s)))) s.

Lemma set_current_thread_run s c k t :
  cpus (sched s) !! c = Some k -> set_current_thread c t s = Ret tt (set_current s c k t).
Proof. intros Hc. unfold set_current_thread, modify. by rewrite Hc. Qed.

(** The switch proper. *)
Definition switched (s : kst) (rsp_register prev next : Z) : kst :=
  let cr := switch_cr3 (ram s) next (cr3 s) in
  let tr := EvTssRsp0 (t_kernel_stack (ram s) next) :: trace s in
  let tr := if cr =? cr3 s then tr else EvWriteCr3 cr :: tr in
  set_ram (set_t_rsp prev rsp_register (ram s))
    (set_cr3 cr (set_trace (EvSwitch (t_rsp_ptr prev) (t_rsp (ram s) next) :: tr) s)).

Lemma context_switch_run {A} (K : M A) r prev next s :
  thread_ok prev ->
  (m ← gets ram;
   emit (EvTssRsp0 (t_kernel_stack m next));;
   cr ← gets cr3;
   context_switch r (t_rsp_ptr prev) (t_rsp m next)
     (if negb (t_parent m next =? 0) then p_cr3 m (t_parent m next) else cr);; K) s
  = K (switched s r prev next).
Proof.
  intros [? _]. unfold context_switch, switched, switch_cr3. msimpl.
  assert (E : (t_rsp_ptr prev =? 0) = false) by (apply Z.eqb_neq; unfold t_rsp_ptr; lia).
  rewrite E. cbn [negb]. msimpl.
  set (m' := store64 _ _ _). destruct (t_parent (ram s) next =? 0); cbn [negb].
  - rewrite Z.eqb_refl. cbn [negb]. rewrite andb_false_r. msimpl. by destruct s.
  - set (v := p_cr3 _ _). destruct (Z.eqb_spec v 0) as [Ev|Ev]; cbn [negb andb].
    + rewrite Z.eqb_refl. msimpl. by destruct s.
    + destruct (Z.eqb_spec v (cr3 s)) as [->|]; cbn [negb]; msimpl; [|done]. by destruct s.
Qed.

(** The chosen thread is 0 exactly when there is no candidate. *)
Lemma hd_zero q : all_apart q -> (hd 0 q =? 0) = match q with [] => true | _ => false end.
Proof. destruct q as [|t q]; [done|]. intros [[? _] _]. simpl. apply Z.eqb_neq. lia. Qed.

Lemma on_cpu_ram s c i cur rq l s' rq' l' cur' k :
  cpus (sched s') !! c = Some k -> Z.to_nat (acpi_id k) = i -> current_thread k = cur' ->
  runqueues (sched s') !! i = Some rq' -> rq_ok (ram s') rq' l' -> on_cpu s c i cur rq l ->
  on_cpu s' c i cur' rq' l'.
Proof. intros. split; eauto. Qed.

(** Writing a saved rsp touches no link. *)
Lemma rq_ok_rsp m rq l t v :
  thread_ok t -> (forall u, u ∈ l -> thread_ok u /\ (u = t \/ threads_apart u t)) ->
  rq_ok m rq l -> rq_ok (set_t_rsp t v m) rq l.
Proof.
  intros Ht Hl [Hseg ? ? ?]. split; [|done..]. eapply qseg_ext; [|exact Hseg].
  intros u Hu. destruct (Hl u Hu) as [Hok Hut]. unfold set_t_rsp, t_rsp_ptr.
  rewrite (thread_lin t Ht) by (unfold SIZEOF_THREAD; lia).
  eapply t_next_frame; [done|apply (store_le_frame 8)|].
  destruct Hut as [->|Ha]; [lia|]. unfold threads_apart, SIZEOF_THREAD in Ha. lia.
Qed.

Lemma t_state_rsp m t v u :
  thread_ok t -> thread_ok u -> u = t \/ threads_apart u t ->
  t_state (set_t_rsp t v m) u = t_state m u.
Proof.
  intros Ht Hok Hut. unfold set_t_rsp, t_rsp_ptr.
  rewrite (thread_lin t Ht) by (unfold SIZEOF_THREAD; lia).
  eapply t_state_frame; [done|apply (store_le_frame 8)|].
  destruct Hut as [->|Ha]; [lia|]. unfold threads_apart, SIZEOF_THREAD in Ha. lia.
Qed.

Lemma suspended_cons t e tr :
  suspended_in_schedule t (e :: tr)
  = match e with EvSwitch o _ => o =? t_rsp_ptr t | _ => false end || suspended_in_schedule t tr.
Proof. done. Qed.

Lemma suspended_switched s r prev next :
  prev <> next ->
  suspended_in_schedule next (trace (switched s r prev next)) = suspended_in_schedule next (trace s).
Proof.
  intros Hne. unfold switched. cbn [trace set_ram set_cr3 set_trace]. rewrite suspended_cons.
  unfold t_rsp_ptr at 1 2. test_false. simpl. by destruct (_ =? _).
Qed.

(** The end of schedule, once [next] is chosen: the lock is 1 or released. *)
Definition finish (s : kst) (r : Z) (i : nat) (rq : runqueue) (prev next : Z) : kst :=
  if switches prev next then
    let s' := switched s r prev next in
    if suspended_in_schedule next (trace s) then with_rq s' i (ram s') (set_rqlock 0 rq) else s'
  else with_rq s i (ram s) (set_rqlock 0 rq).

Lemma schedule_run s c r i rq cur l :
  on_cpu s c i cur rq l -> rqlock rq = 0 -> all_apart (present_threads cur l) ->
  Z.of_nat (length l) + 1 < 2 ^ 32 ->
  let next := hd 0 (candidates (ram s) cur l) in
  exists m1 rq1 s2,
    schedule (fun _ => c) r s = Ret tt (finish s2 r i rq1 cur next)
    /\ s2 = (if next =? 0 then with_rq s i m1 rq1
             else match cpus (sched s) !! c with
                  | Some k => set_current (with_rq s i m1 rq1) c k next
                  | None => s
                  end)
    /\ rq_ok m1 rq1 (tl (candidates (ram s) cur l)) /\ rqlock rq1 = 1
    /\ links_only (present_threads cur l) (ram s) m1
    /\ (forall u, u ∈ present_threads cur l -> t_state m1 u = t_state (ram s) u).
Proof.
  intros [(k & Hk & Hki & Hkc) Hi Hrq] Hlock Hap Hlen next.
  destruct (pick_run s i rq cur l Hi Hlock Hrq Hap Hlen) as (m1 & rq1 & E & Hrq1 & Hl1 & Hlk & Hst).
  exists m1, rq1. eexists. split; [|split; [reflexivity|auto]].
  unfold schedule. unfold mbind at 1 2, M_bind at 1 2. unfold gets at 1 2.
  rewrite (lookup_total_correct _ _ _ Hk), Hki, Hkc. rewrite E. fold next.
  set (s1 := with_rq s i m1 rq1).
  assert (Hi1 : runqueues (sched s1) !! i = Some rq1) by by eapply with_rq_lookup.
  unfold finish, switches. destruct (Z.eqb_spec next 0) as [Hn|Hn].
  { rewrite andb_false_r. cbn [andb negb]. by apply rq_spin_unlock_run. }
  cbn [negb]. rewrite andb_true_r. rewrite Hk.
  rewrite (bind_ret _ _ _ _ _ (set_current_thread_run s1 c k next Hk)).
  set (s2 := set_current s1 c k next).
  assert (Hi2 : runqueues (sched s2) !! i = Some rq1) by done.
  destruct (Z.eqb_spec cur 0) as [Hc|Hc]; cbn [negb andb]; [by apply rq_spin_unlock_run|].
  destruct (Z.eqb_spec cur next) as [Hcn|Hcn]; cbn [negb]; [by apply rq_spin_unlock_run|].
  assert (Hcur : thread_ok cur).
  { apply (all_apart_ok _ _ Hap). unfold present_threads. test_false. rewrite elem_of_app. right. by left. }
  rewrite context_switch_run by done. unfold mbind, M_bind, gets. rewrite suspended_switched by done.
  destruct (suspended_in_schedule next (trace s2)); cbn [whenM]; [|done].
  by apply rq_spin_unlock_run.
Qed.
