(* ===== verification/SchedProps.v ===== *)
(** Properties of scheduler.c, each with a witness on concrete run queues. *)
From S2P Require Import Prelude Machine Globals Strings Pmm PmmProps Kmalloc Vmm.
From S2P Require Import Sched SchedFacts SchedRun.

(** The lock after schedule: held exactly when control went to a thread that
    does not resume inside schedule. *)
Definition lock_after (cur next : Z) (tr : list event) : Z :=
  if switches cur next && negb (suspended_in_schedule next tr) then 1 else 0.

Section outcome.
Context (s : kst) (c r : Z) (i : nat) (rq : runqueue) (cur : Z) (l : list Z).
Context (Hon : on_cpu s c i cur rq l) (Hlock : rqlock rq = 0).
Context (Hap : all_apart (present_threads cur l)) (Hlen : Z.of_nat (length l) + 1 < 2 ^ 32).

Let q : list Z := candidates (ram s) cur l.
Let next : Z := hd 0 q.

Lemma candidates_present u : u ∈ q -> u ∈ present_threads cur l.
Proof. apply candidates_sub. Qed.

Lemma cur_present : cur <> 0 -> cur ∈ present_threads cur l.
Proof. intros Hc. unfold present_threads. test_false. rewrite elem_of_app. right. by left. Qed.

(** The saved rsp of the previous thread is the only memory the switch itself
    writes. *)
Lemma switched_queue m1 rq1 s2 :
  switches cur next = true -> ram s2 = m1 -> rq_ok m1 rq1 (tl q) ->
  rq_ok (ram (switched s2 r cur next)) rq1 (tl q)
  /\ forall u, u ∈ present_threads cur l -> t_state (ram (switched s2 r cur next)) u = t_state m1 u.
Proof.
  intros Hsw <- Hrq. assert (Hc : cur <> 0).
  { intros E. unfold switches in Hsw. by rewrite E in Hsw. }
  pose proof (all_apart_ok _ _ Hap (cur_present Hc)) as Hcok.
  assert (Hany : forall u, u ∈ present_threads cur l -> thread_ok u /\ (u = cur \/ threads_apart u cur)).
  { intros u Hu. split; [by eapply all_apart_ok|]. by eapply all_apart_elem; [..|by apply cur_present]. }
  split.
  - apply rq_ok_rsp; [done| |done]. intros u Hu. apply Hany, candidates_present.
    destruct q; [done|]. simpl in Hu. rewrite elem_of_cons. auto.
  - intros u Hu. destruct (Hany u Hu). by apply t_state_rsp.
Qed.
End outcome.

(** The effects of a switch, newest first. *)
Definition switch_events (m : gmap Z Z) (cur next c : Z) : list event :=
  EvSwitch (t_rsp_ptr cur) (t_rsp m next)
  :: (if switch_cr3 m next c =? c then [] else [EvWriteCr3 (switch_cr3 m next c)])
  ++ [EvTssRsp0 (t_kernel_stack m next)].

(** What schedule leaves, on every branch. *)
Record outcome_of (s : kst) (c r : Z) (i : nat) (cur : Z) (l : list Z)
    (m1 : gmap Z Z) (s' : kst) (rq' : runqueue) : Prop := {
  so_queue :
    match candidates (ram s) cur l with
    | [] => on_cpu s' c i cur rq' []
    | next :: q => on_cpu s' c i next rq' q
    end;
  so_lock : rqlock rq' = lock_after cur (hd 0 (candidates (ram s) cur l)) (trace s);
  so_state : forall u, u ∈ present_threads cur l -> t_state (ram s') u = t_state (ram s) u;
  so_links : links_only (present_threads cur l) (ram s) m1;
  so_ram : ram s' = if switches cur (hd 0 (candidates (ram s) cur l)) then set_t_rsp cur r m1 else m1;
  so_trace : trace s' =
    (if switches cur (hd 0 (candidates (ram s) cur l))
     then switch_events m1 cur (hd 0 (candidates (ram s) cur l)) (cr3 s) else []) ++ trace s;
  so_cr3 : cr3 s' =
    if switches cur (hd 0 (candidates (ram s) cur l))
    then switch_cr3 m1 (hd 0 (candidates (ram s) cur l)) (cr3 s) else cr3 s;
}.

Lemma switched_trace s r prev next :
  trace (switched s r prev next) = switch_events (ram s) prev next (cr3 s) ++ trace s.
Proof. unfold switched, switch_events. cbn [trace set_ram set_cr3 set_trace]. by destruct (_ =? _). Qed.

(** The state before the last step of schedule, whatever thread is next. *)
Lemma schedule_prepared (s : kst) (c r : Z) (i : nat) (rq : runqueue) (cur : Z) (l : list Z) :
  on_cpu s c i cur rq l -> rqlock rq = 0 -> all_apart (present_threads cur l) ->
  Z.of_nat (length l) + 1 < 2 ^ 32 ->
  let q := candidates (ram s) cur l in
  exists m1 rq1 s2, schedule (fun _ => c) r s = Ret tt (finish s2 r i rq1 cur (hd 0 q))
  /\ (ram s2 = m1 /\ trace s2 = trace s /\ cr3 s2 = cr3 s)
  /\ runqueues (sched s2) !! i = Some rq1 /\ rqlock rq1 = 1 /\ rq_ok m1 rq1 (tl q)
  /\ (exists k', cpus (sched s2) !! c = Some k' /\ Z.to_nat (acpi_id k') = i
       /\ current_thread k' = match q with [] => cur | n :: _ => n end)
  /\ links_only (present_threads cur l) (ram s) m1
  /\ (forall u, u ∈ present_threads cur l -> t_state m1 u = t_state (ram s) u).
Proof.
  intros Hon Hlock Hap Hlen q.
  destruct (schedule_run s c r i rq cur l Hon Hlock Hap Hlen)
    as (m1 & rq1 & s2 & E & Es2 & Hrq1 & Hl1 & Hlk & Hst).
  pose proof Hon as [(k & Hk & Hki & Hkc) Hi Hrq].
  rewrite Hk, (hd_zero _ (candidates_apart s cur l Hap)) in Es2. fold q in Es2, Hrq1.
  exists m1, rq1, s2. split; [exact E|]. split; [rewrite Es2; by destruct q|]. split; [|split; [done|split; [done|split]]].
  - rewrite Es2. destruct q; by eapply (with_rq_lookup s i m1 rq1).
  - rewrite Es2. destruct q as [|n q']; [by exists k|]. eexists. split; [apply lookup_insert_eq|done].
  - by split.
Qed.

Lemma schedule_outcome (s : kst) (c r : Z) (i : nat) (rq : runqueue) (cur : Z) (l : list Z) :
  on_cpu s c i cur rq l -> rqlock rq = 0 -> all_apart (present_threads cur l) ->
  Z.of_nat (length l) + 1 < 2 ^ 32 ->
  exists m1 s' rq', schedule (fun _ => c) r s = Ret tt s' /\ outcome_of s c r i cur l m1 s' rq'.
Proof.
  intros Hon Hlock Hap Hlen. destruct (schedule_prepared s c r i rq cur l Hon Hlock Hap Hlen)
    as (m1 & rq1 & s2 & E & (Hram2 & Htr2 & Hcr2) & Hi2 & Hlk & Hrq1 & Hcpu2 & Hl1 & Hst).
  pose proof (switched_queue s r cur l Hap m1 rq1 s2) as Hsq.
  revert E Hcpu2 Hrq1 Hsq. set (q := candidates (ram s) cur l).
  set (next := hd 0 q). intros E Hcpu2 Hrq1 Hsq. unfold finish in E.
  exists m1. destruct (switches cur next) eqn:Hsw.
  - destruct (Hsq eq_refl Hram2 Hrq1) as [Hrq3 Hst3]. clear Hsq. rewrite Htr2 in E.
    pose proof (switched_trace s2 r cur next) as Htr3. rewrite Hram2, Htr2, Hcr2 in Htr3.
    assert (Hram3 : ram (switched s2 r cur next) = set_t_rsp cur r m1) by (by rewrite <- Hram2).
    assert (Hcr3 : cr3 (switched s2 r cur next) = switch_cr3 m1 next (cr3 s))
      by (by rewrite <- Hram2, <- Hcr2).
    set (s3 := switched s2 r cur next) in *.
    assert (Hi3 : runqueues (sched s3) !! i = Some rq1) by exact Hi2.
    assert (Hst4 : forall u, u ∈ present_threads cur l -> t_state (ram s3) u = t_state (ram s) u)
      by (intros u Hu; by rewrite Hst3, Hst).
    destruct (suspended_in_schedule next (trace s)) eqn:Esus.
    + eexists _, (set_rqlock 0 rq1). split; [exact E|].
      pose proof (with_rq_lookup s3 i (ram s3) (set_rqlock 0 rq1) rq1 Hi3) as Hi4.
      pose proof (rq_ok_lock (ram s3) rq1 (tl q) 0 Hrq3) as Hrq4.
      constructor; fold q next; rewrite ?Hsw; auto.
      * destruct q; (split; [exact Hcpu2|exact Hi4|exact Hrq4]).
      * unfold lock_after. by rewrite Hsw, Esus.
    + exists s3, rq1. split; [exact E|]. constructor; fold q next; rewrite ?Hsw; auto.
      * destruct q; (split; [exact Hcpu2|exact Hi3|exact Hrq3]).
      * unfold lock_after. by rewrite Hsw, Esus.
  - eexists _, (set_rqlock 0 rq1). split; [exact E|].
    pose proof (with_rq_lookup s2 i (ram s2) (set_rqlock 0 rq1) rq1 Hi2) as Hi4.
    pose proof (rq_ok_lock m1 rq1 (tl q) 0 Hrq1) as Hrq4. rewrite <- Hram2 in Hrq4.
    constructor; fold q next; rewrite ?Hsw; auto.
    + destruct q; (split; [exact Hcpu2|exact Hi4|exact Hrq4]).
    + unfold lock_after. by rewrite Hsw.
    + intros u Hu. rewrite <- Hst, <- Hram2 by done. done.
Qed.

(** C17 schedule refines the abstract round robin: the running thread, if it is
    runnable, goes to the end of the queue, and the first thread of the queue
    leaves it and becomes the current one (nothing changes when there is none).
    No thread's state changes, and the run queue's lock is free again unless
    control went to a thread that was never suspended in schedule. *)
Theorem schedule_refines (s : kst) (c r : Z) (i : nat) (rq : runqueue) (cur : Z) (l : list Z) :
  on_cpu s c i cur rq l -> rqlock rq = 0 -> all_apart (present_threads cur l) ->
  Z.of_nat (length l) + 1 < 2 ^ 32 ->
  exists s' rq',
    schedule (fun _ => c) r s = Ret tt s'
    /\ match candidates (ram s) cur l with
       | [] => on_cpu s' c i cur rq' []
       | next :: q => on_cpu s' c i next rq' q
       end
    /\ rqlock rq' = lock_after cur (hd 0 (candidates (ram s) cur l)) (trace s)
    /\ forall u, u ∈ present_threads cur l -> t_state (ram s') u = t_state (ram s) u.
Proof.
  intros Hon Hlock Hap Hlen.
  destruct (schedule_outcome s c r i rq cur l Hon Hlock Hap Hlen) as (m1 & s' & rq' & E & []).
  eauto 10.
Qed.

(** When schedule leaves a thread for another one, it loads the other's
    kernel stack into the TSS, saves rsp in the struct of the thread it leaves,
    loads the page tables of the other's process if there are any and they are
    not loaded already, and continues at the rsp the other one saved. *)
Theorem schedule_switches (s : kst) (c r : Z) (i : nat) (rq : runqueue) (cur next : Z) (l q : list Z) :
  on_cpu s c i cur rq l -> rqlock rq = 0 -> all_apart (present_threads cur l) ->
  Z.of_nat (length l) + 1 < 2 ^ 32 ->
  candidates (ram s) cur l = next :: q -> cur <> 0 -> next <> cur ->
  parent_apart (ram s) (present_threads cur l) next ->
  exists s',
    schedule (fun _ => c) r s = Ret tt s'
    /\ trace s' = switch_events (ram s) cur next (cr3 s) ++ trace s
    /\ cr3 s' = switch_cr3 (ram s) next (cr3 s)
    /\ t_rsp (ram s') cur = u64 r
    /\ forall u, u ∈ present_threads cur l -> u <> cur -> t_rsp (ram s') u = t_rsp (ram s) u.
Proof.
  intros Hon Hlock Hap Hlen Hq Hc Hne Hpar.
  destruct (schedule_outcome s c r i rq cur l Hon Hlock Hap Hlen) as (m1 & s' & rq' & E & [_ _ _ Hl Hm Ht H3]).
  rewrite Hq in Hm, Ht, H3. cbn [hd] in Hm, Ht, H3.
  assert (Hnext : next ∈ present_threads cur l) by (apply (candidates_sub s cur l); rewrite Hq; by left).
  assert (Hcur : cur ∈ present_threads cur l) by (by eapply cur_present).
  pose proof (all_apart_ok _ _ Hap Hnext) as [? _].
  assert (Hsw : switches cur next = true) by (unfold switches; by repeat test_false).
  rewrite Hsw in Hm, Ht, H3.
  assert (Hcr : switch_cr3 m1 next (cr3 s) = switch_cr3 (ram s) next (cr3 s)).
  { unfold switch_cr3. rewrite (links_parent _ _ _ Hap Hl next Hnext). destruct (_ =? _); [done|].
    unfold p_cr3. erewrite load_le_ext; [done|]. intros a Ha. apply Hl. intros t Htin.
    pose proof (Hpar a t Ha Htin). unfold SIZEOF_THREAD in *. lia. }
  exists s'. split; [exact E|]. rewrite Ht, H3, Hm, Hcr. split; [|split; [done|split]].
  - unfold switch_events. rewrite Hcr, (links_rsp _ _ _ Hap Hl next Hnext).
    by rewrite (links_kernel_stack _ _ _ Hap Hl next Hnext).
  - unfold t_rsp, set_t_rsp. apply load64_store64.
  - intros u Hu Huc. rewrite <- (links_rsp _ _ _ Hap Hl u Hu).
    destruct (all_apart_elem _ _ _ Hap Hu Hcur) as [->|Ha]; [done|].
    pose proof (all_apart_ok _ _ Hap Hcur) as Hok. unfold set_t_rsp, t_rsp_ptr.
    rewrite (thread_lin cur Hok) by (unfold SIZEOF_THREAD; lia).
    eapply t_rsp_frame; [exact (all_apart_ok _ _ Hap Hu)|apply (store_le_frame 8)|].
    unfold threads_apart, SIZEOF_THREAD in Ha. lia.
Qed.

(** * Successive calls of schedule *)

(** One call for each element of [rs], the rsp each call finds. *)
Fixpoint schedules (c : Z) (rs : list Z) : M unit :=
  match rs with
  | [] => mret tt
  | r :: rs' => schedule (fun _ => c) r;; schedules c rs'
  end.

(** CPU [c] runs [cur], all threads of [cur :: l] are runnable, and those of the
    queue [l] were left inside schedule. *)
Record rotation (s : kst) (c : Z) (i : nat) (cur : Z) (l : list Z) : Prop := {
  rot_cpu : exists rq, on_cpu s c i cur rq l /\ rqlock rq = 0;
  rot_cur : cur <> 0;
  rot_apart : all_apart (l ++ [cur]);
  rot_running : forall t, t ∈ l ++ [cur] -> t_state (ram s) t = TASK_RUNNING;
  rot_suspended : forall t, t ∈ l -> suspended_in_schedule t (trace s) = true;
  rot_bound : Z.of_nat (length l) + 1 < 2 ^ 32;
}.

Lemma suspended_app t tr tr' :
  suspended_in_schedule t (tr ++ tr') = suspended_in_schedule t tr || suspended_in_schedule t tr'.
Proof. apply existsb_app. Qed.

Lemma suspended_switch_events t m cur next c :
  suspended_in_schedule t (switch_events m cur next c) = (cur =? t).
Proof.
  unfold switch_events. rewrite suspended_cons, suspended_app. unfold t_rsp_ptr.
  replace (cur + 24 =? t + 24) with (cur =? t) by (case_tests; lia).
  destruct (switch_cr3 m next c =? c); simpl; by destruct (cur =? t).
Qed.

Lemma rotation_step s c i cur l r next q :
  rotation s c i cur l -> l ++ [cur] = next :: q ->
  exists s', schedule (fun _ => c) r s = Ret tt s' /\ rotation s' c i next q.
Proof.
  intros [(rq & Hon & Hlock) Hc Hap Hrun Hsus Hlen] Hq.
  assert (Hpres : present_threads cur l = l ++ [cur]) by (unfold present_threads; by test_false).
  assert (Hcand : candidates (ram s) cur l = next :: q).
  { unfold candidates. rewrite Hrun, Z.eqb_refl by (rewrite elem_of_app; right; by left).
    by test_false. }
  rewrite <- Hpres in Hap.
  destruct (schedule_outcome s c r i rq cur l Hon Hlock Hap Hlen) as (m1 & s' & rq' & E & [Hon' Hlk Hst _ _ Htr _]).
  exists s'. split; [exact E|]. rewrite Hcand in Hon', Hlk, Htr. cbn [hd] in Hlk, Htr.
  rewrite Hpres in Hst, Hap. rewrite Hq in Hap, Hst, Hrun.
  pose proof (all_apart_ok _ next Hap ltac:(by left)) as [Hn _].
  assert (Hcase : next = cur /\ l = [] /\ q = [] \/ next <> cur /\ exists l', l = next :: l' /\ q = l' ++ [cur]).
  { destruct l as [|x l']; simplify_eq/=; [by left|]. right. split; [|by exists l'].
    destruct Hap as (_ & Hx & _). rewrite Forall_forall in Hx. intros ->.
    specialize (Hx cur). unfold threads_apart, SIZEOF_THREAD in Hx.
    rewrite elem_of_app in Hx. specialize (Hx ltac:(right; by left)). lia. }
  assert (Hsub : forall t, t ∈ q ++ [next] -> t ∈ next :: q) by (intros t; rewrite elem_of_app, !elem_of_cons, elem_of_nil; tauto).
  split; [exists rq'; split; [done|]|lia|by apply (all_apart_rotate [next] q)|..].
  - rewrite Hlk. unfold lock_after, switches. destruct Hcase as [(-> & _)|(Hne & l' & -> & _)].
    + by rewrite Z.eqb_refl, andb_false_r.
    + rewrite (Hsus next) by by left. by rewrite andb_false_r.
  - intros t Ht%Hsub. rewrite Hst by done. by apply Hrun.
  - intros t Ht. rewrite Htr. destruct Hcase as [(_ & _ & ->)|(Hne & l' & -> & ->)]; [by apply elem_of_nil in Ht|].
    unfold switches. repeat test_false. cbn [negb andb].
    rewrite suspended_app, suspended_switch_events.
    apply elem_of_app in Ht as [Ht|Ht%list_elem_of_singleton].
    + rewrite Hsus by by right. apply orb_true_r.
    + subst t. by rewrite Z.eqb_refl.
  - apply (f_equal length) in Hq. rewrite length_app in Hq. simpl in Hq. lia.
Qed.

Lemma rotate_S {A} k (x y : A) l q :
  rotate k (x :: l) = y :: q -> rotate (S k) (x :: l) = q ++ [y].
Proof.
  intros Hr. apply list_eq. intros j. set (n := S (length l)).
  assert (Hn : length (x :: l) = n) by done.
  assert (Hlen : length (y :: q) = n) by (rewrite <- Hr, length_rotate; done).
  destruct (decide (j < n)%nat) as [Hj|Hj].
  - rewrite lookup_rotate_r by (by rewrite Hn). unfold rotate_nat_add. rewrite Hn.
    destruct (decide (j = length q)) as [->|Hjq].
    + rewrite lookup_app_r, Nat.sub_diag by lia. simpl in Hlen.
      pose proof (lookup_rotate_r (x :: l) k 0) as H0. rewrite Hr, Hn in H0. change ((y :: q) !! 0%nat) with (Some y) in H0.
      change ([y] !! 0%nat) with (Some y). rewrite H0 by lia.
      unfold rotate_nat_add. f_equal.
      replace (Z.of_nat (S k) + Z.of_nat (length q)) with (Z.of_nat k + 1 * Z.of_nat n) by lia.
      rewrite Z.mod_add by lia. f_equal. f_equal. lia.
    + simpl in Hlen. rewrite lookup_app_l by lia.
      pose proof (lookup_rotate_r (x :: l) k (S j)) as H0. rewrite Hr, Hn in H0. change ((y :: q) !! S j) with (q !! j) in H0.
      rewrite H0 by lia. unfold rotate_nat_add. f_equal. f_equal. f_equal. lia.
  - rewrite !lookup_ge_None_2; [done| |rewrite length_rotate, Hn; lia].
    rewrite length_app. simpl in *. lia.
Qed.

Lemma schedules_rotate c i l0 rs : forall k s cur l,
  rotation s c i cur l -> rotate k l0 = cur :: l ->
  exists s' cur' l', schedules c rs s = Ret tt s' /\ rotation s' c i cur' l'
    /\ rotate (k + length rs) l0 = cur' :: l'.
Proof.
  induction rs as [|r rs IH]; intros k s cur l Hrot Hk; cbn [schedules length].
  { exists s, cur, l. by rewrite Nat.add_0_r. }
  destruct l0 as [|x l0]; [unfold rotate in Hk; by rewrite drop_nil, take_nil in Hk|].
  apply rotate_S in Hk. destruct (l ++ [cur]) as [|next q] eqn:Hq; [by destruct l|].
  destruct (rotation_step s c i cur l r next q Hrot Hq) as (s1 & E & Hrot1).
  rewrite (bind_ret _ _ _ _ _ E), Nat.add_succ_r.
  apply (IH (S k) s1 next q Hrot1 Hk).
Qed.

(** Round robin: when all threads are runnable and those in the queue were left
    inside schedule, n calls of schedule make thread number n (modulo their
    number) of the queue the current one, so that every thread runs again and
    again; after each call the lock is free and the queue holds the others, in
    their order.

    This is what the loop is meant to give, not what the kernel gets: the queue
    never comes to hold two threads that were left inside schedule, since the
    first switch to a new thread is the last ([third_schedule_hangs]). *)
Theorem schedule_round_robin (s : kst) (c : Z) (i : nat) (cur : Z) (l rs : list Z) :
  rotation s c i cur l ->
  exists s' cur' l', schedules c rs s = Ret tt s' /\ rotation s' c i cur' l'
    /\ cur' :: l' = rotate (length rs) (cur :: l)
    /\ (cur :: l) !! (length rs mod S (length l))%nat = Some cur'.
Proof.
  intros Hrot. destruct (schedules_rotate c i (cur :: l) rs 0 s cur l Hrot) as (s' & cur' & l' & E & Hr & Hk).
  { unfold rotate. rewrite Nat.Div0.mod_0_l. simpl. by rewrite app_nil_r. }
  exists s', cur', l'. do 2 (split; [done|]). split; [done|].
  pose proof (lookup_rotate_r (cur :: l) (length rs) 0) as H0.
  rewrite Nat.add_0_l in Hk. rewrite Hk in H0. cbn [length lookup list_lookup] in H0.
  rewrite H0 by lia. f_equal. unfold rotate_nat_add. cbn [length].
  rewrite Z.add_0_r, <- Nat2Z.inj_mod. lia.
Qed.

(** * Witnesses *)
Module SchedExample.
(** CPU 0 runs thread [t0]; [t1] and [t2] wait and were left inside schedule. *)
Definition c : Z := 0x5000.
Definition t0 : Z := 0x10000.
Definition t1 : Z := 0x10040.
Definition t2 : Z := 0x10080.
Definition rq : runqueue := Runqueue t1 t2 2 0 0.
Definition g : sched_globals :=
  Sched (rq :: replicate 7 (Runqueue 0 0 0 0 0)) 4 4 {[ c := Cpu 0 0 0 0 t0 true true ]}.
Definition m : gmap Z Z := set_t_next t1 t2 ∅.
Definition s : kst :=
  set_trace [EvSwitch (t_rsp_ptr t1) 0; EvSwitch (t_rsp_ptr t2) 0]
    (set_ram m (set_sched g PmmExample.s)).
(** The same, but [t1] has never run. *)
Definition fresh_s : kst := set_trace [EvSwitch (t_rsp_ptr t2) 0] s.

(** No thread runs yet, and none has. *)
Definition idle_s : kst :=
  set_trace [] (set_sched (Sched (rq :: replicate 7 (Runqueue 0 0 0 0 0)) 4 4 {[ c := Cpu 0 0 0 0 0 true true ]}) s).

Lemma s_apart : all_apart ([t1; t2] ++ [t0]).
Proof.
  assert (H : forall t, t = t0 \/ t = t1 \/ t = t2 -> thread_ok t).
  { unfold thread_ok, one_half, SIZEOF_THREAD, KERNEL_HIGHER_HALF, t0, t1, t2. lia. }
  assert (Hl : lin t0 = t0 /\ lin t1 = t1 /\ lin t2 = t2) by by vm_compute.
  destruct Hl as (E0 & E1 & E2). simpl.
  repeat split; try (apply H; auto); repeat constructor; unfold threads_apart;
    rewrite ?E0, ?E1, ?E2; unfold t0, t1, t2, SIZEOF_THREAD; lia.
Qed.

Lemma s_on_cpu : on_cpu s c 0 t0 rq [t1; t2].
Proof.
  split; [by eexists; split; [apply lookup_singleton_eq|]|done|].
  split; [by vm_compute|done|done|simpl; lia].
Qed.

Lemma s_candidates : candidates m t0 [t1; t2] = [t1; t2; t0].
Proof. by vm_compute. Qed.

Lemma s_rotation : rotation s c 0 t0 [t1; t2].
Proof.
  split; [exists rq; split; [apply s_on_cpu|done]|done|apply s_apart| | |simpl; lia].
  - intros t Ht. simpl in Ht. rewrite !elem_of_cons, elem_of_nil in Ht.
    destruct Ht as [->|[->|[->|[]]]]; by vm_compute.
  - intros t Ht. rewrite !elem_of_cons, elem_of_nil in Ht.
    destruct Ht as [->|[->|[]]]; by vm_compute.
Qed.
End SchedExample.

Lemma schedule_refines_witness :
  exists s' rq',
    schedule (fun _ => SchedExample.c) 0x7000 SchedExample.s = Ret tt s'
    /\ match candidates (ram SchedExample.s) SchedExample.t0 [SchedExample.t1; SchedExample.t2] with
       | [] => on_cpu s' SchedExample.c 0 SchedExample.t0 rq' []
       | next :: q => on_cpu s' SchedExample.c 0 next rq' q
       end
    /\ rqlock rq' = lock_after SchedExample.t0
         (hd 0 (candidates (ram SchedExample.s) SchedExample.t0 [SchedExample.t1; SchedExample.t2]))
         (trace SchedExample.s)
    /\ forall u, u ∈ present_threads SchedExample.t0 [SchedExample.t1; SchedExample.t2] ->
         t_state (ram s') u = t_state (ram SchedExample.s) u.
Proof.
  apply (schedule_refines SchedExample.s SchedExample.c 0x7000 0 SchedExample.rq);
    [apply SchedExample.s_on_cpu|reflexivity|apply SchedExample.s_apart|simpl; lia].
Defined.

Lemma schedule_switches_witness :
  exists s',
    schedule (fun _ => SchedExample.c) 0x7000 SchedExample.s = Ret tt s'
    /\ trace s' = switch_events (ram SchedExample.s) SchedExample.t0 SchedExample.t1
         (cr3 SchedExample.s) ++ trace SchedExample.s
    /\ cr3 s' = switch_cr3 (ram SchedExample.s) SchedExample.t1 (cr3 SchedExample.s)
    /\ t_rsp (ram s') SchedExample.t0 = u64 0x7000
    /\ forall u, u ∈ present_threads SchedExample.t0 [SchedExample.t1; SchedExample.t2] ->
         u <> SchedExample.t0 -> t_rsp (ram s') u = t_rsp (ram SchedExample.s) u.
Proof.
  apply (schedule_switches SchedExample.s SchedExample.c 0x7000 0 SchedExample.rq
           SchedExample.t0 SchedExample.t1 _ [SchedExample.t2; SchedExample.t0]);
    [apply SchedExample.s_on_cpu|reflexivity|apply SchedExample.s_apart|simpl; lia
    |apply SchedExample.s_candidates|unfold SchedExample.t0; lia
    |unfold SchedExample.t0, SchedExample.t1; lia|].
  intros a t Ha Ht. change (ram SchedExample.s) with SchedExample.m in Ha.
  replace (lin (t_parent SchedExample.m SchedExample.t1 + 40)) with 40 in Ha by (by vm_compute).
  change (t ∈ [SchedExample.t1; SchedExample.t2; SchedExample.t0]) in Ht.
  rewrite !elem_of_cons, elem_of_nil in Ht.
  assert (Hlin : 0x10000 <= lin t) by (destruct Ht as [->|[->|[->|[]]]]; by vm_compute).
  lia.
Defined.

Lemma schedule_round_robin_witness :
  exists s' cur' l', schedules SchedExample.c [0x7000; 0x7100; 0x7200; 0x7300] SchedExample.s = Ret tt s'
    /\ rotation s' SchedExample.c 0 cur' l'
    /\ cur' :: l' = rotate 4 [SchedExample.t0; SchedExample.t1; SchedExample.t2]
    /\ [SchedExample.t0; SchedExample.t1; SchedExample.t2] !! (4 mod 3)%nat = Some cur'.
Proof.
  apply (schedule_round_robin SchedExample.s SchedExample.c 0 SchedExample.t0
           [SchedExample.t1; SchedExample.t2] [0x7000; 0x7100; 0x7200; 0x7300]).
  apply SchedExample.s_rotation.
Defined.

(** While the run queue is locked, schedule spins, whatever else has changed. *)
Lemma locked_schedule_hangs (s s' : kst) (c r : Z) (i : nat) (rq : runqueue) (cur : Z) (l : list Z) :
  on_cpu s c i cur rq l -> rqlock rq <> 0 -> sched s' = sched s -> schedule (fun _ => c) r s' = Hang s'.
Proof.
  intros [(k & Hk & Hki & _) Hi _] Hlk Es. rewrite <- Es in Hk, Hi.
  unfold schedule. unfold mbind at 1 2, M_bind at 1 2. unfold gets at 1 2.
  rewrite (lookup_total_correct _ _ _ Hk), Hki. unfold rq_spin_lock, get_rq, gets.
  unfold mbind, M_bind. by rewrite (rq_lookup _ _ _ Hi), (proj2 (truthy_true _) Hlk).
Qed.

(** A thread that never ran does not resume inside schedule, so nothing
    releases the run queue's lock after the first switch to it: the next call of
    schedule on that CPU, from the new thread, spins for ever. *)
Theorem schedule_fresh_thread_deadlock (s : kst) (c r : Z) (i : nat) (rq : runqueue)
    (cur next : Z) (l q : list Z) :
  on_cpu s c i cur rq l -> rqlock rq = 0 -> all_apart (present_threads cur l) ->
  Z.of_nat (length l) + 1 < 2 ^ 32 ->
  candidates (ram s) cur l = next :: q -> cur <> 0 -> next <> cur ->
  suspended_in_schedule next (trace s) = false ->
  exists m1 s' rq', schedule (fun _ => c) r s = Ret tt s' /\ outcome_of s c r i cur l m1 s' rq' /\ rqlock rq' = 1
    /\ forall s2 r', sched s2 = sched s' -> schedule (fun _ => c) r' s2 = Hang s2.
Proof.
  intros Hon Hlock Hap Hlen Hq Hc Hne Hsus.
  destruct (schedule_outcome s c r i rq cur l Hon Hlock Hap Hlen) as (m1 & s' & rq' & E & Ho).
  exists m1, s', rq'. split; [exact E|]. split; [done|]. destruct Ho as [Hon' Hlk _ _ _ _ _].
  pose proof (candidates_apart s cur l Hap) as Hca. rewrite Hq in *. destruct Hca as [[? _] _].
  cbn [hd] in Hlk. unfold lock_after, switches in Hlk. rewrite Hsus in Hlk.
  do 3 (rewrite (proj2 (Z.eqb_neq _ _)) in Hlk by lia). cbn in Hlk. split; [done|].
  intros s2 r' Es. by apply (locked_schedule_hangs s' s2 c r' i rq' next q Hon'); [rewrite Hlk|].
Qed.

(** C20 What the scheduler comes to after process_create has queued two threads and
    no thread runs yet.  The first call of schedule makes the first thread current
    but does not enter it.  The second takes the caller for that thread: it saves
    the caller's rsp in the thread's struct, over the pointer to the frame made for
    its start, puts it at the end of the queue and switches to the second thread,
    with the run queue locked.  That thread starts at its entry point, not inside
    schedule, so the lock stays held, and every later call of schedule on this CPU
    spins for ever, whatever has happened to the memory in between. *)
Theorem third_schedule_hangs (s : kst) (c r1 r2 : Z) (i : nat) (rq : runqueue) (t1 t2 : Z) (l : list Z) :
  on_cpu s c i 0 rq (t1 :: t2 :: l) -> rqlock rq = 0 -> all_apart (t1 :: t2 :: l) ->
  Z.of_nat (length l) + 3 < 2 ^ 32 ->
  t_state (ram s) t1 = TASK_RUNNING -> suspended_in_schedule t2 (trace s) = false ->
  exists s1 rq1 s2 rq2,
    schedule (fun _ => c) r1 s = Ret tt s1
    /\ on_cpu s1 c i t1 rq1 (t2 :: l) /\ rqlock rq1 = 0 /\ trace s1 = trace s
    /\ schedule (fun _ => c) r2 s1 = Ret tt s2
    /\ on_cpu s2 c i t2 rq2 (l ++ [t1]) /\ rqlock rq2 = 1
    /\ hd EvSti (trace s2) = EvSwitch (t_rsp_ptr t1) (t_rsp (ram s1) t2) /\ t_rsp (ram s2) t1 = u64 r2
    /\ forall s3 r3, sched s3 = sched s2 -> schedule (fun _ => c) r3 s3 = Hang s3.
Proof.
  intros Hon Hlock Hap Hlen Hrun Hsus.
  assert (Hlen1 : Z.of_nat (length (t1 :: t2 :: l)) + 1 < 2 ^ 32) by (cbn [length]; lia).
  destruct (schedule_outcome s c r1 i rq 0 _ Hon Hlock Hap Hlen1) as (m1 & s1 & rq1 & E1 & [Hon1 Hl1 Hst1 _ _ Ht1 _]).
  cbn in Hon1, Hl1, Ht1. exists s1, rq1.
  pose proof Hap as ([Hnz _] & Hfa & Hap'). apply Forall_cons in Hfa as [Ha12 _].
  pose proof (all_apart_ok _ t2 Hap ltac:(right; by left)) as [? _].
  assert (Hne : t2 <> t1) by (intros ->; unfold threads_apart, SIZEOF_THREAD in Ha12; lia).
  assert (Hp : present_threads t1 (t2 :: l) = (t2 :: l) ++ [t1]) by (unfold present_threads; by test_false).
  assert (Hap2 : all_apart (present_threads t1 (t2 :: l))) by (rewrite Hp; by apply (all_apart_rotate [t1] (t2 :: l))).
  assert (Hrun1 : t_state (ram s1) t1 = TASK_RUNNING) by (rewrite Hst1; [done|by left]).
  assert (Hq : candidates (ram s1) t1 (t2 :: l) = t2 :: l ++ [t1])
    by (unfold candidates; rewrite Hrun1, Z.eqb_refl; by test_false).
  destruct (schedule_fresh_thread_deadlock s1 c r2 i rq1 t1 t2 (t2 :: l) (l ++ [t1]))
    as (m2 & s2 & rq2 & E2 & [Hon2 _ _ Hlk2 Hm2 Ht2 _] & Hl2 & Hhang); [done..|cbn [length] in *; lia|done|lia|done|by rewrite Ht1|].
  rewrite Hq in Hon2, Hm2, Ht2. cbn [hd] in Hm2, Ht2.
  assert (Hsw : switches t1 t2 = true) by (unfold switches; by repeat test_false).
  rewrite Hsw in Hm2, Ht2. exists s2, rq2. do 7 (split; [done|]). split; [|split; [|done]].
  - rewrite Ht2. cbn [switch_events app hd]. f_equal. apply (links_rsp _ _ _ Hap2 Hlk2). rewrite Hp. by left.
  - rewrite Hm2. unfold t_rsp, set_t_rsp. apply load64_store64.
Qed.

Lemma schedule_fresh_thread_deadlock_witness :
  exists m1 s' rq', schedule (fun _ => SchedExample.c) 0x7000 SchedExample.fresh_s = Ret tt s'
    /\ outcome_of SchedExample.fresh_s SchedExample.c 0x7000 0 SchedExample.t0 [SchedExample.t1; SchedExample.t2] m1 s' rq'
    /\ rqlock rq' = 1
    /\ forall s2 r', sched s2 = sched s' -> schedule (fun _ => SchedExample.c) r' s2 = Hang s2.
Proof.
  apply (schedule_fresh_thread_deadlock SchedExample.fresh_s SchedExample.c 0x7000 0 SchedExample.rq
           SchedExample.t0 SchedExample.t1 [SchedExample.t1; SchedExample.t2]
           [SchedExample.t2; SchedExample.t0]);
    [|reflexivity|apply SchedExample.s_apart|simpl; lia|apply SchedExample.s_candidates
    |unfold SchedExample.t0; lia|unfold SchedExample.t0, SchedExample.t1; lia|by vm_compute].
  destruct SchedExample.s_on_cpu as [? ? ?]. by split.
Defined.

Lemma third_schedule_hangs_witness :
  exists s1 rq1 s2 rq2,
    schedule (fun _ => SchedExample.c) 0x7000 SchedExample.idle_s = Ret tt s1
    /\ on_cpu s1 SchedExample.c 0 SchedExample.t1 rq1 [SchedExample.t2] /\ rqlock rq1 = 0
    /\ trace s1 = trace SchedExample.idle_s
    /\ schedule (fun _ => SchedExample.c) 0x7100 s1 = Ret tt s2
    /\ on_cpu s2 SchedExample.c 0 SchedExample.t2 rq2 [SchedExample.t1] /\ rqlock rq2 = 1
    /\ hd EvSti (trace s2) = EvSwitch (t_rsp_ptr SchedExample.t1) (t_rsp (ram s1) SchedExample.t2)
    /\ t_rsp (ram s2) SchedExample.t1 = u64 0x7100
    /\ forall s3 r3, sched s3 = sched s2 -> schedule (fun _ => SchedExample.c) r3 s3 = Hang s3.
Proof.
  apply (third_schedule_hangs SchedExample.idle_s SchedExample.c 0x7000 0x7100 0 SchedExample.rq
           SchedExample.t1 SchedExample.t2 []);
    [|reflexivity| |simpl; lia|by vm_compute|reflexivity].
  - destruct SchedExample.s_on_cpu as [_ _ ?]. split; [by eexists; split; [apply lookup_singleton_eq|]|done..].
  - apply (all_apart_app [SchedExample.t1; SchedExample.t2] [SchedExample.t0]), SchedExample.s_apart.
Defined.

(** * The first frame of a process *)
Section first_frame.
Context (pages entry : Z) (m : gmap Z Z).
Context (Hpages : 0 <= pages /\ pages + 0x10000 < 2 ^ 64) (Hhalf : one_half pages 0x10000).

Let base : Z := lin pages + 0xFFF8.

Lemma frame_word k : 1 <= k <= 8 -> lin (u64 (stack_top pages - 8) - 8 * (k - 1) - 8) = base - 8 * k.
Proof.
  intros Hk. unfold stack_top. rewrite (u64_small (pages + _)) by lia. rewrite u64_small by lia.
  replace (pages + 65536 - 8 - 8 * (k - 1) - 8) with (pages + (0xFFF8 - 8 * k)) by lia.
  rewrite (lin_shift pages 0x10000) by (done || lia). unfold base. lia.
Qed.

Lemma initial_frame_stores :
  initial_frame (u64 (stack_top pages - 8)) entry m =
  store64 (store64 (store64 (store64 (store64 (store64 (store64 (store64 m
    (base - 8) 0) (base - 16) entry) (base - 24) 0) (base - 32) 0) (base - 40) 0)
    (base - 48) 0) (base - 56) 0) (base - 64) 0.
Proof.
  unfold initial_frame, push. set (rsp := u64 (stack_top pages - 8)).
  assert (H : forall k a b, a = 8 * (k - 1) -> b = 8 * k -> 1 <= k <= 8 -> lin (rsp - a - 8) = base - b)
    by (intros k a b -> -> Hk; by apply frame_word).
  pose proof (H 1 0 8) as H1. rewrite Z.sub_0_r in H1.
  rewrite (H 8 56 64), (H 7 48 56), (H 6 40 48), (H 5 32 40), (H 4 24 32), (H 3 16 24), (H 2 8 16), H1 by lia.
  done.
Qed.
End first_frame.

(** The frame process_create makes for a new thread is the entry point below
    a null return address and above six null registers, but its place is wrong:
    the stack top is 64 KB above the pages, and only four pages (16 KB) are
    allocated, so not one byte of the allocated pages is written. *)
Theorem initial_frame_outside_stack (pages entry : Z) (m : gmap Z Z) :
  0 <= pages /\ pages + 0x10000 < 2 ^ 64 -> one_half pages 0x10000 ->
  let m' := initial_frame (u64 (stack_top pages - 8)) entry m in
  let word k := load64 m' (lin pages + 0xFFF8 - 8 * k) in
  word 2 = u64 entry
  /\ Forall (fun k => word k = 0) [1; 3; 4; 5; 6; 7; 8]
  /\ forall d, 0 <= d < 4 * PAGE_SIZE -> load8 m' (lin pages + d) = load8 m (lin pages + d).
Proof.
  intros Hp Hh m' word. unfold word, m'. rewrite initial_frame_stores by done.
  split; [|split].
  - rewrite !load_store_disjoint by lia. apply load64_store64.
  - assert (H0 : forall m a, load64 (store64 m a 0) a = 0) by (intros; apply load64_store64).
    repeat apply Forall_cons_2; [..|by apply Forall_nil_2];
      rewrite ?load_store_disjoint by lia; try apply H0; by rewrite !load_store_disjoint by lia.
  - unfold PAGE_SIZE. intros d Hd. rewrite !(store_le_frame 8) by lia. done.
Qed.

Lemma initial_frame_outside_stack_witness :
  let m' := initial_frame (u64 (stack_top 0x200000 - 8)) 0x123456 ∅ in
  let word k := load64 m' (lin 0x200000 + 0xFFF8 - 8 * k) in
  word 2 = u64 0x123456
  /\ Forall (fun k => word k = 0) [1; 3; 4; 5; 6; 7; 8]
  /\ forall d, 0 <= d < 4 * PAGE_SIZE -> load8 m' (lin 0x200000 + d) = load8 ∅ (lin 0x200000 + d).
Proof.
  apply (initial_frame_outside_stack 0x200000 0x123456 ∅); [lia|].
  left. unfold KERNEL_HIGHER_HALF. lia.
Defined.
