(* ===== verification/Net.v ===== *)
(** ip.c (checksum and sending) and the ARP cache and device list of network.c.

    Packets and devices are in RAM; the static variables are the fields of
    [net].  [arp_lookup] returns a pointer into the static [arp_cache]: here the
    index of the entry, or [None] for NULL.  A driver's transmit function,
    [dev->tx], is reached through a pointer and no file defines one: [dev_tx] is
    a parameter (function pointer, data, length). *)
From S2P Require Import Prelude Machine Globals Strings Pmm Kmalloc.

(** * Constants and structs of net.h *)
Definition ETH_ALEN : Z := 6.
Definition ETH_P_IP : Z := 0x0800.
Definition ETH_P_ARP : Z := 0x0806.
Definition ETH_HEADER_SIZE : Z := 14.
Definition eth_dst (p : Z) : Z := p.
Definition eth_src (p : Z) : Z := p + 6.
Definition eth_type (m : gmap Z Z) (p : Z) : Z := load16 m (lin (p + 12)).
Definition set_eth_type (p v : Z) (m : gmap Z Z) : gmap Z Z := store16 m (lin (p + 12)) v.

Definition IP_P_ICMP : Z := 1.
Definition IP_P_TCP : Z := 6.
Definition IP_P_UDP : Z := 17.
Definition IP_HEADER_SIZE : Z := 20.
Definition ip_ihl_version (m : gmap Z Z) (p : Z) : Z := load8 m (lin p).
Definition ip_tot_len (m : gmap Z Z) (p : Z) : Z := load16 m (lin (p + 2)).
Definition ip_protocol (m : gmap Z Z) (p : Z) : Z := load8 m (lin (p + 9)).
Definition ip_check (m : gmap Z Z) (p : Z) : Z := load16 m (lin (p + 10)).
Definition set_ip_check (p v : Z) (m : gmap Z Z) : gmap Z Z := store16 m (lin (p + 10)) v.
Definition ip_saddr (m : gmap Z Z) (p : Z) : Z := load32 m (lin (p + 12)).
Definition ip_daddr (m : gmap Z Z) (p : Z) : Z := load32 m (lin (p + 16)).

(** struct net_device: mac 0, ip 8, gateway 12, subnet 16, tx 24, rx 32, next 40. *)
Definition dev_mac (d : Z) : Z := d.
Definition dev_ip (m : gmap Z Z) (d : Z) : Z := load32 m (lin (d + 8)).
Definition dev_tx_ptr (m : gmap Z Z) (d : Z) : Z := load64 m (lin (d + 24)).
Definition set_dev_next (d v : Z) (m : gmap Z Z) : gmap Z Z := store64 m (lin (d + 40)) v.

(** * The static variables *)
Definition set_sockets (x : Z) (n : net_globals) : net_globals :=
  Net x (next_port n) (tcp_seq_num n) (local_ip n) (gateway_ip n) (subnet_mask n) (ip_id n)
    (devices n) (arp_cache n) (arp_cache_ip n) (arp_cache_count n).
Definition set_next_port (x : Z) (n : net_globals) : net_globals :=
  Net (sockets n) x (tcp_seq_num n) (local_ip n) (gateway_ip n) (subnet_mask n) (ip_id n)
    (devices n) (arp_cache n) (arp_cache_ip n) (arp_cache_count n).
Definition set_tcp_seq_num (x : Z) (n : net_globals) : net_globals :=
  Net (sockets n) (next_port n) x (local_ip n) (gateway_ip n) (subnet_mask n) (ip_id n)
    (devices n) (arp_cache n) (arp_cache_ip n) (arp_cache_count n).
Definition set_ip_id (x : Z) (n : net_globals) : net_globals :=
  Net (sockets n) (next_port n) (tcp_seq_num n) (local_ip n) (gateway_ip n) (subnet_mask n) x
    (devices n) (arp_cache n) (arp_cache_ip n) (arp_cache_count n).
Definition set_devices (x : Z) (n : net_globals) : net_globals :=
  Net (sockets n) (next_port n) (tcp_seq_num n) (local_ip n) (gateway_ip n) (subnet_mask n)
    (ip_id n) x (arp_cache n) (arp_cache_ip n) (arp_cache_count n).
Definition set_arp (macs : list (list Z)) (ips : list Z) (count : Z) (n : net_globals) : net_globals :=
  Net (sockets n) (next_port n) (tcp_seq_num n) (local_ip n) (gateway_ip n) (subnet_mask n)
    (ip_id n) (devices n) macs ips count.
Definition upd_net (f : net_globals -> net_globals) : M unit :=
  modify (fun s => set_net (f (net s)) s).

(** The initial values of the static variables of ip.c, network.c and tcp.c. *)
Definition net_initial : net_globals :=
  Net 0 49152 0 0xC0A80001 0xC0A80000 0xFFFFFF00 0 0
    (replicate 256 (replicate 6 0)) (replicate 256 0) 0.

(** * Checksums *)

(** [n] times [sum += *ptr++], [ptr] a pointer to 16-bit words. *)
Fixpoint sum_words (n : nat) (m : gmap Z Z) (ptr sum : Z) : Z :=
  match n with
  | O => sum
  | S n' => sum_words n' m (ptr + 2) (u32 (sum + load16 m (lin ptr)))
  end.

(** [while (sum >> 16) sum = (sum & 0xFFFF) + (sum >> 16);] *)
Fixpoint fold_sum (fuel : nat) (sum : Z) : option Z :=
  match fuel with
  | O => None
  | S f => if truthy (sum .>> 16) then fold_sum f (u32 ((sum .& 0xFFFF) + (sum .>> 16))) else Some sum
  end.
(** Enough for every 32-bit sum. *)
Definition FOLD_FUEL : nat := 4.

(** [len] bytes at [data]; an odd last byte counts as it is. *)
Definition ip_checksum (m : gmap Z Z) (data len : Z) : option Z :=
  let sum := sum_words (Z.to_nat (len / 2)) m data 0 in
  let sum := if truthy (len mod 2) then u32 (sum + load8 m (lin (data + 2 * (len / 2)))) else sum in
  sum ← fold_sum FOLD_FUEL sum; Some (u16 (Z.lnot sum)).

(** A value that a loop computes; the loop spins when there is none. *)
Definition returned {A} (o : option A) : M A :=
  match o with Some a => mret a | None => hang end.

(** * The ARP cache *)
Definition arp_init : M unit :=
  upd_net (set_arp (replicate 256 (replicate 6 0)) (replicate 256 0) 0);;
  kprintf "ARP: Initialized\n" [].

Definition arp_request (ip : Z) : M unit := mret tt.

(** The search from entry [i], [n] entries to go. *)
Fixpoint arp_find (n : nat) (ips : list Z) (i : nat) (ip : Z) : option nat :=
  match n with
  | O => None
  | S n' => if ips !!! i =? ip then Some i else arp_find n' ips (S i) ip
  end.

Definition arp_lookup (n : net_globals) (ip : Z) : option nat :=
  arp_find (Z.to_nat (arp_cache_count n)) (arp_cache_ip n) 0 ip.

Definition arp_add (ip mac : Z) : M unit :=
  n ← gets net;
  m ← gets ram;
  let bytes := load_bytes 6 m (lin mac) in
  match arp_find (Z.to_nat (arp_cache_count n)) (arp_cache_ip n) 0 ip with
  | Some i => upd_net (set_arp (<[i := bytes]> (arp_cache n)) (arp_cache_ip n) (arp_cache_count n))
  | None =>
      whenM (arp_cache_count n <? 256)
        (let i := Z.to_nat (arp_cache_count n) in
         upd_net (set_arp (<[i := bytes]> (arp_cache n)) (<[i := ip]> (arp_cache_ip n))
                    (arp_cache_count n + 1)))
  end.

(** struct arp_packet: opcode 6, sender_mac 8, sender_ip 14, target_ip 24. *)
Definition ARP_OP_REQUEST : Z := 1.
Definition ARP_OP_REPLY : Z := 2.
Definition arp_opcode (m : gmap Z Z) (p : Z) : Z := load16 m (lin (p + 6)).
Definition arp_sender_mac (p : Z) : Z := p + 8.
Definition arp_sender_ip (m : gmap Z Z) (p : Z) : Z := load32 m (lin (p + 14)).

(** A request for this host's address is recognised and nothing is sent. *)
Definition arp_rx (arp : Z) : M unit :=
  if arp =? 0 then mret tt
  else
    m ← gets ram;
    if ntohs (arp_opcode m arp) =? ARP_OP_REQUEST then mret tt
    else whenM (ntohs (arp_opcode m arp) =? ARP_OP_REPLY)
           (arp_add (ntohl (arp_sender_ip m arp)) (arp_sender_mac arp)).

(** * Devices *)
Definition net_register_device (d : Z) : M unit :=
  n ← gets net;
  upd_ram (set_dev_next d (devices n));;
  upd_net (set_devices d);;
  m ← gets ram;
  kprintf "Network: Registered %02X:%02X:%02X:%02X:%02X:%02X\n"
    (map (fun b => AInt b) (load_bytes 6 m (lin (dev_mac d)))).

Definition net_get_device : M Z := gets (fun s => devices (net s)).

Definition network_poll : M unit := mret tt.

(** * ip_send *)
Section ip_send.
Variable dev_tx : Z -> Z -> Z -> M bool.

(** The header's stores, in the code's order, without the checksum. *)
Definition ip_header_fields (ip total_len id proto saddr daddr : Z) (m : gmap Z Z) : gmap Z Z :=
  let m := store8 m (lin ip) 0x45 in
  let m := store8 m (lin (ip + 1)) 0 in
  let m := store16 m (lin (ip + 2)) (htons total_len) in
  let m := store16 m (lin (ip + 4)) (htons id) in
  let m := store16 m (lin (ip + 6)) 0 in
  let m := store8 m (lin (ip + 8)) 64 in
  let m := store8 m (lin (ip + 9)) proto in
  let m := set_ip_check ip 0 m in
  let m := store32 m (lin (ip + 12)) (htonl saddr) in
  store32 m (lin (ip + 16)) (htonl daddr).

(** The first hop: the destination itself or the gateway. *)
Definition next_hop (n : net_globals) (dst : Z) : Z :=
  if negb (dst .& subnet_mask n =? local_ip n .& subnet_mask n) then gateway_ip n else dst.

Definition ip_send (dst proto data len : Z) : M unit :=
  let total_len := u16 (IP_HEADER_SIZE + len) in
  ip ← kmalloc (IP_HEADER_SIZE + len);
  if ip =? 0 then mret tt
  else
    n ← gets net;
    upd_net (fun n => set_ip_id (u16 (ip_id n + 1)) n);;
    upd_ram (ip_header_fields ip total_len (ip_id n) proto (local_ip n) dst);;
    upd_ram (fun m => memcpy m (lin (ip + IP_HEADER_SIZE)) (lin data) len);;
    m ← gets ram;
    check ← returned (ip_checksum m ip IP_HEADER_SIZE);
    upd_ram (set_ip_check ip check);;
    n ← gets net;
    let dst := next_hop n dst in
    match arp_lookup n dst with
    | None => arp_request dst;; kfree ip
    | Some i =>
        eth ← kmalloc (ETH_HEADER_SIZE + total_len);
        if eth =? 0 then kfree ip
        else
          upd_ram (fun m => store_bytes m (lin (eth_dst eth)) (arp_cache n !!! i));;
          dev ← net_get_device;
          (if truthy dev then
             upd_ram (fun m => memcpy m (lin (eth_src eth)) (lin (dev_mac dev)) ETH_ALEN)
           else upd_ram (fun m => memset m (lin (eth_src eth)) 0 ETH_ALEN));;
          upd_ram (set_eth_type eth (htons ETH_P_IP));;
          upd_ram (fun m => memcpy m (lin (eth + ETH_HEADER_SIZE)) (lin ip) total_len);;
          m ← gets ram;
          whenM (truthy dev && truthy (dev_tx_ptr m dev))
            (_ ← dev_tx (dev_tx_ptr m dev) eth (u16 (ETH_HEADER_SIZE + total_len)); mret tt);;
          kfree eth;;
          kfree ip
    end.
End ip_send.
