(* ===== verification/NetFacts.v ===== *)
(** Facts about checksums and the ARP cache. *)
From S2P Require Import Prelude Machine Globals Strings Pmm Kmalloc Net.

(** * The Internet checksum (RFC 1071) as a function of bytes *)

(** The sum of the 16-bit words; an odd last byte is a word by itself. *)
Fixpoint word_sum (bs : list Z) : Z :=
  match bs with
  | b0 :: b1 :: bs' => b0 + 256 * b1 + word_sum bs'
  | [b] => b
  | [] => 0
  end.

(** A sum reduced to 16 bits with end-around carry: the representative in
    1..65535 of a positive sum modulo 65535. *)
Definition ones_reduce (n : Z) : Z := if n =? 0 then 0 else 1 + (n - 1) mod 65535.

Definition internet_checksum (bs : list Z) : Z := 65535 - ones_reduce (word_sum bs).

Lemma ones_reduce_range n : 0 <= n -> 0 <= ones_reduce n <= 65535.
Proof. intros. unfold ones_reduce. case_tests; [lia|]. pose proof (Z.mod_pos_bound (n - 1) 65535). lia. Qed.

Lemma ones_reduce_small n : 0 <= n <= 65535 -> ones_reduce n = n.
Proof. intros. unfold ones_reduce. case_tests; [done|]. rewrite Z.mod_small; lia. Qed.

Lemma ones_reduce_fold n : 0 <= n -> ones_reduce (n mod 65536 + n / 65536) = ones_reduce n.
Proof.
  intros Hn. pose proof (Z.mod_pos_bound n 65536). pose proof (Z.div_mod n 65536).
  pose proof (Z.div_pos n 65536).
  unfold ones_reduce. destruct (Z.eqb_spec n 0) as [->|Hn0]; [done|]. test_false. f_equal.
  replace (n mod 65536 + n / 65536 - 1) with (n - 1 + (- (n / 65536)) * 65535) by lia.
  apply Z.mod_add. lia.
Qed.

Lemma fold_step n :
  0 <= n < 2 ^ 32 -> u32 ((n .& 0xFFFF) + (n .>> 16)) = n mod 65536 + n / 65536.
Proof.
  intros Hn. change 0xFFFF with (2 ^ 16 - 1). rewrite land_low, Z.shiftr_div_pow2 by lia.
  change (2 ^ 16) with 65536. apply u32_small. Z.div_mod_to_equations; lia.
Qed.

Lemma fold_sum_S f n :
  fold_sum (S f) n =
  if truthy (n .>> 16) then fold_sum f (u32 ((n .& 0xFFFF) + (n .>> 16))) else Some n.
Proof. done. Qed.

Lemma fold_done f n : 0 <= n <= 65535 -> fold_sum (S f) n = Some (ones_reduce n).
Proof.
  intros Hn. rewrite fold_sum_S, Z.shiftr_div_pow2 by lia. rewrite Z.div_small by (simpl; lia).
  simpl. by rewrite ones_reduce_small by lia.
Qed.

Lemma fold_more f n r :
  0 <= n < 2 ^ 32 -> fold_sum (S f) (n mod 65536 + n / 65536) = Some r ->
  n <= 65535 \/ fold_sum (S (S f)) n = Some r.
Proof.
  intros Hn Hr. destruct (Z.leb_spec n 65535); [by left|right].
  rewrite (fold_sum_S (S f)), fold_step by done. rewrite (proj2 (truthy_true _)); [done|].
  rewrite Z.shiftr_div_pow2 by lia. change (2 ^ 16) with 65536. Z.div_mod_to_equations; lia.
Qed.

(** The folding loop ends, and its result is the reduced sum. *)
Lemma fold_sum_correct n : 0 <= n < 2 ^ 32 -> fold_sum FOLD_FUEL n = Some (ones_reduce n).
Proof.
  intros Hn. unfold FOLD_FUEL. set (n1 := n mod 65536 + n / 65536).
  set (n2 := n1 mod 65536 + n1 / 65536).
  assert (H1 : 0 <= n1 <= 131070) by (unfold n1; Z.div_mod_to_equations; lia).
  assert (H2 : 0 <= n2 <= 65535) by (unfold n2; Z.div_mod_to_equations; lia).
  assert (E2 : fold_sum 3 n1 = Some (ones_reduce n1)).
  { destruct (Z.leb_spec n1 65535); [apply fold_done; lia|].
    destruct (fold_more 1 n1 (ones_reduce n2)) as [?|E]; [lia|apply (fold_done 1 n2); lia|lia|].
    rewrite E. unfold n2. by rewrite ones_reduce_fold by lia. }
  destruct (Z.leb_spec n 65535); [apply fold_done; lia|].
  destruct (fold_more 2 n _ ltac:(lia) E2) as [?|E]; [lia|].
  rewrite E. unfold n1. by rewrite ones_reduce_fold by lia.
Qed.

(** * The loops over memory *)
Definition byte_list (bs : list Z) : Prop := Forall (fun b => 0 <= b < 256) bs.

Lemma word_sum_cons2 b0 b1 bs : word_sum (b0 :: b1 :: bs) = b0 + 256 * b1 + word_sum bs.
Proof. done. Qed.

Lemma two_ind {A} (P : list A -> Prop) :
  P [] -> (forall a, P [a]) -> (forall a b l, P l -> P (a :: b :: l)) -> forall l, P l.
Proof.
  intros H0 H1 H2. fix IH 1. intros [|a [|b l]]; [done|by apply H1|by apply H2, IH].
Qed.

Lemma word_sum_bound bs :
  byte_list bs -> 0 <= word_sum bs <= 65535 * ((Z.of_nat (length bs) + 1) / 2).
Proof.
  induction bs as [|a|a b l IH] using two_ind; intros Hb.
  - cbn [word_sum length]. Z.div_mod_to_equations; lia.
  - apply Forall_cons in Hb as [? _]. cbn [word_sum length]. Z.div_mod_to_equations; lia.
  - apply Forall_cons in Hb as [? [? Hl]%Forall_cons]. specialize (IH Hl).
    rewrite word_sum_cons2. cbn [length].
    replace (Z.of_nat (S (S (length l))) + 1) with (Z.of_nat (length l) + 1 + 1 * 2) by lia.
    rewrite Z.div_add by lia. lia.
Qed.

(** A prefix of an even number of bytes adds up separately. *)
Lemma word_sum_app bs1 bs2 :
  Nat.Even (length bs1) -> word_sum (bs1 ++ bs2) = word_sum bs1 + word_sum bs2.
Proof.
  induction bs1 as [|a|a b l IH] using two_ind; intros He.
  - done.
  - destruct He as [k Hk]. simpl in Hk. lia.
  - cbn [app]. rewrite !word_sum_cons2, IH; [lia|].
    destruct He as [k Hk]. exists (k - 1)%nat. simpl in Hk. lia.
Qed.

Lemma load16_val m a : load16 m a = load8 m a + 256 * load8 m (a + 1).
Proof. cbn [load_le]. lia. Qed.

Lemma sum_words_correct n m p acc :
  one_half p (2 * Z.of_nat n) -> 0 <= acc ->
  acc + word_sum (load_bytes (2 * n) m (lin p)) < 2 ^ 32 ->
  sum_words n m p acc = acc + word_sum (load_bytes (2 * n) m (lin p)).
Proof.
  revert p acc. induction n as [|n IH]; intros p acc Hh Hacc Hb; [simpl; lia|].
  replace (2 * S n)%nat with (S (S (2 * n))) in * by lia.
  cbn [load_bytes] in *. rewrite word_sum_cons2 in *. cbn [sum_words].
  pose proof (load8_range m (lin p)). pose proof (load8_range m (lin p + 1)).
  pose proof (word_sum_bound _ (load_bytes_range (2 * n) m (lin p + 1 + 1))).
  destruct (decide (n = 0%nat)) as [->|Hn].
  { simpl. simpl in Hb. rewrite u32_small; lia. }
  assert (E : lin (p + 2) = lin p + 1 + 1) by (rewrite (lin_shift p (2 * Z.of_nat (S n))) by (done || lia); lia).
  rewrite IH; rewrite ?E.
  - rewrite load16_val, u32_small by lia. lia.
  - destruct Hh as [?|?]; [left|right]; lia.
  - apply u32_range.
  - rewrite load16_val, u32_small; lia.
Qed.

(** The loops with the odd byte, as ip_checksum and icmp_echo_reply write them. *)
Definition sum_bytes (m : gmap Z Z) (data len : Z) : Z :=
  let sum := sum_words (Z.to_nat (len / 2)) m data 0 in
  if truthy (len mod 2) then u32 (sum + load8 m (lin (data + 2 * (len / 2)))) else sum.

Lemma word_sum_snoc bs b :
  Nat.Even (length bs) -> word_sum (bs ++ [b]) = word_sum bs + b.
Proof. intros. by rewrite word_sum_app. Qed.

Lemma length_even k m a : Nat.Even (length (load_bytes (2 * k) m a)).
Proof. rewrite load_bytes_length. by exists k. Qed.

Lemma sum_bytes_correct m p len :
  one_half p len -> 0 <= len <= 131072 ->
  sum_bytes m p len = word_sum (load_bytes (Z.to_nat len) m (lin p))
  /\ 0 <= word_sum (load_bytes (Z.to_nat len) m (lin p)) < 2 ^ 32.
Proof.
  intros Hh Hlen. set (k := Z.to_nat (len / 2)).
  pose proof (Z.div_mod len 2). pose proof (Z.mod_pos_bound len 2).
  assert (Hk : Z.of_nat k = len / 2) by (unfold k; rewrite Z2Nat.id by (apply Z.div_pos; lia); done).
  pose proof (word_sum_bound _ (load_bytes_range (Z.to_nat len) m (lin p))) as Hb.
  rewrite load_bytes_length, Z2Nat.id in Hb by lia.
  assert (Hb2 : (len + 1) / 2 <= 65536) by (Z.div_mod_to_equations; lia).
  split; [|lia]. unfold sum_bytes. fold k.
  pose proof (word_sum_bound _ (load_bytes_range (2 * k) m (lin p))) as Hb3.
  rewrite load_bytes_length in Hb3.
  assert (Hb4 : (Z.of_nat (2 * k) + 1) / 2 <= 65536) by (Z.div_mod_to_equations; lia).
  rewrite sum_words_correct; [|destruct Hh; [left|right]; lia|lia|lia].
  destruct (Z.eq_dec (len mod 2) 0) as [E|E].
  - rewrite E. cbn [truthy Z.eqb negb]. rewrite Z.add_0_l. do 2 f_equal. lia.
  - rewrite (proj2 (truthy_true _)) by done.
    replace (Z.to_nat len) with (2 * k + 1)%nat in * by lia.
    rewrite load_bytes_app in *. cbn [load_bytes] in *. rewrite word_sum_snoc in * by apply length_even.
    rewrite (lin_shift p len) by (done || lia).
    replace (lin p + Z.of_nat (2 * k)) with (lin p + 2 * (len / 2)) in * by lia.
    rewrite Z.add_0_l. apply u32_small. lia.
Qed.

Lemma lnot16 n : 0 <= n <= 65535 -> u16 (Z.lnot n) = 65535 - n.
Proof.
  intros. unfold u16, Z.lnot. replace (Z.pred (- n)) with (65535 - n + (-1) * 65536) by lia.
  rewrite Z.mod_add by lia. apply Z.mod_small. lia.
Qed.

Lemma ip_checksum_run m p len :
  one_half p len -> 0 <= len <= 131072 ->
  ip_checksum m p len = Some (internet_checksum (load_bytes (Z.to_nat len) m (lin p))).
Proof.
  intros Hh Hlen. destruct (sum_bytes_correct m p len Hh Hlen) as [E Hb].
  unfold ip_checksum. fold (sum_bytes m p len). rewrite E.
  rewrite (fold_sum_correct _ Hb). simpl. unfold internet_checksum.
  by rewrite lnot16 by (apply ones_reduce_range; lia).
Qed.

(** * A word that complements the sum *)
Lemma ones_reduce_complement n :
  0 <= n -> ones_reduce (n + (65535 - ones_reduce n)) = 65535.
Proof.
  intros Hn. unfold ones_reduce at 2. destruct (Z.eqb_spec n 0) as [->|Hn0]; [done|].
  pose proof (Z.div_mod (n - 1) 65535). pose proof (Z.mod_pos_bound (n - 1) 65535).
  pose proof (Z.div_pos (n - 1) 65535).
  replace (n + (65535 - (1 + (n - 1) mod 65535))) with (65535 + ((n - 1) / 65535) * 65535) by lia.
  unfold ones_reduce. test_false.
  replace (65535 + (n - 1) / 65535 * 65535 - 1) with (65534 + (n - 1) / 65535 * 65535) by lia.
  rewrite Z.mod_add by lia. done.
Qed.

(** Bytes [bs1], a checksum field, bytes [bs2]. *)
Lemma internet_checksum_field bs1 c bs2 :
  byte_list bs1 -> byte_list bs2 -> Nat.Even (length bs1) ->
  c = internet_checksum (bs1 ++ le_split 2 0 ++ bs2) ->
  internet_checksum (bs1 ++ le_split 2 c ++ bs2) = 0.
Proof.
  intros H1 H2 He ->. pose proof (word_sum_bound _ H1). pose proof (word_sum_bound _ H2).
  unfold internet_checksum. rewrite !word_sum_app by (done || by exists 1%nat).
  change (word_sum (le_split 2 0)) with 0. set (S0 := word_sum bs1 + (0 + word_sum bs2)).
  assert (HS : 0 <= S0) by (unfold S0; lia). set (c := 65535 - ones_reduce S0).
  pose proof (ones_reduce_range S0 HS).
  assert (E : word_sum (le_split 2 c) = c) by (simpl; unfold u8, c; Z.div_mod_to_equations; lia).
  rewrite E. replace (word_sum bs1 + (c + word_sum bs2)) with (S0 + c) by (unfold S0; lia).
  unfold c. rewrite ones_reduce_complement by done. lia.
Qed.

(** * The ARP cache *)
Record arp_ok (n : net_globals) : Prop := {
  arp_count : 0 <= arp_cache_count n <= 256;
  arp_ips : length (arp_cache_ip n) = 256%nat;
  arp_macs : length (arp_cache n) = 256%nat;
  arp_once : NoDup (take (Z.to_nat (arp_cache_count n)) (arp_cache_ip n));
}.

(** The cache as a map from addresses to hardware addresses. *)
Definition arp_view (n : net_globals) : gmap Z (list Z) :=
  list_to_map (zip (take (Z.to_nat (arp_cache_count n)) (arp_cache_ip n)) (arp_cache n)).

Lemma arp_find_spec n ips i ip :
  (i + n <= length ips)%nat ->
  match arp_find n ips i ip with
  | Some j => (i <= j < i + n)%nat /\ ips !! j = Some ip
  | None => forall j, (i <= j < i + n)%nat -> ips !! j <> Some ip
  end.
Proof.
  revert i. induction n as [|n IH]; intros i Hi; cbn [arp_find]; [intros j ?; lia|].
  destruct (lookup_lt_is_Some_2 ips i) as [x Hx]; [lia|].
  rewrite (list_lookup_total_correct _ _ _ Hx).
  destruct (Z.eqb_spec x ip) as [->|Hne]; [split; [lia|done]|].
  specialize (IH (S i) ltac:(lia)). destruct (arp_find n ips (S i) ip) as [j|].
  - destruct IH as [? ?]. split; [lia|done].
  - intros j Hj. destruct (decide (j = i)) as [->|]; [congruence|]. apply IH. lia.
Qed.

Section arp.
Context (n : net_globals) (Hn : arp_ok n).
Let k : nat := Z.to_nat (arp_cache_count n).
Let ips : list Z := take k (arp_cache_ip n).

Lemma arp_ips_length : length ips = k.
Proof. unfold ips. rewrite length_take, (arp_ips _ Hn). unfold k. pose proof (arp_count _ Hn). lia. Qed.

Lemma arp_zip_fst : (zip ips (arp_cache n)).*1 = ips.
Proof.
  apply fst_zip. rewrite arp_ips_length, (arp_macs _ Hn). pose proof (arp_count _ Hn). unfold k. lia.
Qed.

Lemma arp_view_lookup ip i b :
  ips !! i = Some ip -> arp_cache n !! i = Some b -> arp_view n !! ip = Some b.
Proof.
  intros Hi Hb. apply elem_of_list_to_map_1; [change (NoDup (zip ips (arp_cache n)).*1); rewrite arp_zip_fst; apply (arp_once _ Hn)|].
  apply list_elem_of_lookup. exists i. apply lookup_zip_Some. done.
Qed.

Lemma arp_view_none ip : ip ∉ ips -> arp_view n !! ip = None.
Proof. intros Hip. apply not_elem_of_list_to_map_1.
  change (ip ∉ (zip ips (arp_cache n)).*1). by rewrite arp_zip_fst. Qed.

Lemma arp_find_cases ip :
  match arp_find k (arp_cache_ip n) 0 ip with
  | Some i => (i < k)%nat /\ ips !! i = Some ip
  | None => ip ∉ ips
  end.
Proof.
  pose proof (arp_count _ Hn) as Hc.
  pose proof (arp_find_spec k (arp_cache_ip n) 0 ip) as Hf. rewrite (arp_ips _ Hn) in Hf.
  specialize (Hf ltac:(unfold k; lia)). destruct (arp_find _ _ _ _) as [i|].
  - destruct Hf as [? Hi]. split; [lia|]. unfold ips. rewrite lookup_take_lt by lia. done.
  - intros [i Hi]%list_elem_of_lookup. unfold ips in Hi.
    apply lookup_take_Some in Hi as [Hi ?]. apply (Hf i); [lia|done].
Qed.

Lemma arp_mac i : (i < 256)%nat -> exists b, arp_cache n !! i = Some b.
Proof. intros. apply lookup_lt_is_Some_2. by rewrite (arp_macs _ Hn). Qed.

(** ** A hit replaces the entry *)
Lemma arp_hit ip i bytes :
  (i < k)%nat -> ips !! i = Some ip ->
  let n' := set_arp (<[i := bytes]> (arp_cache n)) (arp_cache_ip n) (arp_cache_count n) n in
  arp_ok n' /\ arp_view n' = <[ip := bytes]> (arp_view n).
Proof.
  intros Hi Hip n'. pose proof (arp_count _ Hn). split.
  - split; [apply Hn..| |apply Hn]. simpl. rewrite length_insert. apply Hn.
  - unfold arp_view, n'. cbn [arp_cache arp_cache_ip arp_cache_count set_arp]. fold k ips.
    assert (Hlt : (i < length (arp_cache n))%nat) by (rewrite (arp_macs _ Hn); unfold k in Hi; lia).
    pose proof (arp_once _ Hn) as Hnd. fold k ips in Hnd.
    apply map_eq. intros ip'. destruct (decide (ip' = ip)) as [->|Hne].
    + rewrite lookup_insert_eq. apply elem_of_list_to_map_1.
      * rewrite fst_zip; [done|]. rewrite length_insert, arp_ips_length, (arp_macs _ Hn). unfold k. lia.
      * apply list_elem_of_lookup. exists i. apply lookup_zip_Some.
        split; [done|by apply list_lookup_insert_eq].
    + rewrite lookup_insert_ne by done.
      apply option_eq. intros b. rewrite <- !elem_of_list_to_map.
      2: by rewrite arp_zip_fst.
      2: { rewrite fst_zip; [done|]. rewrite length_insert, arp_ips_length, (arp_macs _ Hn). unfold k. lia. }
      rewrite !list_elem_of_lookup. split; intros [j [Hj Hb]%lookup_zip_Some]; exists j; apply lookup_zip_Some;
        (split; [done|]); (destruct (decide (j = i)) as [->|Hji]; [congruence|]).
      * by rewrite list_lookup_insert_ne in Hb by done.
      * by rewrite list_lookup_insert_ne by done.
Qed.

(** ** A new entry is appended *)
Lemma arp_new ip bytes :
  arp_cache_count n < 256 -> ip ∉ ips ->
  let n' := set_arp (<[k := bytes]> (arp_cache n)) (<[k := ip]> (arp_cache_ip n))
              (arp_cache_count n + 1) n in
  arp_ok n' /\ arp_view n' = <[ip := bytes]> (arp_view n).
Proof.
  intros Hc Hip n'. pose proof (arp_count _ Hn) as Hc0.
  assert (Hk : (k < 256)%nat) by (unfold k; lia).
  assert (Hk1 : Z.to_nat (arp_cache_count n + 1) = S k) by (unfold k; lia).
  pose proof arp_ips_length as Hlen.
  assert (Eips : take (S k) (<[k := ip]> (arp_cache_ip n)) = ips ++ [ip]).
  { rewrite (take_S_r _ _ ip) by (apply list_lookup_insert_eq; by rewrite (arp_ips _ Hn)).
    f_equal. by rewrite take_insert_ge by lia. }
  pose proof (arp_once _ Hn) as Hnd. fold k ips in Hnd.
  assert (Hnd' : NoDup (ips ++ [ip])).
  { apply NoDup_app. split; [done|]. split; [|by apply NoDup_singleton].
    intros x Hx ->%list_elem_of_singleton. done. }
  split.
  - split; cbn [arp_cache_count arp_cache_ip arp_cache set_arp n']; rewrite ?length_insert;
      [lia|apply Hn..|]. by rewrite Hk1, Eips.
  - unfold arp_view, n'. cbn [arp_cache arp_cache_ip arp_cache_count set_arp].
    rewrite Hk1, Eips, zip_with_app_l, Hlen, take_insert_ge by lia.
    rewrite (drop_S _ bytes) by (apply list_lookup_insert_eq; by rewrite (arp_macs _ Hn)).
    cbn [zip_with]. rewrite list_to_map_snoc.
    + f_equal. f_equal. fold k ips. rewrite <- (app_nil_r ips) at 2.
      by rewrite zip_with_app_l, Hlen, app_nil_r.
    + rewrite fst_zip; [done|]. rewrite length_take, (arp_macs _ Hn). lia.
Qed.
End arp.

(** arp_add touches nothing but the cache. *)
Lemma arp_add_run s ip mac :
  let bytes := load_bytes 6 (ram s) (lin mac) in
  arp_ok (net s) ->
  exists macs ips k, let n' := set_arp macs ips k (net s) in
    arp_add ip mac s = Ret tt (set_net n' s) /\ arp_ok n'
    /\ (forall P, P bytes -> Forall P (arp_cache (net s)) -> Forall P macs)
    /\ arp_view n' = (if decide (is_Some (arp_view (net s) !! ip) \/ arp_cache_count (net s) < 256)
                      then <[ip := bytes]> (arp_view (net s)) else arp_view (net s)).
Proof.
  intros bytes Hn. pose proof (arp_find_cases (net s) Hn ip) as Hf.
  unfold arp_add, upd_net. msimpl. fold bytes. destruct (arp_find _ _ _ ip) as [i|].
  - destruct Hf as [Hi Hip]. destruct (arp_hit (net s) Hn ip i bytes Hi Hip) as [Hok Hv].
    eexists _, _, _. split; [reflexivity|]. split; [done|]. split; [intros; by apply Forall_insert|].
    rewrite decide_True; [exact Hv|]. left.
    destruct (arp_mac (net s) Hn i) as [b Hb]; [pose proof (arp_count _ Hn); lia|].
    rewrite (arp_view_lookup (net s) Hn ip i b Hip Hb). by eexists.
  - destruct (Z.ltb_spec (arp_cache_count (net s)) 256) as [Hlt|Hge].
    + destruct (arp_new (net s) Hn ip bytes Hlt Hf) as [Hok Hv].
      eexists _, _, _. split; [reflexivity|]. split; [done|]. split; [intros; by apply Forall_insert|].
      rewrite decide_True; [exact Hv|]. by right.
    + exists (arp_cache (net s)), (arp_cache_ip (net s)), (arp_cache_count (net s)).
      assert (E : set_arp (arp_cache (net s)) (arp_cache_ip (net s)) (arp_cache_count (net s)) (net s) = net s)
        by by destruct (net s).
      cbv zeta. rewrite E. split; [by destruct s|]. do 2 (split; [done|]).
      rewrite decide_False; [done|]. intros [[b Hb]|?]; [|lia].
      by rewrite (arp_view_none (net s) Hn ip Hf) in Hb.
Qed.

(** * Checksums over several pieces *)
Lemma le_split_bytes n v : byte_list (le_split n v).
Proof. revert v. induction n as [|n IH]; intros v; simpl; constructor; [apply u8_range|apply IH]. Qed.

(** * A header in RAM *)
Lemma le_split_u8 n v : map u8 (le_split n v) = le_split n v.
Proof. revert v. induction n as [|n IH]; intros v; simpl; [done|]. by rewrite IH, u8_idem. Qed.

Section header.
Context (m : gmap Z Z) (ip : Z) (Hh : one_half ip 20).

Lemma header_lin d : 0 <= d < 20 -> lin (ip + d) = lin ip + d.
Proof. intros. by eapply lin_shift. Qed.

Lemma header_split m' :
  load_bytes 20 m' (lin ip)
  = load_bytes 10 m' (lin ip) ++ load_bytes 2 m' (lin ip + 10) ++ load_bytes 8 m' (lin ip + 12).
Proof.
  change 20%nat with (10 + (2 + 8))%nat. rewrite !load_bytes_app. do 2 f_equal. f_equal. lia.
Qed.

(** The header with its checksum field replaced. *)
Lemma header_with_check c :
  load_bytes 20 (set_ip_check ip c m) (lin ip)
  = load_bytes 10 m (lin ip) ++ le_split 2 c ++ load_bytes 8 m (lin ip + 12).
Proof.
  rewrite header_split. unfold set_ip_check. rewrite header_lin by lia.
  pose proof (store_le_frame 2 m (lin ip + 10) c) as Hf.
  f_equal; [|f_equal].
  - apply load_bytes_ext. eapply agree_on_frame; [exact Hf|lia].
  - rewrite store_le_bytes. rewrite <- (le_split_u8 2 c) at 2.
    apply (load_bytes_store_bytes _ _ (le_split 2 c)).
  - apply load_bytes_ext. eapply agree_on_frame; [exact Hf|lia].
Qed.
End header.
