(* ===== verification/Tcp.v ===== *)
(** tcp.c: sockets, segments and the connection state machine.

    A struct socket (128 bytes) is in RAM; NULL-terminated socket lists are
    walked with fuel, and a walk that runs out of fuel spins. *)
From S2P Require Import Prelude Machine Globals Strings Pmm Kmalloc Net.

(** * Constants of net.h *)
Definition TCP_FIN : Z := 0x01.
Definition TCP_SYN : Z := 0x02.
Definition TCP_PSH : Z := 0x08.
Definition TCP_ACK : Z := 0x10.
Definition SOCK_STREAM : Z := 1.
Definition TCP_CLOSED : Z := 0.
Definition TCP_LISTEN : Z := 1.
Definition TCP_SYN_SENT : Z := 2.
Definition TCP_SYN_RECV : Z := 3.
Definition TCP_ESTABLISHED : Z := 4.
Definition TCP_FIN_WAIT1 : Z := 5.
Definition TCP_FIN_WAIT2 : Z := 6.
Definition TCP_CLOSE_WAIT : Z := 7.
Definition TCP_CLOSING : Z := 8.
Definition TCP_LAST_ACK : Z := 9.
Definition TCP_TIME_WAIT : Z := 10.
Definition TCP_RX_BUF_SIZE : Z := 65536.
Definition TCP_TX_BUF_SIZE : Z := 65536.
Definition TCP_MSS : Z := 1460.

(** * struct socket *)
Definition SIZEOF_SOCKET : Z := 128.
Definition set_sk_type (p v : Z) (m : gmap Z Z) : gmap Z Z := store32 m (lin p) v.
Definition sk_local_addr (m : gmap Z Z) (p : Z) : Z := load32 m (lin (p + 4)).
Definition set_sk_local_addr (p v : Z) (m : gmap Z Z) : gmap Z Z := store32 m (lin (p + 4)) v.
Definition sk_local_port (m : gmap Z Z) (p : Z) : Z := load16 m (lin (p + 8)).
Definition set_sk_local_port (p v : Z) (m : gmap Z Z) : gmap Z Z := store16 m (lin (p + 8)) v.
Definition sk_remote_addr (m : gmap Z Z) (p : Z) : Z := load32 m (lin (p + 12)).
Definition set_sk_remote_addr (p v : Z) (m : gmap Z Z) : gmap Z Z := store32 m (lin (p + 12)) v.
Definition sk_remote_port (m : gmap Z Z) (p : Z) : Z := load16 m (lin (p + 16)).
Definition set_sk_remote_port (p v : Z) (m : gmap Z Z) : gmap Z Z := store16 m (lin (p + 16)) v.
Definition sk_state (m : gmap Z Z) (p : Z) : Z := load8 m (lin (p + 18)).
Definition set_sk_state (p v : Z) (m : gmap Z Z) : gmap Z Z := store8 m (lin (p + 18)) v.
Definition sk_snd_una (m : gmap Z Z) (p : Z) : Z := load32 m (lin (p + 20)).
Definition set_sk_snd_una (p v : Z) (m : gmap Z Z) : gmap Z Z := store32 m (lin (p + 20)) v.
Definition sk_snd_nxt (m : gmap Z Z) (p : Z) : Z := load32 m (lin (p + 24)).
Definition set_sk_snd_nxt (p v : Z) (m : gmap Z Z) : gmap Z Z := store32 m (lin (p + 24)) v.
Definition sk_rcv_nxt (m : gmap Z Z) (p : Z) : Z := load32 m (lin (p + 28)).
Definition set_sk_rcv_nxt (p v : Z) (m : gmap Z Z) : gmap Z Z := store32 m (lin (p + 28)) v.
Definition sk_window (m : gmap Z Z) (p : Z) : Z := load16 m (lin (p + 32)).
Definition set_sk_window (p v : Z) (m : gmap Z Z) : gmap Z Z := store16 m (lin (p + 32)) v.
Definition sk_rx_buf (m : gmap Z Z) (p : Z) : Z := load64 m (lin (p + 40)).
Definition set_sk_rx_buf (p v : Z) (m : gmap Z Z) : gmap Z Z := store64 m (lin (p + 40)) v.
Definition sk_tx_buf (m : gmap Z Z) (p : Z) : Z := load64 m (lin (p + 48)).
Definition set_sk_tx_buf (p v : Z) (m : gmap Z Z) : gmap Z Z := store64 m (lin (p + 48)) v.
Definition sk_rx_head (m : gmap Z Z) (p : Z) : Z := load32 m (lin (p + 56)).
Definition set_sk_rx_head (p v : Z) (m : gmap Z Z) : gmap Z Z := store32 m (lin (p + 56)) v.
Definition sk_rx_tail (m : gmap Z Z) (p : Z) : Z := load32 m (lin (p + 60)).
Definition set_sk_rx_tail (p v : Z) (m : gmap Z Z) : gmap Z Z := store32 m (lin (p + 60)) v.
Definition sk_next (m : gmap Z Z) (p : Z) : Z := load64 m (lin (p + 72)).
Definition set_sk_next (p v : Z) (m : gmap Z Z) : gmap Z Z := store64 m (lin (p + 72)) v.
Definition set_sk_cwnd (p v : Z) (m : gmap Z Z) : gmap Z Z := store32 m (lin (p + 96)) v.
Definition set_sk_ssthresh (p v : Z) (m : gmap Z Z) : gmap Z Z := store32 m (lin (p + 100)) v.
Definition set_sk_srtt (p v : Z) (m : gmap Z Z) : gmap Z Z := store32 m (lin (p + 104)) v.
Definition set_sk_rttvar (p v : Z) (m : gmap Z Z) : gmap Z Z := store32 m (lin (p + 108)) v.
Definition set_sk_rto (p v : Z) (m : gmap Z Z) : gmap Z Z := store32 m (lin (p + 112)) v.
Definition sk_time_wait_timer (m : gmap Z Z) (p : Z) : Z := load8 m (lin (p + 116)).
Definition set_sk_time_wait_timer (p v : Z) (m : gmap Z Z) : gmap Z Z := store8 m (lin (p + 116)) v.

(** struct sockaddr_in *)
Definition sin_port (m : gmap Z Z) (p : Z) : Z := load16 m (lin (p + 2)).
Definition sin_addr (m : gmap Z Z) (p : Z) : Z := load32 m (lin (p + 4)).

(** struct tcp_header *)
Definition TCP_HEADER_SIZE : Z := 20.
Definition tcp_src_port (m : gmap Z Z) (p : Z) : Z := load16 m (lin p).
Definition tcp_dst_port (m : gmap Z Z) (p : Z) : Z := load16 m (lin (p + 2)).
Definition tcp_seq (m : gmap Z Z) (p : Z) : Z := load32 m (lin (p + 4)).
Definition tcp_ack (m : gmap Z Z) (p : Z) : Z := load32 m (lin (p + 8)).
Definition tcp_flags (m : gmap Z Z) (p : Z) : Z := load8 m (lin (p + 13)).

(** * Segments *)

(** The bytes of a local struct tcp_header; all fields as they are stored. *)
Definition tcp_header_bytes (src_port dst_port seq ack data_off flags window checksum urgent : Z)
    : list Z :=
  le_split 2 src_port ++ le_split 2 dst_port ++ le_split 4 seq ++ le_split 4 ack
  ++ [u8 data_off; u8 flags] ++ le_split 2 window ++ le_split 2 checksum ++ le_split 2 urgent.

Definition pseudo_header (src_ip dst_ip len : Z) : list Z :=
  le_split 4 src_ip ++ le_split 4 dst_ip ++ [0; IP_P_TCP] ++ le_split 2 (htons (u16 (TCP_HEADER_SIZE + len))).

(** [sum += *ptr++] over the 16-bit words of a local struct. *)
Fixpoint sum_struct (bs : list Z) (sum : Z) : Z :=
  match bs with
  | b0 :: b1 :: bs' => sum_struct bs' (u32 (sum + (b0 + 256 * b1)))
  | _ => sum
  end.

(** [src_ip] and [dst_ip] as in the local struct ipv4_header of tcp_tx. *)
Definition tcp_checksum (m : gmap Z Z) (src_ip dst_ip : Z) (tcp : list Z) (data len : Z) : option Z :=
  let sum := sum_struct (pseudo_header src_ip dst_ip len) 0 in
  let sum := sum_struct tcp sum in
  let sum := sum_words (Z.to_nat (len / 2)) m data sum in
  let sum := if truthy (len .& 1) then u32 (sum + load8 m (lin (data + len - 1))) else sum in
  sum ← fold_sum FOLD_FUEL sum; Some (u16 (Z.lnot sum)).

(** The header tcp_tx builds from the socket's fields. *)
Definition tx_header (m : gmap Z Z) (sock flags checksum : Z) : list Z :=
  tcp_header_bytes (htons (sk_local_port m sock)) (htons (sk_remote_port m sock))
    (htonl (sk_snd_nxt m sock)) (htonl (sk_rcv_nxt m sock)) (TCP_HEADER_SIZE / 4) flags
    (htons (sk_window m sock)) checksum 0.

Definition tcp_state_name (state : Z) : string :=
  if state =? TCP_CLOSED then "CLOSED"
  else if state =? TCP_LISTEN then "LISTEN"
  else if state =? TCP_SYN_SENT then "SYN_SENT"
  else if state =? TCP_SYN_RECV then "SYN_RECV"
  else if state =? TCP_ESTABLISHED then "ESTABLISHED"
  else if state =? TCP_FIN_WAIT1 then "FIN_WAIT1"
  else if state =? TCP_FIN_WAIT2 then "FIN_WAIT2"
  else if state =? TCP_CLOSE_WAIT then "CLOSE_WAIT"
  else if state =? TCP_CLOSING then "CLOSING"
  else if state =? TCP_LAST_ACK then "LAST_ACK"
  else if state =? TCP_TIME_WAIT then "TIME_WAIT"
  else "UNKNOWN".

(** * Sockets *)
Definition tcp_init : M unit :=
  upd_net (fun n => set_tcp_seq_num 0x12345678 (set_next_port 49152 (set_sockets 0 n))).

Definition tcp_socket : M Z :=
  sock ← kzalloc SIZEOF_SOCKET;
  if sock =? 0 then mret 0
  else
    upd_ram (set_sk_type sock SOCK_STREAM);;
    upd_ram (set_sk_state sock TCP_CLOSED);;
    upd_ram (set_sk_window sock TCP_RX_BUF_SIZE);;
    rx ← kmalloc TCP_RX_BUF_SIZE;
    upd_ram (set_sk_rx_buf sock rx);;
    tx ← kmalloc TCP_TX_BUF_SIZE;
    upd_ram (set_sk_tx_buf sock tx);;
    upd_ram (set_sk_cwnd sock (TCP_MSS * 2));;
    upd_ram (set_sk_ssthresh sock 65535);;
    upd_ram (set_sk_rto sock 100);;
    upd_ram (set_sk_srtt sock 0);;
    upd_ram (set_sk_rttvar sock 0);;
    n ← gets net;
    upd_ram (set_sk_next sock (sockets n));;
    upd_net (set_sockets sock);;
    mret sock.

Definition tcp_bind (sock addr : Z) : M Z :=
  m ← gets ram;
  if (sock =? 0) || negb (sk_state m sock =? TCP_CLOSED) then mret (-1)
  else
    upd_ram (set_sk_local_addr sock (ntohl (sin_addr m addr)));;
    m ← gets ram;
    upd_ram (set_sk_local_port sock (ntohs (sin_port m addr)));;
    mret 0.

Definition tcp_listen (sock backlog : Z) : M Z :=
  m ← gets ram;
  if (sock =? 0) || negb (sk_state m sock =? TCP_CLOSED) then mret (-1)
  else if sk_local_port m sock =? 0 then mret (-1)
  else upd_ram (set_sk_state sock TCP_LISTEN);; mret 0.

Section segments.
Variable dev_tx : Z -> Z -> Z -> M bool.

(** The sequence numbers a segment takes. *)
Definition seq_space (flags len : Z) (p : Z) : M unit :=
  whenM (truthy (flags .& TCP_SYN) && negb (truthy (flags .& TCP_ACK)))
    (upd_ram (fun m => set_sk_snd_nxt p (sk_snd_nxt m p + 1) m));;
  whenM (truthy (flags .& TCP_FIN)) (upd_ram (fun m => set_sk_snd_nxt p (sk_snd_nxt m p + 1) m));;
  whenM (truthy len) (upd_ram (fun m => set_sk_snd_nxt p (sk_snd_nxt m p + len) m)).

Definition tcp_tx (sock flags data len : Z) : M unit :=
  if sock =? 0 then mret tt
  else
    m ← gets ram;
    checksum ← returned (tcp_checksum m (htonl (sk_local_addr m sock)) (htonl (sk_remote_addr m sock))
                           (tx_header m sock flags 0) data len);
    let total := u16 (TCP_HEADER_SIZE + len) in
    packet ← kmalloc total;
    if packet =? 0 then mret tt
    else
      upd_ram (fun m' => store_bytes m' (lin packet) (tx_header m sock flags checksum));;
      whenM (truthy len && truthy data)
        (upd_ram (fun m => memcpy m (lin (packet + TCP_HEADER_SIZE)) (lin data) len));;
      m ← gets ram;
      ip_send dev_tx (sk_remote_addr m sock) IP_P_TCP packet total;;
      kfree packet;;
      seq_space flags len sock.

Definition tcp_connect (sock addr : Z) : M Z :=
  m ← gets ram;
  if (sock =? 0) || negb (sk_state m sock =? TCP_CLOSED) then mret (-1)
  else
    upd_ram (set_sk_remote_addr sock (ntohl (sin_addr m addr)));;
    m ← gets ram;
    upd_ram (set_sk_remote_port sock (ntohs (sin_port m addr)));;
    m ← gets ram;
    whenM (sk_local_port m sock =? 0)
      (n ← gets net;
       upd_net (set_next_port (u16 (next_port n + 1)));;
       upd_ram (set_sk_local_port sock (next_port n)));;
    m ← gets ram;
    whenM (sk_local_addr m sock =? 0)
      (dev ← net_get_device;
       whenM (truthy dev) (upd_ram (fun m => set_sk_local_addr sock (dev_ip m dev) m)));;
    upd_ram (set_sk_state sock TCP_SYN_SENT);;
    n ← gets net;
    upd_ram (set_sk_snd_una sock (tcp_seq_num n));;
    upd_ram (set_sk_snd_nxt sock (tcp_seq_num n + 1));;
    tcp_tx sock TCP_SYN 0 0;;
    mret 0.

(** * tcp_rx *)

(** The socket a segment is for: one with its ports, or a listener. *)
Fixpoint find_socket (fuel : nat) (m : gmap Z Z) (sock dport sport : Z) : option Z :=
  match fuel with
  | O => None
  | S f =>
      if sock =? 0 then Some 0
      else if (sk_local_port m sock =? dport) && (sk_remote_port m sock =? sport) then Some sock
      else if (sk_state m sock =? TCP_LISTEN) && (sk_local_port m sock =? dport) then Some sock
      else find_socket f m (sk_next m sock) dport sport
  end.

Definition rx_listen (sock flags seq sport : Z) : M unit :=
  whenM (truthy (flags .& TCP_SYN))
    (new_sock ← tcp_socket;
     if new_sock =? 0 then mret tt
     else
       upd_ram (set_sk_state new_sock TCP_SYN_RECV);;
       upd_ram (fun m => set_sk_local_addr new_sock (sk_local_addr m sock) m);;
       upd_ram (fun m => set_sk_local_port new_sock (sk_local_port m sock) m);;
       upd_ram (set_sk_remote_port new_sock sport);;
       upd_ram (set_sk_rcv_nxt new_sock (seq + 1));;
       upd_ram (fun m => set_sk_snd_una new_sock (sk_snd_nxt m sock) m);;
       upd_ram (fun m => set_sk_snd_nxt new_sock (sk_snd_nxt m sock) m);;
       tcp_tx new_sock (TCP_SYN .| TCP_ACK) 0 0).

Definition rx_syn_sent (sock flags seq ack : Z) : M unit :=
  m ← gets ram;
  whenM (truthy (flags .& TCP_SYN) && truthy (flags .& TCP_ACK) && (ack =? u32 (sk_snd_una m sock + 1)))
    (upd_ram (set_sk_state sock TCP_ESTABLISHED);;
     upd_ram (set_sk_rcv_nxt sock (seq + 1));;
     upd_ram (set_sk_snd_una sock ack);;
     tcp_tx sock TCP_ACK 0 0).

Definition rx_syn_recv (sock flags : Z) : M unit :=
  whenM (truthy (flags .& TCP_ACK)) (upd_ram (set_sk_state sock TCP_ESTABLISHED)).

(** The room in the receive ring, and how much of a segment it takes. *)
Definition rx_space (m : gmap Z Z) (sock : Z) : Z :=
  u32 (TCP_RX_BUF_SIZE - u32 (sk_rx_tail m sock - sk_rx_head m sock)).
Definition rx_accept (m : gmap Z Z) (sock len : Z) : Z :=
  if rx_space m sock <? len then u16 (rx_space m sock) else len.

(** Put [len] bytes of [payload] into the socket's ring at [tail]. *)
Definition ring_write (m : gmap Z Z) (sock tail payload len : Z) : gmap Z Z :=
  if TCP_RX_BUF_SIZE <? u32 (tail + len) then
    let first := TCP_RX_BUF_SIZE - tail in
    let m := memcpy m (lin (sk_rx_buf m sock + tail)) (lin payload) first in
    memcpy m (lin (sk_rx_buf m sock)) (lin (payload + first)) (len - first)
  else memcpy m (lin (sk_rx_buf m sock + tail)) (lin payload) len.

(** In-order data: into the ring, then the counters. *)
Definition rx_store (sock payload len : Z) (m : gmap Z Z) : gmap Z Z :=
  let len := rx_accept m sock len in
  let m := ring_write m sock (sk_rx_tail m sock mod TCP_RX_BUF_SIZE) payload len in
  let m := set_sk_rx_tail sock (sk_rx_tail m sock + len) m in
  set_sk_rcv_nxt sock (sk_rcv_nxt m sock + len) m.

Definition rx_established (sock flags seq ack payload len : Z) : M unit :=
  whenM (truthy (flags .& TCP_ACK)) (upd_ram (set_sk_snd_una sock ack));;
  m ← gets ram;
  whenM ((0 <? len) && (seq =? sk_rcv_nxt m sock))
    (upd_ram (rx_store sock payload len);;
     tcp_tx sock TCP_ACK 0 0);;
  whenM (truthy (flags .& TCP_FIN))
    (upd_ram (set_sk_state sock TCP_CLOSE_WAIT);;
     upd_ram (fun m => set_sk_rcv_nxt sock (sk_rcv_nxt m sock + 1) m);;
     tcp_tx sock TCP_ACK 0 0).

Definition rx_closing (sock flags : Z) : M unit :=
  whenM (truthy (flags .& TCP_ACK)) (upd_ram (set_sk_state sock TCP_CLOSED)).

Definition tcp_rx (fuel : nat) (tcp payload len : Z) : M unit :=
  m ← gets ram;
  n ← gets net;
  let dport := ntohs (tcp_dst_port m tcp) in
  let sport := ntohs (tcp_src_port m tcp) in
  sock ← returned (find_socket fuel m (sockets n) dport sport);
  if sock =? 0 then mret tt
  else
    let flags := tcp_flags m tcp in
    let seq := ntohl (tcp_seq m tcp) in
    let ack := ntohl (tcp_ack m tcp) in
    let state := sk_state m sock in
    if state =? TCP_LISTEN then rx_listen sock flags seq sport
    else if state =? TCP_SYN_SENT then rx_syn_sent sock flags seq ack
    else if state =? TCP_SYN_RECV then rx_syn_recv sock flags
    else if state =? TCP_ESTABLISHED then rx_established sock flags seq ack payload len
    else if (state =? TCP_CLOSE_WAIT) || (state =? TCP_LAST_ACK) then rx_closing sock flags
    else mret tt.

(** * The socket calls *)
Definition tcp_send (sock data len : Z) : M Z :=
  m ← gets ram;
  if (sock =? 0) || negb (sk_state m sock =? TCP_ESTABLISHED) then mret (-1)
  else if (data =? 0) || (len =? 0) then mret 0
  else tcp_tx sock (TCP_ACK .| TCP_PSH) data len;; mret len.

Definition tcp_close (sock : Z) : M unit :=
  if sock =? 0 then mret tt
  else
    m ← gets ram;
    let state := sk_state m sock in
    if state =? TCP_ESTABLISHED then
      upd_ram (set_sk_state sock TCP_FIN_WAIT1);; tcp_tx sock (TCP_FIN .| TCP_ACK) 0 0
    else if state =? TCP_CLOSE_WAIT then
      upd_ram (set_sk_state sock TCP_LAST_ACK);; tcp_tx sock (TCP_FIN .| TCP_ACK) 0 0
    else whenM ((state =? TCP_SYN_SENT) || (state =? TCP_SYN_RECV) || (state =? TCP_CLOSED))
           (upd_ram (set_sk_state sock TCP_CLOSED)).
End segments.

(** Take [len] bytes of the socket's ring at [head] to [buf]. *)
Definition ring_read (m : gmap Z Z) (sock head buf len : Z) : gmap Z Z :=
  if TCP_RX_BUF_SIZE <? u32 (head + len) then
    let first := TCP_RX_BUF_SIZE - head in
    let m := memcpy m (lin buf) (lin (sk_rx_buf m sock + head)) first in
    memcpy m (lin (buf + first)) (lin (sk_rx_buf m sock)) (len - first)
  else memcpy m (lin buf) (lin (sk_rx_buf m sock + head)) len.

Definition tcp_recv (sock buf len : Z) : M Z :=
  if sock =? 0 then mret (-1)
  else
    m ← gets ram;
    if negb (sk_state m sock =? TCP_ESTABLISHED) && negb (sk_state m sock =? TCP_CLOSE_WAIT)
    then mret (-1)
    else
      let available := u32 (sk_rx_tail m sock - sk_rx_head m sock) in
      if available =? 0 then mret 0
      else
        let len := if available <? len then u16 available else len in
        upd_ram (fun m => ring_read m sock (sk_rx_head m sock mod TCP_RX_BUF_SIZE) buf len);;
        upd_ram (fun m => set_sk_rx_head sock (sk_rx_head m sock + len) m);;
        mret len.

(** * The timer and the reaper *)
Definition tick_socket (sock : Z) (m : gmap Z Z) : gmap Z Z :=
  if sk_state m sock =? TCP_TIME_WAIT then
    if 0 <? sk_time_wait_timer m sock
    then set_sk_time_wait_timer sock (sk_time_wait_timer m sock - 1) m
    else set_sk_state sock TCP_CLOSED m
  else m.

Fixpoint tick_loop (fuel : nat) (m : gmap Z Z) (sock : Z) : option (gmap Z Z) :=
  match fuel with
  | O => None
  | S f =>
      if sock =? 0 then Some m
      else let m := tick_socket sock m in tick_loop f m (sk_next m sock)
  end.

Definition tcp_timer_tick (fuel : nat) : M unit :=
  m ← gets ram;
  n ← gets net;
  m ← returned (tick_loop fuel m (sockets n));
  upd_ram (fun _ => m).

(** [prev]: NULL stands for the static variable, any other address for the
    [next] field of that socket. *)
Definition get_link (prev : Z) : M Z :=
  if prev =? 0 then gets (fun s => sockets (net s)) else gets (fun s => sk_next (ram s) prev).
Definition set_link (prev v : Z) : M unit :=
  if prev =? 0 then upd_net (set_sockets v) else upd_ram (set_sk_next prev v).

Fixpoint cleanup_loop (fuel : nat) (prev sock : Z) : M unit :=
  match fuel with
  | O => hang
  | S f =>
      if sock =? 0 then mret tt
      else
        m ← gets ram;
        if sk_state m sock =? TCP_CLOSED then
          set_link prev (sk_next m sock);;
          m ← gets ram;
          whenM (truthy (sk_rx_buf m sock)) (kfree (sk_rx_buf m sock));;
          m ← gets ram;
          whenM (truthy (sk_tx_buf m sock)) (kfree (sk_tx_buf m sock));;
          kfree sock;;
          sock ← get_link prev;
          cleanup_loop f prev sock
        else cleanup_loop f sock (sk_next m sock)
  end.

Definition tcp_cleanup (fuel : nat) : M unit :=
  n ← gets net;
  cleanup_loop fuel 0 (sockets n).
