(* ===== verification/TcpFacts.v ===== *)
(** Facts about sockets in RAM and the receive ring as a queue of bytes. *)
From S2P Require Import Prelude Machine Globals Strings Pmm Kmalloc Net NetFacts Tcp.

(** * Copies, byte by byte *)
Lemma copy_up_at n m d s i :
  d + Z.of_nat n <= s \/ s + Z.of_nat n <= d -> 0 <= i < Z.of_nat n ->
  load8 (copy_up n m d s) (d + i) = load8 m (s + i).
Proof.
  intros Hd Hi. pose proof (copy_up_load n m d s ltac:(lia)) as E.
  apply (f_equal (fun l => l !! Z.to_nat i)) in E.
  rewrite !load_bytes_lookup in E by lia. injection E as E. by rewrite !Z2Nat.id in E by lia.
Qed.

Lemma memcpy_at m d s n i :
  d + n <= s \/ s + n <= d -> 0 <= i < n -> load8 (memcpy m d s n) (d + i) = load8 m (s + i).
Proof. intros Hd Hi. unfold memcpy. apply copy_up_at; lia. Qed.

Lemma memcpy_frame m d s n : 0 <= n -> only_changes d (d + n) m (memcpy m d s n).
Proof.
  intros. unfold memcpy. eapply only_changes_weaken; [apply copy_up_frame|lia..].
Qed.

(** * The fields of a socket *)
Definition sock_ok (p : Z) : Prop := 0 < p < 2 ^ 64 /\ one_half p SIZEOF_SOCKET.

Lemma sock_lin p d : sock_ok p -> 0 <= d < SIZEOF_SOCKET -> lin (p + d) = lin p + d.
Proof. intros [_ H] ?. by eapply lin_shift. Qed.

Lemma sock_nonnull p : sock_ok p -> (p =? 0) = false.
Proof. intros [? _]. apply Z.eqb_neq. lia. Qed.

Section fields.
Context (p : Z) (Hp : sock_ok p).

(** A field of [n] bytes at [d] reads back, and is not touched by a store to
    [k] bytes at [e]. *)
Lemma field_other n k d e m v :
  0 <= d -> d + Z.of_nat n <= SIZEOF_SOCKET -> 0 <= e -> e + Z.of_nat k <= SIZEOF_SOCKET ->
  (0 < n)%nat -> (0 < k)%nat -> (d + Z.of_nat n <= e \/ e + Z.of_nat k <= d) ->
  load_le n (store_le k m (lin (p + e)) v) (lin (p + d)) = load_le n m (lin (p + d)).
Proof.
  intros. rewrite !(sock_lin p) by (done || lia). apply load_store_disjoint. lia.
Qed.

(** A field is kept by a change elsewhere. *)
Lemma field_frame n d lo hi m m' :
  0 <= d -> d + Z.of_nat n <= SIZEOF_SOCKET -> (0 < n)%nat ->
  only_changes lo hi m m' -> hi <= lin p \/ lin p + SIZEOF_SOCKET <= lo ->
  load_le n m' (lin (p + d)) = load_le n m (lin (p + d)).
Proof.
  intros ??? Hm ?. rewrite (sock_lin p) by (done || lia). eapply load_le_frame; [exact Hm|].
  unfold SIZEOF_SOCKET in *. lia.
Qed.

Lemma state_frame lo hi m m' :
  only_changes lo hi m m' -> hi <= lin p \/ lin p + SIZEOF_SOCKET <= lo ->
  sk_state m' p = sk_state m p.
Proof.
  intros Hm ?. unfold sk_state. rewrite (sock_lin p) by (done || (unfold SIZEOF_SOCKET; lia)).
  apply Hm. unfold SIZEOF_SOCKET in *. lia.
Qed.

Lemma state_other k e m v :
  0 <= e -> e + Z.of_nat k <= SIZEOF_SOCKET -> (0 < k)%nat -> (e + Z.of_nat k <= 18 \/ 19 <= e) ->
  sk_state (store_le k m (lin (p + e)) v) p = sk_state m p.
Proof.
  intros. unfold sk_state. rewrite !(sock_lin p) by (done || (unfold SIZEOF_SOCKET in *; lia)).
  apply store_le_frame. lia.
Qed.

Lemma state_set v m : sk_state (set_sk_state p v m) p = u8 v.
Proof. unfold sk_state, set_sk_state. rewrite load8_store8, Z.eqb_refl. done. Qed.

Lemma field_state n d m v :
  0 <= d -> d + Z.of_nat n <= SIZEOF_SOCKET -> (0 < n)%nat -> (d + Z.of_nat n <= 18 \/ 19 <= d) ->
  load_le n (set_sk_state p v m) (lin (p + d)) = load_le n m (lin (p + d)).
Proof.
  intros. unfold set_sk_state. rewrite !(sock_lin p) by (done || (unfold SIZEOF_SOCKET in *; lia)).
  apply load_le_ext. intros a Ha. rewrite load8_store8. by test_false.
Qed.

Lemma store_field_frame k e m v :
  0 <= e -> e + Z.of_nat k <= SIZEOF_SOCKET -> (0 < k)%nat ->
  only_changes (lin p + e) (lin p + e + Z.of_nat k) m (store_le k m (lin (p + e)) v).
Proof. intros. rewrite (sock_lin p) by (done || lia). apply store_le_frame. Qed.
End fields.

(** Read a field of a socket after stores to fields of the same socket. *)
Ltac sk_unfold :=
  unfold sk_local_addr, sk_local_port, sk_remote_addr, sk_remote_port, sk_snd_una, sk_snd_nxt,
    sk_rcv_nxt, sk_window, sk_rx_buf, sk_tx_buf, sk_rx_head, sk_rx_tail, sk_next,
    set_sk_local_addr, set_sk_local_port, set_sk_remote_addr, set_sk_remote_port, set_sk_snd_una,
    set_sk_snd_nxt, set_sk_rcv_nxt, set_sk_window, set_sk_rx_buf, set_sk_tx_buf, set_sk_rx_head,
    set_sk_rx_tail, set_sk_next in *.
Ltac sk_side := first [assumption | unfold SIZEOF_SOCKET in *; lia].
Ltac sk_simpl :=
  sk_unfold;
  repeat first
    [ rewrite load64_store64 | rewrite load32_store32 | rewrite load16_store16 | rewrite state_set
    | rewrite field_other by sk_side | rewrite state_other by sk_side | rewrite field_state by sk_side ].

(** * The receive ring *)
Definition RING : Z := TCP_RX_BUF_SIZE.

(** How many bytes wait, and the byte number [k] after the head. *)
Definition rx_used (m : gmap Z Z) (sock : Z) : Z := u32 (sk_rx_tail m sock - sk_rx_head m sock).
Definition ring_byte (m : gmap Z Z) (sock k : Z) : Z :=
  load8 m (lin (sk_rx_buf m sock) + (sk_rx_head m sock + k) mod RING).

(** The queue of bytes that tcp_recv has yet to hand out. *)
Definition rx_queue (m : gmap Z Z) (sock : Z) : list Z :=
  map (fun k => ring_byte m sock (Z.of_nat k)) (seq 0 (Z.to_nat (rx_used m sock))).

(** A socket whose ring buffer is mapped, apart from it, and not overfull. *)
Record ring_ok (m : gmap Z Z) (sock : Z) : Prop := {
  rg_sock : sock_ok sock;
  rg_half : one_half (sk_rx_buf m sock) RING;
  rg_apart : lin (sk_rx_buf m sock) + RING <= lin sock
             \/ lin sock + SIZEOF_SOCKET <= lin (sk_rx_buf m sock);
  rg_used : rx_used m sock <= RING;
}.

(** [n] bytes at [a] are apart from the socket and its ring. *)
Record outside (m : gmap Z Z) (sock a n : Z) : Prop := {
  os_half : one_half a n;
  os_sock : lin a + n <= lin sock \/ lin sock + SIZEOF_SOCKET <= lin a;
  os_ring : lin a + n <= lin (sk_rx_buf m sock) \/ lin (sk_rx_buf m sock) + RING <= lin a;
}.

Lemma rx_queue_length m sock : 0 <= rx_used m sock -> Z.of_nat (length (rx_queue m sock)) = rx_used m sock.
Proof. intros. unfold rx_queue. rewrite length_map, length_seq. lia. Qed.

Lemma rx_used_range m sock : 0 <= rx_used m sock < 2 ^ 32.
Proof. apply u32_range. Qed.

(** The two copies of a ring access reach every index, through the wrap. *)
Section ring_access.
Context (t n : Z) (Ht : 0 <= t < RING) (Hn : 0 <= n <= RING).

Lemma ring_wraps : (RING <? u32 (t + n)) = (RING <? t + n).
Proof. rewrite u32_small; [done|]. unfold RING, TCP_RX_BUF_SIZE in *. lia. Qed.

Lemma ring_index k :
  0 <= k < n -> (t + k) mod RING = if t + k <? RING then t + k else t + k - RING.
Proof.
  intros. unfold RING, TCP_RX_BUF_SIZE in *. destruct (Z.ltb_spec (t + k) 65536).
  - apply Z.mod_small. lia.
  - replace (t + k) with (t + k - 65536 + 1 * 65536) at 1 by lia. rewrite Z.mod_add by lia.
    apply Z.mod_small. lia.
Qed.
End ring_access.

Section ring_write.
Context (m : gmap Z Z) (sock payload t n : Z).
Context (Hok : ring_ok m sock) (Hout : outside m sock payload n).
Context (Ht : 0 <= t < RING) (Hn : 0 <= n <= RING).
Let buf : Z := sk_rx_buf m sock.
Let m' : gmap Z Z := ring_write m sock t payload n.

Lemma buf_lin k : 0 <= k < RING -> lin (buf + k) = lin buf + k.
Proof. intros. eapply lin_shift; [apply (rg_half _ _ Hok)|done]. Qed.

Lemma payload_lin k : 0 <= k < n -> lin (payload + k) = lin payload + k.
Proof. intros. eapply lin_shift; [apply (os_half _ _ _ _ Hout)|done]. Qed.

Lemma ring_buf_kept m1 :
  only_changes (lin buf) (lin buf + RING) m m1 -> sk_rx_buf m1 sock = buf.
Proof.
  intros Hm. unfold sk_rx_buf, buf. eapply field_frame; [apply (rg_sock _ _ Hok)|..|exact Hm|];
    [unfold SIZEOF_SOCKET; lia..|]. destruct (rg_apart _ _ Hok); auto.
Qed.

Lemma ring_write_spec :
  only_changes (lin buf) (lin buf + RING) m m'
  /\ (forall k, 0 <= k < n -> load8 m' (lin buf + (t + k) mod RING) = load8 m (lin payload + k))
  /\ (forall j, 0 <= j < RING -> (forall k, 0 <= k < n -> (t + k) mod RING <> j) ->
        load8 m' (lin buf + j) = load8 m (lin buf + j)).
Proof.
  pose proof (os_ring _ _ _ _ Hout) as Hapart. fold buf in Hapart.
  unfold m', ring_write. fold buf RING. rewrite ring_wraps by done. rewrite buf_lin by lia.
  destruct (Z.ltb_spec RING (t + n)) as [Hw|Hw].
  - set (m1 := memcpy m (lin buf + t) (lin payload) (RING - t)).
    assert (Hm1 : only_changes (lin buf + t) (lin buf + RING) m m1).
    { eapply only_changes_weaken; [apply memcpy_frame; lia|lia..]. }
    rewrite (ring_buf_kept m1) by (eapply only_changes_weaken; [exact Hm1|lia..]).
    rewrite payload_lin by lia.
    set (m2 := memcpy m1 _ _ _).
    assert (Hm2 : only_changes (lin buf) (lin buf + (n - (RING - t))) m1 m2) by (apply memcpy_frame; lia).
    split; [|split].
    + eapply only_changes_trans;
        [eapply only_changes_weaken; [exact Hm1|lia..]|eapply only_changes_weaken; [exact Hm2|lia..]].
    + intros k Hk. rewrite (ring_index t n) by done. destruct (Z.ltb_spec (t + k) RING).
      * rewrite Hm2 by lia. replace (lin buf + (t + k)) with (lin buf + t + k) by lia.
        apply memcpy_at; lia.
      * unfold m2. replace (lin buf + (t + k - RING)) with (lin buf + (k - (RING - t))) by lia.
        rewrite memcpy_at by lia. rewrite Hm1 by lia. f_equal. lia.
    + intros j Hj Hno. rewrite Hm2, Hm1; [done|..].
      * destruct (Z.ltb_spec j t); [lia|]. exfalso. apply (Hno (j - t)); [lia|].
        rewrite (ring_index t n) by lia. destruct (Z.ltb_spec (t + (j - t)) RING); lia.
      * destruct (Z.leb_spec (n - (RING - t)) j); [lia|]. exfalso. apply (Hno (j + (RING - t))); [lia|].
        rewrite (ring_index t n) by lia. destruct (Z.ltb_spec (t + (j + (RING - t))) RING); lia.
  - assert (Hm1 : only_changes (lin buf + t) (lin buf + t + n) m (memcpy m (lin buf + t) (lin payload) n))
      by (apply memcpy_frame; lia).
    split; [|split].
    + eapply only_changes_weaken; [exact Hm1|lia..].
    + intros k Hk. rewrite (ring_index t n) by done. destruct (Z.ltb_spec (t + k) RING); [|lia].
      replace (lin buf + (t + k)) with (lin buf + t + k) by lia. apply memcpy_at; lia.
    + intros j Hj Hno. apply Hm1. destruct (Z.ltb_spec j t); [lia|].
      destruct (Z.leb_spec (t + n) j); [lia|]. exfalso. apply (Hno (j - t)); [lia|].
      rewrite (ring_index t n) by lia. destruct (Z.ltb_spec (t + (j - t)) RING); lia.
Qed.
End ring_write.

(** ** Storing appends to the queue *)
Definition rx_taken (m : gmap Z Z) (sock len : Z) : Z := Z.min len (RING - rx_used m sock).

Lemma rx_accept_val m sock len :
  rx_used m sock <= RING -> 0 <= len < 65536 -> rx_accept m sock len = rx_taken m sock len.
Proof.
  intros Hu Hlen. pose proof (rx_used_range m sock).
  unfold rx_accept, rx_taken, rx_space. fold (rx_used m sock). unfold RING, TCP_RX_BUF_SIZE in *.
  rewrite u32_small by lia. destruct (Z.ltb_spec (65536 - rx_used m sock) len); [|lia].
  rewrite u16_small by lia. lia.
Qed.

Lemma used_grow t h n : 0 <= n -> u32 (t - h) + n < 2 ^ 32 -> u32 (u32 (t + n) - h) = u32 (t - h) + n.
Proof.
  intros Hn Hb. unfold u32 in *. rewrite Zminus_mod_idemp_l.
  replace (t + n - h) with (t - h + n) by lia. rewrite <- Zplus_mod_idemp_l.
  apply Z.mod_small. pose proof (Z.mod_pos_bound (t - h) 0x100000000). lia.
Qed.

Lemma used_shrink t h n : 0 <= n <= u32 (t - h) -> u32 (t - u32 (h + n)) = u32 (t - h) - n.
Proof.
  intros Hn. unfold u32 in *. rewrite Zminus_mod_idemp_r.
  replace (t - (h + n)) with (t - h - n) by lia. rewrite <- Zminus_mod_idemp_l.
  apply Z.mod_small. pose proof (Z.mod_pos_bound (t - h) 0x100000000). lia.
Qed.

(** The index of the tail, from the head. *)
Lemma tail_index t h j : ((t mod RING) + j) mod RING = (h + (u32 (t - h) + j)) mod RING.
Proof.
  unfold RING, TCP_RX_BUF_SIZE, u32. rewrite Zplus_mod_idemp_l.
  replace (h + ((t - h) mod 4294967296 + j)) with (t - h - 4294967296 * ((t - h) / 4294967296) + (h + j))
    by (pose proof (Z.div_mod (t - h) 4294967296); lia).
  replace (t - h - 4294967296 * ((t - h) / 4294967296) + (h + j))
    with (t + j + (- 65536 * ((t - h) / 4294967296)) * 65536) by lia.
  by rewrite Z.mod_add by lia.
Qed.

Lemma map_seq_app {A} (f g : Z -> A) (u n : Z) (l : list A) :
  0 <= u -> 0 <= n -> length l = Z.to_nat n ->
  (forall k, 0 <= k < u -> f k = g k) ->
  (forall j, 0 <= j < n -> l !! Z.to_nat j = Some (f (u + j))) ->
  map (fun k => f (Z.of_nat k)) (seq 0 (Z.to_nat (u + n)))
  = map (fun k => g (Z.of_nat k)) (seq 0 (Z.to_nat u)) ++ l.
Proof.
  intros Hu Hn Hl Hfg Hfl. rewrite Z2Nat.inj_add, seq_app, map_app by lia. f_equal.
  - apply map_ext_in. intros k Hk%in_seq. apply Hfg. lia.
  - apply list_eq. intros i. rewrite list_lookup_fmap. destruct (decide (i < Z.to_nat n)%nat) as [Hi|Hi].
    + rewrite lookup_seq_lt by done. simpl. specialize (Hfl (Z.of_nat i) ltac:(lia)).
      rewrite Nat2Z.id in Hfl. rewrite Hfl. do 2 f_equal. lia.
    + rewrite lookup_seq_ge by lia. symmetry. apply lookup_ge_None_2. lia.
Qed.

Section rx_store.
Context (m : gmap Z Z) (sock payload len : Z).
Context (Hok : ring_ok m sock) (Hlen : 0 <= len < 65536) (Hout : outside m sock payload len).
Let buf : Z := sk_rx_buf m sock.
Let n : Z := rx_taken m sock len.
Let m1 : gmap Z Z := ring_write m sock (sk_rx_tail m sock mod RING) payload n.
Let m' : gmap Z Z := rx_store sock payload len m.

Lemma taken_range : 0 <= n <= len /\ n <= RING - rx_used m sock.
Proof. pose proof (rx_used_range m sock). pose proof (rg_used _ _ Hok). unfold n, rx_taken. lia. Qed.

Lemma outside_prefix k : 0 <= k <= len -> outside m sock payload k.
Proof.
  intros Hk. destruct Hout as [H1 H2 H3]. split; [|lia|lia].
  destruct H1; [left|right]; lia.
Qed.

Lemma m1_spec :
  only_changes (lin buf) (lin buf + RING) m m1
  /\ (forall k, 0 <= k < n -> load8 m1 (lin buf + (sk_rx_tail m sock mod RING + k) mod RING) = load8 m (lin payload + k))
  /\ (forall j, 0 <= j < RING -> (forall k, 0 <= k < n -> (sk_rx_tail m sock mod RING + k) mod RING <> j) ->
        load8 m1 (lin buf + j) = load8 m (lin buf + j)).
Proof.
  pose proof taken_range. pose proof (rx_used_range m sock).
  apply ring_write_spec; [done|apply outside_prefix; lia|apply Z.mod_pos_bound; done|lia].
Qed.

Lemma m1_field k d :
  0 <= d -> d + Z.of_nat k <= SIZEOF_SOCKET -> (0 < k)%nat ->
  load_le k m1 (lin (sock + d)) = load_le k m (lin (sock + d)).
Proof.
  intros. destruct m1_spec as [Hm _]. eapply field_frame; [apply Hok|done..|exact Hm|].
  destruct (rg_apart _ _ Hok) as [Ha|Ha]; fold buf in Ha; auto.
Qed.

Lemma rx_store_val :
  m' = store32 (store32 m1 (lin (sock + 60)) (sk_rx_tail m sock + n)) (lin (sock + 28)) (sk_rcv_nxt m sock + n).
Proof.
  pose proof (rg_sock _ _ Hok) as Hp.
  unfold m', rx_store. rewrite (rx_accept_val m sock len (rg_used _ _ Hok) Hlen). fold n RING m1.
  sk_unfold. rewrite (field_other sock Hp) by (unfold SIZEOF_SOCKET; lia).
  rewrite !m1_field by (unfold SIZEOF_SOCKET; lia). done.
Qed.

Lemma m'_frame a :
  a < lin buf \/ lin buf + RING <= a ->
  a < lin sock + 28 \/ lin sock + 32 <= a -> a < lin sock + 60 \/ lin sock + 64 <= a ->
  load8 m' a = load8 m a.
Proof.
  intros H1 H2 H3. pose proof (rg_sock _ _ Hok) as Hp. destruct m1_spec as [Hm _].
  rewrite rx_store_val. rewrite !(sock_lin sock _ Hp) by (unfold SIZEOF_SOCKET; lia).
  rewrite !(store_le_frame 4) by lia. by apply Hm.
Qed.

Lemma m'_ring a : lin buf <= a < lin buf + RING -> load8 m' a = load8 m1 a.
Proof.
  intros Ha. pose proof (rg_sock _ _ Hok) as Hp. rewrite rx_store_val.
  rewrite !(sock_lin sock _ Hp) by (unfold SIZEOF_SOCKET; lia).
  destruct (rg_apart _ _ Hok) as [Hb|Hb]; fold buf in Hb; unfold SIZEOF_SOCKET in *;
    rewrite !(store_le_frame 4) by lia; done.
Qed.

Lemma m'_field k d :
  0 <= d -> d + Z.of_nat k <= SIZEOF_SOCKET -> (0 < k)%nat ->
  d + Z.of_nat k <= 28 \/ 32 <= d -> d + Z.of_nat k <= 60 \/ 64 <= d ->
  load_le k m' (lin (sock + d)) = load_le k m (lin (sock + d)).
Proof.
  intros. pose proof (rg_sock _ _ Hok) as Hp. rewrite rx_store_val.
  rewrite !(field_other sock Hp) by (unfold SIZEOF_SOCKET in *; lia). by apply m1_field.
Qed.

Lemma m'_counters :
  sk_rcv_nxt m' sock = u32 (sk_rcv_nxt m sock + n) /\ sk_rx_head m' sock = sk_rx_head m sock
  /\ sk_rx_buf m' sock = buf /\ rx_used m' sock = rx_used m sock + n.
Proof.
  pose proof (rg_sock _ _ Hok) as Hp. pose proof taken_range. pose proof (rx_used_range m sock).
  assert (Hh : sk_rx_head m' sock = sk_rx_head m sock) by (apply (m'_field 4 56); unfold SIZEOF_SOCKET; lia).
  split; [|split; [done|split]].
  - rewrite rx_store_val. unfold sk_rcv_nxt at 1. apply load32_store32.
  - apply (m'_field 8 40); unfold SIZEOF_SOCKET; lia.
  - unfold rx_used at 1. rewrite Hh, rx_store_val. unfold sk_rx_tail at 1.
    rewrite (field_other sock Hp), load32_store32 by (unfold SIZEOF_SOCKET; lia).
    apply used_grow; [lia|]. fold (rx_used m sock). unfold RING, TCP_RX_BUF_SIZE in *. lia.
Qed.

Lemma rx_store_queue :
  rx_queue m' sock = rx_queue m sock ++ load_bytes (Z.to_nat n) m (lin payload).
Proof.
  destruct m'_counters as (_ & Hh & Hb & Hu). destruct m1_spec as (_ & Hnew & Hold).
  pose proof taken_range as Htk. pose proof (rx_used_range m sock) as Hur.
  unfold rx_queue at 1. rewrite Hu. unfold rx_queue.
  assert (Hring : forall k, ring_byte m' sock k = load8 m1 (lin buf + (sk_rx_head m sock + k) mod RING)).
  { intros k. unfold ring_byte. rewrite Hh, Hb. apply m'_ring.
    pose proof (Z.mod_pos_bound (sk_rx_head m sock + k) RING eq_refl). lia. }
  apply (map_seq_app (ring_byte m' sock) (ring_byte m sock)); [lia|lia|apply load_bytes_length|..].
  - intros k Hk. rewrite Hring. apply Hold; [apply Z.mod_pos_bound; done|].
    intros j Hj E. rewrite (tail_index _ (sk_rx_head m sock)) in E.
    fold (rx_used m sock) in E. apply Z.cong_iff_0 in E.
    replace (sk_rx_head m sock + (rx_used m sock + j) - (sk_rx_head m sock + k))
      with (rx_used m sock + j - k) in E by lia.
    rewrite Z.mod_small in E by lia. lia.
  - intros j Hj. rewrite load_bytes_lookup by lia. rewrite Z2Nat.id by lia.
    rewrite Hring, <- Hnew by lia. do 2 f_equal. symmetry. f_equal.
    rewrite (tail_index _ (sk_rx_head m sock)). done.
Qed.
End rx_store.

(** ** Reading takes from the front of the queue *)
Section ring_read.
Context (m : gmap Z Z) (sock out n : Z).
Context (Hok : ring_ok m sock) (Hout : outside m sock out n) (Hn : 0 <= n <= RING).
Let h : Z := sk_rx_head m sock mod RING.
Let m1 : gmap Z Z := ring_read m sock h out n.

Lemma ring_read_spec :
  only_changes (lin out) (lin out + n) m m1
  /\ forall k, 0 <= k < n -> load8 m1 (lin out + k) = ring_byte m sock k.
Proof.
  pose proof (Z.mod_pos_bound (sk_rx_head m sock) RING eq_refl) as Hh. fold h in Hh.
  destruct Hout as [Hhalf Hs Hr]. set (buf := sk_rx_buf m sock) in *.
  assert (Hbyte : forall k, ring_byte m sock k = load8 m (lin buf + (h + k) mod RING)).
  { intros k. unfold ring_byte, h. by rewrite Zplus_mod_idemp_l. }
  unfold m1, ring_read. fold buf RING. rewrite (ring_wraps h n) by done.
  rewrite (lin_shift buf RING) by (apply Hok || done).
  destruct (Z.ltb_spec RING (h + n)) as [Hw|Hw].
  - set (m2 := memcpy m (lin out) (lin buf + h) (RING - h)).
    assert (Hm2 : only_changes (lin out) (lin out + (RING - h)) m m2) by (apply memcpy_frame; lia).
    assert (Hb2 : sk_rx_buf m2 sock = buf).
    { unfold sk_rx_buf, buf. eapply field_frame; [apply Hok|unfold SIZEOF_SOCKET; lia..|exact Hm2|lia]. }
    rewrite Hb2, (lin_shift out n) by (done || lia).
    set (m3 := memcpy m2 _ _ _).
    assert (Hm3 : only_changes (lin out + (RING - h)) (lin out + n) m2 m3).
    { eapply only_changes_weaken; [apply memcpy_frame; lia|lia..]. }
    split.
    + eapply only_changes_trans;
        [eapply only_changes_weaken; [exact Hm2|lia..]|eapply only_changes_weaken; [exact Hm3|lia..]].
    + intros k Hk. rewrite Hbyte, (ring_index h n) by done. destruct (Z.ltb_spec (h + k) RING).
      * rewrite Hm3 by lia. unfold m2. rewrite memcpy_at by lia. f_equal. lia.
      * unfold m3. replace (lin out + k) with (lin out + (RING - h) + (k - (RING - h))) by lia.
        rewrite memcpy_at by lia. rewrite Hm2 by lia. f_equal. lia.
  - split; [apply memcpy_frame; lia|]. intros k Hk. rewrite Hbyte, (ring_index h n) by done.
    destruct (Z.ltb_spec (h + k) RING); [|lia]. rewrite memcpy_at by lia. f_equal. lia.
Qed.

(** The memory tcp_recv leaves. *)
Let m' : gmap Z Z := set_sk_rx_head sock (sk_rx_head m1 sock + n) m1.
Context (Hused : n <= rx_used m sock).

Lemma read_field k d :
  0 <= d -> d + Z.of_nat k <= SIZEOF_SOCKET -> (0 < k)%nat ->
  load_le k m1 (lin (sock + d)) = load_le k m (lin (sock + d)).
Proof.
  intros. destruct ring_read_spec as [Hm _].
  eapply field_frame; [apply Hok|done..|exact Hm|]. destruct Hout as [_ ? _]. lia.
Qed.

Lemma read_val : m' = store32 m1 (lin (sock + 56)) (sk_rx_head m sock + n).
Proof. unfold m'. sk_unfold. by rewrite read_field by (unfold SIZEOF_SOCKET; lia). Qed.

Lemma read_frame a :
  a < lin out \/ lin out + n <= a -> a < lin sock + 56 \/ lin sock + 60 <= a -> load8 m' a = load8 m a.
Proof.
  intros H1 H2. destruct ring_read_spec as [Hm _]. rewrite read_val.
  rewrite (sock_lin sock _ (rg_sock _ _ Hok)) by (unfold SIZEOF_SOCKET; lia).
  rewrite (store_le_frame 4) by lia. by apply Hm.
Qed.

Lemma read_queue :
  load_bytes (Z.to_nat n) m' (lin out) = take (Z.to_nat n) (rx_queue m sock)
  /\ rx_queue m' sock = drop (Z.to_nat n) (rx_queue m sock).
Proof.
  pose proof (rg_sock _ _ Hok) as Hp. destruct ring_read_spec as [Hm Hbytes].
  destruct Hout as [Hhalf Hs Hr]. pose proof (rx_used_range m sock) as Hur.
  pose proof (sock_lin sock 56 Hp ltac:(unfold SIZEOF_SOCKET; lia)) as El.
  assert (Hh' : sk_rx_head m' sock = u32 (sk_rx_head m sock + n))
    by (rewrite read_val; apply load32_store32).
  assert (Hother : forall k d, 0 <= d -> d + Z.of_nat k <= SIZEOF_SOCKET -> (0 < k)%nat ->
            d + Z.of_nat k <= 56 \/ 60 <= d ->
            load_le k m' (lin (sock + d)) = load_le k m (lin (sock + d))).
  { intros k d ????. rewrite read_val, (field_other sock Hp) by (unfold SIZEOF_SOCKET in *; lia).
    by apply read_field. }
  assert (Hb' : sk_rx_buf m' sock = sk_rx_buf m sock) by (apply (Hother 8%nat 40); unfold SIZEOF_SOCKET; lia).
  assert (Hu' : rx_used m' sock = rx_used m sock - n).
  { unfold rx_used at 1. rewrite Hh'. unfold sk_rx_tail at 1.
    rewrite (Hother 4%nat 60) by (unfold SIZEOF_SOCKET; lia).
    apply used_shrink. split; [lia|exact Hused]. }
  split; apply list_eq; intros i.
  - destruct (decide (i < Z.to_nat n)%nat) as [Hi|Hi].
    + rewrite load_bytes_lookup, lookup_take_lt by done. unfold rx_queue.
      rewrite list_lookup_fmap, lookup_seq_lt by lia. simpl. f_equal.
      rewrite <- (Hbytes (Z.of_nat i)) by lia. rewrite read_val, El. apply (store_le_frame 4).
      unfold SIZEOF_SOCKET in *. lia.
    + rewrite !lookup_ge_None_2; [done| |rewrite load_bytes_length; lia]. rewrite length_take. lia.
  - rewrite lookup_drop. unfold rx_queue. rewrite Hu', !list_lookup_fmap.
    destruct (decide (i < Z.to_nat (rx_used m sock - n))%nat) as [Hi|Hi].
    + rewrite !lookup_seq_lt by lia. simpl. f_equal. unfold ring_byte. rewrite Hb', Hh'.
      set (b := lin (sk_rx_buf m sock)) in *.
      replace ((u32 (sk_rx_head m sock + n) + Z.of_nat i) mod RING)
        with ((sk_rx_head m sock + Z.of_nat (Z.to_nat n + i)) mod RING).
      * apply read_frame; pose proof (Z.mod_pos_bound (sk_rx_head m sock + Z.of_nat (Z.to_nat n + i)) RING eq_refl);
          [lia|]. destruct (rg_apart _ _ Hok) as [Ha|Ha]; fold b in Ha; unfold SIZEOF_SOCKET in Ha; lia.
      * unfold u32. rewrite Nat2Z.inj_add, Z2Nat.id by lia. unfold RING, TCP_RX_BUF_SIZE.
        rewrite <- (Zplus_mod_idemp_l ((_ + n) mod _)).
        rewrite Z.mod_mod_divide by (exists 65536; reflexivity).
        rewrite Zplus_mod_idemp_l. f_equal. lia.
    + rewrite !lookup_seq_ge by lia. done.
Qed.
End ring_read.

(** ** The queue depends on the ring and on three fields *)
Lemma rx_view_ext (m m' : gmap Z Z) (sock : Z) :
  ring_ok m sock ->
  agree_on (lin sock + 40) (lin sock + 64) m m' ->
  agree_on (lin (sk_rx_buf m sock)) (lin (sk_rx_buf m sock) + RING) m m' ->
  ring_ok m' sock /\ rx_queue m' sock = rx_queue m sock /\ sk_rx_buf m' sock = sk_rx_buf m sock.
Proof.
  intros Hok Hs Hr. pose proof (rg_sock _ _ Hok) as Hp.
  assert (Hf : forall k d, 40 <= d -> d + Z.of_nat k <= 64 ->
                load_le k m' (lin (sock + d)) = load_le k m (lin (sock + d))).
  { intros k d ??. symmetry. destruct (decide (k = 0%nat)) as [->|]; [done|].
    rewrite (sock_lin sock _ Hp) by (unfold SIZEOF_SOCKET; lia).
    apply load_le_ext. intros a Ha. apply Hs. lia. }
  assert (Hb : sk_rx_buf m' sock = sk_rx_buf m sock) by (apply (Hf 8%nat); lia).
  assert (Hh : sk_rx_head m' sock = sk_rx_head m sock) by (apply (Hf 4%nat); lia).
  assert (Ht : sk_rx_tail m' sock = sk_rx_tail m sock) by (apply (Hf 4%nat); lia).
  assert (Hu : rx_used m' sock = rx_used m sock) by (unfold rx_used; by rewrite Hh, Ht).
  split; [|split; [|done]].
  - destruct Hok. split; rewrite ?Hb, ?Hu; done.
  - unfold rx_queue. rewrite Hu. apply map_ext. intros k. unfold ring_byte. rewrite Hb, Hh.
    symmetry. apply Hr. pose proof (Z.mod_pos_bound (sk_rx_head m sock + Z.of_nat k) RING eq_refl). lia.
Qed.

(** A change that keeps the counters and the ring's place keeps it well formed. *)
Lemma ring_ok_update (m m' : gmap Z Z) (sock : Z) :
  ring_ok m sock -> sk_rx_buf m' sock = sk_rx_buf m sock -> rx_used m' sock <= RING -> ring_ok m' sock.
Proof. intros [? ? ? ?] Hb Hu. split; rewrite ?Hb; done. Qed.

(** * Runs of the receive path *)
Lemma rx_store_appends (m : gmap Z Z) (sock payload len : Z) :
  ring_ok m sock -> 0 <= len < 65536 -> outside m sock payload len ->
  let n := rx_taken m sock len in
  let m' := rx_store sock payload len m in
  0 <= n <= len
  /\ rx_queue m' sock = rx_queue m sock ++ load_bytes (Z.to_nat n) m (lin payload)
  /\ sk_rcv_nxt m' sock = u32 (sk_rcv_nxt m sock + n)
  /\ sk_rx_buf m' sock = sk_rx_buf m sock /\ ring_ok m' sock.
Proof.
  intros Hok Hlen Hout n m'. destruct (taken_range m sock len Hok Hlen) as [? ?].
  destruct (m'_counters m sock payload len Hok Hlen Hout) as (Hr & Hh & Hb & Hu).
  split; [lia|]. split; [by apply rx_store_queue|]. split; [done|]. split; [done|].
  eapply ring_ok_update; [exact Hok|done|]. unfold m'. rewrite Hu. unfold n in *. lia.
Qed.

Definition readable (state : Z) : bool := (state =? TCP_ESTABLISHED) || (state =? TCP_CLOSE_WAIT).

(** What tcp_recv does on a connection it can read from. *)
Lemma tcp_recv_takes (s : kst) (sock buf len : Z) :
  let n := Z.min len (rx_used (ram s) sock) in
  ring_ok (ram s) sock -> readable (sk_state (ram s) sock) = true -> 0 <= len < 65536 ->
  outside (ram s) sock buf n ->
  exists m', tcp_recv sock buf len s = Ret n (set_ram m' s)
    /\ load_bytes (Z.to_nat n) m' (lin buf) = take (Z.to_nat n) (rx_queue (ram s) sock)
    /\ rx_queue m' sock = drop (Z.to_nat n) (rx_queue (ram s) sock)
    /\ ring_ok m' sock
    /\ forall a, a < lin buf \/ lin buf + n <= a -> a < lin sock + 56 \/ lin sock + 60 <= a ->
         load8 m' a = load8 (ram s) a.
Proof.
  intros n Hok Hst Hlen Hout. set (m := ram s) in *. pose proof (rx_used_range m sock) as Hur.
  pose proof (rg_used _ _ Hok) as Hcap.
  unfold tcp_recv. rewrite (sock_nonnull _ (rg_sock _ _ Hok)), bind_gets. fold m.
  unfold readable in Hst. rewrite <- negb_orb, Hst. cbn [negb]. fold (rx_used m sock).
  destruct (Z.eqb_spec (rx_used m sock) 0) as [E0|Hne].
  { exists m. assert (En : n = 0) by (unfold n; lia). rewrite En. split; [by destruct s|].
    split; [done|]. split; [done|]. split; [done|]. done. }
  assert (En : (if rx_used m sock <? len then u16 (rx_used m sock) else len) = n).
  { unfold n. destruct (Z.ltb_spec (rx_used m sock) len); [rewrite u16_small by lia|]; lia. }
  rewrite En. clear En. assert (Hn : 0 <= n <= RING) by (unfold n; lia).
  assert (Hnu : n <= rx_used m sock) by (unfold n; lia).
  rewrite !bind_upd_ram. cbn [ram set_ram]. fold m RING.
  set (m1 := ring_read m sock (sk_rx_head m sock mod RING) buf n).
  set (m' := set_sk_rx_head sock (sk_rx_head m1 sock + n) m1).
  exists m'. split; [done|]. destruct (read_queue m sock buf n Hok Hout Hn Hnu) as [Hq1 Hq2].
  split; [exact Hq1|]. split; [exact Hq2|].
  assert (Hf : forall a, a < lin buf \/ lin buf + n <= a -> a < lin sock + 56 \/ lin sock + 60 <= a ->
           load8 m' a = load8 m a) by (intros a ??; by apply (read_frame m sock buf n Hok Hout Hn)).
  split; [|exact Hf]. destruct Hout as [_ Hos _].
  eapply (ring_ok_update m); [exact Hok|..].
  - unfold sk_rx_buf. rewrite !(sock_lin sock _ (rg_sock _ _ Hok)) by (unfold SIZEOF_SOCKET; lia).
    apply load_le_ext. intros a Ha. apply Hf; unfold SIZEOF_SOCKET in *; lia.
  - apply (f_equal length) in Hq2. rewrite length_drop in Hq2. unfold rx_queue in Hq2.
    rewrite !length_map, !length_seq in Hq2. pose proof (rx_used_range m' sock). unfold m', m1 in *. lia.
Qed.

(** * Checksums of segments *)
Lemma sum_struct_correct bs acc :
  byte_list bs -> Nat.Even (length bs) -> 0 <= acc -> acc + word_sum bs < 2 ^ 32 ->
  sum_struct bs acc = acc + word_sum bs.
Proof.
  revert acc. induction bs as [|b|b0 b1 bs IH] using two_ind; intros acc Hb He Ha Hlt.
  - simpl. lia.
  - destruct He as [k Hk]. simpl in Hk. lia.
  - apply Forall_cons in Hb as [? [? Hl]%Forall_cons]. pose proof (word_sum_bound _ Hl).
    rewrite word_sum_cons2 in *. cbn [sum_struct]. rewrite u32_small by lia.
    rewrite IH; [lia|done| |lia|lia]. destruct He as [k Hk]. exists (k - 1)%nat. simpl in Hk. lia.
Qed.

Definition pseudo_ok (bs : list Z) : Prop := byte_list bs /\ length bs = 12%nat.
Lemma pseudo_header_ok src dst len : pseudo_ok (pseudo_header src dst len).
Proof.
  split; [|done]. unfold pseudo_header, byte_list. rewrite !Forall_app.
  repeat split; try apply le_split_bytes. unfold IP_P_TCP. repeat constructor; lia.
Qed.

(** The sum over the data, whose odd byte is found from the end. *)
Lemma sum_data_acc m data len acc :
  one_half data len -> 0 <= len < 65536 -> 0 <= acc ->
  acc + word_sum (load_bytes (Z.to_nat len) m (lin data)) < 2 ^ 32 ->
  (if truthy (len .& 1)
   then u32 (sum_words (Z.to_nat (len / 2)) m data acc + load8 m (lin (data + len - 1)))
   else sum_words (Z.to_nat (len / 2)) m data acc)
  = acc + word_sum (load_bytes (Z.to_nat len) m (lin data)).
Proof.
  intros Hh Hlen Ha. change 1 with (2 ^ 1 - 1) at 1. rewrite land_low by lia. change (2 ^ 1) with 2.
  pose proof (Z.div_mod len 2). pose proof (Z.mod_pos_bound len 2). set (k := Z.to_nat (len / 2)).
  assert (Hk : Z.of_nat k = len / 2) by (unfold k; rewrite Z2Nat.id by (apply Z.div_pos; lia); done).
  assert (Hh2 : one_half data (2 * Z.of_nat k)) by (destruct Hh; [left|right]; lia).
  destruct (Z.eq_dec (len mod 2) 0) as [E|E].
  - rewrite E. cbn [truthy Z.eqb negb]. replace (Z.to_nat len) with (2 * k)%nat by lia.
    by apply sum_words_correct.
  - rewrite (proj2 (truthy_true _)) by done. replace (Z.to_nat len) with (2 * k + 1)%nat by lia.
    replace (data + len - 1) with (data + 2 * (len / 2)) by lia.
    rewrite load_bytes_app. cbn [load_bytes]. rewrite word_sum_snoc by apply length_even.
    rewrite (lin_shift data len) by (done || lia).
    replace (lin data + Z.of_nat (2 * k)) with (lin data + 2 * (len / 2)) by lia. intros Hb.
    pose proof (load8_range m (lin data + 2 * (len / 2))).
    pose proof (word_sum_bound _ (load_bytes_range (2 * k) m (lin data))).
    rewrite sum_words_correct by (done || lia). rewrite u32_small; lia.
Qed.

Lemma tcp_checksum_run m src dst tcp data len :
  byte_list tcp -> length tcp = 20%nat -> one_half data len -> 0 <= len < 65536 ->
  tcp_checksum m src dst tcp data len
  = Some (internet_checksum
            (pseudo_header src dst len ++ tcp ++ load_bytes (Z.to_nat len) m (lin data))).
Proof.
  intros Ht Hl Hh Hlen. set (ps := pseudo_header src dst len).
  destruct (pseudo_header_ok src dst len) as [Hps Hpl]. fold ps in Hps, Hpl.
  pose proof (word_sum_bound _ Ht) as B1. rewrite Hl in B1. change ((Z.of_nat 20 + 1) / 2) with 10 in B1.
  pose proof (word_sum_bound _ Hps) as B2. rewrite Hpl in B2. change ((Z.of_nat 12 + 1) / 2) with 6 in B2.
  set (bs := load_bytes (Z.to_nat len) m (lin data)).
  pose proof (word_sum_bound _ (load_bytes_range (Z.to_nat len) m (lin data))) as B3.
  rewrite load_bytes_length, Z2Nat.id in B3 by lia. fold bs in B3.
  assert (B4 : (len + 1) / 2 <= 32768) by (Z.div_mod_to_equations; lia).
  assert (E0 : sum_struct tcp (sum_struct ps 0) = word_sum ps + word_sum tcp).
  { rewrite (sum_struct_correct ps), sum_struct_correct; [lia|..];
      rewrite ?Hl, ?Hpl; first [done | lia | by exists 10%nat | by exists 6%nat]. }
  unfold tcp_checksum. cbn zeta. fold ps. rewrite E0.
  rewrite (sum_data_acc m data len (word_sum ps + word_sum tcp)) by (done || fold bs; lia). fold bs.
  rewrite fold_sum_correct by lia. cbn [mbind option_bind]. unfold internet_checksum.
  rewrite !word_sum_app by (rewrite ?Hl, ?Hpl; first [by exists 10%nat | by exists 6%nat]).
  rewrite Z.add_assoc. by rewrite lnot16 by (apply ones_reduce_range; lia).
Qed.

(** * The socket list *)

(** [l] are the sockets from [p] on, apart from each other. *)
Inductive sock_list (m : gmap Z Z) : Z -> list Z -> Prop :=
| sock_nil : sock_list m 0 []
| sock_cons p l :
    sock_ok p -> sock_list m (sk_next m p) l ->
    Forall (fun q => lin p + SIZEOF_SOCKET <= lin q \/ lin q + SIZEOF_SOCKET <= lin p) l ->
    sock_list m p (p :: l).

Definition tick_spec (st : Z * Z) : Z * Z :=
  let '(state, timer) := st in
  if state =? TCP_TIME_WAIT then if 0 <? timer then (state, timer - 1) else (TCP_CLOSED, timer)
  else st.
Definition sk_clock (m : gmap Z Z) (p : Z) : Z * Z := (sk_state m p, sk_time_wait_timer m p).

Section tick.
Context (m : gmap Z Z) (p : Z) (Hp : sock_ok p).
Let m' : gmap Z Z := tick_socket p m.

Lemma tick_at d : 0 <= d < SIZEOF_SOCKET -> lin (p + d) = lin p + d.
Proof. by apply sock_lin. Qed.

(** A tick changes the state or the timer, and no other byte. *)
Lemma tick_frame a : a <> lin p + 18 -> a <> lin p + 116 -> load8 m' a = load8 m a.
Proof.
  intros H1 H2. unfold m', tick_socket, set_sk_time_wait_timer, set_sk_state.
  rewrite !tick_at by (unfold SIZEOF_SOCKET; lia).
  destruct (_ =? TCP_TIME_WAIT); [|done]. destruct (0 <? _); rewrite load8_store8; by test_false.
Qed.

Lemma tick_clock : sk_clock m' p = tick_spec (sk_clock m p).
Proof.
  unfold sk_clock, tick_spec, m', tick_socket.
  destruct (_ =? TCP_TIME_WAIT); [|done].
  pose proof (load8_range m (lin (p + 116))) as Ht. fold (sk_time_wait_timer m p) in Ht.
  destruct (Z.ltb_spec 0 (sk_time_wait_timer m p));
    unfold sk_state, sk_time_wait_timer, set_sk_time_wait_timer, set_sk_state in *;
    rewrite !tick_at in * by (unfold SIZEOF_SOCKET; lia); rewrite !load8_store8, Z.eqb_refl; test_false;
    [by rewrite u8_small by lia|done].
Qed.

Lemma tick_next : sk_next m' p = sk_next m p.
Proof.
  unfold sk_next. rewrite tick_at by (unfold SIZEOF_SOCKET; lia).
  apply load_le_ext. intros a Ha. apply tick_frame; lia.
Qed.

Lemma tick_other q :
  sock_ok q -> lin p + SIZEOF_SOCKET <= lin q \/ lin q + SIZEOF_SOCKET <= lin p ->
  sk_clock m' q = sk_clock m q /\ sk_next m' q = sk_next m q.
Proof.
  intros Hq Hd. unfold sk_clock, sk_state, sk_time_wait_timer, sk_next.
  rewrite !(sock_lin q _ Hq) by (unfold SIZEOF_SOCKET; lia). unfold SIZEOF_SOCKET in Hd.
  rewrite !tick_frame by lia. split; [done|]. apply load_le_ext. intros a Ha. apply tick_frame; lia.
Qed.
End tick.

Lemma sock_list_all m p l : sock_list m p l -> Forall sock_ok l.
Proof. induction 1; by constructor. Qed.

Lemma sock_list_ext m m' p l :
  sock_list m p l -> (forall q, q ∈ l -> sk_next m' q = sk_next m q) -> sock_list m' p l.
Proof.
  intros H. induction H as [|p l Hp Hl IH Hd]; intros Hn; constructor; [done| |done].
  rewrite Hn by apply list_elem_of_here. apply IH. intros q Hq. apply Hn. by apply list_elem_of_further.
Qed.

Lemma tick_loop_run l p m fuel :
  sock_list m p l -> (length l < fuel)%nat ->
  exists m', tick_loop fuel m p = Some m' /\ sock_list m' p l
    /\ (forall q, q ∈ l -> sk_clock m' q = tick_spec (sk_clock m q))
    /\ (forall a, (forall q, q ∈ l -> a <> lin q + 18 /\ a <> lin q + 116) -> load8 m' a = load8 m a).
Proof.
  revert p m fuel. induction l as [|x l IH]; intros p m fuel Hl Hf; (destruct fuel as [|fuel]; [simpl in Hf; lia|]).
  - inversion Hl; subst. exists m. split; [done|]. split; [done|]. split; [intros q []%elem_of_nil|done].
  - inversion Hl as [|? ? Hx Hl' Hd E]; subst. cbn [tick_loop].
    rewrite (sock_nonnull x Hx). set (m1 := tick_socket x m).
    pose proof (sock_list_all _ _ _ Hl') as Hall. rewrite Forall_forall in Hall, Hd.
    assert (Hl1 : sock_list m1 (sk_next m1 x) l).
    { unfold m1 at 2. rewrite (tick_next m x Hx). eapply sock_list_ext; [exact Hl'|].
      intros q Hq. apply (tick_other m x Hx q); auto. }
    destruct (IH _ m1 fuel Hl1) as (m' & -> & Hl2 & Hc & Hfr); [simpl in Hf; lia|].
    exists m'. split; [done|].
    assert (Hfx : forall a, lin x <= a < lin x + SIZEOF_SOCKET -> load8 m' a = load8 m1 a).
    { intros a Ha. apply Hfr. intros q Hq. destruct (Hd q Hq); unfold SIZEOF_SOCKET in *; lia. }
    assert (Hnx : sk_next m' x = sk_next m1 x).
    { unfold sk_next. rewrite (sock_lin x _ Hx) by (unfold SIZEOF_SOCKET; lia).
      apply load_le_ext. intros a Ha. apply Hfx. unfold SIZEOF_SOCKET. lia. }
    split; [|split].
    + constructor; [done| |by apply Forall_forall]. by rewrite Hnx.
    + intros q [->|Hq]%elem_of_cons.
      * rewrite <- (tick_clock m x Hx). fold m1. unfold sk_clock, sk_state, sk_time_wait_timer.
        rewrite !(sock_lin x _ Hx) by (unfold SIZEOF_SOCKET; lia).
        rewrite !Hfx by (unfold SIZEOF_SOCKET; lia). done.
      * rewrite Hc by done. f_equal. apply (tick_other m x Hx q); auto.
    + intros a Ha. rewrite Hfr by (intros q Hq; apply Ha; by apply list_elem_of_further).
      apply tick_frame; [done|..]; apply (Ha x), list_elem_of_here.
Qed.

(** ** Demultiplexing *)
Definition matches (m : gmap Z Z) (dport sport sock : Z) : Prop :=
  sk_local_port m sock = dport /\ (sk_remote_port m sock = sport \/ sk_state m sock = TCP_LISTEN).
#[export] Instance matches_dec m dport sport sock : Decision (matches m dport sport sock) := _.

Lemma find_socket_run l p m fuel dport sport :
  sock_list m p l -> (length l < fuel)%nat ->
  find_socket fuel m p dport sport = Some (default 0 (snd <$> list_find (matches m dport sport) l)).
Proof.
  revert p fuel. induction l as [|x l IH]; intros p fuel Hl Hf; (destruct fuel as [|fuel]; [simpl in Hf; lia|]).
  - by inversion Hl; subst.
  - inversion Hl as [|? ? Hx Hl' Hd E]; subst. cbn [find_socket list_find]. rewrite (sock_nonnull x Hx).
    destruct (decide (matches m dport sport x)) as [[Hm1 Hm2]|Hm].
    + simpl. rewrite Hm1, Z.eqb_refl. cbn [andb].
      destruct (Z.eqb_spec (sk_remote_port m x) sport); [done|]. cbn [andb].
      destruct Hm2 as [?|Hm2]; [done|]. rewrite Hm2. done.
    + unfold matches in Hm.
      replace ((sk_local_port m x =? dport) && (sk_remote_port m x =? sport)) with false
        by (symmetry; case_tests; naive_solver).
      replace ((sk_state m x =? TCP_LISTEN) && (sk_local_port m x =? dport)) with false
        by (symmetry; case_tests; naive_solver).
      rewrite (IH _ fuel Hl') by (simpl in Hf; lia). f_equal. by destruct (list_find _ l) as [[]|].
Qed.
