(* ===== verification/NetRx.v ===== *)
(** The receive path: network_rx and icmp/udp of network.c, ip_rx of ip.c. *)
From S2P Require Import Prelude Machine Globals Strings Pmm Kmalloc Net Tcp.

(** * struct icmp_header and struct udp_header (8 bytes each) *)
Definition ICMP_ECHOREPLY : Z := 0.
Definition ICMP_ECHO : Z := 8.
Definition ICMP_HEADER_SIZE : Z := 8.
Definition icmp_type (m : gmap Z Z) (p : Z) : Z := load8 m (lin p).
Definition icmp_id (m : gmap Z Z) (p : Z) : Z := load16 m (lin (p + 4)).
Definition icmp_sequence (m : gmap Z Z) (p : Z) : Z := load16 m (lin (p + 6)).
Definition set_icmp_checksum (p v : Z) (m : gmap Z Z) : gmap Z Z := store16 m (lin (p + 2)) v.
Definition icmp_bytes (type code checksum id sequence : Z) : list Z :=
  [u8 type; u8 code] ++ le_split 2 checksum ++ le_split 2 id ++ le_split 2 sequence.

Definition UDP_HEADER_SIZE : Z := 8.
Definition udp_bytes (src_port dst_port length checksum : Z) : list Z :=
  le_split 2 src_port ++ le_split 2 dst_port ++ le_split 2 length ++ le_split 2 checksum.

Section rx.
Variable dev_tx : Z -> Z -> Z -> M bool.

(** * Echo replies and datagrams *)

(** The packet's bytes: a local header, then [len] bytes of [data] unless NULL. *)
Definition fill_packet (packet : Z) (header : list Z) (data len : Z) : M unit :=
  upd_ram (fun m => store_bytes m (lin packet) header);;
  whenM (truthy len && truthy data)
    (upd_ram (fun m => memcpy m (lin (packet + Z.of_nat (length header))) (lin data) len)).

Definition icmp_echo_reply (dst id seq data len : Z) : M unit :=
  let total := u16 (ICMP_HEADER_SIZE + len) in
  packet ← kmalloc total;
  fill_packet packet (icmp_bytes ICMP_ECHOREPLY 0 0 (htons id) (htons seq)) data len;;
  m ← gets ram;
  let sum := sum_words (Z.to_nat (total / 2)) m packet 0 in
  let sum := if truthy (total .& 1) then u32 (sum + load8 m (lin (packet + 2 * (total / 2)))) else sum in
  sum ← returned (fold_sum FOLD_FUEL sum);
  upd_ram (set_icmp_checksum packet (u16 (Z.lnot sum)));;
  ip_send dev_tx dst IP_P_ICMP packet total;;
  kfree packet.

Definition icmp_rx (ip icmp data len : Z) : M unit :=
  m ← gets ram;
  whenM (icmp_type m icmp =? ICMP_ECHO)
    (icmp_echo_reply (ntohl (ip_saddr m ip)) (ntohs (icmp_id m icmp)) (ntohs (icmp_sequence m icmp)) data len).

Definition udp_rx (udp payload len : Z) : M unit := mret tt.

Definition udp_tx (dst dport sport data len : Z) : M unit :=
  let total := u16 (UDP_HEADER_SIZE + len) in
  packet ← kmalloc total;
  fill_packet packet
    (udp_bytes (htons sport) (htons dport) (htons (u16 (UDP_HEADER_SIZE + len))) 0) data len;;
  ip_send dev_tx dst IP_P_UDP packet total;;
  kfree packet.

(** * ip_rx *)

(** The bytes after a transport header, as the code computes them: 16-bit, and
    nothing checks that the header fits. *)
Definition transport_len (tot_len ihl header : Z) : Z := u16 (u16 (ntohs tot_len - ihl) - header).

(** [fuel] bounds tcp_rx's walk of the socket list. *)
Definition ip_rx (fuel : nat) (ip data len : Z) : M unit :=
  m ← gets ram;
  let check := ip_check m ip in
  upd_ram (set_ip_check ip 0);;
  m ← gets ram;
  sum ← returned (ip_checksum m ip IP_HEADER_SIZE);
  if negb (sum =? check) then mret tt
  else
    let ihl := u8 ((ip_ihl_version m ip .& 0x0F) * 4) in
    if ihl <? 20 then mret tt
    else
      n ← gets net;
      let dst := ntohl (ip_daddr m ip) in
      if negb (dst =? local_ip n) && negb (dst =? 0xFFFFFFFF) then mret tt
      else
        let payload := ip + ihl in
        if ip_protocol m ip =? IP_P_ICMP then
          icmp_rx ip payload (payload + ICMP_HEADER_SIZE) (transport_len (ip_tot_len m ip) ihl ICMP_HEADER_SIZE)
        else if ip_protocol m ip =? IP_P_TCP then
          tcp_rx dev_tx fuel payload (payload + TCP_HEADER_SIZE)
            (transport_len (ip_tot_len m ip) ihl TCP_HEADER_SIZE)
        else if ip_protocol m ip =? IP_P_UDP then
          udp_rx payload (payload + UDP_HEADER_SIZE) (transport_len (ip_tot_len m ip) ihl UDP_HEADER_SIZE)
        else mret tt.

(** * network_rx *)
Definition network_rx (fuel : nat) (packet len : Z) : M unit :=
  if len <? ETH_HEADER_SIZE then mret tt
  else
    m ← gets ram;
    let type := ntohs (eth_type m packet) in
    if type =? ETH_P_IP then
      ip_rx fuel (packet + ETH_HEADER_SIZE) (len - ETH_HEADER_SIZE) (u16 (len - ETH_HEADER_SIZE))
    else whenM (type =? ETH_P_ARP) (arp_rx (packet + ETH_HEADER_SIZE)).
End rx.

Definition network_init : M unit :=
  tcp_init;; arp_init;; kprintf "Network: Initialized\n" [].
