(* ===== verification/NetProps.v ===== *)
(** Properties of checksums, the ARP cache and ip_rx, each with a witness. *)
From S2P Require Import Prelude Machine Globals Strings Pmm PmmProps Kmalloc Net NetFacts Tcp NetRx.

(** * Checksums *)

(** C25 ip_checksum ends and computes the Internet checksum (RFC 1071, words in
    the byte order of memory) of the bytes it is given, for any length a packet
    can have. *)
Theorem ip_checksum_correct (m : gmap Z Z) (data len : Z) :
  one_half data len -> 0 <= len <= 65535 ->
  exists c, ip_checksum m data len = Some c
    /\ c = internet_checksum (load_bytes (Z.to_nat len) m (lin data)) /\ 0 <= c <= 65535.
Proof.
  intros Hh Hlen. eexists. split; [apply ip_checksum_run; [done|lia]|]. split; [done|].
  unfold internet_checksum.
  pose proof (ones_reduce_range (word_sum (load_bytes (Z.to_nat len) m (lin data)))).
  destruct (sum_bytes_correct m data len Hh ltac:(lia)) as [_ [? _]]. lia.
Qed.

Lemma ip_checksum_correct_witness :
  exists c, ip_checksum (store64 ∅ 0x5000 0x0100007f00000045) 0x5000 7 = Some c
    /\ c = internet_checksum (load_bytes 7 (store64 ∅ 0x5000 0x0100007f00000045) (lin 0x5000))
    /\ 0 <= c <= 65535.
Proof.
  apply (ip_checksum_correct (store64 ∅ 0x5000 0x0100007f00000045) 0x5000 7); [|lia].
  left. unfold KERNEL_HIGHER_HALF. lia.
Defined.

(** A header that is sent with its checksum field computed over the header
    with a zero field verifies: the checksum of the whole is 0, as any receiver
    tests it, and ip_rx, which zeroes the field and recomputes, finds the value
    it had. *)
Theorem ip_header_verifies (m : gmap Z Z) (ip : Z) :
  one_half ip 20 -> ip_check m ip = 0 ->
  exists c, ip_checksum m ip IP_HEADER_SIZE = Some c
    /\ ip_check (set_ip_check ip c m) ip = c
    /\ ip_checksum (set_ip_check ip c m) ip IP_HEADER_SIZE = Some 0
    /\ ip_checksum (set_ip_check ip 0 (set_ip_check ip c m)) ip IP_HEADER_SIZE = Some c.
Proof.
  intros Hh H0. unfold IP_HEADER_SIZE.
  set (bs1 := load_bytes 10 m (lin ip)). set (bs2 := load_bytes 8 m (lin ip + 12)).
  assert (E0 : load_bytes 20 m (lin ip) = bs1 ++ le_split 2 0 ++ bs2).
  { rewrite (header_split ip). do 2 f_equal. unfold ip_check in H0.
    rewrite header_lin in H0 by (done || lia).
    rewrite load16_val in H0. pose proof (load8_range m (lin ip + 10)).
    pose proof (load8_range m (lin ip + 10 + 1)). cbn [load_bytes].
    replace (load8 m (lin ip + 10)) with 0 by lia. by replace (load8 m (lin ip + 10 + 1)) with 0 by lia. }
  set (c := internet_checksum (bs1 ++ le_split 2 0 ++ bs2)).
  assert (Hrun : forall m', ip_checksum m' ip 20 = Some (internet_checksum (load_bytes 20 m' (lin ip)))).
  { intros m'. by apply (ip_checksum_run m' ip 20). }
  assert (Hc : 0 <= c <= 65535).
  { unfold c, internet_checksum. rewrite <- E0.
    pose proof (ones_reduce_range (word_sum (load_bytes 20 m (lin ip)))).
    pose proof (word_sum_bound _ (load_bytes_range 20 m (lin ip))). lia. }
  exists c. rewrite !Hrun, E0. split; [done|]. split; [|split].
  - unfold ip_check, set_ip_check. rewrite load16_store16. apply u16_small. lia.
  - rewrite header_with_check by done. f_equal. apply internet_checksum_field;
      [apply load_bytes_range|apply load_bytes_range|by exists 5%nat|done].
  - rewrite header_with_check by done. unfold set_ip_check. rewrite header_lin by (done || lia).
    pose proof (store_le_frame 2 m (lin ip + 10) c) as Hf.
    rewrite (load_bytes_ext 10 _ m), (load_bytes_ext 8 _ m);
      [done|eapply agree_on_frame; [exact Hf|lia]..].
Qed.

Module NetExample.
(** A zeroed packet buffer at [ip]. *)
Definition ip : Z := 0x5000.
Definition m : gmap Z Z := ip_header_fields ip 48 7 IP_P_UDP 0xC0A80001 0xC0A80005 ∅.
Definition s : kst := set_net net_initial (set_ram m PmmExample.s).
Lemma ip_half : one_half ip 20.
Proof. left. unfold ip, KERNEL_HIGHER_HALF. lia. Qed.
End NetExample.

Lemma ip_header_verifies_witness :
  exists c, ip_checksum NetExample.m NetExample.ip IP_HEADER_SIZE = Some c
    /\ ip_check (set_ip_check NetExample.ip c NetExample.m) NetExample.ip = c
    /\ ip_checksum (set_ip_check NetExample.ip c NetExample.m) NetExample.ip IP_HEADER_SIZE = Some 0
    /\ ip_checksum (set_ip_check NetExample.ip 0 (set_ip_check NetExample.ip c NetExample.m))
         NetExample.ip IP_HEADER_SIZE = Some c.
Proof. apply (ip_header_verifies NetExample.m NetExample.ip); [apply NetExample.ip_half|by vm_compute]. Defined.

(** * The ARP cache is a map *)

(** C26 arp_add refines insertion into a map from addresses to hardware
    addresses: a known address is updated, a new one is added, unless the cache
    is full (256 entries), when it is dropped; the cache stays well formed. *)
Theorem arp_add_refines (s : kst) (ip mac : Z) :
  arp_ok (net s) ->
  exists s', arp_add ip mac s = Ret tt s' /\ s' = set_net (net s') s /\ arp_ok (net s')
    /\ arp_view (net s') =
       (if decide (is_Some (arp_view (net s) !! ip) \/ arp_cache_count (net s) < 256)
        then <[ip := load_bytes 6 (ram s) (lin mac)]> (arp_view (net s))
        else arp_view (net s)).
Proof.
  intros Hn. destruct (arp_add_run s ip mac Hn) as (macs & ips & k & E & Hok & _ & Hv).
  eexists. split; [exact E|]. by do 2 (split; [done|]).
Qed.

Lemma net_initial_arp : arp_ok net_initial.
Proof. split; [simpl; lia|done|done|by apply NoDup_nil_2]. Qed.

Lemma arp_add_refines_witness :
  exists s', arp_add 0xC0A80007 0x5000 NetExample.s = Ret tt s'
    /\ s' = set_net (net s') NetExample.s /\ arp_ok (net s')
    /\ arp_view (net s') =
       (if decide (is_Some (arp_view (net NetExample.s) !! 0xC0A80007)
                   \/ arp_cache_count (net NetExample.s) < 256)
        then <[0xC0A80007 := load_bytes 6 (ram NetExample.s) (lin 0x5000)]> (arp_view (net NetExample.s))
        else arp_view (net NetExample.s)).
Proof. apply (arp_add_refines NetExample.s 0xC0A80007 0x5000), net_initial_arp. Defined.

(** arp_lookup is lookup in that map: the entry it points at holds the
    hardware address of [ip], and NULL means that the map has none. *)
Theorem arp_lookup_correct (n : net_globals) (ip : Z) :
  arp_ok n ->
  match arp_lookup n ip with
  | Some i => arp_view n !! ip = Some (arp_cache n !!! i)
  | None => arp_view n !! ip = None
  end.
Proof.
  intros Hn. unfold arp_lookup. pose proof (arp_find_cases n Hn ip) as Hf.
  destruct (arp_find _ _ _ ip) as [i|]; [|by apply arp_view_none].
  destruct Hf as [Hi Hip]. destruct (arp_mac n Hn i) as [b Hb]; [pose proof (arp_count _ Hn); lia|].
  rewrite (list_lookup_total_correct _ _ _ Hb). by eapply arp_view_lookup.
Qed.

Lemma arp_lookup_correct_witness :
  match arp_lookup net_initial 0xC0A80007 with
  | Some i => arp_view net_initial !! 0xC0A80007 = Some (arp_cache net_initial !!! i)
  | None => arp_view net_initial !! 0xC0A80007 = None
  end.
Proof. apply (arp_lookup_correct net_initial 0xC0A80007), net_initial_arp. Defined.

(** * ip_rx *)

(** What ip_rx asks of a header: its checksum field is the checksum of the rest,
    it is 20 bytes at least, and it is for this host or for every host. *)
Definition deliverable (n : net_globals) (m : gmap Z Z) (ip : Z) : bool :=
  (internet_checksum (load_bytes 20 (set_ip_check ip 0 m) (lin ip)) =? ip_check m ip)
  && (5 <=? ip_ihl_version m ip mod 16)
  && ((ntohl (ip_daddr m ip) =? local_ip n) || (ntohl (ip_daddr m ip) =? 0xFFFFFFFF)).

(** Who gets a delivered packet; [m] is the memory with the field zeroed. *)
Definition deliver (dev_tx : Z -> Z -> Z -> M bool) (fuel : nat) (m : gmap Z Z) (ip : Z) : M unit :=
  let ihl := 4 * (ip_ihl_version m ip mod 16) in
  let rest header := u16 (ntohs (ip_tot_len m ip) - ihl - header) in
  if ip_protocol m ip =? IP_P_ICMP then icmp_rx dev_tx ip (ip + ihl) (ip + ihl + 8) (rest 8)
  else if ip_protocol m ip =? IP_P_TCP then tcp_rx dev_tx fuel (ip + ihl) (ip + ihl + 20) (rest 20)
  else mret tt.

Section ip_rx.
Context (m : gmap Z Z) (ip : Z) (Hh : one_half ip 20).

Lemma zero_check_load n d :
  0 <= d -> (d + Z.of_nat n <= 10 \/ 12 <= d) -> d + Z.of_nat n <= 20 -> (0 < n)%nat ->
  load_le n (set_ip_check ip 0 m) (lin (ip + d)) = load_le n m (lin (ip + d)).
Proof.
  intros. unfold set_ip_check. rewrite !(header_lin ip Hh) by lia.
  apply (load_store_disjoint n 2). lia.
Qed.

Lemma zero_check_load8 d :
  0 <= d < 10 -> load8 (set_ip_check ip 0 m) (lin (ip + d)) = load8 m (lin (ip + d)).
Proof.
  intros. unfold set_ip_check. rewrite !(header_lin ip Hh) by lia.
  apply (store_le_frame 2). lia.
Qed.
End ip_rx.

Lemma ihl_val v : 0 <= v < 256 -> u8 ((v .& 0x0F) * 4) = 4 * (v mod 16).
Proof.
  intros. change 0x0F with (2 ^ 4 - 1). rewrite land_low by lia. change (2 ^ 4) with 16.
  pose proof (Z.mod_pos_bound v 16). rewrite u8_small by lia. lia.
Qed.

Lemma transport_len_val t ihl h : transport_len t ihl h = u16 (ntohs t - ihl - h).
Proof. unfold transport_len, u16. by rewrite Zminus_mod_idemp_l. Qed.

Lemma ip_rx_run (dev_tx : Z -> Z -> Z -> M bool) (fuel : nat) (s : kst) (ip data len : Z) :
  one_half ip 20 ->
  ip_rx dev_tx fuel ip data len s =
  (if deliverable (net s) (ram s) ip
   then deliver dev_tx fuel (set_ip_check ip 0 (ram s)) ip else mret tt)
    (set_ram (set_ip_check ip 0 (ram s)) s).
Proof.
  intros Hh. unfold ip_rx, deliverable, deliver. cbn zeta.
  rewrite bind_gets, bind_upd_ram, bind_gets. cbn [ram set_ram net]. set (m := set_ip_check ip 0 (ram s)).
  unfold IP_HEADER_SIZE. rewrite (ip_checksum_run m ip 20) by (done || lia).
  cbn [returned]. rewrite bind_mret.
  change (Z.to_nat 20) with 20%nat.
  destruct (internet_checksum _ =? ip_check (ram s) ip); cbn [negb andb]; [|done].
  assert (Ev : ip_ihl_version m ip = ip_ihl_version (ram s) ip).
  { unfold ip_ihl_version. rewrite <- (Z.add_0_r ip). by apply zero_check_load8. }
  rewrite Ev. pose proof (load8_range (ram s) (lin ip)) as Hv. fold (ip_ihl_version (ram s) ip) in Hv.
  rewrite ihl_val by done.
  replace (4 * (ip_ihl_version (ram s) ip mod 16) <? 20) with (negb (5 <=? ip_ihl_version (ram s) ip mod 16))
    by (case_tests; simpl; lia || done).
  destruct (5 <=? _); cbn [negb andb]; [|done].
  rewrite bind_gets. cbn [net set_ram].
  assert (Ed : ip_daddr m ip = ip_daddr (ram s) ip) by (apply (zero_check_load (ram s) ip Hh 4 16); lia).
  rewrite Ed. destruct (ntohl _ =? local_ip _); cbn [negb andb orb];
    [|destruct (ntohl _ =? 0xFFFFFFFF); cbn [negb]; [|done]];
    rewrite !transport_len_val; unfold ICMP_HEADER_SIZE, TCP_HEADER_SIZE, udp_rx;
    by destruct (_ =? IP_P_UDP).
Qed.

(** C28 ip_rx zeroes the checksum field and then drops the packet, with no other
    effect, unless the header is deliverable; a deliverable packet goes to the
    ICMP or TCP handler, UDP and other protocols are ignored.  The length the
    handler gets comes from the header alone, modulo 2^16: the length of the
    received frame is never looked at. *)
Theorem ip_rx_delivers (dev_tx : Z -> Z -> Z -> M bool) (fuel : nat) (s : kst) (ip data len : Z) :
  one_half ip 20 ->
  ip_rx dev_tx fuel ip data len s =
  (if deliverable (net s) (ram s) ip
   then deliver dev_tx fuel (set_ip_check ip 0 (ram s)) ip else mret tt)
    (set_ram (set_ip_check ip 0 (ram s)) s).
Proof. apply ip_rx_run. Qed.

Lemma ip_rx_delivers_witness :
  ip_rx (fun _ _ _ => mret true) 5 NetExample.ip 0 20 NetExample.s =
  (if deliverable (net NetExample.s) (ram NetExample.s) NetExample.ip
   then deliver (fun _ _ _ => mret true) 5 (set_ip_check NetExample.ip 0 (ram NetExample.s)) NetExample.ip
   else mret tt)
    (set_ram (set_ip_check NetExample.ip 0 (ram NetExample.s)) NetExample.s).
Proof. apply (ip_rx_delivers _ 5 NetExample.s NetExample.ip 0 20), NetExample.ip_half. Defined.
