(* ===== verification/TcpProps.v ===== *)
(** Properties of tcp.c: the receive stream, the segments that are sent, the
    socket list and the connection state machine, each with a witness. *)
From S2P Require Import Prelude Machine Globals Strings Pmm PmmProps Kmalloc Net NetFacts Tcp TcpFacts.

(** * The receive stream *)

(** What may happen to a connection's receive path: in-order data arrives, the
    application reads, or something else writes outside the socket's receive
    state.  A step is labelled with the bytes that were accepted and the bytes
    that were handed out. *)
Inductive stream_step (sock : Z) : kst -> list Z -> list Z -> kst -> Prop :=
| step_arrives s payload len :
    0 <= len < 65536 -> outside (ram s) sock payload len ->
    stream_step sock s (load_bytes (Z.to_nat (rx_taken (ram s) sock len)) (ram s) (lin payload)) []
      (set_ram (rx_store sock payload len (ram s)) s)
| step_reads s buf len n s' :
    readable (sk_state (ram s) sock) = true -> 0 <= len < 65536 ->
    outside (ram s) sock buf (Z.min len (rx_used (ram s) sock)) ->
    tcp_recv sock buf len s = Ret n s' ->
    stream_step sock s [] (load_bytes (Z.to_nat n) (ram s') (lin buf)) s'
| step_elsewhere s s' :
    agree_on (lin sock + 40) (lin sock + 64) (ram s) (ram s') ->
    agree_on (lin (sk_rx_buf (ram s) sock)) (lin (sk_rx_buf (ram s) sock) + RING) (ram s) (ram s') ->
    stream_step sock s [] [] s'.

Inductive stream_run (sock : Z) : kst -> list Z -> list Z -> kst -> Prop :=
| run_done s : stream_run sock s [] [] s
| run_step s a b s1 a' b' s' :
    stream_step sock s a b s1 -> stream_run sock s1 a' b' s' ->
    stream_run sock s (a ++ a') (b ++ b') s'.

Lemma stream_step_queue sock s a b s' :
  ring_ok (ram s) sock -> stream_step sock s a b s' ->
  ring_ok (ram s') sock /\ rx_queue (ram s) sock ++ a = b ++ rx_queue (ram s') sock.
Proof.
  intros Hok Hs. destruct Hs as [s payload len Hl Ho|s buf len n s' Hst Hl Ho E|s s' H1 H2].
  - destruct (rx_store_appends (ram s) sock payload len Hok Hl Ho) as (_ & Hq & _ & _ & Hok').
    split; [exact Hok'|]. by rewrite <- Hq.
  - destruct (tcp_recv_takes s sock buf len Hok Hst Hl Ho) as (m' & E' & Hb & Hq & Hok' & _).
    rewrite E in E'. injection E' as -> ->. cbn [ram set_ram].
    split; [exact Hok'|]. by rewrite Hb, Hq, take_drop, app_nil_r.
  - destruct (rx_view_ext (ram s) (ram s') sock Hok H1 H2) as (? & Hq & _).
    split; [done|]. by rewrite Hq, app_nil_r.
Qed.

Module TcpExample.
(** A connection whose counters are about to wrap, both in the ring and in 32
    bits, with its ring at 0x20000, and a second socket that listens. *)
Definition sock : Z := 0x9000.
Definition listener : Z := 0x9100.
Definition m : gmap Z Z :=
  set_sk_state listener TCP_LISTEN (set_sk_local_port listener 80 (set_sk_next sock listener
  (set_sk_rx_head sock 0xFFFFFFFE (set_sk_rx_tail sock 0xFFFFFFFE
  (set_sk_rx_buf sock 0x20000 (set_sk_state sock TCP_ESTABLISHED
  (store64 ∅ 0x5000 0x0807060504030201))))))).
Definition s : kst := set_net (set_sockets sock net_initial) (set_ram m PmmExample.s).
Definition s1 : kst := set_ram (rx_store sock 0x5000 5 m) s.
Definition s2 : kst := match tcp_recv sock 0x6000 3 s1 with Ret _ s' => s' | _ => s1 end.

Lemma sock_fine : sock_ok sock.
Proof. split; [done|]. left. unfold sock, SIZEOF_SOCKET, KERNEL_HIGHER_HALF. lia. Qed.
Lemma listener_fine : sock_ok listener.
Proof. split; [done|]. left. unfold listener, SIZEOF_SOCKET, KERNEL_HIGHER_HALF. lia. Qed.

Lemma sockets_listed : sock_list m (sockets (net s)) [sock; listener].
Proof.
  change (sockets (net s)) with sock.
  assert (E1 : sk_next m sock = listener) by by vm_compute.
  assert (E2 : sk_next m listener = 0) by by vm_compute.
  apply sock_cons; [apply sock_fine| |].
  - rewrite E1. apply sock_cons; [apply listener_fine|rewrite E2; apply sock_nil|apply Forall_nil].
    done.
  - apply Forall_singleton. left. by vm_compute.
Qed.
Lemma buf_at : sk_rx_buf m sock = 0x20000.
Proof. by vm_compute. Qed.
Lemma used_none : rx_used m sock = 0.
Proof. by vm_compute. Qed.
Lemma ring_fine : ring_ok m sock.
Proof.
  split; [apply sock_fine|rewrite buf_at; left; by vm_compute|rewrite buf_at; right; by vm_compute|].
  rewrite used_none. by vm_compute.
Qed.
Lemma payload_outside : outside m sock 0x5000 5.
Proof. split; rewrite ?buf_at; left; by vm_compute. Qed.

(** Five bytes arrive, three are read. *)
Lemma run : stream_run sock s [1; 2; 3; 4; 5] [1; 2; 3] s2.
Proof.
  apply (run_step sock s [1; 2; 3; 4; 5] [] s1 [] [1; 2; 3] s2).
  { replace [1; 2; 3; 4; 5] with (load_bytes (Z.to_nat (rx_taken (ram s) sock 5)) (ram s) (lin 0x5000))
      by by vm_compute.
    apply step_arrives; [lia|apply payload_outside]. }
  apply (run_step sock s1 [] [1; 2; 3] s2 [] [] s2); [|apply run_done].
  replace [1; 2; 3] with (load_bytes (Z.to_nat 3) (ram s2) (lin 0x6000)) by by vm_compute.
  apply (step_reads sock s1 0x6000 3 3 s2); [by vm_compute|lia| |].
  - assert (E : sk_rx_buf (ram s1) sock = 0x20000) by by vm_compute.
    replace (Z.min 3 _) with 3 by by vm_compute.
    split; rewrite ?E; left; by vm_compute.
  - unfold s2. assert (E : match tcp_recv sock 0x6000 3 s1 with Ret n _ => n = 3 | _ => False end) by by vm_compute.
    destruct (tcp_recv sock 0x6000 3 s1) as [n s'|msg s'|s']; [by rewrite E|done|done].
Qed.
End TcpExample.

(** C5 The receive path is a reliable byte stream: over any sequence of arriving
    in-order segments, reads and unrelated writes, what tcp_recv has handed out
    followed by what still waits is what waited at first followed by the accepted
    bytes, in order, none lost, none twice, through every wrap of the ring and of
    the 32-bit counters. *)
Theorem rx_stream_in_order (sock : Z) (s s' : kst) (arrived handed : list Z) :
  ring_ok (ram s) sock -> stream_run sock s arrived handed s' ->
  ring_ok (ram s') sock
  /\ rx_queue (ram s) sock ++ arrived = handed ++ rx_queue (ram s') sock.
Proof.
  intros Hok Hr. induction Hr as [s|s a b s1 a' b' s' Hs _ IH]; [by rewrite app_nil_r|].
  destruct (stream_step_queue _ _ _ _ _ Hok Hs) as [Hok1 E]. destruct (IH Hok1) as [? E'].
  split; [done|]. by rewrite app_assoc, E, <- !app_assoc, E'.
Qed.

Lemma rx_stream_in_order_witness :
  ring_ok (ram TcpExample.s2) TcpExample.sock
  /\ rx_queue (ram TcpExample.s) TcpExample.sock ++ [1; 2; 3; 4; 5]
     = [1; 2; 3] ++ rx_queue (ram TcpExample.s2) TcpExample.sock.
Proof.
  apply (rx_stream_in_order TcpExample.sock TcpExample.s TcpExample.s2 [1; 2; 3; 4; 5] [1; 2; 3]);
    [apply TcpExample.ring_fine|apply TcpExample.run].
Defined.

(** Recording an acknowledgement changes no part of the receive state. *)
Lemma set_una_view m sock ack :
  ring_ok m sock -> let m' := set_sk_snd_una sock ack m in
  ring_ok m' sock /\ rx_queue m' sock = rx_queue m sock /\ sk_rx_buf m' sock = sk_rx_buf m sock
  /\ rx_used m' sock = rx_used m sock /\ sk_rcv_nxt m' sock = sk_rcv_nxt m sock
  /\ forall a, a < lin sock + 20 \/ lin sock + 24 <= a -> load8 m' a = load8 m a.
Proof.
  intros Hok m'. pose proof (rg_sock _ _ Hok) as Hp. pose proof (rg_apart _ _ Hok) as Hap.
  assert (Hf : forall a, a < lin sock + 20 \/ lin sock + 24 <= a -> load8 m' a = load8 m a).
  { intros a Ha. unfold m', set_sk_snd_una. rewrite (sock_lin sock _ Hp) by (unfold SIZEOF_SOCKET; lia).
    apply (store_le_frame 4). lia. }
  unfold SIZEOF_SOCKET in Hap.
  destruct (rx_view_ext m m' sock Hok) as (H1 & H2 & H3); [intros a ?; symmetry; apply Hf; lia..|].
  repeat (split; [done|]). split; [|split; [|exact Hf]].
  - unfold rx_used, m'. by sk_simpl.
  - unfold m'. by sk_simpl.
Qed.

(** Data on an established connection: an in-order segment is appended to the
    receive queue as far as there is room, rcv_nxt advances by what was taken and
    an ACK is sent; an empty, early or late segment changes no more than snd_una,
    and is not acknowledged. *)
Theorem rx_established_data (dev_tx : Z -> Z -> Z -> M bool) (s : kst)
    (sock flags seq ack payload len : Z) :
  ring_ok (ram s) sock -> 0 <= len < 65536 -> outside (ram s) sock payload len ->
  (flags .& TCP_FIN) = 0 ->
  exists s1, s1 = set_ram (ram s1) s /\ ring_ok (ram s1) sock
    /\ (if (0 <? len) && (seq =? sk_rcv_nxt (ram s) sock)
        then rx_established dev_tx sock flags seq ack payload len s = tcp_tx dev_tx sock TCP_ACK 0 0 s1
             /\ rx_queue (ram s1) sock
                = rx_queue (ram s) sock
                  ++ load_bytes (Z.to_nat (rx_taken (ram s) sock len)) (ram s) (lin payload)
             /\ sk_rcv_nxt (ram s1) sock = u32 (sk_rcv_nxt (ram s) sock + rx_taken (ram s) sock len)
        else rx_established dev_tx sock flags seq ack payload len s = Ret tt s1
             /\ rx_queue (ram s1) sock = rx_queue (ram s) sock
             /\ sk_rcv_nxt (ram s1) sock = sk_rcv_nxt (ram s) sock).
Proof.
  intros Hok Hlen Hout Hfin. unfold rx_established. rewrite Hfin.
  set (m0 := if truthy (flags .& TCP_ACK) then set_sk_snd_una sock ack (ram s) else ram s).
  assert (E0 : forall {B} (K : M B),
    (whenM (truthy (flags .& TCP_ACK)) (upd_ram (set_sk_snd_una sock ack));; K) s = K (set_ram m0 s)).
  { intros B K. unfold m0. destruct (truthy _); [done|]. by destruct s. }
  rewrite E0. rewrite bind_gets. cbn [ram set_ram].
  assert (H0 : ring_ok m0 sock /\ rx_queue m0 sock = rx_queue (ram s) sock
            /\ sk_rx_buf m0 sock = sk_rx_buf (ram s) sock /\ rx_used m0 sock = rx_used (ram s) sock
            /\ sk_rcv_nxt m0 sock = sk_rcv_nxt (ram s) sock
            /\ forall a, a < lin sock + 20 \/ lin sock + 24 <= a -> load8 m0 a = load8 (ram s) a).
  { unfold m0. destruct (truthy _); [by apply set_una_view|]. by repeat (split; [done|]). }
  destruct H0 as (Hok0 & Hq0 & Hb0 & Hu0 & Hr0 & Hf0). clearbody m0. rewrite Hr0.
  assert (Hout0 : outside m0 sock payload len) by (destruct Hout; split; rewrite ?Hb0; done).
  destruct ((0 <? len) && _); cbn [whenM].
  - destruct (rx_store_appends m0 sock payload len Hok0 Hlen Hout0) as (Hn & Hq & Hr & _ & Hok1).
    exists (set_ram (rx_store sock payload len m0) s). split; [done|]. split; [done|].
    assert (En : rx_taken m0 sock len = rx_taken (ram s) sock len) by (unfold rx_taken; by rewrite Hu0).
    rewrite En in *. rewrite Hq0 in Hq. rewrite Hr0 in Hr. split; [|split; [|done]].
    + rewrite bind_assoc, bind_upd_ram. cbn [ram set_ram].
      apply bind_tt.
    + cbn [ram set_ram]. rewrite Hq. f_equal. apply load_bytes_ext. intros a Ha. apply Hf0.
      destruct (os_sock _ _ _ _ Hout); unfold SIZEOF_SOCKET in *; lia.
  - exists (set_ram m0 s). split; [done|]. split; [done|]. by split.
Qed.

Lemma rx_established_data_witness :
  let s := TcpExample.s in
  let sock := TcpExample.sock in
  exists s1, s1 = set_ram (ram s1) s /\ ring_ok (ram s1) sock
    /\ (if (0 <? 5) && (0 =? sk_rcv_nxt (ram s) sock)
        then rx_established (fun _ _ _ => mret true) sock TCP_ACK 0 7 0x5000 5 s
             = tcp_tx (fun _ _ _ => mret true) sock TCP_ACK 0 0 s1
             /\ rx_queue (ram s1) sock
                = rx_queue (ram s) sock
                  ++ load_bytes (Z.to_nat (rx_taken (ram s) sock 5)) (ram s) (lin 0x5000)
             /\ sk_rcv_nxt (ram s1) sock = u32 (sk_rcv_nxt (ram s) sock + rx_taken (ram s) sock 5)
        else rx_established (fun _ _ _ => mret true) sock TCP_ACK 0 7 0x5000 5 s = Ret tt s1
             /\ rx_queue (ram s1) sock = rx_queue (ram s) sock
             /\ sk_rcv_nxt (ram s1) sock = sk_rcv_nxt (ram s) sock).
Proof.
  apply (rx_established_data (fun _ _ _ => mret true) TcpExample.s TcpExample.sock TCP_ACK 0 7 0x5000 5);
    [apply TcpExample.ring_fine|lia|apply TcpExample.payload_outside|done].
Defined.

(** * What a segment carries *)

(** The header before its checksum and urgent fields. *)
Definition tx_prefix (m : gmap Z Z) (sock flags : Z) : list Z :=
  le_split 2 (htons (sk_local_port m sock)) ++ le_split 2 (htons (sk_remote_port m sock))
  ++ le_split 4 (htonl (sk_snd_nxt m sock)) ++ le_split 4 (htonl (sk_rcv_nxt m sock))
  ++ [u8 (TCP_HEADER_SIZE / 4); u8 flags] ++ le_split 2 (htons (sk_window m sock)).

Lemma tx_header_split m sock flags c :
  tx_header m sock flags c = tx_prefix m sock flags ++ le_split 2 c ++ le_split 2 0.
Proof. unfold tx_header, tcp_header_bytes, tx_prefix. rewrite <- !app_assoc. reflexivity. Qed.

Lemma tx_prefix_bytes m sock flags : byte_list (tx_prefix m sock flags).
Proof.
  unfold tx_prefix, byte_list. rewrite !Forall_app. repeat split; try apply le_split_bytes.
  repeat constructor; apply u8_range.
Qed.

(** Every segment tcp_tx builds verifies: with the checksum it computes over
    the pseudo header, the header with a zero field and the data, the Internet
    checksum of pseudo header, header and data is 0 at the receiver, for every
    length of data, odd ones included. *)
Theorem tcp_segment_verifies (m : gmap Z Z) (sock flags data len : Z) :
  one_half data len -> 0 <= len < 65536 ->
  let src := htonl (sk_local_addr m sock) in
  let dst := htonl (sk_remote_addr m sock) in
  exists c, tcp_checksum m src dst (tx_header m sock flags 0) data len = Some c
    /\ internet_checksum (pseudo_header src dst len ++ tx_header m sock flags c
                          ++ load_bytes (Z.to_nat len) m (lin data)) = 0.
Proof.
  intros Hh Hlen src dst. set (bs := load_bytes (Z.to_nat len) m (lin data)).
  rewrite tx_header_split. set (bs1 := tx_prefix m sock flags).
  assert (Hb1 : byte_list bs1) by apply tx_prefix_bytes.
  assert (Hl1 : length bs1 = 16%nat) by done.
  rewrite tcp_checksum_run; [| |by rewrite length_app, Hl1|done|done].
  2:{ unfold byte_list. rewrite !Forall_app. repeat split; (done || apply le_split_bytes). }
  set (c := internet_checksum (_ ++ (bs1 ++ _) ++ _)). exists c. split; [done|].
  destruct (pseudo_header_ok src dst len) as [Hps Hpl]. set (ps := pseudo_header src dst len) in *.
  rewrite tx_header_split. fold bs1. rewrite <- !app_assoc, (app_assoc ps).
  apply internet_checksum_field.
  - by apply Forall_app.
  - apply Forall_app. split; [apply le_split_bytes|apply load_bytes_range].
  - rewrite length_app, Hpl, Hl1. by exists 14%nat.
  - unfold c. rewrite <- !app_assoc. done.
Qed.

Lemma tcp_segment_verifies_witness :
  let m := TcpExample.m in
  let sock := TcpExample.sock in
  exists c, tcp_checksum m (htonl (sk_local_addr m sock)) (htonl (sk_remote_addr m sock))
              (tx_header m sock TCP_ACK 0) 0x5000 5 = Some c
    /\ internet_checksum (pseudo_header (htonl (sk_local_addr m sock)) (htonl (sk_remote_addr m sock)) 5
         ++ tx_header m sock TCP_ACK c ++ load_bytes (Z.to_nat 5) m (lin 0x5000)) = 0.
Proof. apply (tcp_segment_verifies TcpExample.m TcpExample.sock TCP_ACK 0x5000 5); [left; by vm_compute|lia]. Defined.

(** The header of every segment has 5 in its data-offset byte, whose high
    four bits are the offset: a receiver reads an offset of 0 words; and a fresh
    socket advertises a window of 0, because 65536 does not fit in 16 bits. *)
Theorem tcp_header_malformed (m : gmap Z Z) (sock flags c : Z) :
  exists b, tx_header m sock flags c !! 12%nat = Some b /\ b / 16 = 0
    /\ (sock_ok sock ->
        take 2 (drop 14 (tx_header (set_sk_window sock TCP_RX_BUF_SIZE m) sock flags c)) = [0; 0]).
Proof.
  exists 5. split; [done|]. split; [done|]. intros Hp.
  unfold tx_header, tcp_header_bytes, sk_window, set_sk_window. by rewrite load16_store16.
Qed.

(** * The state machine *)

(** [a] changes RAM and the network's variables, except the sequence number. *)
Definition quiet (a : M unit) : Prop := forall s,
  exists m n, tcp_seq_num n = tcp_seq_num (net s) /\ a s = Ret tt (set_net n (set_ram m s)).

Lemma quiet_ret : quiet (mret tt).
Proof. intros s. exists (ram s), (net s). split; [done|]. by destruct s. Qed.
Lemma quiet_upd_ram f : quiet (upd_ram f).
Proof. intros s. exists (f (ram s)), (net s). split; [done|]. by destruct s. Qed.
Lemma quiet_next_port f : quiet (upd_net (fun n => set_next_port (f n) n)).
Proof. intros s. eexists (ram s), _. split; [|unfold upd_net, modify; destruct s; reflexivity]. done. Qed.
Lemma quiet_gets {A} (f : kst -> A) K : (forall x, quiet (K x)) -> quiet (x ← gets f; K x).
Proof. intros H s. apply (H (f s) s). Qed.
Lemma quiet_seq a b : quiet a -> quiet b -> quiet (a;; b).
Proof.
  intros Ha Hb s. destruct (Ha s) as (m1 & n1 & E1 & H1).
  destruct (Hb (set_net n1 (set_ram m1 s))) as (m2 & n2 & E2 & H2).
  exists m2, n2. split; [by rewrite E2|]. by rewrite (bind_ret _ _ _ _ _ H1).
Qed.
Lemma quiet_when (b : bool) a : quiet a -> quiet (whenM b a).
Proof. destruct b; [done|]. intros _. apply quiet_ret. Qed.
Lemma quiet_run a s : quiet a ->
  exists m n, tcp_seq_num n = tcp_seq_num (net s)
    /\ forall B (K : M B), (a;; K) s = K (set_net n (set_ram m s)).
Proof. intros H. destruct (H s) as (m & n & E & Hs). exists m, n. split; [done|]. intros. by rewrite (bind_ret _ _ _ _ _ Hs). Qed.

Lemma connect_port_quiet sock b :
  quiet (whenM b (n ← gets net; upd_net (set_next_port (u16 (next_port n + 1)));;
                  upd_ram (set_sk_local_port sock (next_port n)))).
Proof.
  apply quiet_when, quiet_gets. intros n. apply quiet_seq; [apply (quiet_next_port (fun _ => _))|apply quiet_upd_ram].
Qed.
Lemma connect_addr_quiet sock b :
  quiet (whenM b (dev ← net_get_device;
                  whenM (truthy dev) (upd_ram (fun m => set_sk_local_addr sock (dev_ip m dev) m)))).
Proof. apply quiet_when, quiet_gets. intros dev. apply quiet_when, quiet_upd_ram. Qed.

(** C33 An active open cannot complete: tcp_connect sends its SYN with sequence
    number iss + 1 (snd_nxt was advanced before), so a conforming peer
    acknowledges iss + 2; in SYN_SENT, with snd_una = iss, that segment is
    dropped with no effect. *)
Theorem tcp_connect_never_completes (dev_tx : Z -> Z -> Z -> M bool) (s : kst) (sock addr : Z) :
  sock_ok sock -> sk_state (ram s) sock = TCP_CLOSED ->
  let iss := u32 (tcp_seq_num (net s)) in
  exists s1, tcp_connect dev_tx sock addr s = (tcp_tx dev_tx sock TCP_SYN 0 0;; mret 0) s1
    /\ sk_state (ram s1) sock = TCP_SYN_SENT /\ sk_snd_una (ram s1) sock = iss
    /\ (forall c, take 4 (drop 4 (tx_header (ram s1) sock TCP_SYN c)) = le_split 4 (htonl (u32 (iss + 1))))
    /\ forall s2 flags seq, sk_snd_una (ram s2) sock = iss ->
         rx_syn_sent dev_tx sock flags seq (u32 (u32 (iss + 1) + 1)) s2 = Ret tt s2.
Proof.
  intros Hp Hst iss.
  assert (Hpre : exists m3 n3, tcp_seq_num n3 = tcp_seq_num (net s) /\
    tcp_connect dev_tx sock addr s =
    (upd_ram (set_sk_state sock TCP_SYN_SENT);; n ← gets net; upd_ram (set_sk_snd_una sock (tcp_seq_num n));;
     upd_ram (set_sk_snd_nxt sock (tcp_seq_num n + 1));; tcp_tx dev_tx sock TCP_SYN 0 0;; mret 0)
      (set_net n3 (set_ram m3 s))).
  { unfold tcp_connect. rewrite (sock_nonnull _ Hp), bind_gets, Hst. cbn [orb negb Z.eqb TCP_CLOSED].
    rewrite bind_upd_ram, bind_gets, bind_upd_ram, bind_gets.
    match goal with |- context [(whenM ?b _;; _) ?s0] =>
      destruct (quiet_run _ s0 (connect_port_quiet sock b)) as (m1 & n1 & E1 & ->) end.
    rewrite bind_gets.
    match goal with |- context [(whenM ?b _;; _) ?s0] =>
      destruct (quiet_run _ s0 (connect_addr_quiet sock b)) as (m2 & n2 & E2 & ->) end.
    exists m2, n2. split; [by rewrite E2; cbn [net set_net]; rewrite E1|reflexivity]. }
  destruct Hpre as (m3 & n3 & En & ->).
  rewrite bind_upd_ram, bind_gets, !bind_upd_ram. cbn [ram set_ram set_net net]. rewrite En.
  eexists. split; [reflexivity|]. cbn [ram set_ram set_net]. fold iss.
  set (m4 := set_sk_state sock TCP_SYN_SENT m3).
  split; [|split; [|split]].
  - sk_simpl. unfold m4. rewrite state_set. done.
  - by sk_simpl.
  - intros c. unfold tx_header, tcp_header_bytes. sk_simpl. do 3 f_equal. unfold iss, u32.
    by rewrite Zplus_mod_idemp_l.
  - intros s2 flags seq Hu. unfold rx_syn_sent. rewrite bind_gets, Hu. fold iss.
    replace (u32 (u32 (iss + 1) + 1) =? u32 (iss + 1)) with false; [by rewrite andb_false_r|].
    symmetry. apply Z.eqb_neq. ulia.
Qed.

Lemma tcp_connect_never_completes_witness :
  let dev_tx := fun _ _ _ => mret true in
  let s := set_ram ∅ TcpExample.s in
  let iss := u32 (tcp_seq_num (net s)) in
  exists s1, tcp_connect dev_tx TcpExample.sock 0x5000 s
             = (tcp_tx dev_tx TcpExample.sock TCP_SYN 0 0;; mret 0) s1
    /\ sk_state (ram s1) TcpExample.sock = TCP_SYN_SENT /\ sk_snd_una (ram s1) TcpExample.sock = iss
    /\ (forall c, take 4 (drop 4 (tx_header (ram s1) TcpExample.sock TCP_SYN c))
                  = le_split 4 (htonl (u32 (iss + 1))))
    /\ forall s2 flags seq, sk_snd_una (ram s2) TcpExample.sock = iss ->
         rx_syn_sent dev_tx TcpExample.sock flags seq (u32 (u32 (iss + 1) + 1)) s2 = Ret tt s2.
Proof.
  apply (tcp_connect_never_completes (fun _ _ _ => mret true) (set_ram ∅ TcpExample.s) TcpExample.sock 0x5000);
    [apply TcpExample.sock_fine|by vm_compute].
Defined.

(** The states no code ever leaves. *)
Definition dead_state (state : Z) : bool :=
  (state =? TCP_FIN_WAIT1) || (state =? TCP_FIN_WAIT2) || (state =? TCP_CLOSING).

(** C34 After an active close the connection is stuck: in FIN_WAIT1 (and in
    FIN_WAIT2 and CLOSING) every segment for the socket, whatever its flags, and
    every call on it that is listed (not tcp_tx and tcp_cleanup), leaves the whole
    state of the kernel as it is, so that they never bring the socket to CLOSED. *)
Theorem tcp_fin_wait_dead_end (dev_tx : Z -> Z -> Z -> M bool) (fuel : nat) (s : kst) (sock : Z) :
  sock_ok sock -> dead_state (sk_state (ram s) sock) = true ->
  (forall tcp payload len,
     find_socket fuel (ram s) (sockets (net s)) (ntohs (tcp_dst_port (ram s) tcp))
       (ntohs (tcp_src_port (ram s) tcp)) = Some sock ->
     tcp_rx dev_tx fuel tcp payload len s = Ret tt s)
  /\ (forall arg len, tcp_bind sock arg s = Ret (-1) s /\ tcp_listen sock arg s = Ret (-1) s
        /\ tcp_connect dev_tx sock arg s = Ret (-1) s /\ tcp_send dev_tx sock arg len s = Ret (-1) s
        /\ tcp_recv sock arg len s = Ret (-1) s)
  /\ tcp_close dev_tx sock s = Ret tt s
  /\ tick_socket sock (ram s) = ram s.
Proof.
  intros Hp Hd. pose proof (sock_nonnull _ Hp) as Hn.
  assert (Hc : sk_state (ram s) sock = 5 \/ sk_state (ram s) sock = 6 \/ sk_state (ram s) sock = 8).
  { unfold dead_state in Hd. rewrite !orb_true_iff, !Z.eqb_eq in Hd. tauto. }
  split; [|split; [|split]].
  - intros tcp payload len Hf. unfold tcp_rx. rewrite !bind_gets, Hf. cbn [returned]. rewrite bind_mret, Hn.
    by destruct Hc as [-> | [-> | ->]].
  - intros arg len. unfold tcp_bind, tcp_listen, tcp_connect, tcp_send, tcp_recv. rewrite Hn, !bind_gets.
    by destruct Hc as [-> | [-> | ->]].
  - unfold tcp_close. rewrite Hn, bind_gets. by destruct Hc as [-> | [-> | ->]].
  - unfold tick_socket. by destruct Hc as [-> | [-> | ->]].
Qed.

Lemma tcp_fin_wait_dead_end_witness :
  let s := set_ram (set_sk_state TcpExample.sock TCP_FIN_WAIT1 TcpExample.m) TcpExample.s in
  tcp_close (fun _ _ _ => mret true) TcpExample.sock s = Ret tt s.
Proof.
  intros s.
  apply (tcp_fin_wait_dead_end (fun _ _ _ => mret true) 3 s TcpExample.sock TcpExample.sock_fine).
  by vm_compute.
Defined.

(** * Walks of the socket list *)

(** C35 tcp_timer_tick ends on any well-formed socket list, with as many steps as
    there are sockets, and makes one tick of every TIME_WAIT socket: its timer is
    decremented, or the socket is closed when the timer is 0; the list and every
    other byte of memory stay as they are. *)
Theorem tcp_timer_tick_correct (s : kst) (l : list Z) (fuel : nat) :
  sock_list (ram s) (sockets (net s)) l -> (length l < fuel)%nat ->
  exists m', tcp_timer_tick fuel s = Ret tt (set_ram m' s) /\ sock_list m' (sockets (net s)) l
    /\ (forall q, q ∈ l -> sk_clock m' q = tick_spec (sk_clock (ram s) q))
    /\ (forall a, (forall q, q ∈ l -> a <> lin q + 18 /\ a <> lin q + 116) ->
          load8 m' a = load8 (ram s) a).
Proof.
  intros Hl Hf. destruct (tick_loop_run l _ (ram s) fuel Hl Hf) as (m' & E & H).
  exists m'. split; [|done]. unfold tcp_timer_tick. rewrite !bind_gets, E. done.
Qed.

Lemma tcp_timer_tick_correct_witness :
  exists m', tcp_timer_tick 3 TcpExample.s = Ret tt (set_ram m' TcpExample.s)
    /\ sock_list m' (sockets (net TcpExample.s)) [TcpExample.sock; TcpExample.listener]
    /\ (forall q, q ∈ [TcpExample.sock; TcpExample.listener] ->
          sk_clock m' q = tick_spec (sk_clock (ram TcpExample.s) q))
    /\ (forall a, (forall q, q ∈ [TcpExample.sock; TcpExample.listener] -> a <> lin q + 18 /\ a <> lin q + 116) ->
          load8 m' a = load8 (ram TcpExample.s) a).
Proof. apply (tcp_timer_tick_correct TcpExample.s _ 3 TcpExample.sockets_listed). simpl. lia. Defined.

(** A segment is given to the first socket of the list that has its two ports,
    or that listens on its destination port; a segment that none wants has no
    effect, and no reset is sent. *)
Theorem tcp_rx_demultiplexes (dev_tx : Z -> Z -> Z -> M bool) (s : kst) (l : list Z) (fuel : nat)
    (tcp payload len : Z) :
  sock_list (ram s) (sockets (net s)) l -> (length l < fuel)%nat ->
  let dport := ntohs (tcp_dst_port (ram s) tcp) in
  let sport := ntohs (tcp_src_port (ram s) tcp) in
  match list_find (matches (ram s) dport sport) l with
  | None => tcp_rx dev_tx fuel tcp payload len s = Ret tt s
  | Some (_, sock) =>
      matches (ram s) dport sport sock
      /\ find_socket fuel (ram s) (sockets (net s)) dport sport = Some sock
      /\ (sk_state (ram s) sock = TCP_LISTEN ->
          tcp_rx dev_tx fuel tcp payload len s
          = rx_listen dev_tx sock (tcp_flags (ram s) tcp) (ntohl (tcp_seq (ram s) tcp)) sport s)
      /\ (sk_state (ram s) sock = TCP_ESTABLISHED ->
          tcp_rx dev_tx fuel tcp payload len s
          = rx_established dev_tx sock (tcp_flags (ram s) tcp) (ntohl (tcp_seq (ram s) tcp))
              (ntohl (tcp_ack (ram s) tcp)) payload len s)
  end.
Proof.
  intros Hl Hf dport sport. pose proof (find_socket_run l _ (ram s) fuel dport sport Hl Hf) as E.
  unfold tcp_rx. rewrite !bind_gets. cbn zeta. fold dport sport. rewrite E. cbn [returned]. rewrite bind_mret.
  destruct (list_find _ l) as [[i sock]|] eqn:Ef; 
    cbn [fmap option_fmap option_map snd default from_option id]; [|done].
  apply list_find_Some in Ef as (Hi & Hm & _). split; [done|]. split; [done|].
  pose proof (sock_list_all _ _ _ Hl) as Hall. rewrite Forall_forall in Hall.
  rewrite (sock_nonnull sock) by (apply Hall, list_elem_of_lookup; eauto).
  split; intros Hst; by rewrite Hst.
Qed.

Lemma tcp_rx_demultiplexes_witness :
  let m := TcpExample.m in
  let dport := ntohs (tcp_dst_port m 0x5000) in
  let sport := ntohs (tcp_src_port m 0x5000) in
  list_find (matches m dport sport) [TcpExample.sock; TcpExample.listener] = None
  /\ tcp_rx (fun _ _ _ => mret true) 3 0x5000 0x5014 0 TcpExample.s = Ret tt TcpExample.s.
Proof.
  intros m dport sport. assert (E : list_find (matches m dport sport) [TcpExample.sock; TcpExample.listener] = None)
    by by vm_compute.
  split; [exact E|].
  pose proof (tcp_rx_demultiplexes (fun _ _ _ => mret true) TcpExample.s [TcpExample.sock; TcpExample.listener] 3
                0x5000 0x5014 0 TcpExample.sockets_listed ltac:(simpl; lia)) as H.
  cbn zeta in H. change (ram TcpExample.s) with m in H. fold dport sport in H. rewrite E in H. exact H.
Defined.
