(* ===== verification/TcpMachine.v ===== *)
(** The connection state machine of tcp_rx.

    A connection is seen as its state, its three sequence numbers and the bytes
    that wait for the reader.  [on_segment] is what a segment does to it; tcp_rx
    implements it on the socket in RAM, up to the answer it sends. *)
From S2P Require Import Prelude Machine Globals Strings Pmm PmmProps Kmalloc Net NetFacts Tcp TcpFacts TcpProps.

Record conn := Conn {
  cn_state : Z;
  cn_una : Z;
  cn_nxt : Z;
  cn_rcv : Z;
  cn_queue : list Z;
}.
Definition conn_of (m : gmap Z Z) (sock : Z) : conn :=
  Conn (sk_state m sock) (sk_snd_una m sock) (sk_snd_nxt m sock) (sk_rcv_nxt m sock) (rx_queue m sock).

Record segment := Segment { sg_flags : Z; sg_seq : Z; sg_ack : Z; sg_data : list Z }.
Definition segment_at (m : gmap Z Z) (tcp payload len : Z) : segment :=
  Segment (tcp_flags m tcp) (ntohl (tcp_seq m tcp)) (ntohl (tcp_ack m tcp))
    (load_bytes (Z.to_nat len) m (lin payload)).
Definition has (flag : Z) (sg : segment) : bool := truthy (sg_flags sg .& flag).

(** * The abstract machine *)

(** The bytes of [data] there is room for. *)
Definition accepted (c : conn) (data : list Z) : list Z :=
  take (Z.to_nat (RING - Z.of_nat (length (cn_queue c)))) data.

Definition on_ack (sg : segment) (c : conn) : conn :=
  if has TCP_ACK sg then Conn (cn_state c) (sg_ack sg) (cn_nxt c) (cn_rcv c) (cn_queue c) else c.
Definition in_order (sg : segment) (c : conn) : bool :=
  match sg_data sg with [] => false | _ => sg_seq sg =? cn_rcv c end.
Definition on_data (sg : segment) (c : conn) : conn :=
  if in_order sg c then
    let d := accepted c (sg_data sg) in
    Conn (cn_state c) (cn_una c) (cn_nxt c) (u32 (cn_rcv c + Z.of_nat (length d))) (cn_queue c ++ d)
  else c.
Definition on_fin (sg : segment) (c : conn) : conn :=
  if has TCP_FIN sg then Conn TCP_CLOSE_WAIT (cn_una c) (cn_nxt c) (u32 (cn_rcv c + 1)) (cn_queue c) else c.

Definition opens (sg : segment) (c : conn) : bool :=
  has TCP_SYN sg && has TCP_ACK sg && (sg_ack sg =? u32 (cn_una c + 1)).

Definition on_segment (sg : segment) (c : conn) : conn :=
  let st := cn_state c in
  if st =? TCP_SYN_SENT then
    if opens sg c then Conn TCP_ESTABLISHED (sg_ack sg) (cn_nxt c) (u32 (sg_seq sg + 1)) (cn_queue c) else c
  else if st =? TCP_SYN_RECV then
    if has TCP_ACK sg then Conn TCP_ESTABLISHED (cn_una c) (cn_nxt c) (cn_rcv c) (cn_queue c) else c
  else if st =? TCP_ESTABLISHED then on_fin sg (on_data sg (on_ack sg c))
  else if (st =? TCP_CLOSE_WAIT) || (st =? TCP_LAST_ACK) then
    if has TCP_ACK sg then Conn TCP_CLOSED (cn_una c) (cn_nxt c) (cn_rcv c) (cn_queue c) else c
  else c.

(** Whether an acknowledgement is sent. *)
Definition answers (sg : segment) (c : conn) : bool :=
  let st := cn_state c in
  if st =? TCP_SYN_SENT then opens sg c
  else if st =? TCP_ESTABLISHED then in_order sg (on_ack sg c) || has TCP_FIN sg
  else false.

(** What waits for the reader is only ever extended, and never beyond the ring. *)
Lemma on_segment_queue sg c :
  cn_queue c `prefix_of` cn_queue (on_segment sg c)
  /\ (Z.of_nat (length (cn_queue c)) <= RING -> Z.of_nat (length (cn_queue (on_segment sg c))) <= RING).
Proof.
  assert (Hd : forall c', cn_queue c' = cn_queue c -> cn_queue c `prefix_of` cn_queue (on_fin sg (on_data sg c'))
    /\ (Z.of_nat (length (cn_queue c)) <= RING -> Z.of_nat (length (cn_queue (on_fin sg (on_data sg c')))) <= RING)).
  { intros c' E. unfold on_fin, on_data, accepted. destruct (has _ sg), (in_order sg c'); cbn [cn_queue];
      rewrite ?E; (split; [by apply prefix_app_r || done|]); rewrite ?length_app, ?length_take; lia. }
  unfold on_segment. repeat case_match; try (split; [done|done]); apply Hd; unfold on_ack; by destruct (has _ sg).
Qed.

(** No segment brings a connection into TIME_WAIT, so the timer has none to
    close; and one that has sent its FIN stays in FIN_WAIT1 whatever arrives. *)
Lemma never_time_wait sg c : cn_state c <> TCP_TIME_WAIT -> cn_state (on_segment sg c) <> TCP_TIME_WAIT.
Proof.
  intros Hc. unfold on_segment, on_fin, on_data, on_ack. repeat case_match; cbn [cn_state]; done.
Qed.
Lemma fin_wait_stays sg c : cn_state c = TCP_FIN_WAIT1 -> on_segment sg c = c.
Proof. intros E. unfold on_segment. by rewrite E. Qed.

(** * The socket in RAM *)

(** [a] is in the socket or in its ring. *)
Definition in_conn (m : gmap Z Z) (sock a : Z) : Prop :=
  lin sock <= a < lin sock + SIZEOF_SOCKET
  \/ lin (sk_rx_buf m sock) <= a < lin (sk_rx_buf m sock) + RING.

(** From [m] to [m'] the connection becomes [c], and nothing else changes. *)
Record becomes (sock : Z) (m : gmap Z Z) (c : conn) (m' : gmap Z Z) : Prop := {
  bc_ring : ring_ok m' sock;
  bc_conn : conn_of m' sock = c;
  bc_buf : sk_rx_buf m' sock = sk_rx_buf m sock;
  bc_frame : forall a, ~ in_conn m sock a -> load8 m' a = load8 m a;
}.

Lemma becomes_refl sock m : ring_ok m sock -> becomes sock m (conn_of m sock) m.
Proof. done. Qed.

Lemma becomes_trans sock m1 m2 m3 c2 c3 :
  becomes sock m1 c2 m2 -> becomes sock m2 c3 m3 -> becomes sock m1 c3 m3.
Proof.
  intros [_ _ B1 F1] [R2 C2 B2 F2]. split; [done|done|by rewrite B2|].
  intros a Ha. rewrite F2; [by apply F1|]. unfold in_conn. by rewrite B1.
Qed.

(** A store to a field of the first 40 bytes. *)
Lemma field_store m m' sock d k :
  ring_ok m sock -> 0 <= d -> d + k <= 40 -> only_changes (lin sock + d) (lin sock + d + k) m m' ->
  ring_ok m' sock /\ rx_queue m' sock = rx_queue m sock /\ sk_rx_buf m' sock = sk_rx_buf m sock
  /\ (forall a, ~ in_conn m sock a -> load8 m' a = load8 m a).
Proof.
  intros Hok Hd Hk Hm. pose proof (rg_apart _ _ Hok) as Hap. unfold SIZEOF_SOCKET in Hap.
  destruct (rx_view_ext m m' sock Hok) as (? & ? & ?); [intros a Ha; symmetry; apply Hm; lia..|].
  do 3 (split; [done|]). intros a Ha. apply Hm.
  destruct (Z.ltb_spec a (lin sock + d)); [by left|]. destruct (Z.leb_spec (lin sock + d + k) a); [by right|].
  exfalso. apply Ha. left. unfold SIZEOF_SOCKET. lia.
Qed.

(** [B] brings the connection to some state, [L] is a store after it: [B'] is
    both. *)
Ltac then_becomes B L B' :=
  pose proof L as B'; rewrite (bc_conn _ _ _ _ B) in B';
  cbn [cn_state cn_una cn_nxt cn_rcv cn_queue] in B';
  apply (becomes_trans _ _ _ _ _ _ B) in B'.

Section stores.
Context (m : gmap Z Z) (sock : Z) (Hok : ring_ok m sock).
Let c : conn := conn_of m sock.

Lemma becomes_state v :
  becomes sock m (Conn (u8 v) (cn_una c) (cn_nxt c) (cn_rcv c) (cn_queue c)) (set_sk_state sock v m).
Proof.
  pose proof (rg_sock _ _ Hok) as Hp.
  destruct (field_store m (set_sk_state sock v m) sock 18 1 Hok) as (? & Hq & ? & ?); [lia..| |].
  { intros a Ha. unfold set_sk_state. rewrite (sock_lin sock) by (done || (unfold SIZEOF_SOCKET; lia)).
    rewrite load8_store8. by test_false. }
  split; [done| |done|done]. unfold conn_of. rewrite Hq. f_equal; by sk_simpl.
Qed.

Lemma becomes_una v :
  becomes sock m (Conn (cn_state c) (u32 v) (cn_nxt c) (cn_rcv c) (cn_queue c)) (set_sk_snd_una sock v m).
Proof.
  pose proof (rg_sock _ _ Hok) as Hp.
  destruct (field_store m (set_sk_snd_una sock v m) sock 20 4 Hok) as (? & Hq & ? & ?); [lia..| |].
  { apply (store_field_frame sock Hp 4); unfold SIZEOF_SOCKET; lia. }
  split; [done| |done|done]. unfold conn_of. rewrite Hq. f_equal; by sk_simpl.
Qed.

Lemma becomes_rcv v :
  becomes sock m (Conn (cn_state c) (cn_una c) (cn_nxt c) (u32 v) (cn_queue c)) (set_sk_rcv_nxt sock v m).
Proof.
  pose proof (rg_sock _ _ Hok) as Hp.
  destruct (field_store m (set_sk_rcv_nxt sock v m) sock 28 4 Hok) as (? & Hq & ? & ?); [lia..| |].
  { apply (store_field_frame sock Hp 4); unfold SIZEOF_SOCKET; lia. }
  split; [done| |done|done]. unfold conn_of. rewrite Hq. f_equal; by sk_simpl.
Qed.

Lemma take_load_bytes k n a : (k <= n)%nat -> take k (load_bytes n m a) = load_bytes k m a.
Proof.
  revert n a. induction k as [|k IH]; intros n a Hk; [done|]. destruct n as [|n]; [lia|].
  cbn [load_bytes take]. f_equal. apply IH. lia.
Qed.

Lemma becomes_data payload len :
  0 <= len < 65536 -> outside m sock payload len ->
  let d := accepted c (load_bytes (Z.to_nat len) m (lin payload)) in
  becomes sock m (Conn (cn_state c) (cn_una c) (cn_nxt c) (u32 (cn_rcv c + Z.of_nat (length d))) (cn_queue c ++ d))
    (rx_store sock payload len m).
Proof.
  intros Hlen Hout d. pose proof (rg_sock _ _ Hok) as Hp. pose proof (rx_used_range m sock) as Hu.
  destruct (rx_store_appends m sock payload len Hok Hlen Hout) as (Hn & Hq & Hr & Hb & Hok').
  set (n := rx_taken m sock len) in *.
  assert (Hd : d = load_bytes (Z.to_nat n) m (lin payload)).
  { unfold d, accepted. cbn [c conn_of cn_queue]. rewrite rx_queue_length by lia.
    rewrite <- (take_load_bytes (Z.to_nat n) (Z.to_nat len)) by lia.
    unfold n, rx_taken. destruct (Z.le_ge_cases len (RING - rx_used m sock)).
    - rewrite Z.min_l by lia. rewrite !take_ge; [done|rewrite load_bytes_length; lia..].
    - by rewrite Z.min_r by lia. }
  assert (Hl : Z.of_nat (length d) = n) by (rewrite Hd, load_bytes_length; lia).
  rewrite Hl, Hd. pose proof (m'_frame m sock payload len Hok Hlen Hout) as Hf.
  pose proof (m'_field m sock payload len Hok Hlen Hout 4) as H4.
  pose proof (rg_apart _ _ Hok) as Hap. unfold SIZEOF_SOCKET in *. split; [done| |done|].
  - unfold conn_of. rewrite Hq, Hr. f_equal.
    + change (cn_state c) with (sk_state m sock). unfold sk_state.
      rewrite (sock_lin sock) by (done || (unfold SIZEOF_SOCKET; lia)). apply Hf; lia.
    + apply (H4 20); lia.
    + apply (H4 24); lia.
  - intros a Ha. unfold in_conn, SIZEOF_SOCKET in Ha. apply Hf; lia.
Qed.
End stores.

(** * Handlers *)
Section handlers.
Context (dev_tx : Z -> Z -> Z -> M bool) (s : kst) (sock flags seq ack payload len : Z).
Context (Hok : ring_ok (ram s) sock) (Hlen : 0 <= len < 65536) (Hout : outside (ram s) sock payload len).
Context (Hack : 0 <= ack < 2 ^ 32).
Let c : conn := conn_of (ram s) sock.
Let sg : segment := Segment flags seq ack (load_bytes (Z.to_nat len) (ram s) (lin payload)).

(** The answer of a handler, sent from the new state. *)
Definition reply (b : bool) : M unit := if b then tcp_tx dev_tx sock TCP_ACK 0 0 else mret tt.
Definition does (h : M unit) (c' : conn) (b : bool) : Prop :=
  exists m', becomes sock (ram s) c' m' /\ h s = reply b (set_ram m' s).

Lemma does_nothing : does (mret tt) c false.
Proof. exists (ram s). split; [by apply becomes_refl|]. by destruct s. Qed.

Lemma syn_recv_does :
  does (rx_syn_recv sock flags)
    (if has TCP_ACK sg then Conn TCP_ESTABLISHED (cn_una c) (cn_nxt c) (cn_rcv c) (cn_queue c) else c) false.
Proof.
  unfold rx_syn_recv, has. cbn [sg_flags sg]. destruct (truthy _); [|apply does_nothing].
  eexists. split; [exact (becomes_state (ram s) sock Hok TCP_ESTABLISHED)|done].
Qed.

Lemma closing_does :
  does (rx_closing sock flags)
    (if has TCP_ACK sg then Conn TCP_CLOSED (cn_una c) (cn_nxt c) (cn_rcv c) (cn_queue c) else c) false.
Proof.
  unfold rx_closing, has. cbn [sg_flags sg]. destruct (truthy _); [|apply does_nothing].
  eexists. split; [exact (becomes_state (ram s) sock Hok TCP_CLOSED)|done].
Qed.

Lemma syn_sent_does :
  does (rx_syn_sent dev_tx sock flags seq ack)
    (if opens sg c then Conn TCP_ESTABLISHED ack (cn_nxt c) (u32 (seq + 1)) (cn_queue c) else c) (opens sg c).
Proof.
  unfold rx_syn_sent, does. rewrite bind_gets. change (_ && _ && _) with (opens sg c).
  destruct (opens sg c); [|apply does_nothing]. cbn [whenM]. rewrite !bind_upd_ram.
  pose proof (becomes_state (ram s) sock Hok TCP_ESTABLISHED) as B1.
  then_becomes B1 (becomes_rcv _ sock (bc_ring _ _ _ _ B1) (seq + 1)) B2.
  then_becomes B2 (becomes_una _ sock (bc_ring _ _ _ _ B2) ack) B3.
  rewrite u32_small in B3 by lia. eexists. split; [exact B3|done].
Qed.

(** ESTABLISHED: the acknowledgement, then data or FIN. *)
Lemma ack_does (K : M unit) :
  exists m1, becomes sock (ram s) (on_ack sg c) m1 /\ outside m1 sock payload len
  /\ load_bytes (Z.to_nat len) m1 (lin payload) = sg_data sg
  /\ (whenM (truthy (flags .& TCP_ACK)) (upd_ram (set_sk_snd_una sock ack));; K) s = K (set_ram m1 s).
Proof.
  pose proof (becomes_una (ram s) sock Hok ack) as B. rewrite u32_small in B by lia.
  unfold on_ack, has. cbn [sg_flags sg_ack sg_data sg]. destruct (truthy (flags .& TCP_ACK)); cbn [whenM].
  - eexists. split; [exact B|]. split; [by destruct Hout; split; rewrite ?(bc_buf _ _ _ _ B)|]. split; [|done].
    apply load_bytes_ext. intros a Ha. apply B. destruct Hout as [_ Hs Hb]. unfold in_conn. lia.
  - exists (ram s). split; [by apply becomes_refl|]. split; [done|]. split; [done|]. by destruct s.
Qed.

Lemma fin_does m1 c1 (b : bool) :
  becomes sock (ram s) c1 m1 -> b = has TCP_FIN sg ->
  exists m', becomes sock (ram s) (on_fin sg c1) m'
  /\ whenM b (upd_ram (set_sk_state sock TCP_CLOSE_WAIT);;
               upd_ram (fun m => set_sk_rcv_nxt sock (sk_rcv_nxt m sock + 1) m);;
               tcp_tx dev_tx sock TCP_ACK 0 0) (set_ram m1 s) = reply b (set_ram m' s).
Proof.
  intros B1 ->. unfold on_fin. destruct (has TCP_FIN sg); cbn [whenM reply]; [|by exists m1].
  pose proof B1 as B0.
  then_becomes B0 (becomes_state _ sock (bc_ring _ _ _ _ B0) TCP_CLOSE_WAIT) B2.
  then_becomes B2 (becomes_rcv _ sock (bc_ring _ _ _ _ B2) (cn_rcv c1 + 1)) B3.
  eexists. split; [exact B3|]. rewrite !bind_upd_ram. cbn [ram set_ram].
  pose proof (f_equal cn_rcv (bc_conn _ _ _ _ B2)) as E. cbn [cn_rcv conn_of] in E. by rewrite E.
Qed.

Lemma in_order_data :
  (match sg_data sg with [] => false | _ => true end) = (0 <? len).
Proof.
  cbn [sg_data sg]. destruct (Z.to_nat len) as [|n] eqn:E; cbn [load_bytes]; symmetry.
  - apply Z.ltb_ge. lia.
  - apply Z.ltb_lt. lia.
Qed.

Lemma established_does :
  has TCP_FIN sg && in_order sg (on_ack sg c) = false ->
  does (rx_established dev_tx sock flags seq ack payload len) (on_fin sg (on_data sg (on_ack sg c)))
    (in_order sg (on_ack sg c) || has TCP_FIN sg).
Proof.
  intros Hex. unfold does, rx_established.
  destruct (ack_does (m ← gets ram;
    whenM ((0 <? len) && (seq =? sk_rcv_nxt m sock)) (upd_ram (rx_store sock payload len);; tcp_tx dev_tx sock TCP_ACK 0 0);;
    whenM (truthy (flags .& TCP_FIN)) (upd_ram (set_sk_state sock TCP_CLOSE_WAIT);;
      upd_ram (fun m => set_sk_rcv_nxt sock (sk_rcv_nxt m sock + 1) m);; tcp_tx dev_tx sock TCP_ACK 0 0)))
    as (m1 & B1 & Hout1 & Hdata & ->).
  rewrite bind_gets. cbn [ram set_ram].
  assert (Ein : (0 <? len) && (seq =? sk_rcv_nxt m1 sock) = in_order sg (on_ack sg c)).
  { rewrite <- in_order_data. change (sk_rcv_nxt m1 sock) with (cn_rcv (conn_of m1 sock)).
    rewrite (bc_conn _ _ _ _ B1). unfold in_order. by destruct (sg_data sg). }
  rewrite Ein. unfold on_data. destruct (in_order sg (on_ack sg c)).
  - rewrite andb_true_r in Hex. change (truthy (flags .& TCP_FIN)) with (has TCP_FIN sg). rewrite Hex.
    pose proof B1 as B0. then_becomes B0 (becomes_data m1 sock (bc_ring _ _ _ _ B0) payload len Hlen Hout1) B2.
    rewrite Hdata in B2. unfold on_fin. rewrite Hex. eexists. split; [exact B2|].
    cbn [whenM orb reply]. by rewrite bind_assoc, bind_upd_ram, bind_tt.
  - cbn [whenM orb]. rewrite bind_mret. by apply fin_does.
Qed.
End handlers.

(** C10 tcp_rx implements the connection machine: for a segment whose ports belong
    to a socket that does not listen, whatever its flags, the socket ends as
    [on_segment] says (state, sequence numbers, waiting bytes), an ACK is sent
    exactly when [answers] says so, and no byte outside the socket and its ring
    changes before that.  (A segment with both in-order data and FIN is answered
    twice, with sending in between, and is not covered.) *)
Theorem tcp_rx_refines (dev_tx : Z -> Z -> Z -> M bool) (fuel : nat) (s : kst) (sock tcp payload len : Z) :
  ring_ok (ram s) sock -> 0 <= len < 65536 -> outside (ram s) sock payload len ->
  find_socket fuel (ram s) (sockets (net s)) (ntohs (tcp_dst_port (ram s) tcp))
    (ntohs (tcp_src_port (ram s) tcp)) = Some sock ->
  sk_state (ram s) sock <> TCP_LISTEN ->
  let c := conn_of (ram s) sock in
  let sg := segment_at (ram s) tcp payload len in
  has TCP_FIN sg && in_order sg (on_ack sg c) = false ->
  exists m', becomes sock (ram s) (on_segment sg c) m'
  /\ tcp_rx dev_tx fuel tcp payload len s = reply dev_tx sock (answers sg c) (set_ram m' s).
Proof.
  intros Hok Hlen Hout Hf Hst c sg Hex. unfold tcp_rx. rewrite !bind_gets, Hf. cbn [returned].
  rewrite bind_mret, (sock_nonnull _ (rg_sock _ _ Hok)), (proj2 (Z.eqb_neq _ _) Hst).
  pose proof (bswap32_range (tcp_ack (ram s) tcp)) as Hack. change (bswap32 _) with (sg_ack sg) in Hack.
  unfold on_segment, answers. change (sk_state (ram s) sock) with (cn_state c).
  destruct (cn_state c =? TCP_SYN_SENT); [by apply syn_sent_does|].
  destruct (Z.eqb_spec (cn_state c) TCP_SYN_RECV) as [E|_]; [rewrite E; by apply syn_recv_does|].
  destruct (cn_state c =? TCP_ESTABLISHED); [by apply established_does|].
  destruct (_ || _); [by apply closing_does|by apply (does_nothing _ _ _ 0 0 0 payload len)].
Qed.

Module MachineExample.
(** The connection of TcpExample, its counters at their last values, gets five
    bytes and an acknowledgement in a segment at 0x7000. *)
Definition tcp : Z := 0x7000.
Definition s : kst := set_ram (store8 (store32 TcpExample.m (tcp + 8) 0x01000000) (tcp + 13) TCP_ACK) TcpExample.s.
Definition c : conn := conn_of (ram s) TcpExample.sock.
Definition sg : segment := segment_at (ram s) tcp 0x5000 5.

Example after : on_segment sg c = Conn TCP_ESTABLISHED 1 0 5 [1; 2; 3; 4; 5].
Proof. by vm_compute. Qed.
Definition dev_tx (_ _ _ : Z) : M bool := mret true.
Lemma machine_ring : ring_ok (ram s) TcpExample.sock.
Proof.
  assert (E : sk_rx_buf (ram s) TcpExample.sock = 0x20000) by by vm_compute.
  split; [apply TcpExample.sock_fine|rewrite E; left; by vm_compute|rewrite E; right; by vm_compute|].
  by vm_compute.
Qed.
Lemma machine_payload : outside (ram s) TcpExample.sock 0x5000 5.
Proof.
  assert (E : sk_rx_buf (ram s) TcpExample.sock = 0x20000) by by vm_compute.
  split; rewrite ?E; left; by vm_compute.
Qed.
End MachineExample.

Lemma tcp_rx_refines_witness :
  exists m', becomes TcpExample.sock (ram MachineExample.s) (Conn TCP_ESTABLISHED 1 0 5 [1; 2; 3; 4; 5]) m'
  /\ tcp_rx MachineExample.dev_tx 4 MachineExample.tcp 0x5000 5 MachineExample.s =
     reply MachineExample.dev_tx TcpExample.sock true (set_ram m' MachineExample.s).
Proof.
  rewrite <- MachineExample.after.
  apply (tcp_rx_refines MachineExample.dev_tx 4 MachineExample.s TcpExample.sock MachineExample.tcp 0x5000 5);
    [apply MachineExample.machine_ring|lia|apply MachineExample.machine_payload|by vm_compute..].
Defined.
