(* ===== verification/NetSend.v ===== *)
(** What ip_send, icmp_echo_reply and udp_tx put on the wire, and what they do to
    the heap.

    The heap is known by its contract only.  The frame is described as a list of
    bytes: [eth_frame], [ip_packet], [echo_reply]. *)
From S2P Require Import Prelude Machine Globals Strings Pmm Kmalloc KmallocFacts Objects Net NetFacts Tcp TcpFacts NetRx.

(** * Bytes in network order *)
Definition be16 (v : Z) : list Z := [u8 (v / 256); u8 v].
Definition be32 (v : Z) : list Z := be16 (v / 65536) ++ be16 v.

Lemma htons_bytes v : 0 <= v < 65536 -> le_split 2 (htons v) = be16 v.
Proof.
  intros Hv. unfold be16. rewrite bswap16_val by done. cbn [le_split].
  f_equal; [unfold u8; Z.div_mod_to_equations; lia|]. f_equal. unfold u8. Z.div_mod_to_equations. lia.
Qed.

Lemma le_split_combine bs : byte_list bs -> le_split (length bs) (le_combine bs) = bs.
Proof.
  induction 1 as [|b bs Hb Hbs IH]; cbn [length le_split le_combine]; [done|].
  assert (E1 : u8 (b + 256 * le_combine bs) = b).
  { unfold u8. rewrite Z.mul_comm, Z.mod_add by lia. apply Z.mod_small. lia. }
  assert (E2 : (b + 256 * le_combine bs) / 256 = le_combine bs).
  { rewrite Z.mul_comm, Z.div_add by lia. rewrite Z.div_small by lia. lia. }
  by rewrite E1, E2, IH.
Qed.

Lemma be16_bytes v : byte_list (be16 v).
Proof. repeat constructor; apply u8_range. Qed.
Lemma be32_bytes v : byte_list (be32 v).
Proof. apply Forall_app. split; apply be16_bytes. Qed.

Lemma htonl_bytes v : 0 <= v < 2 ^ 32 -> le_split 4 (htonl v) = be32 v.
Proof.
  intros Hv. rewrite <- (le_split_combine (be32 v)) by apply be32_bytes. f_equal.
  rewrite bswap32_val by done. unfold be32, be16. cbn [app le_combine]. unfold u8.
  rewrite Z.div_div by lia. change (65536 * 256) with (2 ^ 24). change 65536 with (2 ^ 16) at 2.
  assert (0 <= v / 2 ^ 24 < 256) by (split; [apply Z.div_pos|apply Z.div_lt_upper_bound]; lia).
  rewrite (Z.mod_small (v / 2 ^ 24)) by done. change (2 ^ 8) with 256. change 0x100 with 256. lia.
Qed.

(** * Stores that follow each other *)
Lemma store_bytes_next m a l1 b l2 :
  b = a + Z.of_nat (length l1) -> store_bytes (store_bytes m a l1) b l2 = store_bytes m a (l1 ++ l2).
Proof. intros ->. apply store_bytes_app. Qed.

Lemma store8_bytes m a v : store8 m a v = store_bytes m a [v].
Proof. done. Qed.

Lemma load_stored n m a bs :
  byte_list bs -> n = length bs -> load_bytes n (store_bytes m a bs) a = bs.
Proof. intros Hb ->. rewrite load_bytes_store_bytes. by apply map_u8_bytes. Qed.

Lemma load_prefix n m a l1 l2 :
  byte_list (l1 ++ l2) -> n = length l1 -> load_bytes n (store_bytes m a (l1 ++ l2)) a = l1.
Proof.
  intros Hb ->. apply Forall_app in Hb as [Hb _]. rewrite <- store_bytes_app.
  transitivity (load_bytes (length l1) (store_bytes m a l1) a); [|by apply load_stored].
  apply load_bytes_ext. eapply agree_on_frame; [apply store_bytes_frame|lia].
Qed.

(** A field in the middle is stored again. *)
Lemma load_field n m a l1 l2 l2' l3 :
  byte_list l1 -> byte_list l2' -> byte_list l3 -> length l2 = length l2' ->
  n = length (l1 ++ l2' ++ l3) ->
  load_bytes n (store_bytes (store_bytes m a (l1 ++ l2 ++ l3)) (a + Z.of_nat (length l1)) l2') a
  = l1 ++ l2' ++ l3.
Proof.
  intros H1 H2 H3 Hl ->. rewrite !length_app, !load_bytes_app.
  pose proof (store_bytes_frame (store_bytes m a (l1 ++ l2 ++ l3)) (a + Z.of_nat (length l1)) l2') as Hf.
  rewrite <- Hl in Hf. f_equal; [|f_equal].
  - transitivity (load_bytes (length l1) (store_bytes m a l1) a); [|by apply load_stored].
    apply load_bytes_ext. intros b Hb. rewrite Hf by lia.
    rewrite <- store_bytes_app. apply store_bytes_frame. lia.
  - by apply load_stored.
  - replace (a + Z.of_nat (length l1) + Z.of_nat (length l2'))
      with (a + Z.of_nat (length (l1 ++ l2))) by (rewrite length_app, Hl; lia).
    transitivity (load_bytes (length l3) (store_bytes (store_bytes m a (l1 ++ l2))
      (a + Z.of_nat (length (l1 ++ l2))) l3) (a + Z.of_nat (length (l1 ++ l2)))); [|by apply load_stored].
    apply load_bytes_ext. intros b Hb. rewrite length_app in Hb. rewrite Hf by lia.
    by rewrite store_bytes_app, <- app_assoc.
Qed.

(** * The packet *)

(** The fields of struct ip_header; the checksum is in the byte order of memory. *)
Definition ip_header (total id proto check saddr daddr : Z) : list Z :=
  ([0x45; 0] ++ be16 total ++ be16 id ++ [0; 0; 64; proto]) ++ le_split 2 check ++ be32 saddr ++ be32 daddr.

Definition ip_packet (total id proto saddr daddr : Z) (payload : list Z) : list Z :=
  ip_header total id proto (internet_checksum (ip_header total id proto 0 saddr daddr)) saddr daddr ++ payload.

Definition eth_frame (dst src payload : list Z) : list Z := dst ++ src ++ be16 ETH_P_IP ++ payload.

Lemma ip_header_length total id proto check saddr daddr :
  length (ip_header total id proto check saddr daddr) = 20%nat.
Proof. done. Qed.

Lemma ip_header_bytes total id proto check saddr daddr :
  0 <= proto < 256 -> byte_list (ip_header total id proto check saddr daddr).
Proof.
  intros Hp. unfold ip_header, byte_list. repeat (apply Forall_app; split); try apply be16_bytes;
    try apply be32_bytes; try apply le_split_bytes; repeat constructor; lia.
Qed.

Section packet.
Context (ip total id proto saddr daddr : Z).
Context (Hh : one_half ip 20) (Hp : 0 <= proto < 256).
Context (Ht : 0 <= total < 65536) (Hid : 0 <= id < 65536).
Context (Hs : 0 <= saddr < 2 ^ 32) (Hd : 0 <= daddr < 2 ^ 32).

Lemma ip_fields_bytes m :
  ip_header_fields ip total id proto saddr daddr m
  = store_bytes m (lin ip) (ip_header total id proto 0 saddr daddr).
Proof.
  unfold ip_header_fields, set_ip_check. cbv zeta. rewrite !(lin_shift ip 20) by (done || lia).
  rewrite !store_le_bytes, !htons_bytes, !htonl_bytes by done.
  rewrite !store8_bytes.
  repeat (rewrite (store_bytes_next m (lin ip)) by (cbn; lia)).
  done.
Qed.

(** The header, then the payload, then the checksum in the header. *)
Lemma packet_ram m data len :
  one_half ip (20 + len) -> 0 <= len ->
  len = 0 \/ lin data + len <= lin ip \/ lin ip + 20 + len <= lin data ->
  let c := internet_checksum (ip_header total id proto 0 saddr daddr) in
  let m1 := memcpy (ip_header_fields ip total id proto saddr daddr m) (lin (ip + 20)) (lin data) len in
  ip_checksum m1 ip 20 = Some c
  /\ only_changes (lin ip) (lin ip + (20 + len)) m (set_ip_check ip c m1)
  /\ load_bytes (Z.to_nat (20 + len)) (set_ip_check ip c m1) (lin ip)
     = ip_packet total id proto saddr daddr (load_bytes (Z.to_nat len) m (lin data)).
Proof.
  intros Hh2 Hlen Hdis c m1. set (h0 := ip_header total id proto 0 saddr daddr) in *.
  set (bs := load_bytes (Z.to_nat len) m (lin data)).
  assert (Hb0 : byte_list h0) by by apply ip_header_bytes.
  assert (Hbs : byte_list bs) by apply load_bytes_range.
  assert (El : length bs = Z.to_nat len) by apply load_bytes_length.
  assert (E1 : m1 = store_bytes m (lin ip) (h0 ++ bs)).
  { unfold m1. rewrite ip_fields_bytes. fold h0.
    destruct (Z.eqb_spec len 0) as [->|].
    - unfold bs, memcpy. cbn [Z.to_nat load_bytes copy_up]. by rewrite app_nil_r.
    - rewrite (lin_shift ip (20 + len)) by (done || lia). rewrite memcpy_store_bytes by lia.
      rewrite store_bytes_next by done. do 2 f_equal. unfold bs. apply load_bytes_ext.
      eapply agree_on_frame; [apply store_bytes_frame|]. change (length h0) with 20%nat. lia. }
  assert (Hrun : ip_checksum m1 ip 20 = Some c).
  { rewrite ip_checksum_run by (done || lia). rewrite E1. change (Z.to_nat 20) with 20%nat.
    rewrite load_prefix; [done|by apply Forall_app|done]. }
  pose proof (store_bytes_frame m (lin ip) (h0 ++ bs)) as Hf. rewrite length_app, El in Hf.
  split; [done|]. unfold set_ip_check. rewrite (lin_shift ip 20) by (done || lia).
  rewrite store_le_bytes. split.
  - apply (only_changes_trans _ _ _ m1).
    + rewrite E1. eapply only_changes_weaken; [exact Hf|lia|]. change (length h0) with 20%nat. lia.
    + eapply only_changes_weaken; [apply store_bytes_frame|lia|]. rewrite le_split_length. lia.
  - rewrite E1. unfold h0, ip_packet, ip_header. fold h0. rewrite <- !(app_assoc _ _ bs).
    apply (load_field _ _ _ ([0x45; 0] ++ be16 total ++ be16 id ++ [0; 0; 64; proto])); [..|done|].
    + unfold h0, ip_header in Hb0. by apply Forall_app in Hb0 as [? _].
    + apply le_split_bytes.
    + repeat (apply Forall_app; split); [apply be16_bytes..|exact Hbs].
    + rewrite !length_app, El. cbn. lia.
Qed.
End packet.

(** ** The frame around the packet *)
Section frame.
Context (m : gmap Z Z) (eth dev ip total : Z) (mac : list Z).
Context (Hh : one_half eth (14 + total)) (Ht : 0 < total).
Context (Hmac : byte_list mac) (Hlen : length mac = 6%nat).
Context (Hip : lin ip + total <= lin eth \/ lin eth + (14 + total) <= lin ip).
Context (Hdev : dev <> 0 -> lin dev + 6 <= lin eth \/ lin eth + (14 + total) <= lin dev).

(** The source address in the frame. *)
Definition src_mac : list Z := if truthy dev then load_bytes 6 m (lin dev) else replicate 6 0.

Definition frame_src (m : gmap Z Z) : gmap Z Z :=
  if truthy dev then memcpy m (lin (eth_src eth)) (lin (dev_mac dev)) ETH_ALEN
  else memset m (lin (eth_src eth)) 0 ETH_ALEN.

Definition frame_ram : gmap Z Z :=
  memcpy (set_eth_type eth (htons ETH_P_IP) (frame_src (store_bytes m (lin (eth_dst eth)) mac)))
    (lin (eth + ETH_HEADER_SIZE)) (lin ip) total.

Lemma frame_bytes :
  frame_ram = store_bytes m (lin eth) (eth_frame mac src_mac (load_bytes (Z.to_nat total) m (lin ip))).
Proof.
  unfold frame_ram, frame_src, set_eth_type, eth_src, eth_dst, dev_mac, ETH_ALEN, ETH_HEADER_SIZE, eth_frame.
  rewrite !(lin_shift eth (14 + total)) by (done || lia).
  assert (E : (if truthy dev then memcpy (store_bytes m (lin eth) mac) (lin eth + 6) (lin dev) 6
               else memset (store_bytes m (lin eth) mac) (lin eth + 6) 0 6)
              = store_bytes m (lin eth) (mac ++ src_mac)).
  { unfold src_mac. destruct (truthy dev) eqn:Ed.
    - apply truthy_true in Ed. specialize (Hdev Ed). rewrite memcpy_store_bytes by lia.
      rewrite store_bytes_next by (rewrite Hlen; lia). do 2 f_equal. apply load_bytes_ext.
      eapply agree_on_frame; [apply store_bytes_frame|]. rewrite Hlen. lia.
    - rewrite memset_store_bytes, store_bytes_next by (rewrite Hlen; lia). done. }
  assert (Es : length src_mac = 6%nat).
  { unfold src_mac. destruct (truthy dev); [apply load_bytes_length|done]. }
  rewrite E, store_le_bytes, htons_bytes by (unfold ETH_P_IP; lia).
  rewrite store_bytes_next by (rewrite length_app, Hlen, Es; lia).
  rewrite memcpy_store_bytes by lia.
  rewrite store_bytes_next by (rewrite !length_app, Hlen, Es; cbn; lia).
  rewrite <- !app_assoc. do 4 f_equal. apply load_bytes_ext.
  eapply agree_on_frame; [apply store_bytes_frame|]. rewrite !length_app, Hlen, Es. cbn. lia.
Qed.

Lemma frame_length bs : length bs = Z.to_nat total -> length (eth_frame mac src_mac bs) = Z.to_nat (14 + total).
Proof.
  intros Hb. unfold eth_frame. rewrite !length_app, Hlen, Hb.
  assert (length src_mac = 6%nat) as ->; [|cbn; lia].
  unfold src_mac. destruct (truthy dev); [apply load_bytes_length|done].
Qed.

Lemma frame_ram_spec :
  only_changes (lin eth) (lin eth + (14 + total)) m frame_ram
  /\ load_bytes (Z.to_nat (14 + total)) frame_ram (lin eth)
     = eth_frame mac src_mac (load_bytes (Z.to_nat total) m (lin ip)).
Proof.
  pose proof (frame_length _ (load_bytes_length (Z.to_nat total) m (lin ip))) as El.
  rewrite frame_bytes. split.
  - eapply only_changes_weaken; [apply store_bytes_frame|lia|]. rewrite El. lia.
  - apply load_stored; [|done]. unfold eth_frame. repeat (apply Forall_app; split); [done| | |].
    + unfold src_mac. destruct (truthy dev); [apply load_bytes_range|]. repeat constructor; lia.
    + apply be16_bytes.
    + apply load_bytes_range.
Qed.
End frame.

(** * ip_send *)

(** A driver's transmit function puts the bytes on the wire. *)
Definition transmits (dev_tx : Z -> Z -> Z -> M bool) : Prop := forall tx p n s,
  exists b, dev_tx tx p n s = Ret b (set_trace (EvTx tx (load_bytes (Z.to_nat n) (ram s) (lin p)) :: trace s) s).

Record net_ok (n : net_globals) : Prop := {
  nt_arp : arp_ok n;
  nt_macs : Forall (fun mac => byte_list mac /\ length mac = 6%nat) (arp_cache n);
  nt_local : 0 <= local_ip n < 2 ^ 32;
  nt_id : 0 <= ip_id n < 65536;
}.

(** The frame a packet leaves in, if there is a hardware address for its next
    hop and a device that can send. *)
Definition frame_sent (n : net_globals) (m : gmap Z Z) (dst : Z) (packet : list Z) : list event :=
  match arp_view n !! next_hop n dst with
  | Some mac =>
      if truthy (devices n) && truthy (dev_tx_ptr m (devices n))
      then [EvTx (dev_tx_ptr m (devices n)) (eth_frame mac (src_mac m (devices n)) packet)]
      else []
  | None => []
  end.

Definition ip_sent (n : net_globals) (m : gmap Z Z) (dst proto : Z) (payload : list Z) : list event :=
  frame_sent n m dst
    (ip_packet (20 + Z.of_nat (length payload)) (ip_id n) proto (local_ip n) dst payload).

(** The way to [dst] is known: the ARP cache has the hardware address of the next
    hop, and there is a device that can send. *)
Record way_to (n : net_globals) (m : gmap Z Z) (dst : Z) (mac : list Z) : Prop := {
  wy_arp : arp_view n !! next_hop n dst = Some mac;
  wy_device : devices n <> 0;
  wy_tx : dev_tx_ptr m (devices n) <> 0;
}.

(** The frame a packet leaves in. *)
Definition packet_frame (n : net_globals) (m : gmap Z Z) (dst proto : Z) (mac payload : list Z) : event :=
  EvTx (dev_tx_ptr m (devices n))
    (eth_frame mac (src_mac m (devices n))
       (ip_packet (20 + Z.of_nat (length payload)) (ip_id n) proto (local_ip n) dst payload)).

Lemma ip_sent_way n m dst proto mac payload :
  way_to n m dst mac -> ip_sent n m dst proto payload = [packet_frame n m dst proto mac payload].
Proof.
  intros [Ha Hd Ht]. unfold ip_sent, frame_sent. rewrite Ha.
  by rewrite (proj2 (truthy_true _) Hd), (proj2 (truthy_true _) Ht).
Qed.

Lemma arp_lookup_view n ip :
  net_ok n ->
  match arp_lookup n ip with
  | Some i => arp_view n !! ip = Some (arp_cache n !!! i)
              /\ byte_list (arp_cache n !!! i) /\ length (arp_cache n !!! i) = 6%nat
  | None => arp_view n !! ip = None
  end.
Proof.
  intros [Hn Hmac _ _]. unfold arp_lookup. pose proof (arp_find_cases n Hn ip) as Hf.
  destruct (arp_find _ _ _ ip) as [i|]; [|by apply arp_view_none].
  destruct Hf as [Hi Hip]. destruct (arp_mac n Hn i) as [b Hb]; [pose proof (arp_count _ Hn); lia|].
  rewrite (list_lookup_total_correct _ _ _ Hb). split; [by eapply arp_view_lookup|].
  rewrite Forall_forall in Hmac. apply Hmac. by eapply list_elem_of_lookup_2.
Qed.

(** The part of ip_send after the packet is built: the frame is filled and
    transmitted, and [K] follows. *)
Definition fill_frame (dev_tx : Z -> Z -> Z -> M bool) (eth ip total_len : Z) (mac : list Z)
    (K : M unit) : M unit :=
  upd_ram (fun m => store_bytes m (lin (eth_dst eth)) mac);;
  dev ← net_get_device;
  (if truthy dev then
     upd_ram (fun m => memcpy m (lin (eth_src eth)) (lin (dev_mac dev)) ETH_ALEN)
   else upd_ram (fun m => memset m (lin (eth_src eth)) 0 ETH_ALEN));;
  upd_ram (set_eth_type eth (htons ETH_P_IP));;
  upd_ram (fun m => memcpy m (lin (eth + ETH_HEADER_SIZE)) (lin ip) total_len);;
  m ← gets ram;
  whenM (truthy dev && truthy (dev_tx_ptr m dev))
    (_ ← dev_tx (dev_tx_ptr m dev) eth (u16 (ETH_HEADER_SIZE + total_len)); mret tt);;
  K.

Definition send_frame (dev_tx : Z -> Z -> Z -> M bool) (ip total_len dst : Z) : M unit :=
  n ← gets net;
  match arp_lookup n (next_hop n dst) with
  | None => arp_request (next_hop n dst);; kfree ip
  | Some i =>
      eth ← kmalloc (ETH_HEADER_SIZE + total_len);
      if eth =? 0 then kfree ip
      else fill_frame dev_tx eth ip total_len (arp_cache n !!! i) (kfree eth;; kfree ip)
  end.

Lemma ip_send_eq dev_tx dst proto data len s :
  ip_send dev_tx dst proto data len s =
  (ip ← kmalloc (IP_HEADER_SIZE + len);
   if ip =? 0 then mret tt
   else
     n ← gets net;
     upd_net (fun n => set_ip_id (u16 (ip_id n + 1)) n);;
     upd_ram (ip_header_fields ip (u16 (IP_HEADER_SIZE + len)) (ip_id n) proto (local_ip n) dst);;
     upd_ram (fun m => memcpy m (lin (ip + IP_HEADER_SIZE)) (lin data) len);;
     m ← gets ram;
     check ← returned (ip_checksum m ip IP_HEADER_SIZE);
     upd_ram (set_ip_check ip check);;
     send_frame dev_tx ip (u16 (IP_HEADER_SIZE + len)) dst) s.
Proof. done. Qed.

Lemma fill_frame_run dev_tx K eth ip total mac s :
  transmits dev_tx -> 0 <= 14 + total < 65536 ->
  let dev := devices (net s) in
  let m := frame_ram (ram s) eth dev ip total mac in
  let evs := if truthy dev && truthy (dev_tx_ptr m dev)
             then [EvTx (dev_tx_ptr m dev) (load_bytes (Z.to_nat (14 + total)) m (lin eth))] else [] in
  fill_frame dev_tx eth ip total mac K s = K (set_trace (evs ++ trace s) (set_ram m s)).
Proof.
  intros Htx Ht dev m evs. unfold fill_frame. rewrite bind_upd_ram. unfold net_get_device.
  rewrite bind_gets. cbn [net set_ram]. fold dev.
  assert (E : forall (C : M unit) s0, ((if truthy dev then
      upd_ram (fun m => memcpy m (lin (eth_src eth)) (lin (dev_mac dev)) ETH_ALEN)
    else upd_ram (fun m => memset m (lin (eth_src eth)) 0 ETH_ALEN));; C) s0
    = C (set_ram (frame_src eth dev (ram s0)) s0)).
  { intros C s0. unfold frame_src. by destruct (truthy dev). }
  rewrite E, !bind_upd_ram, bind_gets. cbn [ram set_ram]. rewrite !set_ram_set_ram.
  change (memcpy _ (lin (eth + ETH_HEADER_SIZE)) (lin ip) total) with m.
  rewrite bind_whenM. unfold evs. destruct (truthy dev && truthy (dev_tx_ptr m dev)); [|done].
  rewrite bind_assoc. unfold ETH_HEADER_SIZE. rewrite u16_small by lia.
  destruct (Htx (dev_tx_ptr m dev) eth (14 + total) (set_ram m s)) as [b Eb].
  by rewrite (bind_ret _ _ _ _ _ Eb).
Qed.

Section run.
Context {HA : HeapAllocator kmalloc kfree}.
Context (dev_tx : Z -> Z -> Z -> M bool) (Htx : transmits dev_tx).

(** The network device (48 bytes) is memory of the client, outside its objects. *)
Definition device_mine (s : kst) (h : heap_view) (os : list obj) (dev : Z) : Prop :=
  dev <> 0 -> one_half dev 48 /\ forall b, lin dev <= b < lin dev + 48 -> mine s h os b.

(** It stays so while the client keeps its memory, and its fields too. *)
Lemma device_mine_mono s h os s' h' os' dev :
  device_mine s h os dev -> (forall b, mine s h os b -> mine s' h' os' b) -> device_mine s' h' os' dev.
Proof. intros Hd Hm Hnz. destruct (Hd Hnz) as [? Hb]. split; [done|]. intros b ?. by apply Hm, Hb. Qed.

Lemma device_kept s h os dev m :
  device_mine s h os dev -> (forall b, ~ ha_used s h b -> load8 m b = load8 (ram s) b) ->
  dev <> 0 -> one_half dev 48 /\ agree_on (lin dev) (lin dev + 48) m (ram s).
Proof. intros Hd Hm Hnz. destruct (Hd Hnz) as [? Hb]. split; [done|]. intros b ?. by apply Hm, Hb. Qed.

Lemma dev_fields m m' dev :
  (dev <> 0 -> one_half dev 48 /\ agree_on (lin dev) (lin dev + 48) m' m) ->
  truthy dev && truthy (dev_tx_ptr m' dev) = truthy dev && truthy (dev_tx_ptr m dev)
  /\ (truthy dev = true -> dev_tx_ptr m' dev = dev_tx_ptr m dev) /\ src_mac m' dev = src_mac m dev.
Proof.
  intros Hd. unfold src_mac. destruct (truthy dev) eqn:E; [|done].
  apply truthy_true in E. destruct (Hd E) as [Hh Ho].
  assert (Ep : dev_tx_ptr m' dev = dev_tx_ptr m dev).
  { unfold dev_tx_ptr. rewrite (lin_shift dev 48) by (done || lia).
    apply (load_le_ext 8). intros b Hb. apply Ho. lia. }
  split; [by rewrite Ep|]. split; [done|]. apply load_bytes_ext. intros b Hb. apply Ho. lia.
Qed.

(** [n] bytes from [a] on that are not the heap's are apart from what was. *)
Lemma apart_of_used (P : Z -> Prop) lo hi a n :
  (forall b, lo <= b < hi -> P b) -> (forall b, a <= b < a + n -> ~ P b) -> lo < hi -> 0 < n ->
  a + n <= lo \/ hi <= a.
Proof.
  intros HP Hn ??. destruct (Z.leb_spec (a + n) lo); [by left|right].
  destruct (Z.leb_spec hi a); [done|]. exfalso. apply (Hn (Z.max a lo)); [lia|]. apply HP. lia.
Qed.

(** The outcome of sending: what goes out when nothing is in the way, or nothing
    because a page was needed and there was none. *)
Definition sent_or_full (h : heap_view) (ns : list Z) (evs sent : list event) : Prop :=
  evs = sent \/ evs = [] /\ ~ ha_room h ns.

(** Filling and sending the frame [e] around the packet [o]. *)
Lemma fill_frame_holds s h e o os mac :
  holds s h (e :: o :: os) -> osize e = 14 + osize o -> 14 + osize o < 65536 ->
  byte_list mac -> length mac = 6%nat -> device_mine s h (e :: o :: os) (devices (net s)) ->
  exists s' evs, (forall K, fill_frame dev_tx (optr e) (optr o) (osize o) mac K s = K s')
  /\ evs = (if truthy (devices (net s)) && truthy (dev_tx_ptr (ram s) (devices (net s)))
            then [EvTx (dev_tx_ptr (ram s) (devices (net s)))
                    (eth_frame mac (src_mac (ram s) (devices (net s)))
                       (load_bytes (Z.to_nat (osize o)) (ram s) (lin (optr o))))]
            else [])
  /\ heap_only (set_trace (evs ++ trace s) s) s' /\ holds s' h (e :: o :: os)
  /\ (forall b, ~ olo e <= b < ohi e -> load8 (ram s') b = load8 (ram s) b)
  /\ (forall b, mine s h (e :: o :: os) b <-> mine s' h (e :: o :: os) b)
  /\ (forall b, ha_used s' h b <-> ha_used s h b).
Proof.
  intros Hh Ee Hsz Hmac Hlen Hdev. set (dev := devices (net s)) in *.
  destruct (holds_obj s h _ e Hh ltac:(by left)) as [_ [_ Hhalf Hep Helo Hehi]].
  destruct (holds_obj s h _ o Hh ltac:(by right; left)) as [_ [_ _ Hop Holo Hohi]].
  pose proof (ho_apart _ _ _ Hh) as Hap. inversion Hap as [|? ? Hap1 _]; subst.
  apply Forall_cons in Hap1 as [Heo _]. unfold objs_apart in Heo. rewrite Ee in *.
  assert (Hd : dev <> 0 -> one_half dev 48
            /\ (lin dev + 48 <= lin (optr e) \/ lin (optr e) + (14 + osize o) <= lin dev)).
  { intros Hnz. destruct (Hdev Hnz) as [? Hm]. split; [done|].
    apply (apart_of_used (fun b => olo e <= b < ohi e)); [lia| |lia..].
    intros b Hb. destruct (Hm b Hb) as [_ Ho]. apply Ho. by left. }
  destruct (frame_ram_spec (ram s) (optr e) dev (optr o) (osize o) mac) as [Hf Hbytes]; [done|lia|done..|lia| |].
  { intros Hnz. destruct (Hd Hnz). lia. }
  destruct (dev_fields (ram s) (frame_ram (ram s) (optr e) dev (optr o) (osize o) mac) dev) as (Eb & Etx & Esrc).
  { intros Hnz. destruct (Hd Hnz). split; [done|]. eapply agree_on_frame; [exact Hf|lia]. }
  pose proof (fun K => fill_frame_run dev_tx K (optr e) (optr o) (osize o) mac s Htx ltac:(lia)) as Erun.
  cbn zeta in Erun. fold dev in Erun. rewrite Eb, Hbytes in Erun.
  set (m := frame_ram _ _ _ _ _ _) in *. rewrite <- Ee in Hf.
  set (evs := if truthy dev && truthy (dev_tx_ptr (ram s) dev) then _ else _).
  assert (Eevs : forall K : M unit, fill_frame dev_tx (optr e) (optr o) (osize o) mac K s
            = K (set_trace (evs ++ trace s) (set_ram m s))).
  { intros K. rewrite Erun. unfold evs. destruct (truthy dev); [|done]. by rewrite (Etx eq_refl). }
  clear Erun. set (s' := set_trace _ (set_ram m s)) in Eevs.
  destruct (holds_write s h _ e s' Hh ltac:(by left) eq_refl eq_refl Hf) as (Hh' & Hm & Hu).
  exists s', evs. split; [exact Eevs|]. split; [done|]. split; [by destruct s|].
  split; [exact Hh'|]. split; [|by split]. intros b Hb. apply Hf. lia.
Qed.

Lemma send_frame_run s h o os dst :
  holds s h (o :: os) -> net_ok (net s) -> ha_fits (14 + osize o) -> 14 + osize o < 65536 ->
  device_mine s h (o :: os) (devices (net s)) ->
  exists s' h' evs, send_frame dev_tx (optr o) (osize o) dst s = Ret tt s'
  /\ holds s' h' os
  /\ (forall b, ~ ha_used s h b -> ~ olo o <= b < ohi o ->
        ~ ha_used s' h' b /\ load8 (ram s') b = load8 (ram s) b)
  /\ (forall b, mine s h (o :: os) b -> mine s' h' os b)
  /\ (forall b, ha_used s h b \/ olo o <= b < ohi o -> ha_used s' h' b)
  /\ heap_only (set_trace (evs ++ trace s) s) s'
  /\ sent_or_full h [14 + osize o] evs
       (frame_sent (net s) (ram s) dst (load_bytes (Z.to_nat (osize o)) (ram s) (lin (optr o))))
  /\ (ha_room h [14 + osize o] -> h' = ha_push o h).
Proof.
  intros Hh Hnet Hfit Hsz Hdev.
  destruct (holds_obj s h _ o Hh ltac:(by left)) as [_ Hobj].
  pose proof (arp_lookup_view (net s) (next_hop (net s) dst) Hnet) as Harp.
  unfold send_frame, frame_sent. rewrite bind_gets. destruct (arp_lookup _ _) as [i|].
  2:{ rewrite Harp. destruct (holds_free s h o os Hh) as (s' & E & Hon & Hh' & Hk & Hm & Hb).
      exists s', (ha_push o h), []. do 5 (split; [done|]). split; [by destruct s|]. by split; [left|]. }
  destruct Harp as (-> & Hmac & Hlen). set (mac := arp_cache (net s) !!! i) in *.
  destruct (holds_alloc s h _ (14 + osize o) Hh Hfit) as (r & s1 & h1 & E1 & Hon1 & Hk1 & Hr).
  unfold ETH_HEADER_SIZE. rewrite (bind_ret _ _ _ _ _ E1).
  destruct Hr as [(-> & Hno & Hh1 & Hm1 & Hb1)|(e & <- & Ee & Hh1 & Hm1 & Hu1 & Hb1 & Hroom)].
  { cbn [Z.eqb]. destruct (holds_free s1 h1 o os Hh1) as (s' & E & Hon & Hh' & Hk & Hm & Hb).
    exists s', (ha_push o h1), []. split; [exact E|]. split; [done|].
    split; [intros b Hb' ?; destruct (Hk1 b Hb') as [? <-]; by apply Hk|].
    split; [intros b ?; by apply Hm, Hm1|].
    split; [intros b [?|?]; apply Hb; [left; by apply Hb1|by right]|].
    split; [transitivity s1; [destruct s; exact Hon1|done]|]. split; [by right|]. intros Hr. by destruct (Hno []). }
  destruct (holds_obj s1 h1 _ e Hh1 ltac:(by left)) as [_ He].
  rewrite (proj2 (Z.eqb_neq _ 0)) by apply (ob_null _ He).
  destruct (heap_only_vars _ _ Hon1) as [Enet Etr].
  destruct (fill_frame_holds s1 h1 e o os mac) as (s2 & evs & Erun & Eevs & Hon2 & Hh2 & Hk2 & Hm2 & Hu2);
    [done..| |].
  { rewrite Enet. by apply (device_mine_mono _ _ _ _ _ _ _ Hdev). }
  rewrite Erun. destruct (holds_free s2 h1 e _ Hh2) as (s3 & E3 & Hon3 & Hh3 & Hk3 & Hm3 & Hb3).
  rewrite (bind_ret _ _ _ _ _ E3).
  destruct (holds_free s3 _ o os Hh3) as (s4 & E4 & Hon4 & Hh4 & Hk4 & Hm4 & Hb4).
  exists s4, (ha_push o (ha_push e h1)), evs. split; [exact E4|]. split; [exact Hh4|].
  split.
  { intros b Hb Hbo. destruct (Hk1 b Hb) as [Hb0 <-].
    assert (Hbe : ~ olo e <= b < ohi e) by (intros ?; by apply Hb, Hu1).
    rewrite <- (Hk2 b Hbe). rewrite <- Hu2 in Hb0. destruct (Hk3 b Hb0 Hbe) as [Hb' <-]. by apply Hk4. }
  split; [intros b Hb; by apply Hm4, Hm3, Hm2, Hm1|].
  split.
  { intros b [Hb|Hb]; apply Hb4; [left|by right]. apply Hb3. rewrite Hu2. by apply Hb1. }
  split.
  { transitivity s3; [|done]. transitivity s2; [|done]. rewrite Etr in Hon2.
    transitivity (set_trace (evs ++ trace s) s1); [|done]. revert Hon1. unfold heap_only. by intros <-. }
  split.
  - left. rewrite Eevs, Enet.
    destruct (dev_fields (ram s) (ram s1) (devices (net s))) as (Eb & Etx & ->).
    { apply (device_kept _ _ _ _ _ Hdev). intros b Hb. by apply Hk1. }
    rewrite (load_bytes_ext _ (ram s1) (ram s)).
    + rewrite Eb. destruct (truthy (devices (net s))); [|done]. by rewrite (Etx eq_refl).
    + destruct Hobj. intros b Hb. apply Hk1. eapply holds_own; [exact Hh|by left|lia].
  - intros Hr. by rewrite (proj1 (Hroom [] Hr)).
Qed.

(** What a call that sends may do: the client's memory and objects are as they
    were, the variables but for the heap's and [n'] too, and the heap has got back
    every byte it had. *)
Record only_sends (s : kst) (h : heap_view) (os : list obj) (evs : list event) (n' : net_globals)
    (s' : kst) (h' : heap_view) : Prop := {
  qu_holds : holds s' h' os;
  qu_ram : forall b, ~ ha_used s h b -> ~ ha_used s' h' b /\ load8 (ram s') b = load8 (ram s) b;
  qu_mine : forall b, mine s h os b -> mine s' h' os b;
  qu_back : forall b, ha_used s h b -> ha_used s' h' b;
  qu_rest : heap_only (set_trace (evs ++ trace s) (set_net n' s)) s';
}.

Definition next_id (n : net_globals) : net_globals := set_ip_id (u16 (ip_id n + 1)) n.

Lemma net_ok_next_id n : net_ok n -> net_ok (next_id n).
Proof. intros [[] ? ? ?]. split; [by split|done|done|]. apply u16_range. Qed.

Lemma frame_sent_ext n m m' dst packet :
  (devices n <> 0 -> one_half (devices n) 48 /\ agree_on (lin (devices n)) (lin (devices n) + 48) m' m) ->
  frame_sent n m' dst packet = frame_sent n m dst packet.
Proof.
  intros Hd. destruct (dev_fields m m' (devices n) Hd) as (Eb & Etx & Es). unfold frame_sent.
  destruct (arp_view n !! _) as [mac|]; [|done]. rewrite Eb, Es.
  destruct (truthy (devices n)); [|done]. by rewrite (Etx eq_refl).
Qed.

(** Building the packet in the object [o]. *)
Lemma packet_built s h o os dst proto data len K :
  holds s h (o :: os) -> net_ok (net s) -> osize o = 20 + len -> 0 <= len -> 20 + len < 65536 ->
  0 <= proto < 256 -> 0 <= dst < 2 ^ 32 ->
  (forall b, lin data <= b < lin data + len -> ~ olo o <= b < ohi o) ->
  exists s',
  (n ← gets net;
   upd_net (fun n => set_ip_id (u16 (ip_id n + 1)) n);;
   upd_ram (ip_header_fields (optr o) (u16 (IP_HEADER_SIZE + len)) (ip_id n) proto (local_ip n) dst);;
   upd_ram (fun m => memcpy m (lin (optr o + IP_HEADER_SIZE)) (lin data) len);;
   m ← gets ram;
   check ← returned (ip_checksum m (optr o) IP_HEADER_SIZE);
   upd_ram (set_ip_check (optr o) check);;
   (K : M unit)) s = K s'
  /\ holds s' h (o :: os) /\ heap_only (set_net (next_id (net s)) s) s'
  /\ (forall b, ~ olo o <= b < ohi o -> load8 (ram s') b = load8 (ram s) b)
  /\ (forall b, mine s h (o :: os) b <-> mine s' h (o :: os) b)
  /\ (forall b, ha_used s' h b <-> ha_used s h b)
  /\ load_bytes (Z.to_nat (osize o)) (ram s') (lin (optr o))
     = ip_packet (20 + len) (ip_id (net s)) proto (local_ip (net s)) dst
         (load_bytes (Z.to_nat len) (ram s) (lin data)).
Proof.
  intros Hh [_ _ Hloc Hid] Es Hlen Hsz Hp Hd Hdata.
  destruct (holds_obj s h _ o Hh ltac:(by left)) as [_ [_ Hhalf _ Hlo Hhi]]. rewrite Es in *.
  assert (Hhalf20 : one_half (optr o) 20) by (unfold one_half in *; lia).
  assert (Hdis : len = 0 \/ lin data + len <= lin (optr o) \/ lin (optr o) + 20 + len <= lin data).
  { destruct (Z.eqb_spec len 0) as [->|]; [by left|right].
    assert (lin data + len <= olo o \/ ohi o <= lin data); [|lia].
    apply (apart_of_used (fun b => olo o <= b < ohi o)); [done|done|lia..]. }
  destruct (packet_ram (optr o) (20 + len) (ip_id (net s)) proto (local_ip (net s)) dst Hhalf20 Hp
    ltac:(lia) Hid Hloc Hd (ram s) data len Hhalf Hlen Hdis) as (Erun & Hf & Ebytes).
  set (c := internet_checksum _) in *.
  unfold upd_net, modify. rewrite bind_gets. unfold mbind at 1, M_bind at 1.
  rewrite !bind_upd_ram, bind_gets. cbn [ram set_ram set_net].
  unfold IP_HEADER_SIZE. rewrite (u16_small (20 + len)) by lia. rewrite Erun. cbn [returned].
  rewrite bind_mret, bind_upd_ram. cbn [ram set_ram]. rewrite !set_ram_set_ram.
  set (m := set_ip_check _ _ _) in *. eexists. split; [reflexivity|].
  destruct (holds_write s h _ o (set_ram m (set_net (next_id (net s)) s)) Hh ltac:(by left) eq_refl eq_refl)
    as (Hh' & Hm & Hu); [by rewrite Es|].
  split; [exact Hh'|]. split; [by destruct s|]. split; [intros b Hb; apply Hf; lia|].
  split; [exact Hm|]. by split.
Qed.

Lemma ip_send_run s h os dst proto data len :
  holds s h os -> net_ok (net s) -> device_mine s h os (devices (net s)) ->
  0 <= len -> 34 + len < 65536 -> ha_fits (20 + len) -> ha_fits (34 + len) ->
  0 <= proto < 256 -> 0 <= dst < 2 ^ 32 ->
  (forall b, lin data <= b < lin data + len -> ~ ha_used s h b) ->
  exists s' h' evs n', ip_send dev_tx dst proto data len s = Ret tt s'
  /\ only_sends s h os evs n' s' h'
  /\ sent_or_full h [20 + len; 34 + len] evs
       (ip_sent (net s) (ram s) dst proto (load_bytes (Z.to_nat len) (ram s) (lin data)))
  /\ (n' = net s \/ n' = next_id (net s))
  /\ (ha_room h [20 + len; 34 + len] -> n' = next_id (net s) /\ h' = h).
Proof.
  intros Hh Hnet Hdev Hlen Hsz Hf1 Hf2 Hp Hd Hdata. rewrite ip_send_eq. unfold IP_HEADER_SIZE at 1.
  destruct (holds_alloc s h os (20 + len) Hh Hf1) as (r & s1 & h1 & E1 & Hon1 & Hk1 & Hr).
  rewrite (bind_ret _ _ _ _ _ E1).
  destruct Hr as [(-> & Hno & Hh1 & Hm1 & Hb1)|(o & <- & Eo & Hh1 & Hm1 & Hu1 & Hb1 & Hroom)].
  { exists s1, h1, [], (net s). split; [done|]. split; [split; [done..|by destruct s]|].
    split; [right; split; [done|apply Hno]|]. split; [by left|]. intros Hr. by destruct (Hno _ Hr). }
  destruct (holds_obj s1 h1 _ o Hh1 ltac:(by left)) as [_ Ho].
  rewrite (proj2 (Z.eqb_neq _ 0)) by apply (ob_null _ Ho).
  destruct (heap_only_vars _ _ Hon1) as [Enet Etr].
  destruct (packet_built s1 h1 o os dst proto data len (send_frame dev_tx (optr o) (u16 (20 + len)) dst))
    as (s2 & Erun & Hh2 & Hon2 & Hk2 & Hm2 & Hu2 & Ebytes); [done|by rewrite Enet|done|lia..|done|done| |].
  { intros b Hb ?. by apply (Hdata b Hb), Hu1. }
  unfold IP_HEADER_SIZE in *. rewrite Erun. rewrite u16_small, <- Eo by lia.
  destruct (heap_only_vars _ _ Hon2) as [Enet2 Etr2]. cbn [net trace set_net] in Enet2, Etr2.
  rewrite Enet in Enet2. rewrite Etr in Etr2.
  assert (Hk12 : forall b, ~ ha_used s h b -> ~ olo o <= b < ohi o /\ ~ ha_used s2 h1 b
            /\ load8 (ram s2) b = load8 (ram s) b).
  { intros b Hb. assert (Hbo : ~ olo o <= b < ohi o) by (intros ?; by apply Hb, Hu1).
    destruct (Hk1 b Hb) as [Hb0 <-]. rewrite Hu2. split; [done|]. split; [done|]. by apply Hk2. }
  assert (Hdev2 : device_mine s2 h1 (o :: os) (devices (net s2))).
  { rewrite Enet2. apply (device_mine_mono _ _ _ _ _ _ _ Hdev). intros b ?. by apply Hm2, Hm1. }
  destruct (send_frame_run s2 h1 o os dst) as (s3 & h3 & evs & E3 & Hh3 & Hk3 & Hm3 & Hb3 & Hon3 & Hs3 & Hr3);
    [done|..|rewrite Eo; lia|done|].
  { rewrite Enet2. by apply net_ok_next_id. }
  { rewrite Eo. by replace (14 + (20 + len)) with (34 + len) by lia. }
  exists s3, h3, evs, (next_id (net s)). split; [exact E3|].
  rewrite Eo in *. replace (14 + (20 + len)) with (34 + len) in * by lia.
  assert (Esent : frame_sent (net s2) (ram s2) dst (load_bytes (Z.to_nat (20 + len)) (ram s2) (lin (optr o)))
    = ip_sent (net s) (ram s) dst proto (load_bytes (Z.to_nat len) (ram s) (lin data))).
  { rewrite Ebytes, Enet2, Enet. unfold ip_sent. rewrite load_bytes_length, Z2Nat.id by done.
    rewrite (load_bytes_ext _ (ram s1) (ram s)) by (intros b Hb; apply Hk1, Hdata; lia).
    apply (frame_sent_ext (net s)), (device_kept _ _ _ _ _ Hdev). intros b Hb. by apply Hk12. }
  rewrite Esent in Hs3. split; [|split; [|split; [by right|]]].
  - split; [done| | | |].
    + intros b Hb. destruct (Hk12 b Hb) as (? & ? & <-). by apply Hk3.
    + intros b Hb. by apply Hm3, Hm2, Hm1.
    + intros b Hb. apply Hb3. rewrite Hu2. by apply Hb1.
    + etransitivity; [|exact Hon3]. rewrite Etr2. apply set_trace_heap_only.
      etransitivity; [|exact Hon2]. rewrite Enet. by apply set_net_heap_only.
  - destruct Hs3 as [->|[-> Hno]]; [by left|right]. split; [done|]. intros Hr. by apply Hno, (Hroom _ Hr).
  - intros Hr. destruct (Hroom _ Hr) as [<- Hr2]. split; [done|]. by apply Hr3.
Qed.

(** * Sending a payload from an object of its own *)

(** An object of [n] bytes is allocated, filled with [m], sent and released. *)
Lemma send_object_run s h os n dst proto :
  holds s h os -> net_ok (net s) -> device_mine s h os (devices (net s)) ->
  0 <= n -> 34 + n < 65536 -> ha_fits n -> ha_fits (20 + n) -> ha_fits (34 + n) ->
  ha_room h [n; 20 + n; 34 + n] -> 0 <= proto < 256 -> 0 <= dst < 2 ^ 32 ->
  exists o s1, kmalloc n s = Ret (optr o) s1 /\ obj_ok o /\ osize o = n
  /\ (forall b, olo o <= b < ohi o -> ha_used s h b)
  /\ (forall b, ~ ha_used s h b -> load8 (ram s1) b = load8 (ram s) b)
  /\ forall m, only_changes (lin (optr o)) (lin (optr o) + n) (ram s1) m ->
     exists s', (ip_send dev_tx dst proto (optr o) n;; kfree (optr o)) (set_ram m s1) = Ret tt s'
     /\ only_sends s h os (ip_sent (net s) (ram s) dst proto (load_bytes (Z.to_nat n) m (lin (optr o))))
          (next_id (net s)) s' h.
Proof.
  intros Hh Hnet Hdev Hn Hsz Hf0 Hf1 Hf2 Hroom Hp Hd.
  destruct (holds_alloc s h os n Hh Hf0) as (r & s1 & h1 & E1 & Hon1 & Hk1 & Hr).
  destruct Hr as [(_ & Hno & _)|(o & <- & Eo & Hh1 & Hm1 & Hu1 & Hb1 & Hr)]; [by destruct (Hno _ Hroom)|].
  destruct (Hr _ Hroom) as [Hback Hroom1]. destruct (heap_only_vars _ _ Hon1) as [Enet Etr].
  destruct (holds_obj s1 h1 _ o Hh1 ltac:(by left)) as [_ Ho].
  exists o, s1. do 4 (split; [done|]). split; [intros b Hb; by apply Hk1|].
  intros m Hf. rewrite <- Eo in Hf.
  destruct (holds_write s1 h1 _ o (set_ram m s1) Hh1 ltac:(by left) eq_refl eq_refl Hf) as (Hh2 & Hm2 & Hu2).
  set (s2 := set_ram m s1) in *. rewrite Eo in Hf.
  assert (Hk2 : forall b, ~ ha_used s h b -> ~ olo o <= b < ohi o /\ ~ ha_used s2 h1 b
            /\ load8 (ram s2) b = load8 (ram s) b).
  { intros b Hb. assert (Hbo : ~ olo o <= b < ohi o) by (intros ?; by apply Hb, Hu1).
    destruct (Hk1 b Hb) as [Hb0 <-]. rewrite Hu2. do 2 (split; [done|]). apply Hf. destruct Ho. lia. }
  assert (Hdev2 : device_mine s2 h1 (o :: os) (devices (net s2))).
  { change (net s2) with (net s1). rewrite Enet. apply (device_mine_mono _ _ _ _ _ _ _ Hdev).
    intros b ?. by apply Hm2, Hm1. }
  destruct (ip_send_run s2 h1 (o :: os) dst proto (optr o) n)
    as (s3 & h3 & evs & n' & E3 & [Hh3 Hk3 Hm3 Hb3 Hon3] & Hs3 & _ & Hr3); [done| |done..| |].
  { change (net s2) with (net s1). by rewrite Enet. }
  { intros b Hb. eapply holds_own; [exact Hh2|by left|]. destruct Ho. lia. }
  destruct (Hr3 Hroom1) as [-> ->]. destruct Hs3 as [->|[_ ?]]; [|done].
  rewrite (bind_ret _ _ _ _ _ E3). destruct (holds_free s3 h1 o os Hh3) as (s4 & E4 & Hon4 & Hh4 & Hk4 & Hm4 & Hb4).
  exists s4. split; [done|]. rewrite Hback in *. split; [done| | | |].
  - intros b Hb. destruct (Hk2 b Hb) as (? & Hb2 & <-). destruct (Hk3 b Hb2) as [? <-]. by apply Hk4.
  - intros b Hb. by apply Hm4, Hm3, Hm2, Hm1.
  - intros b Hb. apply Hb4. destruct (Hb1 b Hb) as [?|?]; [left; apply Hb3; by rewrite Hu2|by right].
  - etransitivity; [|exact Hon4]. etransitivity; [|exact Hon3].
    change (net s2) with (net s1). change (trace s2) with (trace s1). change (ram s2) with m.
    rewrite Enet, Etr. unfold ip_sent. rewrite (frame_sent_ext (net s) (ram s) m).
    + apply set_trace_heap_only, set_net_heap_only. etransitivity; [exact Hon1|]. by destruct s1.
    + apply (device_kept _ _ _ _ _ Hdev). intros b Hb. by apply Hk2.
Qed.
End run.

(** ** The header, then the payload *)
Lemma fill_packet_run packet header data len s :
  one_half packet (Z.of_nat (length header) + len) -> 0 <= len -> len = 0 \/ data <> 0 ->
  (len = 0 \/ lin data + len <= lin packet \/ lin packet + (Z.of_nat (length header) + len) <= lin data) ->
  fill_packet packet header data len s
  = Ret tt (set_ram (store_bytes (ram s) (lin packet)
      (header ++ load_bytes (Z.to_nat len) (ram s) (lin data))) s).
Proof.
  intros Hh Hlen Hd Hdis. unfold fill_packet. rewrite bind_upd_ram.
  destruct (truthy len) eqn:El.
  - apply truthy_true in El. rewrite (proj2 (truthy_true data)) by (by destruct Hd). cbn [andb]. unfold whenM, upd_ram, modify. cbn [ram set_ram].
    rewrite (lin_shift packet _ _ Hh) by lia. rewrite memcpy_store_bytes by lia.
    rewrite store_bytes_next by lia. rewrite set_ram_set_ram. do 4 f_equal. apply load_bytes_ext.
    eapply agree_on_frame; [apply store_bytes_frame|lia].
  - apply truthy_false in El as ->. cbn [whenM Z.to_nat load_bytes]. by rewrite app_nil_r.
Qed.

(** The datagram and the ICMP message, with the fields in network order. *)
Definition udp_datagram (sport dport : Z) (payload : list Z) : list Z :=
  be16 sport ++ be16 dport ++ be16 (8 + Z.of_nat (length payload)) ++ [0; 0] ++ payload.

Definition icmp_message (check id seq : Z) (payload : list Z) : list Z :=
  [ICMP_ECHOREPLY; 0] ++ le_split 2 check ++ be16 id ++ be16 seq ++ payload.
Definition echo_reply (id seq : Z) (payload : list Z) : list Z :=
  icmp_message (internet_checksum (icmp_message 0 id seq payload)) id seq payload.

Section transport.
Context {HA : HeapAllocator kmalloc kfree}.
Context (dev_tx : Z -> Z -> Z -> M bool) (Htx : transmits dev_tx).

(** What udp_tx and icmp_echo_reply ask for: well-formed variables, three sizes
    that fit and have a free slot, and a payload in the client's memory. *)
Record can_send (s : kst) (h : heap_view) (os : list obj) (dst hl data len : Z) : Prop := {
  cs_holds : holds s h os;
  cs_net : net_ok (net s);
  cs_dev : device_mine s h os (devices (net s));
  cs_len : 0 <= len /\ 0 < hl /\ 34 + (hl + len) < 65536;
  cs_fits : ha_fits (hl + len) /\ ha_fits (20 + (hl + len)) /\ ha_fits (34 + (hl + len));
  cs_room : ha_room h [hl + len; 20 + (hl + len); 34 + (hl + len)];
  cs_dst : 0 <= dst < 2 ^ 32;
  cs_null : len = 0 \/ data <> 0;
  cs_data : forall b, lin data <= b < lin data + len -> ~ ha_used s h b;
}.

(** The object for the packet, filled: what is sent is what it holds. *)
Lemma send_packet_run s h os dst proto data len header bs :
  can_send s h os dst (Z.of_nat (length header)) data len -> 0 <= proto < 256 ->
  let total := Z.of_nat (length header) + len in
  exists o s1 m1, kmalloc total s = Ret (optr o) s1 /\ optr o <> 0 /\ one_half (optr o) total
  /\ m1 = store_bytes (ram s1) (lin (optr o)) (header ++ load_bytes (Z.to_nat len) (ram s) (lin data))
  /\ fill_packet (optr o) header data len s1 = Ret tt (set_ram m1 s1)
  /\ (forall b, ~ ha_used s h b -> load8 m1 b = load8 (ram s) b)
  /\ forall m, only_changes (lin (optr o)) (lin (optr o) + total) (ram s1) m ->
     load_bytes (Z.to_nat total) m (lin (optr o)) = bs ->
     exists s', (ip_send dev_tx dst proto (optr o) total;; kfree (optr o)) (set_ram m s1) = Ret tt s'
     /\ only_sends s h os (ip_sent (net s) (ram s) dst proto bs) (next_id (net s)) s' h.
Proof.
  intros [Hh Hnet Hdev (Hlen & Hhl & Hsz) (Hf1 & Hf2 & Hf3) Hroom Hd Hnull Hdata] Hp total.
  destruct (send_object_run dev_tx Htx s h os total dst proto) as (o & s1 & E & Ho & Eo & Hu & Hk & Hsend);
    [done..|unfold total; lia|done|done|done|done|done|done|done|].
  destruct Ho as [Hnz Hhalf Hpos Hlo Hhi]. rewrite Eo in *. set (payload := load_bytes _ (ram s) _).
  assert (El : length payload = Z.to_nat len) by apply load_bytes_length.
  exists o, s1, (store_bytes (ram s1) (lin (optr o)) (header ++ payload)).
  do 4 (split; [done|]). split; [|split; [|intros m Hf <-; by apply Hsend]].
  - rewrite fill_packet_run; [|done|done|done|].
    + do 4 f_equal. apply load_bytes_ext. intros b Hb. apply Hk, Hdata. lia.
    + destruct (Z.eqb_spec len 0) as [->|]; [by left|right]. fold total.
      assert (lin data + len <= olo o \/ ohi o <= lin data); [|lia].
      apply (apart_of_used (ha_used s h)); [done|done|unfold total in *; lia..].
  - intros b Hb. rewrite <- (Hk b Hb). apply store_bytes_frame. rewrite length_app, El.
    destruct (Z.ltb_spec b (lin (optr o))), (Z.leb_spec (lin (optr o) + total) b); unfold total in *; [lia..|].
    exfalso. apply Hb, Hu. lia.
Qed.

Lemma udp_tx_run s h os dst dport sport data len :
  can_send s h os dst 8 data len -> 0 <= sport < 65536 -> 0 <= dport < 65536 ->
  exists s', udp_tx dev_tx dst dport sport data len s = Ret tt s'
  /\ only_sends s h os (ip_sent (net s) (ram s) dst IP_P_UDP
        (udp_datagram sport dport (load_bytes (Z.to_nat len) (ram s) (lin data)))) (next_id (net s)) s' h.
Proof.
  intros Hc Hsp Hdp. destruct (cs_len _ _ _ _ _ _ _ Hc) as (Hlen & _ & Hsz).
  set (payload := load_bytes (Z.to_nat len) (ram s) (lin data)).
  assert (El : length payload = Z.to_nat len) by apply load_bytes_length.
  set (header := udp_bytes (htons sport) (htons dport) (htons (8 + len)) 0).
  destruct (send_packet_run s h os dst IP_P_UDP data len header (udp_datagram sport dport payload))
    as (o & s1 & m1 & E & _ & Hhalf & -> & Efill & _ & Hsend); [exact Hc|unfold IP_P_UDP; lia|].
  change (Z.of_nat (length header)) with 8 in *. fold payload in Efill.
  unfold udp_tx, UDP_HEADER_SIZE. rewrite (u16_small (8 + len)) by lia.
  rewrite (bind_ret _ _ _ _ _ E), (bind_ret _ _ _ _ _ Efill). apply Hsend.
  - eapply only_changes_weaken; [apply store_bytes_frame|lia|]. rewrite length_app. fold payload.
    rewrite El. change (length header) with 8%nat. lia.
  - fold payload. assert (Ebs : header ++ payload = udp_datagram sport dport payload).
    { unfold header, udp_bytes, udp_datagram. rewrite !htons_bytes by lia. rewrite El, Z2Nat.id by done.
      by rewrite <- !app_assoc. }
    rewrite Ebs. apply load_stored.
    + repeat (apply Forall_app; split); try apply be16_bytes; [repeat constructor; lia|apply load_bytes_range].
    + unfold udp_datagram. rewrite !length_app, El. cbn. lia.
Qed.

(** The sum as icmp_echo_reply computes it is that of ip_checksum. *)
Lemma icmp_sum_run m p len :
  one_half p len -> 0 <= len <= 65535 ->
  exists r, fold_sum FOLD_FUEL
    (if truthy (len .& 1) then u32 (sum_words (Z.to_nat (len / 2)) m p 0 + load8 m (lin (p + 2 * (len / 2))))
     else sum_words (Z.to_nat (len / 2)) m p 0) = Some r
  /\ u16 (Z.lnot r) = internet_checksum (load_bytes (Z.to_nat len) m (lin p)).
Proof.
  intros Hh Hlen. pose proof (ip_checksum_run m p len Hh ltac:(lia)) as E. unfold ip_checksum in E.
  change 1 with (2 ^ 1 - 1). rewrite land_low by lia. change (2 ^ 1) with 2.
  destruct (fold_sum FOLD_FUEL _) as [r|]; [|done]. injection E as E. by exists r.
Qed.

Lemma icmp_echo_reply_run s h os dst id seq data len :
  can_send s h os dst 8 data len -> 0 <= id < 65536 -> 0 <= seq < 65536 ->
  exists s', icmp_echo_reply dev_tx dst id seq data len s = Ret tt s'
  /\ only_sends s h os (ip_sent (net s) (ram s) dst IP_P_ICMP
        (echo_reply id seq (load_bytes (Z.to_nat len) (ram s) (lin data)))) (next_id (net s)) s' h.
Proof.
  intros Hc Hid Hseq. destruct (cs_len _ _ _ _ _ _ _ Hc) as (Hlen & _ & Hsz).
  set (payload := load_bytes (Z.to_nat len) (ram s) (lin data)).
  assert (El : length payload = Z.to_nat len) by apply load_bytes_length.
  set (header := icmp_bytes ICMP_ECHOREPLY 0 0 (htons id) (htons seq)).
  destruct (send_packet_run s h os dst IP_P_ICMP data len header (echo_reply id seq payload))
    as (o & s1 & m1 & E & _ & Hhalf & Em & Efill & _ & Hsend); [exact Hc|unfold IP_P_ICMP; lia|].
  change (Z.of_nat (length header)) with 8 in *. fold payload in Em.
  assert (Ebs : header ++ payload = icmp_message 0 id seq payload).
  { unfold header, icmp_bytes, icmp_message. rewrite !htons_bytes by lia. by rewrite <- !app_assoc. }
  rewrite Ebs in Em.
  assert (Hb : forall c, byte_list (icmp_message c id seq payload)).
  { intros c. unfold icmp_message, ICMP_ECHOREPLY. repeat (apply Forall_app; split); try apply be16_bytes;
      [repeat constructor; lia|apply le_split_bytes|apply load_bytes_range]. }
  assert (Elen : length (icmp_message 0 id seq payload) = Z.to_nat (8 + len)).
  { unfold icmp_message. rewrite !length_app, El. cbn. lia. }
  assert (Em1 : load_bytes (Z.to_nat (8 + len)) m1 (lin (optr o)) = icmp_message 0 id seq payload)
    by (subst m1; by apply load_stored).
  unfold icmp_echo_reply, ICMP_HEADER_SIZE. rewrite (u16_small (8 + len)) by lia.
  rewrite (bind_ret _ _ _ _ _ E), (bind_ret _ _ _ _ _ Efill), bind_gets. cbn [ram set_ram].
  destruct (icmp_sum_run m1 (optr o) (8 + len) Hhalf ltac:(lia)) as (r & Er & Ec).
  rewrite Er. cbn [returned]. rewrite bind_mret, bind_upd_ram. cbn [ram set_ram]. rewrite set_ram_set_ram.
  rewrite Ec, Em1. set (c := internet_checksum _). unfold set_icmp_checksum.
  rewrite (lin_shift (optr o) _ _ Hhalf), store_le_bytes by lia. apply Hsend.
  - apply (only_changes_trans _ _ _ m1); [subst m1|]; (eapply only_changes_weaken; [apply store_bytes_frame|lia|]).
    + rewrite Elen. lia.
    + rewrite le_split_length. lia.
  - subst m1. apply (load_field _ _ _ [ICMP_ECHOREPLY; 0] (le_split 2 0) (le_split 2 c) (be16 id ++ be16 seq ++ payload)).
    + specialize (Hb 0). by apply Forall_app in Hb as [? _].
    + apply le_split_bytes.
    + specialize (Hb 0). apply Forall_app in Hb as [_ Hb]. by apply Forall_app in Hb as [_ ?].
    + done.
    + by rewrite <- Elen.
Qed.
End transport.
