(* ===== verification/SendProps.v ===== *)
(** Properties of sending: ip_send over the heap's contract, and a ping from the
    received frame to the reply on the wire, each with a witness. *)
From S2P Require Import Prelude Machine Globals Strings Pmm PmmProps Frames Kmalloc KmallocFacts KmallocRun Objects KmallocProps.
From S2P Require Import Net NetFacts Tcp TcpFacts NetRx NetProps TcpProps NetSend.

(** C15 ip_send over any heap that meets the contract: the frame that leaves holds
    the hardware address of the next hop, the device's address, an IP header
    whose checksum is that of RFC 1071, and the payload; nothing leaves without
    an entry in the ARP cache or a device.  It always returns, the caller's memory
    and objects are as they were, every byte that was the heap's is the heap's
    again, whether a page was missing or not ([only_sends]), and of the other
    variables only the packet counter has changed.  When no new page is needed the
    heap is the one before the call; otherwise a missing page may keep the frame
    from leaving.  This is for sizes at which the heap has room for the packet and
    the frame ([ha_fits]); the kernel's own puts its header inside the slot, so
    there 20 + len and 34 + len must each be 16 below their size class. *)
Theorem ip_send_sends {HA : HeapAllocator kmalloc kfree} (dev_tx : Z -> Z -> Z -> M bool)
    (s : kst) (h : heap_view) (os : list obj) (dst proto data len : Z) :
  transmits dev_tx -> holds s h os -> net_ok (net s) -> device_mine s h os (devices (net s)) ->
  0 <= len -> 34 + len < 65536 -> ha_fits (20 + len) -> ha_fits (34 + len) ->
  0 <= proto < 256 -> 0 <= dst < 2 ^ 32 ->
  (forall b, lin data <= b < lin data + len -> ~ ha_used s h b) ->
  exists s' h' evs n', ip_send dev_tx dst proto data len s = Ret tt s'
  /\ only_sends s h os evs n' s' h'
  /\ sent_or_full h [20 + len; 34 + len] evs
       (ip_sent (net s) (ram s) dst proto (load_bytes (Z.to_nat len) (ram s) (lin data)))
  /\ (n' = net s \/ n' = next_id (net s))
  /\ (ha_room h [20 + len; 34 + len] -> n' = next_id (net s) /\ h' = h).
Proof. intros Htx. by apply ip_send_run. Qed.

(** What makes a received frame an echo request for this host: an IPv4 frame in
    the client's memory that is as long as its header says, that ip_rx delivers,
    and whose payload is an ICMP echo request of [n] bytes. *)
Record echo_request (net : net_globals) (m : gmap Z Z) (packet len n : Z) : Prop := {
  er_half : one_half packet len;
  er_pos : 0 <= packet;
  er_len : 0 <= n /\ len < 65536;
  er_type : ntohs (eth_type m packet) = ETH_P_IP;
  er_deliver : deliverable net m (packet + 14) = true;
  er_proto : ip_protocol m (packet + 14) = IP_P_ICMP;
  er_total : let ihl := 4 * (ip_ihl_version m (packet + 14) mod 16) in
    ntohs (ip_tot_len m (packet + 14)) = ihl + 8 + n /\ 14 + ihl + 8 + n <= len
    /\ icmp_type m (packet + 14 + ihl) = ICMP_ECHO;
}.

Section ping.
Context {HA : HeapAllocator kmalloc kfree} (dev_tx : Z -> Z -> Z -> M bool) (Htx : transmits dev_tx).
Context (s : kst) (h : heap_view) (os : list obj) (packet len n : Z).
Context (Hreq : echo_request (net s) (ram s) packet len n).
Let ip : Z := packet + 14.
Let ihl : Z := 4 * (ip_ihl_version (ram s) ip mod 16).
Let m0 : gmap Z Z := set_ip_check ip 0 (ram s).

Lemma req_ihl : 20 <= ihl <= 60 /\ 14 + ihl + 8 + n <= len.
Proof.
  destruct Hreq as [_ _ _ _ Hd _ (_ & Hl & _)]. fold ip ihl in Hl.
  unfold deliverable in Hd. fold ip in Hd. apply andb_prop in Hd as [Hd _]. apply andb_prop in Hd as [_ Hd].
  apply Z.leb_le in Hd. split; [|done]. unfold ihl. pose proof (Z.mod_pos_bound (ip_ihl_version (ram s) ip) 16).
  lia.
Qed.

Lemma req_half : one_half ip 20.
Proof. destruct Hreq as [Hh ? ? _ _ _ _]. pose proof req_ihl. unfold ip, one_half in *. lia. Qed.

Lemma req_lin d : 0 <= d < len -> lin (packet + d) = lin packet + d.
Proof. intros. eapply lin_shift; [apply Hreq|done]. Qed.

(** Clearing the checksum changes two bytes of the header. *)
Lemma m0_frame : only_changes (lin packet + 24) (lin packet + 26) (ram s) m0.
Proof.
  destruct Hreq as [_ _ ? _ _ _ _]. pose proof req_ihl. unfold m0, set_ip_check, ip. rewrite <- Z.add_assoc.
  rewrite req_lin by lia. pose proof (store_le_frame 2 (ram s) (lin packet + (14 + 10)) 0) as Hf.
  eapply only_changes_weaken; [exact Hf|lia..].
Qed.

Lemma m0_load k d :
  0 <= d -> d + Z.of_nat k <= 24 \/ 26 <= d -> d + Z.of_nat k <= len -> (0 < k)%nat ->
  load_le k m0 (lin (packet + d)) = load_le k (ram s) (lin (packet + d)).
Proof. intros. rewrite req_lin by lia. apply (load_le_frame k _ _ _ _ _ m0_frame). lia. Qed.

Lemma m0_load8 d : 0 <= d < 24 \/ 26 <= d < len -> load8 m0 (lin (packet + d)) = load8 (ram s) (lin (packet + d)).
Proof.
  intros. destruct Hreq as [_ _ ? _ _ _ _]. pose proof req_ihl. rewrite req_lin by lia. apply m0_frame. lia.
Qed.

(** The way of an echo request through the receive path. *)
Lemma request_run fuel :
  network_rx dev_tx fuel packet len s
  = icmp_echo_reply dev_tx (ntohl (ip_saddr (ram s) ip)) (ntohs (icmp_id (ram s) (ip + ihl)))
      (ntohs (icmp_sequence (ram s) (ip + ihl))) (ip + ihl + 8) n (set_ram m0 s).
Proof.
  destruct Hreq as [_ Hp [? ?] Ht Hd Hpr (Htot & Hl & Hic)]. fold ip in Hd, Hpr, Htot, Hl, Hic.
  cbv zeta in Htot, Hl, Hic. fold ihl in Htot, Hl, Hic. pose proof req_ihl as [Hi _].
  unfold network_rx, ETH_HEADER_SIZE. test_false. rewrite bind_gets, Ht. cbn [Z.eqb].
  rewrite Z.eqb_refl. fold ip. rewrite (ip_rx_run _ _ _ _ _ _ req_half), Hd. fold m0.
  assert (Eip : forall d, ip + d = packet + (14 + d)) by (unfold ip; lia).
  assert (Ev : ip_ihl_version m0 ip = ip_ihl_version (ram s) ip) by (apply (m0_load8 14); lia).
  assert (Epr : ip_protocol m0 ip = ip_protocol (ram s) ip).
  { unfold ip_protocol. rewrite Eip. apply m0_load8. lia. }
  assert (Etot : ip_tot_len m0 ip = ip_tot_len (ram s) ip).
  { unfold ip_tot_len. rewrite Eip. apply (m0_load 2); lia. }
  unfold deliver. rewrite Ev, Epr, Hpr, Etot. cbn [Z.eqb]. rewrite Z.eqb_refl. fold ihl. rewrite Htot.
  replace (ihl + 8 + n - ihl - 8) with n by lia. rewrite (u16_small n) by lia.
  unfold icmp_rx. rewrite bind_gets. cbn [ram set_ram].
  assert (E1 : icmp_type m0 (ip + ihl) = ICMP_ECHO).
  { rewrite <- Hic. unfold icmp_type. rewrite Eip. apply m0_load8. lia. }
  rewrite E1, Z.eqb_refl. cbn [whenM]. unfold ip_saddr, icmp_id, icmp_sequence.
  rewrite <- !(Z.add_assoc ip), !Eip. by rewrite !m0_load by lia.
Qed.
End ping.

(** C8 A ping is answered: when an echo request for this host is received, the way
    to its sender is known, and the heap has slots for the message, the packet and
    the frame, then exactly one frame is sent, to the sender of the request, and
    its ICMP message is the echo reply with the request's identifier, sequence
    number and data and a checksum that verifies.  The three buffers are back in
    their free lists; the only lasting effects are the packet counter and the
    request's cleared checksum field.

    The sizes 8 + n, 28 + n and 42 + n must have room in the heap ([ha_fits]).  On
    the kernel's own they must each be 16 below their size class, which holds for
    n = 60 and not for the 56 and 32 bytes that ping programs send by default:
    the buffers of those overwrite the header of the slot that follows. *)
Theorem ping_answered {HA : HeapAllocator kmalloc kfree} (dev_tx : Z -> Z -> Z -> M bool) (fuel : nat)
    (s : kst) (h : heap_view) (os : list obj) (packet len n : Z) (mac : list Z) :
  transmits dev_tx -> holds s h os -> net_ok (net s) -> device_mine s h os (devices (net s)) ->
  echo_request (net s) (ram s) packet len n ->
  way_to (net s) (ram s) (ntohl (ip_saddr (ram s) (packet + 14))) mac ->
  (forall b, lin packet <= b < lin packet + len -> mine s h os b) ->
  (devices (net s) <> 0 -> lin (devices (net s)) + 48 <= lin packet
                          \/ lin packet + len <= lin (devices (net s))) ->
  ha_fits (8 + n) -> ha_fits (28 + n) -> ha_fits (42 + n) -> ha_room h [8 + n; 28 + n; 42 + n] ->
  let ip := packet + 14 in
  let icmp := ip + 4 * (ip_ihl_version (ram s) ip mod 16) in
  exists s', network_rx dev_tx fuel packet len s = Ret tt s'
  /\ only_sends (set_ram (set_ip_check ip 0 (ram s)) s) h os
       [packet_frame (net s) (ram s) (ntohl (ip_saddr (ram s) ip)) IP_P_ICMP mac
          (echo_reply (ntohs (icmp_id (ram s) icmp)) (ntohs (icmp_sequence (ram s) icmp))
             (load_bytes (Z.to_nat n) (ram s) (lin (icmp + 8))))]
       (next_id (net s)) s' h.
Proof.
  intros Htx Hh Hnet Hdev Hreq Hway Hmine Hapart Hf1 Hf2 Hf3 Hroom ip icmp.
  rewrite <- (ip_sent_way _ _ _ _ _ _ Hway).
  rewrite (request_run dev_tx s packet len n Hreq fuel). fold ip. fold icmp.
  pose proof (er_len _ _ _ _ _ Hreq) as [Hn Hlen]. pose proof (er_pos _ _ _ _ _ Hreq) as Hpos.
  destruct (req_ihl s packet len n Hreq) as [Hi Hl]. fold ip in Hi, Hl.
  pose proof (m0_frame s packet len n Hreq) as Hf. fold ip in Hf. set (m0 := set_ip_check ip 0 (ram s)) in *.
  destruct (holds_client s h os (set_ram m0 s) Hh eq_refl eq_refl) as (Hh0 & Hm0 & Hu0).
  { intros b Hb. apply Hf. destruct (Z.ltb_spec b (lin packet + 24)), (Z.leb_spec (lin packet + 26) b);
      [lia..|]. exfalso. apply Hb, Hmine. lia. }
  assert (Edata : lin (icmp + 8) = lin packet + (14 + 4 * (ip_ihl_version (ram s) ip mod 16) + 8)
                  \/ n = 0).
  { destruct (Z.eqb_spec n 0); [by right|left]. unfold icmp, ip in *. rewrite <- !Z.add_assoc.
    apply (req_lin s packet len n Hreq). lia. }
  destruct (icmp_echo_reply_run dev_tx Htx (set_ram m0 s) h os (ntohl (ip_saddr (ram s) ip))
    (ntohs (icmp_id (ram s) icmp)) (ntohs (icmp_sequence (ram s) icmp)) (icmp + 8) n)
    as (s' & E & Hq); [split; try done| apply bswap16_range..|].
  - apply (device_mine_mono _ _ _ _ _ _ _ Hdev). intros b ?. by apply Hm0.
  - lia.
  - rewrite !Z.add_assoc. by repeat split.
  - by rewrite !Z.add_assoc.
  - apply bswap32_range.
  - right. assert (14 <= ip) by (unfold ip; lia). unfold icmp. lia.
  - intros b Hb. rewrite Hu0. apply Hmine. destruct Edata; lia.
  - exists s'. split; [exact E|]. revert Hq. cbn [net ram set_ram]. unfold ip_sent.
    rewrite (frame_sent_ext (net s) (ram s) m0).
    + destruct Edata as [Edata|En]; [|by rewrite En].
      rewrite (load_bytes_ext (Z.to_nat n) m0 (ram s)); [done|]. eapply agree_on_frame; [exact Hf|lia].
    + intros Hnz. split; [by apply Hdev|]. eapply agree_on_frame; [exact Hf|]. specialize (Hapart Hnz). lia.
Qed.

(** * Segments *)

(** The sequence numbers a segment takes: one for SYN unless it is an answer, one
    for FIN, and its data. *)
Definition seq_len (flags len : Z) : Z :=
  (if truthy (flags .& TCP_SYN) && negb (truthy (flags .& TCP_ACK)) then 1 else 0)
  + (if truthy (flags .& TCP_FIN) then 1 else 0) + len.

Lemma advance_run (b : bool) k p s :
  exists m', whenM b (upd_ram (fun m => set_sk_snd_nxt p (sk_snd_nxt m p + k) m)) s = Ret tt (set_ram m' s)
  /\ only_changes (lin (p + 24)) (lin (p + 24) + 4) (ram s) m'
  /\ sk_snd_nxt m' p = u32 (sk_snd_nxt (ram s) p + if b then k else 0).
Proof.
  destruct b; cbn [whenM].
  - eexists. split; [reflexivity|]. split; [apply (store_le_frame 4)|]. apply load32_store32.
  - exists (ram s). split; [by destruct s|]. split; [apply only_changes_refl|].
    rewrite Z.add_0_r. symmetry. apply u32_small, load32_range.
Qed.

Lemma seq_space_run flags len p s :
  exists m', seq_space flags len p s = Ret tt (set_ram m' s)
  /\ only_changes (lin (p + 24)) (lin (p + 24) + 4) (ram s) m'
  /\ sk_snd_nxt m' p = u32 (sk_snd_nxt (ram s) p + seq_len flags len).
Proof.
  unfold seq_space, seq_len.
  destruct (advance_run (truthy (flags .& TCP_SYN) && negb (truthy (flags .& TCP_ACK))) 1 p s)
    as (m1 & E1 & F1 & V1). rewrite (bind_ret _ _ _ _ _ E1).
  destruct (advance_run (truthy (flags .& TCP_FIN)) 1 p (set_ram m1 s)) as (m2 & E2 & F2 & V2).
  rewrite (bind_ret _ _ _ _ _ E2). rewrite set_ram_set_ram.
  destruct (advance_run (truthy len) len p (set_ram m2 s)) as (m3 & E3 & F3 & V3). rewrite set_ram_set_ram in E3.
  exists m3. split; [exact E3|]. split; [by eapply only_changes_trans, only_changes_trans|].
  rewrite V3. cbn [ram set_ram]. rewrite V2. cbn [ram set_ram]. rewrite V1.
  replace (if truthy len then len else 0) with len
    by (destruct (truthy len) eqn:E; [done|by apply truthy_false in E]).
  unfold u32. rewrite Zplus_mod_idemp_l, <- (Z.add_assoc _ _ len), Zplus_mod_idemp_l. f_equal.
  destruct (truthy (flags .& TCP_SYN) && negb _), (truthy (flags .& TCP_FIN)); lia.
Qed.

Lemma tx_header_bytes m sock flags c : byte_list (tx_header m sock flags c).
Proof.
  rewrite tx_header_split. apply Forall_app. split; [apply tx_prefix_bytes|].
  apply Forall_app. split; apply le_split_bytes.
Qed.

(** C18 tcp_tx over any heap that meets the contract, when the way to the socket's
    peer is known: one segment leaves, in one frame, to the peer.  Its header holds
    the socket's ports, sequence and acknowledgement numbers, its checksum is right
    (over pseudo header, header and data the Internet checksum is 0), and its data
    is the caller's.  The buffers are back in the heap, and in the caller's memory
    only the socket's next sequence number changes: it advances by the sequence
    numbers the segment takes, modulo 2^32.

    The heap needs free slots for the segment, the packet and the frame, and room
    for their sizes 20 + len, 40 + len and 54 + len ([can_send]).  On the kernel's
    own heap each must be 16 below its size class; a segment without data (a bare
    SYN, FIN or ACK) is not: its 20 bytes overwrite 4 of the next slot's header. *)
Theorem tcp_tx_sends {HA : HeapAllocator kmalloc kfree} (dev_tx : Z -> Z -> Z -> M bool)
    (s : kst) (h : heap_view) (os : list obj) (sock flags data len : Z) (mac : list Z) :
  transmits dev_tx -> can_send s h os (sk_remote_addr (ram s) sock) 20 data len ->
  way_to (net s) (ram s) (sk_remote_addr (ram s) sock) mac ->
  sock_ok sock -> (forall b, lin sock <= b < lin sock + SIZEOF_SOCKET -> mine s h os b) -> one_half data len ->
  let m := ram s in
  let payload := load_bytes (Z.to_nat len) m (lin data) in
  exists c s1 m', tcp_tx dev_tx sock flags data len s = Ret tt (set_ram m' s1)
  /\ internet_checksum (pseudo_header (htonl (sk_local_addr m sock)) (htonl (sk_remote_addr m sock)) len
       ++ tx_header m sock flags c ++ payload) = 0
  /\ only_sends s h os
       [packet_frame (net s) m (sk_remote_addr m sock) IP_P_TCP mac (tx_header m sock flags c ++ payload)]
       (next_id (net s)) s1 h
  /\ only_changes (lin sock + 24) (lin sock + 28) (ram s1) m'
  /\ sk_snd_nxt m' sock = u32 (sk_snd_nxt m sock + seq_len flags len).
Proof.
  intros Htx Hc Hway Hsock Hmine Hhalf m payload.
  destruct (cs_len _ _ _ _ _ _ _ Hc) as (Hlen & _ & Hsz).
  destruct (tcp_segment_verifies m sock flags data len Hhalf ltac:(lia)) as (c & Ec & Hck).
  set (header := tx_header m sock flags c).
  destruct (send_packet_run dev_tx Htx s h os (sk_remote_addr m sock) IP_P_TCP data len header (header ++ payload))
    as (o & s1 & m1 & E & Hnz & Ho & Em & Efill & Hk & Hsend); [exact Hc|unfold IP_P_TCP; lia|].
  change (Z.of_nat (length header)) with 20 in *. fold m payload in Em, Hk.
  assert (El : length (header ++ payload) = Z.to_nat (20 + len)).
  { unfold payload. rewrite length_app, load_bytes_length. change (length header) with 20%nat. lia. }
  assert (Hb : byte_list (header ++ payload)).
  { apply Forall_app. split; [apply tx_header_bytes|apply load_bytes_range]. }
  destruct (Hsend m1) as (s2 & E2 & Hq).
  { rewrite Em. eapply only_changes_weaken; [apply store_bytes_frame|lia|]. rewrite El. lia. }
  { rewrite Em. by apply load_stored. }
  destruct (seq_space_run flags len sock s2) as (m' & E3 & Hf3 & Hv3).
  assert (Hs2 : forall d, 0 <= d < SIZEOF_SOCKET -> load8 (ram s2) (lin sock + d) = load8 m (lin sock + d)).
  { intros d Hd. apply (qu_ram _ _ _ _ _ _ _ Hq). apply Hmine. lia. }
  rewrite (sock_lin sock) in Hf3 by (done || (unfold SIZEOF_SOCKET; lia)).
  assert (Eaddr : sk_remote_addr m1 sock = sk_remote_addr m sock).
  { unfold sk_remote_addr. rewrite (sock_lin sock) by (done || (unfold SIZEOF_SOCKET; lia)).
    apply (load_le_ext 4). intros b Hb2. apply Hk, Hmine. unfold SIZEOF_SOCKET. lia. }
  exists c, s2, m'. split; [|split; [done|split; [by rewrite <- (ip_sent_way _ _ _ _ _ _ Hway)|split]]].
  - unfold tcp_tx. rewrite (sock_nonnull sock Hsock), bind_gets. fold m. rewrite Ec. cbn [returned].
    rewrite bind_mret. unfold TCP_HEADER_SIZE. rewrite (u16_small (20 + len)) by lia.
    rewrite (bind_ret _ _ _ _ _ E), (proj2 (Z.eqb_neq _ 0) Hnz). fold header.
    transitivity ((fill_packet (optr o) header data len;;
      m0 ← gets ram; ip_send dev_tx (sk_remote_addr m0 sock) IP_P_TCP (optr o) (20 + len);;
      kfree (optr o);; seq_space flags len sock) s1); [unfold fill_packet; by rewrite bind_assoc|].
    rewrite (bind_ret _ _ _ _ _ Efill), bind_gets. cbn [ram set_ram]. rewrite Eaddr.
    rewrite <- (bind_assoc _ (fun _ => kfree (optr o)) (fun _ => seq_space flags len sock)).
    by rewrite (bind_ret _ _ _ _ _ E2).
  - eapply only_changes_weaken; [exact Hf3|lia..].
  - rewrite Hv3. do 2 f_equal. unfold sk_snd_nxt. rewrite (sock_lin sock) by (done || (unfold SIZEOF_SOCKET; lia)).
    apply (load_le_ext 4). intros b Hb2. replace b with (lin sock + (b - lin sock)) by lia.
    apply Hs2. unfold SIZEOF_SOCKET. lia.
Qed.

(** * A machine with three free slots of 128 bytes, a device and a received ping *)
Module SendExample.
Definition tx (f p n : Z) : M bool :=
  fun s => Ret true (set_trace (EvTx f (load_bytes (Z.to_nat n) (ram s) (lin p)) :: trace s) s).
Definition dev : Z := 0x300000.
Definition sock : Z := 0x302000.
Definition packet : Z := 0x310000.
Definition our_mac : list Z := [2; 0; 0; 0; 0; 1].
Definition peer_mac : list Z := [2; 0; 0; 0; 0; 7].
Definition our_ip : Z := 0xC0A80001.
Definition peer_ip : Z := 0xC0A80007.

(** An echo request of 60 bytes from the peer. *)
Definition request : list Z :=
  eth_frame our_mac peer_mac
    (ip_packet 88 5 IP_P_ICMP peer_ip our_ip
       ([ICMP_ECHO; 0; 0; 0] ++ be16 77 ++ be16 1 ++ replicate 60 42)).

Definition heap0 : kst := KmallocExample.heap_of 3.
Definition fl : list (list Z) := KmallocExample.free_of 3.
Definition mem : gmap Z Z :=
  store_bytes (store_bytes (store32 (store64 (ram heap0) (dev + 24) 0x1234) (sock + 12) peer_ip)
                 dev our_mac) packet request.
Definition vars : net_globals :=
  set_devices dev (set_arp (<[0%nat := peer_mac]> (arp_cache net_initial))
                     (<[0%nat := peer_ip]> (arp_cache_ip net_initial)) 1 net_initial).
Definition s : kst := set_net vars (set_ram mem heap0).

Lemma tx_transmits : transmits tx.
Proof. intros f p n st. by exists true. Qed.

Lemma mem_frame : only_changes dev (packet + 4096) (ram heap0) mem.
Proof.
  set (m0 := store64 (ram heap0) (dev + 24) 0x1234). set (m1 := store32 m0 (sock + 12) peer_ip).
  pose proof (store_le_frame 8 (ram heap0) (dev + 24) 0x1234) as H0. fold m0 in H0.
  pose proof (store_le_frame 4 m0 (sock + 12) peer_ip) as H1. fold m1 in H1.
  pose proof (store_bytes_frame m1 dev our_mac) as H2. set (m2 := store_bytes m1 dev our_mac) in *.
  pose proof (store_bytes_frame m2 packet request) as H3. change (length request) with 102%nat in H3.
  change (length our_mac) with 6%nat in H2. change mem with (store_bytes m2 packet request).
  unfold dev, packet, sock in *. intros b Hb. rewrite H3, H2, H1 by lia. apply H0. lia.
Qed.

Lemma s_holds : holds s fl [] /\ (forall b, dev <= b < packet + 4096 -> mine s fl [] b).
Proof.
  destruct (heap_ok_client heap0 s fl (KmallocExample.heap_of_ok 3 ltac:(lia)) eq_refl eq_refl) as [Hok Hu].
  { intros b Hb. apply mem_frame. destruct (Z.ltb_spec b dev), (Z.leb_spec (packet + 4096) b); [lia..|].
    exfalso. apply (KmallocExample.heap_of_unused 3 ltac:(lia) b); [|done].
    unfold KmallocExample.base, PAGE_SIZE, dev, packet in *. lia. }
  split; [split; [exact Hok|done|constructor]|]. intros b Hb. split; [|by intros o ?%elem_of_nil].
  change (~ heap_used s fl b). rewrite Hu. apply (KmallocExample.heap_of_unused 3 ltac:(lia) b).
  unfold KmallocExample.base, PAGE_SIZE, dev, packet in *. lia.
Qed.

Lemma s_net : net_ok (net s).
Proof.
  assert (Hb : forall l, forallb (fun b => (0 <=? b) && (b <? 256)) l = true -> byte_list l).
  { intros l H. apply Forall_forall. intros b Hb%list_elem_of_In.
    eapply forallb_forall in H; [|exact Hb]. lia. }
  split; [split| |split; [discriminate|done]|split; [discriminate|done]].
  - split; discriminate.
  - done.
  - done.
  - change (NoDup [peer_ip]). apply NoDup_singleton.
  - change (arp_cache (net s)) with (peer_mac :: replicate 255 (replicate 6 0)).
    constructor; [by split; [apply Hb|]|]. apply Forall_replicate. by split; [apply Hb|].
Qed.

Lemma s_device : device_mine s fl [] (devices (net s)).
Proof.
  intros _. split; [left; vm_compute; discriminate|]. intros b Hb. apply s_holds.
  change (devices (net s)) with dev in Hb. change (lin dev) with dev in Hb. unfold dev, packet in *. lia.
Qed.

Lemma s_request : echo_request (net s) (ram s) packet 102 60.
Proof.
  split; [left; vm_compute; discriminate|vm_compute; discriminate|lia|by vm_compute..|].
  split; [by vm_compute|]. split; [vm_compute; discriminate|by vm_compute].
Qed.

Lemma s_way : way_to (net s) (ram s) peer_ip peer_mac.
Proof. split; [by vm_compute|done|by vm_compute]. Qed.

Lemma fits_128 n : 64 < n <= 112 -> fits n /\ is_class_of n 3.
Proof.
  intros Hn. assert (Hc : is_class_of n 3).
  { split; [unfold KMALLOC_NUM_SIZES; lia|]. change (class_size 3) with 128. split; [lia|].
    intros [|[|[|j]]] Hj; [change (class_size 0) with 16|change (class_size 1) with 32
      |change (class_size 2) with 64|]; lia. }
  split; [|done]. split; [lia|]. exists 3%nat. split; [done|]. change (class_size 3) with 128. lia.
Qed.

Lemma room_3 a b c :
  64 < a <= 112 -> 64 < b <= 112 -> 64 < c <= 112 -> room fl [a; b; c].
Proof.
  intros Ha Hb Hc. exists 3%nat. eexists _, _. split; [by apply fits_128|]. split; [reflexivity|].
  exists 3%nat. eexists _, _. split; [by apply fits_128|]. split; [reflexivity|].
  exists 3%nat. eexists _, _. split; [by apply fits_128|]. by split.
Qed.
End SendExample.

Lemma ping_answered_witness :
  exists s', network_rx SendExample.tx 0 SendExample.packet 102 SendExample.s = Ret tt s'
  /\ only_sends (set_ram (set_ip_check (SendExample.packet + 14) 0 (ram SendExample.s)) SendExample.s) SendExample.fl []
       [EvTx 0x1234 (eth_frame SendExample.peer_mac SendExample.our_mac
          (ip_packet 88 0 IP_P_ICMP SendExample.our_ip SendExample.peer_ip (echo_reply 77 1 (replicate 60 42))))]
       (next_id (net SendExample.s)) s' SendExample.fl.
Proof.
  assert (E : ntohl (ip_saddr (ram SendExample.s) (SendExample.packet + 14)) = SendExample.peer_ip
    /\ ip_ihl_version (ram SendExample.s) (SendExample.packet + 14) mod 16 = 5
    /\ ntohs (icmp_id (ram SendExample.s) (SendExample.packet + 14 + 20)) = 77
    /\ ntohs (icmp_sequence (ram SendExample.s) (SendExample.packet + 14 + 20)) = 1
    /\ load_bytes 60 (ram SendExample.s) (lin (SendExample.packet + 14 + 20 + 8)) = replicate 60 42
    /\ EvTx 0x1234 (eth_frame SendExample.peer_mac SendExample.our_mac
         (ip_packet 88 0 IP_P_ICMP SendExample.our_ip SendExample.peer_ip (echo_reply 77 1 (replicate 60 42))))
       = packet_frame (net SendExample.s) (ram SendExample.s) SendExample.peer_ip IP_P_ICMP SendExample.peer_mac
           (echo_reply 77 1 (replicate 60 42)))
    by by vm_compute.
  destruct E as (E1 & E2 & E3 & E4 & E5 & ->). rewrite <- E1, <- E3, <- E4, <- E5.
  replace (SendExample.packet + 14 + 20)
    with (SendExample.packet + 14 + 4 * (ip_ihl_version (ram SendExample.s) (SendExample.packet + 14) mod 16))
    by (rewrite E2; lia).
  apply (ping_answered (HA := kmalloc_heap_allocator) SendExample.tx 0 SendExample.s SendExample.fl [] SendExample.packet 102 60
    SendExample.peer_mac).
  - apply SendExample.tx_transmits.
  - apply SendExample.s_holds.
  - apply SendExample.s_net.
  - apply SendExample.s_device.
  - apply SendExample.s_request.
  - rewrite E1. apply SendExample.s_way.
  - intros b Hb. apply SendExample.s_holds. change (lin SendExample.packet) with SendExample.packet in Hb.
    unfold SendExample.dev, SendExample.packet in *. lia.
  - intros _. left. change (lin (devices (net SendExample.s))) with 0x300000.
    change (lin SendExample.packet) with 0x310000. lia.
  - apply (SendExample.fits_128 68). lia.
  - apply (SendExample.fits_128 88). lia.
  - apply (SendExample.fits_128 102). lia.
  - apply (SendExample.room_3 68 88 102); lia.
Defined.

Lemma ip_send_sends_witness :
  exists s' h' evs n',
  ip_send SendExample.tx SendExample.peer_ip IP_P_UDP SendExample.packet 60 SendExample.s = Ret tt s'
  /\ only_sends SendExample.s SendExample.fl [] evs n' s' h'
  /\ sent_or_full SendExample.fl [80; 94] evs
       (ip_sent (net SendExample.s) (ram SendExample.s) SendExample.peer_ip IP_P_UDP
          (load_bytes 60 (ram SendExample.s) (lin SendExample.packet)))
  /\ (n' = net SendExample.s \/ n' = next_id (net SendExample.s))
  /\ (room SendExample.fl [80; 94] -> n' = next_id (net SendExample.s) /\ h' = SendExample.fl).
Proof.
  apply (ip_send_sends (HA := kmalloc_heap_allocator) SendExample.tx SendExample.s SendExample.fl [] SendExample.peer_ip IP_P_UDP
    SendExample.packet 60).
  - apply SendExample.tx_transmits.
  - apply SendExample.s_holds.
  - apply SendExample.s_net.
  - apply SendExample.s_device.
  - lia.
  - lia.
  - apply (SendExample.fits_128 80). lia.
  - apply (SendExample.fits_128 94). lia.
  - unfold IP_P_UDP. lia.
  - unfold SendExample.peer_ip. lia.
  - intros b Hb. change (lin SendExample.packet) with SendExample.packet in Hb.
    apply SendExample.s_holds. unfold SendExample.dev, SendExample.packet in *. lia.
Defined.

Lemma tcp_tx_sends_witness :
  let m := ram SendExample.s in
  let payload := load_bytes (Z.to_nat 50) m (lin SendExample.packet) in
  exists c s1 m',
  tcp_tx SendExample.tx SendExample.sock TCP_ACK SendExample.packet 50 SendExample.s = Ret tt (set_ram m' s1)
  /\ internet_checksum (pseudo_header (htonl (sk_local_addr m SendExample.sock))
       (htonl (sk_remote_addr m SendExample.sock)) 50 ++ tx_header m SendExample.sock TCP_ACK c ++ payload) = 0
  /\ only_sends SendExample.s SendExample.fl []
       [packet_frame (net SendExample.s) m (sk_remote_addr m SendExample.sock) IP_P_TCP SendExample.peer_mac
          (tx_header m SendExample.sock TCP_ACK c ++ payload)]
       (next_id (net SendExample.s)) s1 SendExample.fl
  /\ only_changes (lin SendExample.sock + 24) (lin SendExample.sock + 28) (ram s1) m'
  /\ sk_snd_nxt m' SendExample.sock = u32 (sk_snd_nxt m SendExample.sock + seq_len TCP_ACK 50).
Proof.
  assert (Hm : forall a n, SendExample.dev <= a -> a + n <= SendExample.packet + 4096 ->
    forall b, a <= b < a + n -> mine SendExample.s SendExample.fl [] b)
    by (intros a n ? ? b Hb; apply SendExample.s_holds; lia).
  apply (tcp_tx_sends (HA := kmalloc_heap_allocator) SendExample.tx SendExample.s SendExample.fl []
    SendExample.sock TCP_ACK SendExample.packet 50 SendExample.peer_mac).
  - apply SendExample.tx_transmits.
  - split.
    + apply SendExample.s_holds.
    + apply SendExample.s_net.
    + apply SendExample.s_device.
    + lia.
    + split; [apply (SendExample.fits_128 70); lia|].
      split; [apply (SendExample.fits_128 90)|apply (SendExample.fits_128 104)]; lia.
    + apply (SendExample.room_3 70 90 104); lia.
    + apply load32_range.
    + by right.
    + intros b Hb. apply (Hm SendExample.packet 50); [by vm_compute|by vm_compute|exact Hb].
  - split; [by vm_compute|done|by vm_compute].
  - split; [split; reflexivity|left; by vm_compute].
  - apply (Hm SendExample.sock SIZEOF_SOCKET); by vm_compute.
  - left. by vm_compute.
Defined.
