(* ===== verification/ArpProps.v ===== *)
(** From a received ARP reply to a frame sent to the address it announced. *)
From S2P Require Import Prelude Machine Globals Strings Pmm PmmProps Frames Kmalloc KmallocFacts KmallocRun Objects KmallocProps.
From S2P Require Import Net NetFacts Tcp NetRx NetProps NetSend SendProps.

(** An ARP reply in the client's memory: 14 bytes of Ethernet header, 28 of ARP. *)
Record arp_reply (m : gmap Z Z) (packet len : Z) : Prop := {
  ar_len : 14 <= len;
  ar_pos : 0 <= packet;
  ar_type : ntohs (eth_type m packet) = ETH_P_ARP;
  ar_opcode : ntohs (arp_opcode m (packet + 14)) = ARP_OP_REPLY;
}.
Definition reply_ip (m : gmap Z Z) (packet : Z) : Z := ntohl (arp_sender_ip m (packet + 14)).
Definition reply_mac (m : gmap Z Z) (packet : Z) : list Z :=
  load_bytes 6 m (lin (arp_sender_mac (packet + 14))).

(** Receiving it enters it in the cache, when there is room. *)
Lemma arp_reply_run dev_tx fuel s packet len :
  net_ok (net s) -> arp_reply (ram s) packet len ->
  is_Some (arp_view (net s) !! reply_ip (ram s) packet) \/ arp_cache_count (net s) < 256 ->
  exists macs ips k, let n' := set_arp macs ips k (net s) in
    network_rx dev_tx fuel packet len s = Ret tt (set_net n' s) /\ net_ok n'
    /\ arp_view n' = <[reply_ip (ram s) packet := reply_mac (ram s) packet]> (arp_view (net s)).
Proof.
  intros [Hn Hmac ? ?] [Hl Hp Ht Ho] Hroom.
  destruct (arp_add_run s (reply_ip (ram s) packet) (arp_sender_mac (packet + 14)) Hn)
    as (macs & ips & k & E & Hok & Hall & Hv).
  rewrite decide_True in Hv by done. exists macs, ips, k. cbv zeta. split; [|split; [split|]]; try done.
  - unfold network_rx, ETH_HEADER_SIZE. test_false. rewrite bind_gets. cbv zeta. rewrite Ht.
    change (ETH_P_ARP =? ETH_P_IP) with false. rewrite Z.eqb_refl. cbn [whenM]. unfold arp_rx.
    rewrite (proj2 (Z.eqb_neq (packet + 14) 0)) by lia. rewrite bind_gets, Ho.
    change (ARP_OP_REPLY =? ARP_OP_REQUEST) with false. rewrite Z.eqb_refl. exact E.
  - apply Hall; [|done]. split; [apply load_bytes_range|apply load_bytes_length].
Qed.

(** With room in the heap and a device, what ip_send transmits is determined. *)
Section exchange.
Context {HA : HeapAllocator kmalloc kfree} (dev_tx : Z -> Z -> Z -> M bool) (Htx : transmits dev_tx).

Lemma ip_send_room s h os dst proto data len :
  holds s h os -> net_ok (net s) -> device_mine s h os (devices (net s)) ->
  0 <= len -> 34 + len < 65536 -> ha_fits (20 + len) -> ha_fits (34 + len) ->
  0 <= proto < 256 -> 0 <= dst < 2 ^ 32 ->
  (forall b, lin data <= b < lin data + len -> ~ ha_used s h b) ->
  ha_room h [20 + len; 34 + len] ->
  exists s', ip_send dev_tx dst proto data len s = Ret tt s'
  /\ only_sends s h os (ip_sent (net s) (ram s) dst proto (load_bytes (Z.to_nat len) (ram s) (lin data)))
       (next_id (net s)) s' h.
Proof.
  intros Hh Hn Hd Hl Hs Hf1 Hf2 Hp Hdst Hdata Hr.
  destruct (ip_send_run dev_tx Htx s h os dst proto data len)
    as (s' & h' & evs & n' & E & Hon & Hev & _ & Hroom); [done..|].
  destruct (Hroom Hr) as [-> ->]. destruct Hev as [->|[_ Hno]]; [by exists s'|by destruct (Hno Hr)].
Qed.
End exchange.

(** C29 From silence to a frame: while the ARP cache has no entry for the next hop
    of a destination, ip_send transmits nothing, not even a request; after
    network_rx has been given an ARP reply of that host (with room in the
    cache), the same call transmits one frame, addressed to the hardware address
    the reply announced, and the heap is as before.  There is a device, and the
    heap has free slots with room for the packet and the frame. *)
Theorem arp_reply_reaches {HA : HeapAllocator kmalloc kfree} (dev_tx : Z -> Z -> Z -> M bool) (fuel : nat)
    (s : kst) (h : heap_view) (os : list obj) (packet plen dst proto data len : Z) :
  let dev := devices (net s) in
  let payload := load_bytes (Z.to_nat len) (ram s) (lin data) in
  transmits dev_tx -> holds s h os -> net_ok (net s) -> device_mine s h os dev ->
  dev <> 0 -> dev_tx_ptr (ram s) dev <> 0 ->
  arp_reply (ram s) packet plen -> next_hop (net s) dst = reply_ip (ram s) packet ->
  arp_view (net s) !! reply_ip (ram s) packet = None -> arp_cache_count (net s) < 256 ->
  0 <= len -> 34 + len < 65536 -> ha_fits (20 + len) -> ha_fits (34 + len) ->
  0 <= proto < 256 -> 0 <= dst < 2 ^ 32 ->
  (forall b, lin data <= b < lin data + len -> ~ ha_used s h b) ->
  ha_room h [20 + len; 34 + len] ->
  (exists s0, ip_send dev_tx dst proto data len s = Ret tt s0 /\ trace s0 = trace s)
  /\ exists s1 s2, network_rx dev_tx fuel packet plen s = Ret tt s1 /\ ram s1 = ram s /\ trace s1 = trace s
     /\ ip_send dev_tx dst proto data len s1 = Ret tt s2
     /\ only_sends s1 h os
          [EvTx (dev_tx_ptr (ram s) dev)
             (eth_frame (reply_mac (ram s) packet) (src_mac (ram s) dev)
                (ip_packet (20 + len) (ip_id (net s)) proto (local_ip (net s)) dst payload))]
          (next_id (net s1)) s2 h.
Proof.
  intros dev payload Htx Hh Hn Hd Hdev Hptr Hreply Hhop Hnone Hcount Hl Hs Hf1 Hf2 Hp Hdst Hdata Hr.
  assert (El : Z.of_nat (length payload) = len) by (unfold payload; rewrite load_bytes_length; lia).
  split.
  - destruct (ip_send_room dev_tx Htx s h os dst proto data len) as (s0 & E & Hon); [done..|].
    exists s0. split; [done|]. pose proof (qu_rest _ _ _ _ _ _ _ Hon) as Hrest.
    unfold ip_sent, frame_sent in Hrest. rewrite Hhop, Hnone in Hrest. apply (heap_only_vars _ _ Hrest).
  - destruct (arp_reply_run dev_tx fuel s packet plen Hn Hreply) as (macs & ips & k & E & Hn1 & Hv); [by right|].
    set (n1 := set_arp macs ips k (net s)) in *.
    destruct (holds_client s h os (set_net n1 s) Hh eq_refl eq_refl) as (Hh1 & Hm1 & Hu1); [intros b _; reflexivity|].
    destruct (ip_send_room dev_tx Htx (set_net n1 s) h os dst proto data len) as (s2 & E2 & Hon);
      [exact Hh1|exact Hn1| |done..| |exact Hr|].
    { apply (device_mine_mono _ _ _ _ _ _ _ Hd). intros b ?. by apply Hm1. }
    { intros b Hb. rewrite Hu1. by apply Hdata. }
    exists (set_net n1 s), s2. do 4 (split; [done|]).
    change (net (set_net n1 s)) with n1 in Hon. change (ram (set_net n1 s)) with (ram s) in Hon. fold payload in Hon.
    unfold ip_sent, frame_sent in Hon. rewrite El, Hv in Hon.
    change (next_hop n1 dst) with (next_hop (net s) dst) in Hon. rewrite Hhop, lookup_insert_eq in Hon.
    change (devices n1) with dev in Hon. rewrite (proj2 (truthy_true _) Hdev), (proj2 (truthy_true _) Hptr) in Hon.
    exact Hon.
Qed.

Module ArpExample.
(** The host of SendExample with an empty cache; the peer's ARP reply in the
    packet buffer. *)
Definition reply : list Z :=
  SendExample.our_mac ++ SendExample.peer_mac ++ be16 ETH_P_ARP
  ++ be16 1 ++ be16 ETH_P_IP ++ [6; 4] ++ be16 ARP_OP_REPLY
  ++ SendExample.peer_mac ++ be32 SendExample.peer_ip ++ SendExample.our_mac ++ be32 SendExample.our_ip.
Definition s : kst :=
  set_net (set_devices SendExample.dev net_initial)
    (set_ram (store_bytes SendExample.mem SendExample.packet reply) SendExample.s).

Lemma reply_holds :
  holds s SendExample.fl []
  /\ (forall b, SendExample.dev <= b < SendExample.packet + 4096 -> mine s SendExample.fl [] b).
Proof.
  destruct SendExample.s_holds as [Hh Hm].
  destruct (holds_client (HA := kmalloc_heap_allocator) SendExample.s SendExample.fl [] s Hh eq_refl eq_refl) as (Hh' & Hm' & _).
  - intros b Hb. pose proof (store_bytes_frame SendExample.mem SendExample.packet reply) as Hf.
    change (length reply) with 42%nat in Hf. apply Hf.
    destruct (Z.ltb_spec b SendExample.packet); [by left|]. destruct (Z.leb_spec (SendExample.packet + 42) b); [by right|].
    exfalso. apply Hb, Hm. unfold SendExample.dev, SendExample.packet in *. lia.
  - split; [done|]. intros b Hb. by apply Hm', Hm.
Qed.

Lemma room_2 a b : 64 < a <= 112 -> 64 < b <= 112 -> room SendExample.fl [a; b].
Proof.
  intros Ha Hb. exists 3%nat. eexists _, _. split; [by apply SendExample.fits_128|]. split; [reflexivity|].
  exists 3%nat. eexists _, _. split; [by apply SendExample.fits_128|]. by split.
Qed.

Lemma empty_net : net_ok (net s).
Proof.
  split; [by destruct net_initial_arp; split| |split; [discriminate|done]..].
  apply Forall_replicate. split; [|done]. repeat constructor; discriminate.
Qed.
End ArpExample.

Lemma arp_reply_reaches_witness :
  (exists s0, ip_send SendExample.tx SendExample.peer_ip IP_P_UDP SendExample.packet 60 ArpExample.s = Ret tt s0
     /\ trace s0 = trace ArpExample.s)
  /\ exists s1 s2, network_rx SendExample.tx 0 SendExample.packet 42 ArpExample.s = Ret tt s1
     /\ ram s1 = ram ArpExample.s /\ trace s1 = trace ArpExample.s
     /\ ip_send SendExample.tx SendExample.peer_ip IP_P_UDP SendExample.packet 60 s1 = Ret tt s2
     /\ only_sends s1 SendExample.fl []
          [EvTx 0x1234
             (eth_frame SendExample.peer_mac SendExample.our_mac
                (ip_packet 80 0 IP_P_UDP SendExample.our_ip SendExample.peer_ip
                   (load_bytes 60 (ram ArpExample.s) (lin SendExample.packet))))]
          (next_id (net s1)) s2 SendExample.fl.
Proof.
  assert (Em : reply_mac (ram ArpExample.s) SendExample.packet = SendExample.peer_mac) by by vm_compute.
  assert (Es : src_mac (ram ArpExample.s) SendExample.dev = SendExample.our_mac) by by vm_compute.
  assert (Ep : dev_tx_ptr (ram ArpExample.s) SendExample.dev = 0x1234) by by vm_compute.
  rewrite <- Em, <- Es, <- Ep.
  apply (arp_reply_reaches (HA := kmalloc_heap_allocator) SendExample.tx 0 ArpExample.s SendExample.fl []
    SendExample.packet 42 SendExample.peer_ip IP_P_UDP SendExample.packet 60).
  - apply SendExample.tx_transmits.
  - apply ArpExample.reply_holds.
  - apply ArpExample.empty_net.
  - intros _. split; [left; vm_compute; discriminate|]. intros b Hb. apply ArpExample.reply_holds.
    change (lin (devices (net ArpExample.s))) with SendExample.dev in Hb.
    unfold SendExample.dev, SendExample.packet in *. lia.
  - discriminate.
  - change (devices (net ArpExample.s)) with SendExample.dev. rewrite Ep. discriminate.
  - split; [lia|by vm_compute..].
  - by vm_compute.
  - by vm_compute.
  - by vm_compute.
  - lia.
  - lia.
  - apply (SendExample.fits_128 80). lia.
  - apply (SendExample.fits_128 94). lia.
  - unfold IP_P_UDP. lia.
  - unfold SendExample.peer_ip. lia.
  - intros b Hb. change (lin SendExample.packet) with SendExample.packet in Hb.
    apply ArpExample.reply_holds. unfold SendExample.dev, SendExample.packet in *. lia.
  - apply (ArpExample.room_2 80 94); lia.
Defined.
