(* ===== verification/SocketProps.v ===== *)
(** tcp_socket and the heap: a socket is as large as its size class, so its last
    fields lie on the header of the next slot. *)
From S2P Require Import Prelude Machine Globals Strings Pmm PmmProps Frames Kmalloc KmallocFacts KmallocRun KmallocProps.
From S2P Require Import Vmm Sched Net NetFacts Tcp NetSend SendProps.

(** Two allocations of class [i]: the head of the free list, then whatever its
    link holds. *)
Lemma two_pops s i c b v :
  kmalloc_initialized (heap s) = true -> kmalloc_lock (heap s) = 0 ->
  slab_size <$> slabs (heap s) = slab_sizes -> (i < KMALLOC_NUM_SIZES)%nat ->
  slabs (heap s) !! i = Some c -> free_list c = PHYS_TO_VIRT b -> 0 <= b < 2 ^ 47 ->
  load64 (ram s) b = v -> v <> 0 ->
  exists s2, kmalloc (class_size i) s = Ret (PHYS_TO_VIRT b + 16) s2
  /\ exists s3, kmalloc (class_size i) s2 = Ret (v + 16) s3.
Proof.
  intros Hi Hlock Hsizes Hcl Hc Hfl Hb Hlink Hv.
  pose proof (class_of_class_size _ i Hsizes Hcl) as Hidx.
  assert (Hsz : 0 < class_size i <= KMALLOC_MAX_SIZE).
  { destruct (class_size_range i Hcl). unfold KMALLOC_MAX_SIZE. lia. }
  set (s2 := pop_state (locked s) i c). exists s2. rewrite <- Hfl. split.
  { apply (kmalloc_pop_raw s); try done. rewrite Hfl. by apply PHYS_TO_VIRT_nonnull. }
  assert (Elink : hdr_next (ram (locked s)) (free_list c) = v).
  { rewrite <- Hlink, Hfl. unfold hdr_next. by rewrite lin_PHYS_TO_VIRT by lia. }
  set (c2 := inc_allocations (set_free_list v c)).
  assert (Hc2 : slabs (heap s2) !! i = Some c2).
  { unfold s2, pop_state. rewrite Elink. apply list_lookup_insert_eq. by eapply lookup_lt_Some. }
  eexists. apply (kmalloc_pop_raw s2 (class_size i) i c2 Hi eq_refl Hsz); [|exact Hc2|done].
  apply (class_of_class_size _ i); [|done].
  rewrite <- Hsizes. unfold s2, pop_state. cbn [heap slabs set_ram set_heap].
  rewrite list_fmap_insert. apply list_insert_id. by rewrite list_lookup_fmap, Hc.
Qed.

(** * Sockets *)
Section socket.
Context (a : Z) (Ha : 0 <= a) (Ha2 : a + 256 <= 2 ^ 47).
Let sock : Z := PHYS_TO_VIRT a + 16.

Lemma socket_field d : 0 <= d < 128 -> lin (sock + d) = a + 16 + d.
Proof. intros. unfold sock. rewrite <- Z.add_assoc, lin_PHYS_add by lia. lia. Qed.

(** The socket is in two slots the client owns; the heap's variables are [hg],
    and the header of the second slot links to [v]. *)
Record in_socket (hg : heap_globals) (v : Z) (s : kst) : Prop := {
  is_frames : frames_ok s;
  is_heap : heap s = hg;
  is_own : forall b, a <= b < a + 256 -> ~ reserved s b;
  is_link : load64 (ram s) (a + 128) = v;
}.

(** A store to the socket's first 112 bytes; one to the bytes of the link. *)
Lemma socket_store hg v k d x :
  0 <= d -> (0 < k)%nat -> d + Z.of_nat k <= 112 ->
  runs (in_socket hg v) (upd_ram (fun m => store_le k m (lin (sock + d)) x)) (fun _ => in_socket hg v).
Proof.
  intros. apply runs_modify. intros s [Hf Hh Ho Hl].
  pose proof (store_le_frame k (ram s) (a + 16 + d) x) as Hm. rewrite socket_field by lia.
  destruct (fa_write (FA := pmm_frame_allocator) s _ _ _ Hf Hm) as [Hf' Hr]; [intros b Hb; apply Ho; lia|].
  split; [done|done|intros b Hb; rewrite Hr; by apply Ho|].
  cbn [ram set_ram]. rewrite <- Hl. apply (load_le_frame 8 _ _ _ _ _ Hm). lia.
Qed.

Lemma socket_rto hg x :
  0 <= x < 2 ^ 32 ->
  runs (in_socket hg 0) (upd_ram (set_sk_rto sock x)) (fun _ => in_socket hg x).
Proof.
  intros Hx. apply runs_modify. intros s [Hf Hh Ho Hl]. unfold set_sk_rto. rewrite socket_field by lia.
  pose proof (store_le_frame 4 (ram s) (a + 16 + 112) x) as Hm.
  destruct (fa_write (FA := pmm_frame_allocator) s _ _ _ Hf Hm) as [Hf' Hr]; [intros b Hb; apply Ho; lia|].
  split; [done|done|intros b Hb; rewrite Hr; by apply Ho|]. cbn [ram set_ram].
  replace (a + 16 + 112) with (a + 128) in * by lia.
  pose proof (load_le_range 4 (ram s) (a + 128)). pose proof (load_le_range 4 (ram s) (a + 128 + 4)).
  rewrite (load_le_app 4 4) in Hl |- *. change (256 ^ Z.of_nat 4) with (2 ^ 32) in *. change (Z.of_nat 4) with 4 in *.
  rewrite (load_le_frame 4 _ _ _ _ (a + 128 + 4) Hm) by lia.
  rewrite load32_store32, u32_small by done. lia.
Qed.

Lemma socket_kmalloc hg v size :
  kmalloc_initialized hg = true -> KMALLOC_MAX_SIZE < size < 2 ^ 64 ->
  runs (in_socket hg v) (kmalloc size) (fun _ => in_socket hg v).
Proof.
  intros Hi Hsz s [Hf Hh Ho Hl]. rewrite <- Hh in Hi.
  destruct (kmalloc_large_run (FA := pmm_frame_allocator) s size Hf Hi Hsz) as (r & s' & E & Hf' & Hrest & Hr).
  exists r, s'. split; [done|]. pose proof (same_rest_heap _ _ Hrest) as Hheap.
  destruct Hr as [[_ ->]|(p & n & _ & Hfr & _)]; [by split|].
  split; [done|by rewrite Hheap| |].
  - intros b Hb. apply (fr_other _ _ _ _ _ Hfr b), Ho, Hb.
  - rewrite <- Hl. apply (load_le_ext 8). intros b Hb. apply (fr_other _ _ _ _ _ Hfr b), Ho. lia.
Qed.

Lemma socket_net hg v f : runs (in_socket hg v) (upd_net f) (fun _ => in_socket hg v).
Proof. apply runs_modify. intros s [Hf Hh Ho Hl]. split; [|done..]. by apply (frames_ok_frame s). Qed.

(** The stores of tcp_socket after its allocation. *)
Lemma socket_init hg :
  kmalloc_initialized hg = true ->
  runs (in_socket hg 0)
   (upd_ram (set_sk_type sock SOCK_STREAM);;
    upd_ram (set_sk_state sock TCP_CLOSED);;
    upd_ram (set_sk_window sock TCP_RX_BUF_SIZE);;
    rx ← kmalloc TCP_RX_BUF_SIZE;
    upd_ram (set_sk_rx_buf sock rx);;
    tx ← kmalloc TCP_TX_BUF_SIZE;
    upd_ram (set_sk_tx_buf sock tx);;
    upd_ram (set_sk_cwnd sock (TCP_MSS * 2));;
    upd_ram (set_sk_ssthresh sock 65535);;
    upd_ram (set_sk_rto sock 100);;
    upd_ram (set_sk_srtt sock 0);;
    upd_ram (set_sk_rttvar sock 0);;
    n ← gets net;
    upd_ram (set_sk_next sock (sockets n));;
    upd_net (set_sockets sock);;
    mret sock)
   (fun r s => r = sock /\ in_socket hg 100 s).
Proof.
  intros Hi. assert (Hbuf : KMALLOC_MAX_SIZE < 65536 < 2 ^ 64) by (unfold KMALLOC_MAX_SIZE; lia).
  assert (E0 : lin sock = lin (sock + 0)) by (f_equal; lia).
  eapply runs_bind; [unfold set_sk_type; rewrite E0; apply (socket_store hg 0 4 0); lia|cbv beta; intros _].
  eapply runs_bind; [apply (socket_store hg 0 1 18); lia|cbv beta; intros _].
  eapply runs_bind; [apply (socket_store hg 0 2 32); lia|cbv beta; intros _].
  eapply runs_bind; [by apply socket_kmalloc|cbv beta; intros rx].
  eapply runs_bind; [apply (socket_store hg 0 8 40); lia|cbv beta; intros _].
  eapply runs_bind; [by apply socket_kmalloc|cbv beta; intros tx].
  eapply runs_bind; [apply (socket_store hg 0 8 48); lia|cbv beta; intros _].
  eapply runs_bind; [apply (socket_store hg 0 4 96); lia|cbv beta; intros _].
  eapply runs_bind; [apply (socket_store hg 0 4 100); lia|cbv beta; intros _].
  eapply runs_bind; [apply socket_rto; lia|cbv beta; intros _].
  eapply runs_bind; [apply (socket_store hg 100 4 104); lia|cbv beta; intros _].
  eapply runs_bind; [apply (socket_store hg 100 4 108); lia|cbv beta; intros _].
  eapply runs_bind; [apply runs_gets|cbv beta; intros n].
  eapply runs_bind; [apply (socket_store hg 100 8 72); lia|cbv beta; intros _].
  eapply runs_bind; [apply socket_net|cbv beta; intros _].
  by apply runs_ret.
Qed.
End socket.

(** The socket after kzalloc: two slots of the client, and a link of 0. *)
Lemma kzalloc_socket s fl a l :
  heap_ok s fl -> fl !! 3%nat = Some (a :: (a + 128) :: l) ->
  exists s1 c, kzalloc SIZEOF_SOCKET s = Ret (PHYS_TO_VIRT a + 16) s1 /\ in_socket a (heap s1) 0 s1
  /\ kmalloc_initialized (heap s1) = true /\ kmalloc_lock (heap s1) = 0
  /\ slab_size <$> slabs (heap s1) = slab_sizes
  /\ slabs (heap s1) !! 3%nat = Some c /\ free_list c = PHYS_TO_VIRT (a + 128)
  /\ 0 <= a /\ a + 256 <= 2 ^ 47.
Proof.
  intros Hok Hl. assert (Hlt : (3 < length (slabs (heap s)))%nat).
  { rewrite <- (length_fmap slab_size), (hi_sizes _ _ (proj1 Hok)). change (length slab_sizes) with 8%nat. lia. }
  pose proof (class_of_class_size _ 3 (hi_sizes _ _ (proj1 Hok)) ltac:(unfold KMALLOC_NUM_SIZES; lia)) as Hidx.
  destruct (kmalloc_pop s fl SIZEOF_SOCKET 3 a _ Hok ltac:(unfold SIZEOF_SOCKET, KMALLOC_MAX_SIZE; lia) Hidx Hl)
    as (s1 & E & [[Hs1 Hlock] Hown _ _ _ _ [Hr1 Hr2] _]). change (class_size 3) with 128 in *.
  destruct (heap_slab s1 _ 3 Hs1 ltac:(unfold KMALLOC_NUM_SIZES; lia)) as (c & Hc & _).
  assert (Hl1 : <[3%nat := (a + 128) :: l]> fl !! 3%nat = Some ((a + 128) :: l)).
  { apply list_lookup_insert_eq. by eapply lookup_lt_Some. }
  destruct (hi_chain _ _ Hs1 _ _ _ Hc Hl1) as [Ec _].
  destruct (hi_slot _ _ Hs1 3 (a + 128)) as (? & Hr3 & Hown2); [by eexists; split; [exact Hl1|left]|].
  change (class_size 3) with 128 in *.
  assert (Hun : forall b, a <= b < a + 256 -> ~ reserved s1 b).
  { intros b Hb. destruct (Z.ltb_spec b (a + 128)); [|apply Hown2; lia].
    intros ?. apply (proj2 (Hown b ltac:(lia))). by left. }
  pose proof (memset_frame (ram s1) (a + 16) 0 128) as Hm.
  destruct (fa_write (FA := pmm_frame_allocator) s1 _ _ _ (hi_frames _ _ Hs1) Hm) as [Hf Hres].
  { intros b Hb. apply Hun. lia. }
  exists (set_ram (memset (ram s1) (a + 16) 0 128) s1), c.
  split; [by apply kzalloc_run; [..|lia|]|]. split.
  { split; [done|done|intros b Hb; rewrite Hres; by apply Hun|]. apply (memset_zero_load_le 8); lia. }
  split; [apply (hi_init _ _ Hs1)|]. split; [done|]. split; [apply (hi_sizes _ _ Hs1)|]. split; [done|]. split; [done|lia].
Qed.

(** C40 A socket fills its size class (128 bytes) and starts 16 bytes into its slot,
    so its retransmission timeout lies on the link of the next slot.  From any
    well-formed heap whose next two slots are neighbours, as they are after every
    page split, tcp_socket succeeds and leaves the free list ending in the number
    100: the next allocation of the class is still right, the one after it
    returns the address 116, which never was the heap's. *)
Theorem tcp_socket_breaks_free_list (s : kst) (fl : list (list Z)) (a : Z) (l : list Z) :
  heap_ok s fl -> fl !! 3%nat = Some (a :: (a + 128) :: l) ->
  exists s', tcp_socket s = Ret (PHYS_TO_VIRT a + 16) s'
  /\ exists s2, kmalloc SIZEOF_SOCKET s' = Ret (PHYS_TO_VIRT (a + 128) + 16) s2
  /\ exists s3, kmalloc SIZEOF_SOCKET s2 = Ret 116 s3.
Proof.
  intros Hok Hl. destruct (kzalloc_socket s fl a l Hok Hl)
    as (s1 & c & E & Hin & Hi & Hlock & Hsizes & Hc & Hfl & Ha & Ha2).
  destruct (socket_init a Ha Ha2 (heap s1) Hi s1 Hin) as (r & s' & E' & -> & [_ Hh _ Hlink]).
  assert (Hnz : PHYS_TO_VIRT a + 16 <> 0) by (rewrite PHYS_TO_VIRT_val by lia; unfold KERNEL_HIGHER_HALF; lia).
  exists s'. split.
  { unfold tcp_socket. rewrite (bind_ret _ _ _ _ _ E), (proj2 (Z.eqb_neq _ 0) Hnz). exact E'. }
  rewrite <- Hh in *.
  apply (two_pops s' 3 c (a + 128) 100); try done; [unfold KMALLOC_NUM_SIZES; lia|lia].
Qed.

Lemma tcp_socket_breaks_free_list_witness :
  exists s', tcp_socket (KmallocExample.heap_of 3) = Ret (PHYS_TO_VIRT 0x200000 + 16) s'
  /\ exists s2, kmalloc SIZEOF_SOCKET s' = Ret (PHYS_TO_VIRT (0x200000 + 128) + 16) s2
  /\ exists s3, kmalloc SIZEOF_SOCKET s2 = Ret 116 s3.
Proof.
  apply (tcp_socket_breaks_free_list (KmallocExample.heap_of 3) (KmallocExample.free_of 3) 0x200000 [0x200100]).
  - apply KmallocExample.heap_of_ok. lia.
  - reflexivity.
Defined.

(** * Threads *)

(** The same for a thread, which fills the class of 64 bytes: its queue link lies
    on the link of the next slot.  When a thread [u] is enqueued behind a thread
    whose slot is followed by the first free slot, the free list goes on into
    [u]: the second allocation of the class returns an address inside it. *)
Theorem enqueue_breaks_free_list (s : kst) (fl : list (list Z)) (i : nat) (rq : runqueue) (a u : Z) (l : list Z) :
  heap_ok s fl -> fl !! 2%nat = Some ((a + 64) :: l) -> 0 <= a ->
  runqueues (sched s) !! i = Some rq -> head rq <> 0 -> tail rq = PHYS_TO_VIRT a + 16 ->
  0 < u < 2 ^ 64 -> one_half u SIZEOF_THREAD -> lin u + SIZEOF_THREAD <= a + 64 \/ a + 72 <= lin u ->
  exists s', enqueue i u s = Ret tt s'
  /\ exists s2, kmalloc SIZEOF_THREAD s' = Ret (PHYS_TO_VIRT (a + 64) + 16) s2
  /\ exists s3, kmalloc SIZEOF_THREAD s2 = Ret (u + 16) s3.
Proof.
  intros Hok Hl Ha Hrq Hhead Htail Hu Hhalf Hdis. pose proof (proj1 Hok) as Hs. unfold SIZEOF_THREAD in *.
  destruct (heap_slab s fl 2 Hs ltac:(unfold KMALLOC_NUM_SIZES; lia)) as (c & Hc & _).
  destruct (hi_chain _ _ Hs _ _ _ Hc Hl) as [Ec _].
  destruct (hi_slot _ _ Hs 2 (a + 64)) as (? & Hr & _); [by eexists; split; [exact Hl|left]|].
  change (class_size 2) with 64 in *.
  assert (Hlt : (i < length (runqueues (sched s)))%nat) by (by eapply lookup_lt_Some).
  set (m1 := store64 (set_t_state u TASK_RUNNING (ram s)) (a + 64) u).
  assert (E : exists s', enqueue i u s = Ret tt s' /\ heap s' = heap s /\ ram s' = set_t_next u 0 m1).
  { unfold enqueue, get_rq, upd_rq. msimpl. rewrite (list_lookup_total_correct _ _ _ Hrq).
    rewrite (proj2 (Z.eqb_neq _ 0) Hhead), Htail. eexists. split; [reflexivity|]. split; [done|].
    cbn [ram set_ram set_sched]. unfold m1. f_equal. unfold set_t_next.
    rewrite <- Z.add_assoc. by rewrite lin_PHYS_add by lia. }
  destruct E as (s' & E & Hh & Hm). exists s'. split; [done|].
  assert (Elink : load64 (ram s') (a + 64) = u).
  { rewrite Hm. unfold set_t_next. rewrite (lin_shift u 64) by (done || lia).
    rewrite load_store_disjoint by lia. unfold m1. by rewrite load64_store64, u64_small by lia. }
  apply (two_pops s' 2 c (a + 64) u); rewrite ?Hh; try done; [apply (hi_init _ _ Hs)|apply Hok|
    apply (hi_sizes _ _ Hs)|unfold KMALLOC_NUM_SIZES; lia|lia|lia].
Qed.

(** * Segments without data *)

(** A heap just initialised, a device and an ARP entry for the peer of the socket
    at 0x302000. *)
Module AckExample.
Definition machine : kst :=
  set_net SendExample.vars
    (set_ram (store_bytes (store32 (store64 (ram PmmExample.s) (SendExample.dev + 24) 0x1234)
                             (SendExample.sock + 12) SendExample.peer_ip)
                SendExample.dev SendExample.our_mac) PmmExample.s).
Definition start : M unit := kmalloc_init.
Definition acknowledge : M unit := start;; tcp_tx SendExample.tx SendExample.sock TCP_ACK 0 0.
(** Three objects of 20 bytes, as for three segments without data. *)
Definition three : M (list Z) := p1 ← kmalloc 20; p2 ← kmalloc 20; p3 ← kmalloc 20; mret [p2 - p1; p3 - p2].
Definition answers (o : outcome (list Z)) (l : list Z) : Prop :=
  match o with Ret l' _ => l' = l | _ => False end.
End AckExample.

(** A segment without data is an object of 20 bytes in a slot of 32, so its last
    4 bytes, checksum and urgent pointer, are stored on the link of the next
    slot: after a single ACK has been sent, the third object of the class is not
    in any slot.  (The slots of a page are 32 bytes apart.) *)
Example ack_breaks_free_list :
  AckExample.answers ((AckExample.start;; AckExample.three) AckExample.machine) [32; 32]
  /\ AckExample.answers ((AckExample.acknowledge;; AckExample.three) AckExample.machine) [32; 9754].
Proof. split; by vm_compute. Qed.
