(* ===== verification/Pci.v ===== *)
(** pci.c: configuration space, the bus scan and the table of devices.

    The hardware's answers are [hw], a function of the trace so far.  A pointer
    into the table is the index of its entry; a function that only reads a
    device takes its record. *)
From S2P Require Import Prelude Machine Globals.

Definition CONFIG_ADDR : Z := 0xCF8.
Definition CONFIG_DATA : Z := 0xCFC.
Definition PCI_CLASS_AHCI : Z := 0x010601.
Definition PCI_CLASS_NVME : Z := 0x010802.
Definition PCI_CLASS_XHCI : Z := 0x0C0330.
Definition PCI_CLASS_HDA : Z := 0x040300.
Definition PCI_CMD_BUS_MASTER : Z := 0x04.
Definition PCI_CMD_MEM_SPACE : Z := 0x02.

(** * The table of devices *)
Definition upd_plat (f : plat_globals -> plat_globals) : M unit :=
  modify (fun s => set_plat (f (plat s)) s).
Definition set_pci (x : pci_globals) (p : plat_globals) : plat_globals :=
  PlatGlobals x (idtg p) (apic p) (ioapic p) (acpi p) (drv p).
Definition upd_pci (f : pci_globals -> pci_globals) : M unit :=
  upd_plat (fun p => set_pci (f (pci p)) p).
Definition get_pci : M pci_globals := gets (fun s => pci (plat s)).

(** dev->bus to dev->irq_pin. *)
Definition set_identity (b sl f vendor class irq pin : Z) (d : pci_device) : pci_device :=
  PciDevice b sl f (vendor .& 0xFFFF) (vendor .>> 16)
    ((class .>> 24) .& 0xFF) ((class .>> 16) .& 0xFF) ((class .>> 8) .& 0xFF) (class .& 0xFF)
    (bar d) (bar_phys d) (bar_size d) (bar_is_mmio d)
    ((pin .>> 8) .& 0xFF) (irq .& 0xFF) (msi_capable d) (msi_offset d).

Definition set_bar (i : nat) (raw phys size : Z) (mmio : bool) (d : pci_device) : pci_device :=
  PciDevice (bus d) (slot d) (func d) (vendor_id d) (device_id d) (class_code d) (subclass d)
    (prog_if d) (revision d) (<[i := raw]> (bar d)) (<[i := phys]> (bar_phys d))
    (<[i := size]> (bar_size d)) (<[i := mmio]> (bar_is_mmio d))
    (irq_pin d) (irq_line d) (msi_capable d) (msi_offset d).

Definition set_msi (capable : bool) (offset : Z) (d : pci_device) : pci_device :=
  PciDevice (bus d) (slot d) (func d) (vendor_id d) (device_id d) (class_code d) (subclass d)
    (prog_if d) (revision d) (bar d) (bar_phys d) (bar_size d) (bar_is_mmio d)
    (irq_pin d) (irq_line d) capable offset.

(** The address a configuration access writes to the address port. *)
Definition config_address (b sl f offset : Z) : Z :=
  u32 ((b .<< 16) .| (sl .<< 11) .| (f .<< 8) .| (offset .& 0xFC) .| 0x80000000).

(** The size a BAR reports when all ones were written to it. *)
Definition bar_size_of (sz : Z) : Z := u32 (u32 (Z.lnot (sz .& 0xFFFFFFF0)) + 1).

Section pci.
Variable hw : list event -> hw_read -> Z.

Definition pci_read (b sl f offset : Z) : M Z :=
  outl CONFIG_ADDR (config_address b sl f offset);; inl hw CONFIG_DATA.

Definition pci_write (b sl f offset val : Z) : M unit :=
  outl CONFIG_ADDR (config_address b sl f offset);; outl CONFIG_DATA val.

(** * pci_init *)
Section function.
Variables b sl f : Z.

(** The BARs from [i] on; a 64-bit BAR takes two. *)
Fixpoint bars_loop (fuel : nat) (i : nat) (d : pci_device) : M pci_device :=
  match fuel with
  | O => mret d
  | S n =>
      if (6 <=? i)%nat then mret d
      else
        let offset := 0x10 + Z.of_nat i * 4 in
        old ← pci_read b sl f offset;
        pci_write b sl f offset 0xFFFFFFFF;;
        sz ← pci_read b sl f offset;
        pci_write b sl f offset old;;
        if (sz =? 0) || (sz =? 0xFFFFFFFF) then bars_loop n (S i) (set_bar i 0 0 0 false d)
        else
          let size := bar_size_of sz in
          let mmio := negb (truthy (old .& 1)) in
          if truthy (old .& 0x04) then
            hi ← pci_read b sl f (0x10 + (Z.of_nat i + 1) * 4);
            bars_loop n (S (S i)) (set_bar i old ((hi .<< 32) .| (old .& 0xFFFFFFF0)) size mmio d)
          else bars_loop n (S i) (set_bar i old (old .& 0xFFFFFFF0) size mmio d)
  end.

(** The walk of the capability list. *)
Fixpoint cap_loop (fuel : nat) (cap_ptr : Z) (d : pci_device) : M pci_device :=
  match fuel with
  | O => hang
  | S n =>
      if cap_ptr =? 0 then mret d
      else
        v ← pci_read b sl f cap_ptr;
        let d := if v .& 0xFF =? 0x05 then set_msi true cap_ptr d else d in
        v ← pci_read b sl f cap_ptr;
        cap_loop n ((v .>> 8) .& 0xFF) d
  end.

(** One function that answered with [vendor]: its entry of the table.  The entry is
    stored when it is complete, where the source fills it field by field: the
    difference shows only if the capability walk does not end. *)
Definition scan_function (fuel : nat) (vendor : Z) : M unit :=
  g ← get_pci;
  let i := Z.to_nat (device_count g) in
  upd_pci (fun g => PciGlobals (pci_devices g) (device_count g + 1));;
  class ← pci_read b sl f 0x08;
  irq ← pci_read b sl f 0x3C;
  pin ← pci_read b sl f 0x3D;
  let d := set_identity b sl f vendor class irq pin (pci_devices g !!! i) in
  d ← bars_loop 6 0 d;
  let d := set_msi false (msi_offset d) d in
  cap ← pci_read b sl f 0x34;
  d ← cap_loop fuel (cap .& 0xFF) d;
  upd_pci (fun g => PciGlobals (<[i := d]> (pci_devices g)) (device_count g));;
  kprintf "PCI %02x:%02x.%x: %04X:%04X class %02X%02X%02X\n"
    [AInt b; AInt sl; AInt f; AInt (vendor_id d); AInt (device_id d);
     AInt (class_code d); AInt (subclass d); AInt (prog_if d)].
End function.

(** [n] more functions of a slot, from [f]. *)
Fixpoint func_loop (fuel n : nat) (b sl f : Z) : M unit :=
  match n with
  | O => mret tt
  | S n' =>
      vendor ← pci_read b sl f 0;
      if vendor .& 0xFFFF =? 0xFFFF then func_loop fuel n' b sl (f + 1)
      else
        g ← get_pci;
        if MAX_PCI_DEVICES <=? device_count g then mret tt
        else scan_function b sl f fuel vendor;; func_loop fuel n' b sl (f + 1)
  end.

Fixpoint slot_loop (fuel n : nat) (b sl : Z) : M unit :=
  match n with
  | O => mret tt
  | S n' =>
      vendor ← pci_read b sl 0 0;
      (if vendor .& 0xFFFF =? 0xFFFF then mret tt
       else
         v ← pci_read b sl 0 0x0E;
         let header := (v .>> 16) .& 0xFF in
         func_loop fuel (if truthy (header .& 0x80) then 8 else 1) b sl 0);;
      slot_loop fuel n' b (sl + 1)
  end.

Fixpoint bus_loop (fuel n : nat) (b : Z) : M unit :=
  match n with
  | O => mret tt
  | S n' => slot_loop fuel 32 b 0;; bus_loop fuel n' (b + 1)
  end.

(** [fuel] bounds the walk of each function's capability list. *)
Definition pci_init (fuel : nat) : M unit :=
  kprintf "PCI: Scanning buses...\n" [];;
  bus_loop fuel 256 0;;
  g ← get_pci;
  kprintf "PCI: %zu devices found\n" [AInt (device_count g)].

(** * Configuration accesses to a device *)
Definition pci_read_dword (dev : pci_device) (offset : Z) : M Z :=
  pci_read (bus dev) (slot dev) (func dev) offset.

Definition pci_read_word (dev : pci_device) (offset : Z) : M Z :=
  dw ← pci_read (bus dev) (slot dev) (func dev) (u8 (offset .& Z.lnot 3));
  mret (if truthy (offset .& 2) then u16 (dw .>> 16) else dw .& 0xFFFF).

Definition pci_write_word (dev : pci_device) (offset val : Z) : M unit :=
  dw ← pci_read_dword dev (u8 (offset .& Z.lnot 3));
  let dw := if truthy (offset .& 2) then (dw .& 0xFFFF) .| u32 (val .<< 16)
            else (dw .& 0xFFFF0000) .| val in
  outl CONFIG_ADDR (config_address (bus dev) (slot dev) (func dev) offset);;
  outl CONFIG_DATA dw.

Definition pci_enable_bus_mastering (dev : pci_device) : M unit :=
  cmd ← pci_read_word dev 0x04;
  pci_write_word dev 0x04 (u16 (cmd .| PCI_CMD_BUS_MASTER .| PCI_CMD_MEM_SPACE)).

Definition pci_enable_msi (dev : pci_device) (vector : Z) : M bool :=
  if negb (msi_capable dev) then mret false
  else
    msg_ctrl ← pci_read_word dev (u8 (msi_offset dev + 0x02));
    let msg_addr := 0xFEE00000 in
    pci_write_word dev (u8 (msi_offset dev + 0x04)) (u16 (msg_addr .& 0xFFFF));;
    pci_write_word dev (u8 (msi_offset dev + 0x06)) (u16 (msg_addr .>> 16));;
    (if truthy (msg_ctrl .& 0x80) then
       pci_write_word dev (u8 (msi_offset dev + 0x08)) (u16 (msg_addr .>> 32));;
       pci_write_word dev (u8 (msi_offset dev + 0x0C)) vector
     else pci_write_word dev (u8 (msi_offset dev + 0x08)) vector);;
    pci_write_word dev (u8 (msi_offset dev + 0x02)) (u16 (msg_ctrl .| 0x01));;
    cmd ← pci_read_word dev 0x04;
    pci_write_word dev 0x04 (u16 (cmd .| 0x0400));;
    mret true.
End pci.

(** * Searches of the table *)
Definition class_of (d : pci_device) : Z :=
  (class_code d .<< 16) .| (subclass d .<< 8) .| prog_if d.

(** The first of [n] entries from [i] on that satisfies [p]. *)
Fixpoint find_from (n : nat) (p : pci_device -> bool) (ds : list pci_device) (i : nat) : option nat :=
  match n with
  | O => None
  | S n' => if p (ds !!! i) then Some i else find_from n' p ds (S i)
  end.

Definition pci_find_class (cc : Z) : M (option nat) :=
  g ← get_pci;
  mret (find_from (Z.to_nat (device_count g)) (fun d => class_of d =? cc) (pci_devices g) 0).

Definition pci_find_device (vendor device : Z) : M (option nat) :=
  g ← get_pci;
  mret (find_from (Z.to_nat (device_count g))
          (fun d => (vendor_id d =? vendor) && (device_id d =? device)) (pci_devices g) 0).

Definition pci_get_device (idx : Z) : M (option nat) :=
  g ← get_pci;
  mret (if idx <? device_count g then Some (Z.to_nat idx) else None).

Definition pci_get_device_count : M Z := g ← get_pci; mret (device_count g).

(** The record a pointer into the table points at. *)
Definition pci_entry (i : nat) : M pci_device := g ← get_pci; mret (pci_devices g !!! i).

Definition pci_read_bar (dev : pci_device) (i : Z) : Z :=
  if 6 <=? i then 0 else bar_phys dev !!! Z.to_nat i.
