(* ===== verification/PciProps.v ===== *)
(** Properties of pci.c: the address encoding, the table, the walks of the scan
    and the configuration accesses, each with a witness. *)
From S2P Require Import Prelude Machine Globals Pmm PmmProps Pci.

(** * Configuration addresses *)
Lemma config_address_val b sl f offset :
  0 <= b < 256 -> 0 <= sl < 32 -> 0 <= f < 8 -> 0 <= offset < 256 ->
  config_address b sl f offset = 2 ^ 31 + b * 2 ^ 16 + sl * 2 ^ 11 + f * 2 ^ 8 + 4 * (offset / 4).
Proof.
  intros. unfold config_address.
  assert (Eo : offset .& 0xFC = 4 * (offset / 4)).
  { change 0xFC with (2 ^ 8 - 2 ^ 2). rewrite land_mid by lia. Z.div_mod_to_equations; lia. }
  rewrite Eo, !Z.shiftl_mul_pow2 by lia.
  rewrite (lor_add_disjoint (b * 2 ^ 16) _ 16) by (rewrite ?Z.mod_mul; lia).
  rewrite (lor_add_disjoint (b * 2 ^ 16 + sl * 2 ^ 11) _ 11) by (Z.div_mod_to_equations; lia).
  rewrite (lor_add_disjoint (b * 2 ^ 16 + sl * 2 ^ 11 + f * 2 ^ 8) _ 8) by (Z.div_mod_to_equations; lia).
  rewrite Z.lor_comm, (lor_add_disjoint 0x80000000 _ 31) by (Z.div_mod_to_equations; lia).
  rewrite u32_small; [lia|]. Z.div_mod_to_equations; lia.
Qed.

(** A configuration address encodes bus, slot, function and register: they
    can be read back from it, bit 31 is set and the two low bits are clear; so
    two accesses meet the same register only if all four agree. *)
Theorem config_address_roundtrip (b sl f offset : Z) :
  0 <= b < 256 -> 0 <= sl < 32 -> 0 <= f < 8 -> 0 <= offset < 256 ->
  let a := config_address b sl f offset in
  a / 2 ^ 16 mod 256 = b /\ a / 2 ^ 11 mod 32 = sl /\ a / 2 ^ 8 mod 8 = f
  /\ a mod 256 = 4 * (offset / 4) /\ a / 2 ^ 31 = 1 /\ a < 2 ^ 32.
Proof.
  intros Hb Hs Hf Ho a. unfold a. rewrite config_address_val by done.
  change (2 ^ 31) with 2147483648. change (2 ^ 16) with 65536. change (2 ^ 11) with 2048.
  change (2 ^ 8) with 256. change (2 ^ 32) with 4294967296.
  repeat split; Z.div_mod_to_equations; lia.
Qed.

Lemma config_address_roundtrip_witness :
  let a := config_address 3 17 5 0x3D in
  a / 2 ^ 16 mod 256 = 3 /\ a / 2 ^ 11 mod 32 = 17 /\ a / 2 ^ 8 mod 8 = 5
  /\ a mod 256 = 4 * (0x3D / 4) /\ a / 2 ^ 31 = 1 /\ a < 2 ^ 32.
Proof. apply (config_address_roundtrip 3 17 5 0x3D); lia. Defined.

(** * The table *)
Record device_ok (d : pci_device) : Prop := {
  do_place : 0 <= bus d < 256 /\ 0 <= slot d < 32 /\ 0 <= func d < 8;
  do_ids : 0 <= vendor_id d < 65536 /\ 0 <= device_id d < 65536;
  do_class : 0 <= class_code d < 256 /\ 0 <= subclass d < 256 /\ 0 <= prog_if d < 256
             /\ 0 <= revision d < 256;
  do_irq : 0 <= irq_pin d < 256 /\ 0 <= irq_line d < 256;
  do_bars : length (bar d) = 6%nat /\ length (bar_phys d) = 6%nat
            /\ length (bar_size d) = 6%nat /\ length (bar_is_mmio d) = 6%nat;
  do_msi : 0 <= msi_offset d < 256 /\ (msi_capable d = true -> msi_offset d <> 0);
}.

Record table_ok (g : pci_globals) : Prop := {
  to_length : length (pci_devices g) = Z.to_nat MAX_PCI_DEVICES;
  to_count : 0 <= device_count g <= MAX_PCI_DEVICES;
  to_devices : Forall device_ok (pci_devices g);
}.

Definition table_inv (s : kst) : Prop := table_ok (pci (plat s)).

Lemma no_device_ok : device_ok no_device.
Proof. split; simpl; repeat split; (lia || done). Qed.

Lemma entry_ok g i : table_ok g -> device_ok (pci_devices g !!! i).
Proof.
  intros [_ _ Hd]. destruct (pci_devices g !! i) as [d|] eqn:E.
  - rewrite (list_lookup_total_correct _ _ _ E). by eapply Forall_lookup_1.
  - rewrite list_lookup_total_alt, E. apply no_device_ok.
Qed.

Section scan.
Context (hw : list event -> hw_read -> Z).
Let I := table_inv.

Lemma always_quiet {A} (m : M A) (Q : A -> Prop) :
  (forall s, exists a s', m s = Ret a s' /\ Q a /\ plat s' = plat s) -> always I m Q.
Proof.
  intros H s Hs. destruct (H s) as (a & s' & -> & Ha & Ep). split; [done|].
  unfold I, table_inv. by rewrite Ep.
Qed.

Lemma read_always b sl f offset :
  always I (pci_read hw b sl f offset) (fun v => 0 <= v < 2 ^ 32).
Proof. apply always_quiet. intros s. eexists _, _. split; [reflexivity|]. split; [apply u32_range|done]. Qed.

Lemma write_always b sl f offset v : always I (pci_write b sl f offset v) (fun _ => True).
Proof. apply always_quiet. intros s. by eexists _, _. Qed.

Lemma land_byte v : 0 <= v .& 0xFF < 256.
Proof. change 0xFF with (2 ^ 8 - 1). rewrite land_low by lia. apply Z.mod_pos_bound. lia. Qed.

Lemma land_half v : 0 <= v .& 0xFFFF < 65536.
Proof. change 0xFFFF with (2 ^ 16 - 1). rewrite land_low by lia. apply Z.mod_pos_bound. lia. Qed.

Lemma set_bar_ok i raw phys size mmio d : device_ok d -> device_ok (set_bar i raw phys size mmio d).
Proof.
  intros [? ? ? ? (?&?&?&?) ?]. split; simpl; rewrite ?length_insert; done.
Qed.

Lemma set_msi_ok p d : 0 <= p < 256 -> p <> 0 -> device_ok d -> device_ok (set_msi true p d).
Proof. intros ?? [? ? ? ? ? ?]. by split. Qed.

Lemma bars_always fuel b sl f i d :
  device_ok d -> always I (bars_loop hw b sl f fuel i d) device_ok.
Proof.
  revert i d. induction fuel as [|fuel IH]; intros i d Hd; [by apply always_ret|]. cbn [bars_loop].
  destruct (6 <=? i)%nat; [by apply always_ret|].
  eapply always_bind; [apply read_always|intros old _].
  eapply always_bind; [apply write_always|intros _ _].
  eapply always_bind; [apply read_always|intros sz _].
  eapply always_bind; [apply write_always|intros _ _].
  destruct (_ || _); [by apply IH, set_bar_ok|].
  destruct (truthy _); [|by apply IH, set_bar_ok].
  eapply always_bind; [apply read_always|intros hi _]. by apply IH, set_bar_ok.
Qed.

Lemma cap_always fuel b sl f p d :
  0 <= p < 256 -> device_ok d -> always I (cap_loop hw b sl f fuel p d) device_ok.
Proof.
  revert p d. induction fuel as [|fuel IH]; intros p d Hp Hd; [apply always_hang|]. cbn [cap_loop].
  destruct (Z.eqb_spec p 0); [by apply always_ret|].
  eapply always_bind; [apply read_always|intros v _].
  eapply always_bind; [apply read_always|intros v' _].
  apply IH; [apply land_byte|]. destruct (_ =? 5); [by apply set_msi_ok|done].
Qed.

Lemma identity_ok b sl f vendor class irq pin d :
  0 <= b < 256 -> 0 <= sl < 32 -> 0 <= f < 8 -> 0 <= vendor < 2 ^ 32 -> device_ok d ->
  device_ok (set_identity b sl f vendor class irq pin d).
Proof.
  intros ???? [? ? ? ? ? ?]. split; cbn [set_identity bus slot func vendor_id device_id class_code
    subclass prog_if revision irq_pin irq_line bar bar_phys bar_size bar_is_mmio msi_offset msi_capable];
    [done| |split_and!; apply land_byte|split; apply land_byte|done|done].
  split; [apply land_half|]. rewrite Z.shiftr_div_pow2 by lia. change (2 ^ 16) with 65536.
  Z.div_mod_to_equations; lia.
Qed.

Lemma plat_pci_always f :
  (forall g, table_ok g -> table_ok (f g)) -> always I (upd_pci f) (fun _ => True).
Proof. intros Hf. apply always_modify. intros s Hs. by apply Hf. Qed.

Lemma scan_function_ok b sl f fuel vendor s :
  0 <= b < 256 -> 0 <= sl < 32 -> 0 <= f < 8 -> 0 <= vendor < 2 ^ 32 ->
  table_inv s -> device_count (pci (plat s)) < MAX_PCI_DEVICES ->
  match scan_function hw b sl f fuel vendor s with
  | Ret _ s' | Panic _ s' | Hang s' => table_inv s' end.
Proof.
  intros Hb Hsl Hf Hv Hs Hc. unfold scan_function, get_pci. rewrite bind_gets.
  set (g := pci (plat s)) in *. set (i := Z.to_nat (device_count g)).
  set (s1 := set_plat (set_pci (PciGlobals (pci_devices g) (device_count g + 1)) (plat s)) s).
  assert (H1 : table_inv s1).
  { destruct Hs as [? Hn ?]. fold g in Hn. split; [done| |done]. change (0 <= device_count g + 1 <= MAX_PCI_DEVICES). lia. }
  match goal with |- match (_ ;; ?K) s with _ => _ end => change (match K s1 with
    | Ret _ s' | Panic _ s' | Hang s' => table_inv s' end) end.
  match goal with |- match ?m s1 with _ => _ end => assert (Ha : always I m (fun _ => True)) end.
  { eapply always_bind; [apply read_always|intros class _].
    eapply always_bind; [apply read_always|intros irq _].
    eapply always_bind; [apply read_always|intros pin _].
    eapply always_bind; [apply bars_always, identity_ok; try done; by apply entry_ok|intros d Hd].
    eapply always_bind; [apply read_always|intros cap _].
    eapply always_bind; [apply cap_always; [apply land_byte|]|intros d' Hd'].
    { destruct Hd as [? ? ? ? ? [? _]]. by split. }
    eapply always_bind; [apply plat_pci_always|intros _ _].
    - intros g' [? ? ?]. split; cbn; [by rewrite length_insert|done|by apply Forall_insert].
    - apply always_quiet. intros s'. by eexists _, _. }
  by apply (always_outcome I _ _ s1 Ha).
Qed.

Lemma func_loop_always fuel n b sl f :
  0 <= b < 256 -> 0 <= sl < 32 -> 0 <= f -> f + Z.of_nat n <= 8 ->
  always I (func_loop hw fuel n b sl f) (fun _ => True).
Proof.
  revert f. induction n as [|n IH]; intros f Hb Hsl Hf Hn; [by apply always_ret|]. cbn [func_loop].
  eapply always_bind; [apply read_always|intros vendor Hv].
  destruct (_ =? _); [apply IH; lia|]. intros s Hs. unfold get_pci. rewrite bind_gets.
  destruct (Z.leb_spec MAX_PCI_DEVICES (device_count (pci (plat s)))); [done|].
  pose proof (scan_function_ok b sl f fuel vendor s Hb Hsl ltac:(lia) Hv Hs ltac:(lia)) as H1.
  unfold mbind, M_bind. destruct (scan_function _ _ _ _ _ _ s) as [[] s'|msg s'|s']; [|done..].
  apply IH; [done|done|lia|lia|done].
Qed.

Lemma slot_loop_always fuel n b sl :
  0 <= b < 256 -> 0 <= sl -> sl + Z.of_nat n <= 32 ->
  always I (slot_loop hw fuel n b sl) (fun _ => True).
Proof.
  revert sl. induction n as [|n IH]; intros sl Hb Hsl Hn; [by apply always_ret|]. cbn [slot_loop].
  eapply always_bind; [apply read_always|intros vendor _].
  apply (always_bind _ _ _ (fun _ => True)); [|intros _ _; apply IH; lia].
  destruct (_ =? _); [by apply always_ret|].
  eapply always_bind; [apply read_always|intros v _].
  apply func_loop_always; [done|lia|lia|]. destruct (truthy _); lia.
Qed.

Lemma bus_loop_always fuel n b :
  0 <= b -> b + Z.of_nat n <= 256 -> always I (bus_loop hw fuel n b) (fun _ => True).
Proof.
  revert b. induction n as [|n IH]; intros b Hb Hn; [by apply always_ret|]. cbn [bus_loop].
  eapply always_bind; [apply slot_loop_always; lia|intros _ _; apply IH; lia].
Qed.
End scan.

(** C21 Whatever the hardware answers, and however the scan ends, pci_init keeps
    the table well formed: at most 256 devices are recorded, every entry has a
    bus, slot and function a configuration address can hold, its fields fit their
    C types, and an entry that claims MSI has a capability offset. *)
Theorem pci_init_table_ok (hw : list event -> hw_read -> Z) (fuel : nat) (s : kst) :
  table_ok (pci (plat s)) ->
  match pci_init hw fuel s with
  | Ret _ s' | Panic _ s' | Hang s' => table_ok (pci (plat s')) end.
Proof.
  intros Hs.
  assert (Ha : always table_inv (pci_init hw fuel) (fun _ => True)).
  { apply (always_bind _ _ _ (fun _ => True)); [apply always_quiet; intros s'; by eexists _, _|intros _ _].
    eapply always_bind; [apply bus_loop_always; lia|intros _ _].
    apply (always_bind _ _ _ (fun _ => True)); [by apply always_gets|intros g _].
    apply always_quiet. intros s'. by eexists _, _. }
  by apply (always_outcome table_inv _ _ s Ha).
Qed.

Module PciExample.
Definition s : kst := PmmExample.s.
Lemma table_fine : table_ok (pci (plat s)).
Proof.
  split; [done|split; [done|by vm_compute]|]. cbn [pci plat s]. apply Forall_replicate, no_device_ok.
Qed.
End PciExample.

Lemma pci_init_table_ok_witness :
  match pci_init (fun _ _ => 0xFFFFFFFF) 256 PciExample.s with
  | Ret _ s' | Panic _ s' | Hang s' => table_ok (pci (plat s')) end.
Proof. apply (pci_init_table_ok (fun _ _ => 0xFFFFFFFF) 256 PciExample.s), PciExample.table_fine. Defined.

(** * Configuration space as memory

    The configuration mechanism of the PCI specification: the data port is a
    window to the register whose address was last written to the address port.
    A register that holds what is written to it (command, MSI address and data)
    is [config_value]: the last value written, or its initial value. *)
Fixpoint selected (tr : list event) : Z :=
  match tr with
  | [] => 0
  | EvOut w p v :: tr' => if (w =? 4) && (p =? CONFIG_ADDR) then v else selected tr'
  | _ :: tr' => selected tr'
  end.

Fixpoint config_value (init : Z -> Z) (tr : list event) (a : Z) : Z :=
  match tr with
  | [] => init a
  | EvOut w p v :: tr' =>
      if (w =? 4) && (p =? CONFIG_DATA) && (selected tr' =? a) then v else config_value init tr' a
  | _ :: tr' => config_value init tr' a
  end.

(** The window: the hypothesis on the hardware of the theorems below. *)
Definition config_window (init : Z -> Z) (hw : list event -> hw_read -> Z) : Prop :=
  forall tr, hw tr (RdIn 4 CONFIG_DATA) = config_value init tr (selected tr).

(** A machine that has it. *)
Definition config_hw (init : Z -> Z) (tr : list event) (r : hw_read) : Z :=
  match r with RdIn 4 p => if p =? CONFIG_DATA then config_value init tr (selected tr) else 0 | _ => 0 end.
Lemma config_hw_window init : config_window init (config_hw init).
Proof. done. Qed.

(** A read appends to the trace and finds the register's value. *)
Definition read_trace (hw : list event -> hw_read -> Z) (a : Z) (tr : list event) : list event :=
  EvHw (RdIn 4 CONFIG_DATA) (hw (EvOut 4 CONFIG_ADDR a :: tr) (RdIn 4 CONFIG_DATA))
    :: EvOut 4 CONFIG_ADDR a :: tr.

Section window.
Context (init : Z -> Z) (hw : list event -> hw_read -> Z) (Hhw : config_window init hw).

Lemma pci_read_run b sl f offset s :
  let a := config_address b sl f offset in
  pci_read hw b sl f offset s
  = Ret (u32 (config_value init (trace s) a)) (set_trace (read_trace hw a (trace s)) s).
Proof.
  intros a. unfold read_trace. rewrite Hhw.
  change (pci_read hw b sl f offset s) with
    (Ret (u32 (hw (EvOut 4 CONFIG_ADDR a :: trace s) (RdIn 4 CONFIG_DATA)))
       (set_trace (EvHw (RdIn 4 CONFIG_DATA) (hw (EvOut 4 CONFIG_ADDR a :: trace s) (RdIn 4 CONFIG_DATA))
                     :: EvOut 4 CONFIG_ADDR a :: trace s) s)).
  rewrite Hhw. done.
Qed.

Lemma read_keeps a tr a' : config_value init (read_trace hw a tr) a' = config_value init tr a'.
Proof. done. Qed.
End window.

(** ** A word of a register *)

Definition word_at (offset dw : Z) : Z := if truthy (offset .& 2) then dw / 2 ^ 16 else dw mod 2 ^ 16.
(** [dw] with the word at [offset] replaced. *)
Definition with_word (offset v dw : Z) : Z :=
  if truthy (offset .& 2) then dw mod 2 ^ 16 + v * 2 ^ 16 else dw / 2 ^ 16 * 2 ^ 16 + v.

Lemma with_word_val offset v dw :
  0 <= v < 65536 -> 0 <= dw < 2 ^ 32 ->
  (if truthy (offset .& 2) then (dw .& 0xFFFF) .| u32 (v .<< 16) else (dw .& 0xFFFF0000) .| v)
  = with_word offset v dw.
Proof.
  intros Hv Hd. unfold with_word. destruct (truthy _).
  - change 0xFFFF with (2 ^ 16 - 1). rewrite land_low, Z.shiftl_mul_pow2 by lia.
    rewrite u32_small by lia. rewrite Z.lor_comm, (lor_add_disjoint _ _ 16); [lia|lia|apply Z.mod_mul; lia|].
    apply Z.mod_pos_bound. lia.
  - change 0xFFFF0000 with (2 ^ 32 - 2 ^ 16). rewrite land_high by lia.
    rewrite (lor_add_disjoint _ _ 16); [|lia| |lia].
    + pose proof (Z.div_mod dw (2 ^ 16)). lia.
    + replace (dw - dw mod 2 ^ 16) with (dw / 2 ^ 16 * 2 ^ 16) by (pose proof (Z.div_mod dw (2 ^ 16)); lia).
      apply Z.mod_mul. lia.
Qed.

Lemma word_val offset dw :
  0 <= dw < 2 ^ 32 -> (if truthy (offset .& 2) then u16 (dw .>> 16) else dw .& 0xFFFF) = word_at offset dw.
Proof.
  intros Hd. unfold word_at. destruct (truthy _).
  - rewrite Z.shiftr_div_pow2 by lia. apply u16_small. change (2 ^ 16) with 65536. Z.div_mod_to_equations; lia.
  - change 0xFFFF with (2 ^ 16 - 1). by rewrite land_low by lia.
Qed.

Lemma with_word_spec offset v dw :
  0 <= v < 65536 -> 0 <= dw < 2 ^ 32 ->
  let dw' := with_word offset v dw in
  0 <= dw' < 2 ^ 32 /\ word_at offset dw' = v
  /\ forall other, truthy (other .& 2) <> truthy (offset .& 2) -> word_at other dw' = word_at other dw.
Proof.
  intros Hv Hd. unfold with_word, word_at. change (2 ^ 16) with 65536. change (2 ^ 32) with 4294967296 in *.
  destruct (truthy (offset .& 2)); (split; [|split; [|intros other Ho; destruct (truthy (other .& 2)); [|]]]);
    try done; Z.div_mod_to_equations; lia.
Qed.

(** The register of an offset: the two low bits do not matter. *)
Lemma register_mask b sl f offset :
  0 <= offset < 256 -> config_address b sl f (u8 (offset .& Z.lnot 3)) = config_address b sl f offset.
Proof.
  intros Ho. unfold config_address. do 3 f_equal.
  assert (E : u8 (offset .& Z.lnot 3) = offset .& 0xFC).
  { change (Z.lnot 3) with (- 2 ^ 2). change 0xFC with (2 ^ 8 - 2 ^ 2). rewrite land_mid by lia.
    replace (- 2 ^ 2) with (Z.lnot (Z.ones 2)) by done. rewrite <- Z.ldiff_land, Z.ldiff_ones_r by lia.
    rewrite Z.shiftr_div_pow2, Z.shiftl_mul_pow2 by lia. unfold u8. Z.div_mod_to_equations; lia. }
  rewrite E, <- Z.land_assoc. done.
Qed.

(** On a machine whose configuration registers hold what is written to them,
    pci_write_word then pci_read_word of the same place gives the word back; the
    other word of the register and every other register keep their values, and
    nothing but the trace of port accesses changes. *)
Theorem pci_word_roundtrip (init : Z -> Z) (hw : list event -> hw_read -> Z) (dev : pci_device)
    (offset v : Z) (s : kst) :
  config_window init hw -> 0 <= offset < 256 -> 0 <= v < 65536 ->
  let a := config_address (bus dev) (slot dev) (func dev) offset in
  let reg tr := u32 (config_value init tr a) in
  exists s1, pci_write_word hw dev offset v s = Ret tt s1 /\ s1 = set_trace (trace s1) s
    /\ (exists s2, pci_read_word hw dev offset s1 = Ret v s2)
    /\ (forall other, truthy (other .& 2) <> truthy (offset .& 2) ->
          word_at other (reg (trace s1)) = word_at other (reg (trace s)))
    /\ (forall a', a' <> a -> config_value init (trace s1) a' = config_value init (trace s) a').
Proof.
  intros Hhw Ho Hv a reg. unfold pci_write_word, pci_read_dword.
  rewrite (bind_ret _ _ _ _ _ (pci_read_run init hw Hhw _ _ _ _ s)), register_mask by done. fold a.
  pose proof (u32_range (config_value init (trace s) a)) as Hr.
  rewrite with_word_val by done. fold (reg (trace s)) in *.
  destruct (with_word_spec offset v (reg (trace s)) Hv Hr) as (Hr' & Hw & Hother).
  set (dw := with_word offset v (reg (trace s))) in *.
  eexists. split; [reflexivity|]. split; [done|]. cbn [trace set_trace].
  set (tr := EvOut 4 CONFIG_DATA dw :: EvOut 4 CONFIG_ADDR a :: read_trace hw a (trace s)).
  assert (Ea : config_value init tr a = dw) by (cbn; by rewrite Z.eqb_refl).
  assert (Er : reg tr = dw) by (unfold reg; rewrite Ea; by apply u32_small).
  split; [|split].
  - unfold pci_read_word.
    eexists. rewrite (bind_ret _ _ _ _ _ (pci_read_run init hw Hhw _ _ _ _ _)), register_mask by done.
    cbn [trace set_trace]. fold a tr (reg tr). rewrite word_val by (rewrite Er; lia). rewrite Er, Hw. reflexivity.
  - intros other Hne. rewrite Er. by apply Hother.
  - intros a' Hne. cbn. destruct (Z.eqb_spec a a'); [congruence|]. done.
Qed.

Lemma pci_word_roundtrip_witness :
  let hw := config_hw (fun _ => 0x12345678) in
  exists s1, pci_write_word hw no_device 6 0xBEEF PciExample.s = Ret tt s1
    /\ s1 = set_trace (trace s1) PciExample.s
    /\ exists s2, pci_read_word hw no_device 6 s1 = Ret 0xBEEF s2.
Proof.
  intros hw.
  destruct (pci_word_roundtrip (fun _ => 0x12345678) hw no_device 6 0xBEEF PciExample.s) as (s1 & E & E1 & E2 & _);
    [apply config_hw_window|lia|lia|].
  exists s1. done.
Defined.

(** * The capability list *)

(** [l] are the pointers of the list from [p] on, the list's end not included. *)
Inductive cap_chain (reg : Z -> Z) : Z -> list Z -> Prop :=
| chain_end : cap_chain reg 0 []
| chain_next p l : p <> 0 -> cap_chain reg ((reg p .>> 8) .& 0xFF) l -> cap_chain reg p (p :: l).

Lemma chain_det reg p l1 l2 : cap_chain reg p l1 -> cap_chain reg p l2 -> l1 = l2.
Proof.
  intros H. revert l2. induction H as [|p l Hp _ IH]; intros l2 H2; inversion H2; subst; try done.
  f_equal. by apply IH.
Qed.

Lemma chain_suffix reg p l q :
  cap_chain reg p l -> q ∈ l -> exists l1 l2, l = l1 ++ l2 /\ cap_chain reg q l2.
Proof.
  induction 1 as [|p l Hp Hl IH]; intros Hq; [by apply elem_of_nil in Hq|].
  apply elem_of_cons in Hq as [->|Hq].
  - exists [], (p :: l). split; [done|]. by constructor.
  - destruct (IH Hq) as (l1 & l2 & -> & H2). by exists (p :: l1), l2.
Qed.

Lemma chain_nodup reg p l : cap_chain reg p l -> NoDup l.
Proof.
  induction 1 as [|p l Hp Hl IH]; [by apply NoDup_nil|]. apply NoDup_cons. split; [|done]. intros Hin.
  destruct (chain_suffix _ _ _ _ Hl Hin) as (l1 & l2 & E & H2).
  pose proof (chain_det _ _ _ _ H2 (chain_next _ _ _ Hp Hl)) as E2.
  apply (f_equal length) in E, E2. rewrite length_app in E. simpl in E2. lia.
Qed.

Lemma chain_bytes reg p l : 0 <= p < 256 -> cap_chain reg p l -> Forall (fun q => 1 <= q < 256) l.
Proof.
  intros Hp H. induction H as [|p l Hne _ IH]; constructor; [lia|]. apply IH, land_byte.
Qed.

(** A list of capabilities that ends has at most 255 of them. *)
Lemma chain_length reg p l : 0 <= p < 256 -> cap_chain reg p l -> (length l <= 255)%nat.
Proof.
  intros Hp H. replace 255%nat with (length (seqZ_from 1 255)) by done.
  apply submseteq_length, NoDup_submseteq; [by eapply chain_nodup|].
  intros q Hq. apply elem_of_seqZ_from. pose proof (chain_bytes _ _ _ Hp H) as Hb.
  rewrite Forall_forall in Hb. specialize (Hb q Hq). lia.
Qed.

(** What the walk records: the last MSI capability. *)
Definition record_cap (reg : Z -> Z) (d : pci_device) (p : Z) : pci_device :=
  if reg p .& 0xFF =? 0x05 then set_msi true p d else d.

Section cap_walk.
Context (init : Z -> Z) (hw : list event -> hw_read -> Z) (Hhw : config_window init hw).
Context (b sl f : Z).
Let reg (tr : list event) (p : Z) : Z := u32 (config_value init tr (config_address b sl f p)).

Lemma cap_step fuel p d s :
  p <> 0 ->
  cap_loop hw b sl f (S fuel) p d s
  = cap_loop hw b sl f fuel ((reg (trace s) p .>> 8) .& 0xFF) (record_cap (reg (trace s)) d p)
      (set_trace (read_trace hw (config_address b sl f p)
                    (read_trace hw (config_address b sl f p) (trace s))) s).
Proof.
  intros Hp. cbn [cap_loop]. rewrite (proj2 (Z.eqb_neq _ _) Hp).
  rewrite (bind_ret _ _ _ _ _ (pci_read_run init hw Hhw _ _ _ _ _)).
  rewrite (bind_ret _ _ _ _ _ (pci_read_run init hw Hhw _ _ _ _ _)).
  cbn [trace set_trace]. rewrite read_keeps. done.
Qed.

Lemma cap_loop_ends l p d s fuel :
  cap_chain (reg (trace s)) p l -> (length l < fuel)%nat ->
  exists tr, cap_loop hw b sl f fuel p d s
    = Ret (foldl (record_cap (reg (trace s))) d l) (set_trace tr s).
Proof.
  revert p d s fuel. induction l as [|q l IH]; intros p d s fuel Hl Hf; (destruct fuel as [|fuel]; [lia|]).
  - inversion Hl; subst. exists (trace s). by destruct s.
  - inversion Hl; subst. rewrite cap_step by done.
    edestruct (IH ((reg (trace s) q .>> 8) .& 0xFF)) as (tr & E);
      [|simpl in Hf; apply Nat.succ_lt_mono; exact Hf|].
    2: { rewrite E. exists tr. done. }
    done.
Qed.

Lemma cap_loop_runs_on p d s fuel :
  (forall l, ~ cap_chain (reg (trace s)) p l) -> exists tr, cap_loop hw b sl f fuel p d s = Hang (set_trace tr s).
Proof.
  revert p d s. induction fuel as [|fuel IH]; intros p d s Hno.
  - exists (trace s). by destruct s.
  - destruct (Z.eq_dec p 0) as [->|Hp]; [by destruct (Hno [] (chain_end _))|].
    rewrite cap_step by done. edestruct IH as (tr & E); [|exists tr; rewrite E; done].
    intros l Hl. apply (Hno (p :: l)). by constructor.
Qed.
End cap_walk.

(** C36 The walk of the capability list ends exactly if the list does: on a list
    that reaches a zero pointer, 256 steps are enough and the walk records the
    last MSI capability; on any other list (two capabilities that point at each
    other) it never ends, since no bound and no visited set stops it. *)
Theorem pci_cap_walk (init : Z -> Z) (hw : list event -> hw_read -> Z) (b sl f p : Z) (d : pci_device)
    (s : kst) :
  config_window init hw -> 0 <= p < 256 ->
  let reg q := u32 (config_value init (trace s) (config_address b sl f q)) in
  (forall l, cap_chain reg p l ->
     exists tr, cap_loop hw b sl f 256 p d s = Ret (foldl (record_cap reg) d l) (set_trace tr s))
  /\ ((forall l, ~ cap_chain reg p l) ->
      forall fuel, exists tr, cap_loop hw b sl f fuel p d s = Hang (set_trace tr s)).
Proof.
  intros Hhw Hp reg. split.
  - intros l Hl. apply (cap_loop_ends init hw Hhw b sl f l p d s 256 Hl).
    pose proof (chain_length _ _ _ Hp Hl). lia.
  - intros Hno fuel. by apply (cap_loop_runs_on init hw Hhw).
Qed.

(** A list of one MSI capability at 0x40. *)
Lemma pci_cap_walk_witness :
  let init a := if a =? config_address 0 1 0 0x40 then 0x0005 else 0 in
  exists tr, cap_loop (config_hw init) 0 1 0 256 0x40 no_device PciExample.s
    = Ret (set_msi true 0x40 no_device) (set_trace tr PciExample.s).
Proof.
  intros init.
  destruct (pci_cap_walk init (config_hw init) 0 1 0 0x40 no_device PciExample.s) as [H _];
    [apply config_hw_window|lia|].
  apply (H [0x40]). apply chain_next; [done|]. exact (chain_end _).
Defined.

(** * Searches *)
Lemma find_from_first n p ds i :
  (i + n <= length ds)%nat ->
  match find_from n p ds i with
  | Some j => (i <= j < i + n)%nat /\ p (ds !!! j) = true /\ forall k, (i <= k < j)%nat -> p (ds !!! k) = false
  | None => forall k, (i <= k < i + n)%nat -> p (ds !!! k) = false
  end.
Proof.
  revert i. induction n as [|n IH]; intros i Hi; cbn [find_from]; [intros k ?; lia|].
  destruct (p (ds !!! i)) eqn:E; [split; [lia|]; split; [done|]; intros k ?; lia|].
  specialize (IH (S i) ltac:(lia)). destruct (find_from n p ds (S i)) as [j|].
  - destruct IH as (? & ? & Hb). split; [lia|]. split; [done|]. intros k Hk.
    destruct (decide (k = i)) as [->|]; [done|]. apply Hb. lia.
  - intros k Hk. destruct (decide (k = i)) as [->|]; [done|]. apply IH. lia.
Qed.

Lemma class_of_val d :
  device_ok d -> class_of d = class_code d * 65536 + subclass d * 256 + prog_if d.
Proof.
  intros [_ _ (? & ? & ? & _) _ _ _]. unfold class_of. rewrite !Z.shiftl_mul_pow2 by lia.
  rewrite (lor_add_disjoint _ (subclass d * 2 ^ 8) 16) by (rewrite ?Z.mod_mul; lia).
  rewrite (lor_add_disjoint _ (prog_if d) 8) by (Z.div_mod_to_equations; lia). lia.
Qed.

(** [r] is the first recorded device with property [P], if there is one. *)
Definition first_match (P : pci_device -> Prop) (g : pci_globals) (r : option nat) : Prop :=
  let recorded i := (Z.of_nat i < device_count g) in
  match r with
  | Some i => recorded i /\ P (pci_devices g !!! i) /\ forall k, (k < i)%nat -> ~ P (pci_devices g !!! k)
  | None => forall k, recorded k -> ~ P (pci_devices g !!! k)
  end.

Lemma find_from_match (P : pci_device -> Prop) (p : pci_device -> bool) (g : pci_globals) :
  table_ok g -> (forall d, device_ok d -> p d = true <-> P d) ->
  first_match P g (find_from (Z.to_nat (device_count g)) p (pci_devices g) 0).
Proof.
  intros Hg Hp. pose proof (to_length _ Hg) as Hl. pose proof (to_count _ Hg) as Hc.
  assert (HP : forall i, p (pci_devices g !!! i) = false -> ~ P (pci_devices g !!! i)).
  { intros i Hi HP. apply Hp in HP; [congruence|by apply entry_ok]. }
  pose proof (find_from_first (Z.to_nat (device_count g)) p (pci_devices g) 0) as Hf.
  rewrite Hl in Hf. specialize (Hf ltac:(lia)). unfold first_match.
  destruct (find_from _ _ _ _) as [i|].
  - destruct Hf as (? & Hi & Hb). split; [lia|]. split; [apply Hp; [by apply entry_ok|done]|].
    intros k Hk. apply HP, Hb. lia.
  - intros k Hk. apply HP, Hf. lia.
Qed.

(** pci_find_device and pci_find_class return the first recorded device with
    the two ids, or with the class code, or NULL when no recorded device has
    them; they change nothing. *)
Theorem pci_find_first (vendor device cc : Z) (s : kst) :
  let g := pci (plat s) in
  table_ok g ->
  (exists r, pci_find_device vendor device s = Ret r s
     /\ first_match (fun d => vendor_id d = vendor /\ device_id d = device) g r)
  /\ (exists r, pci_find_class cc s = Ret r s
     /\ first_match (fun d => class_code d * 65536 + subclass d * 256 + prog_if d = cc) g r).
Proof.
  intros g Hg. split; eexists; (split; [reflexivity|]); apply find_from_match; try done; intros d Hd.
  - rewrite andb_true_iff, !Z.eqb_eq. done.
  - rewrite class_of_val by done. apply Z.eqb_eq.
Qed.

Lemma pci_find_first_witness :
  let g := pci (plat PciExample.s) in
  (exists r, pci_find_device 0x8086 0x10D3 PciExample.s = Ret r PciExample.s
     /\ first_match (fun d => vendor_id d = 0x8086 /\ device_id d = 0x10D3) g r)
  /\ (exists r, pci_find_class PCI_CLASS_HDA PciExample.s = Ret r PciExample.s
     /\ first_match (fun d => class_code d * 65536 + subclass d * 256 + prog_if d = PCI_CLASS_HDA) g r).
Proof. apply (pci_find_first 0x8086 0x10D3 PCI_CLASS_HDA PciExample.s), PciExample.table_fine. Defined.

(** * BAR sizes *)

(** The size of a memory BAR: for a window of 2^k bytes, whose low k bits
    answer 0 and whose four flag bits are arbitrary, the code finds 2^k; for an
    I/O BAR of 8 bytes, with its two flag bits, it finds 16. *)
Theorem bar_size_of_memory (k flags : Z) :
  4 <= k < 32 -> 0 <= flags < 16 ->
  bar_size_of ((2 ^ 32 - 2 ^ k) .| flags) = 2 ^ k /\ bar_size_of ((2 ^ 32 - 2 ^ 3) .| 1) = 16.
Proof.
  intros Hk Hf. split; [|by vm_compute]. unfold bar_size_of.
  assert (Ek : 2 ^ 32 - 2 ^ k = (2 ^ (32 - k) - 1) * 2 ^ k).
  { rewrite Z.mul_sub_distr_r, <- Z.pow_add_r by lia. replace (32 - k + k) with 32 by lia. lia. }
  assert (E16 : (2 ^ 32 - 2 ^ k) mod 2 ^ 4 = 0).
  { rewrite Ek. replace k with (k - 4 + 4) at 2 by lia. rewrite Z.pow_add_r, Z.mul_assoc by lia.
    apply Z.mod_mul. lia. }
  assert (Hp : 2 ^ k < 2 ^ 32) by (apply Z.pow_lt_mono_r; lia).
  assert (Hp0 : 0 < 2 ^ k) by lia.
  rewrite (lor_add_disjoint _ flags 4) by (done || lia).
  change 0xFFFFFFF0 with (2 ^ 32 - 2 ^ 4).
  assert (Hp4 : 2 ^ 4 <= 2 ^ k) by (apply Z.pow_le_mono_r; lia).
  rewrite land_high by lia. change (2 ^ 4) with 16 in *.
  rewrite Zplus_mod, E16, Z.add_0_l, Z.mod_mod, (Z.mod_small flags) by lia.
  replace (2 ^ 32 - 2 ^ k + flags - flags) with (2 ^ 32 - 2 ^ k) by lia.
  unfold u32, Z.lnot. change 0x100000000 with (2 ^ 32).
  replace (Z.pred (- (2 ^ 32 - 2 ^ k))) with (2 ^ k - 1 + (-1) * 2 ^ 32) by lia.
  rewrite Z.mod_add, (Z.mod_small (2 ^ k - 1)), Z.mod_small by lia. lia.
Qed.

Lemma bar_size_of_memory_witness :
  bar_size_of ((2 ^ 32 - 2 ^ 14) .| 4) = 2 ^ 14 /\ bar_size_of ((2 ^ 32 - 2 ^ 3) .| 1) = 16.
Proof. apply (bar_size_of_memory 14 4); lia. Defined.
