(* ===== verification/PciScan.v ===== *)
(** The bus scan of pci.c against the machine's configuration space: the table
    lists the functions that are there. *)
From S2P Require Import Prelude Machine Globals Pmm PmmProps Pci PciProps.

(** What the scan records of a function, the BARs and the capabilities apart. *)
Definition identity (d : pci_device) : list Z :=
  [bus d; slot d; func d; vendor_id d; device_id d; class_code d; subclass d; prog_if d; revision d;
   irq_pin d; irq_line d].

Section scan.
Context (cfg : Z -> Z) (hw : list event -> hw_read -> Z) (fuel : nat).

(** A register of configuration space, and the ones that pci_init writes. *)
Definition reg (b sl f offset : Z) : Z := u32 (cfg (config_address b sl f offset)).
Definition is_bar (a : Z) : Prop := 0x10 <= a mod 256 < 0x28.

(** The data port is a window to the register whose address was last written; all
    but the BARs have the value [cfg]. *)
Definition static_window : Prop :=
  forall tr, ~ is_bar (selected tr) -> hw tr (RdIn 4 CONFIG_DATA) = cfg (selected tr).

(** ** The functions that are there, in the order of the scan *)
Definition place : Type := Z * Z * Z.
Definition present (p : place) : bool := let '(b, sl, f) := p in negb (reg b sl f 0 .& 0xFFFF =? 0xFFFF).
Definition multi_function (b sl : Z) : bool := truthy (((reg b sl 0 0x0E .>> 16) .& 0xFF) .& 0x80).
Definition functions (n : nat) (b sl f : Z) : list place :=
  filter (fun p => present p = true) (map (fun k => (b, sl, k)) (seqZ f (Z.of_nat n))).
Definition slot_functions (b sl : Z) : list place :=
  if present (b, sl, 0) then functions (if multi_function b sl then 8 else 1) b sl 0 else [].
Definition slots_functions (n : nat) (b sl : Z) : list place :=
  concat (map (slot_functions b) (seqZ sl (Z.of_nat n))).
Definition buses_functions (n : nat) (b : Z) : list place :=
  concat (map (fun b => slots_functions 32 b 0) (seqZ b (Z.of_nat n))).
Definition all_functions : list place := buses_functions 256 0.

Definition identity_at (p : place) : list Z :=
  let '(b, sl, f) := p in
  identity (set_identity b sl f (reg b sl f 0) (reg b sl f 0x08) (reg b sl f 0x3C) (reg b sl f 0x3D) no_device).

(** Each function's list of capabilities ends, behind the standard header. *)
Definition caps_end : Prop := forall b sl f, 0 <= b < 256 -> 0 <= sl < 32 -> 0 <= f < 8 -> present (b, sl, f) = true ->
  exists l, cap_chain (reg b sl f) (reg b sl f 0x34 .& 0xFF) l /\ (length l < fuel)%nat
    /\ Forall (fun p => 0x40 <= p) l.

Context (Hwin : static_window) (Hcaps : caps_end).

(** A fact about the result, for the rest of the run. *)
Lemma runs_pure {A} (X : Prop) (P : kst -> Prop) (m : M A) Q :
  (X -> runs P m Q) -> runs (fun s => X /\ P s) m Q.
Proof. intros H s [HX Hs]. by apply H. Qed.

(** ** Accesses *)
Definition table_is (g : pci_globals) (s : kst) : Prop := pci (plat s) = g.

Lemma any_read g b sl f offset : runs (table_is g) (pci_read hw b sl f offset) (fun _ => table_is g).
Proof. intros s Hs. by eexists _, _. Qed.
Lemma any_write g b sl f offset v : runs (table_is g) (pci_write b sl f offset v) (fun _ => table_is g).
Proof. intros s Hs. by eexists _, _. Qed.

Lemma static_read g b sl f offset :
  0 <= b < 256 -> 0 <= sl < 32 -> 0 <= f < 8 -> 0 <= offset < 0x10 \/ 0x28 <= offset < 256 ->
  runs (table_is g) (pci_read hw b sl f offset) (fun v s => v = reg b sl f offset /\ table_is g s).
Proof.
  intros Hb Hsl Hf Ho s Hs. eexists _, _. split; [reflexivity|]. split; [|done]. unfold reg. f_equal.
  apply (Hwin (EvOut 4 CONFIG_ADDR (config_address b sl f offset) :: trace s)). cbn [selected].
  rewrite !Z.eqb_refl. cbn [andb]. unfold is_bar. rewrite config_address_val by lia.
  change (2 ^ 31) with 2147483648. change (2 ^ 16) with 65536. change (2 ^ 11) with 2048. change (2 ^ 8) with 256.
  Z.div_mod_to_equations. lia.
Qed.

Tactic Notation "step" constr(L) simple_intropattern(v) := eapply runs_bind; [apply L|cbv beta; intros v].
Lemma bars_run g b sl f n i d :
  runs (table_is g) (bars_loop hw b sl f n i d) (fun d' s => identity d' = identity d /\ table_is g s).
Proof.
  revert i d. induction n as [|n IH]; intros i d; cbn [bars_loop]; [by apply runs_ret|].
  destruct (6 <=? i)%nat; [by apply runs_ret|].
  step any_read old. step any_write ?. step any_read sz. step any_write ?.
  destruct (_ || _); [apply (IH _ (set_bar _ _ _ _ _ d))|].
  destruct (truthy _); [|apply (IH _ (set_bar _ _ _ _ _ d))].
  step any_read hi. apply (IH _ (set_bar _ _ _ _ _ d)).
Qed.

Lemma caps_run g b sl f l n p d :
  0 <= b < 256 -> 0 <= sl < 32 -> 0 <= f < 8 -> 0 <= p < 256 ->
  cap_chain (reg b sl f) p l -> Forall (fun p => 0x40 <= p) l -> (length l < n)%nat ->
  runs (table_is g) (cap_loop hw b sl f n p d) (fun d' s => identity d' = identity d /\ table_is g s).
Proof.
  intros Hb Hsl Hf. revert p d n. induction l as [|q l IH]; intros p d n Hp Hl Hlow Hn;
    (destruct n as [|n]; [lia|]); inversion Hl; subst; cbn [cap_loop].
  - by apply runs_ret.
  - apply Forall_cons in Hlow as [? Hlow]. rewrite (proj2 (Z.eqb_neq _ _)) by done.
    eapply runs_bind; [apply static_read; lia|cbv beta]. intros v. apply runs_pure. intros ->.
    eapply runs_bind; [apply static_read; lia|cbv beta]. intros v. apply runs_pure. intros ->. simpl in Hn.
    replace (identity d) with (identity (if reg b sl f q .& 0xFF =? 5 then set_msi true q d else d))
      by (by destruct (_ =? 5)).
    apply IH; [apply land_byte|done|done|lia].
Qed.

(** ** The table *)
Record listing (L : list (list Z)) (g : pci_globals) : Prop := {
  ls_length : length (pci_devices g) = Z.to_nat MAX_PCI_DEVICES;
  ls_count : 0 <= device_count g <= MAX_PCI_DEVICES;
  ls_found : map identity (take (Z.to_nat (device_count g)) (pci_devices g)) = L;
}.
Definition lists (L : list (list Z)) (s : kst) : Prop := listing L (pci (plat s)).

Lemma listing_count L g : listing L g -> Z.of_nat (length L) = device_count g.
Proof.
  intros [Hl Hc <-]. rewrite length_map, length_take, Hl. unfold MAX_PCI_DEVICES in *. lia.
Qed.

Lemma listing_add L g d :
  listing L g -> device_count g < MAX_PCI_DEVICES ->
  listing (L ++ [identity d]) (PciGlobals (<[Z.to_nat (device_count g) := d]> (pci_devices g)) (device_count g + 1)).
Proof.
  intros [Hl Hc <-] Hlt. split; cbn [pci_devices device_count]; [by rewrite length_insert|lia|].
  replace (Z.to_nat (device_count g + 1)) with (S (Z.to_nat (device_count g))) by lia.
  rewrite (take_S_r _ _ d) by (apply list_lookup_insert_eq; rewrite Hl; lia).
  by rewrite map_app, take_insert_ge by lia.
Qed.

Lemma scan_function_run L b sl f :
  0 <= b < 256 -> 0 <= sl < 32 -> 0 <= f < 8 -> present (b, sl, f) = true ->
  runs (fun s => lists L s /\ device_count (pci (plat s)) < MAX_PCI_DEVICES)
    (scan_function hw b sl f fuel (reg b sl f 0)) (fun _ => lists (L ++ [identity_at (b, sl, f)])).
Proof.
  intros Hb Hsl Hf Hpr s [Hs Hlt]. unfold scan_function, get_pci. rewrite bind_gets.
  set (g := pci (plat s)) in *. unfold lists in Hs. fold g in Hs.
  set (s1 := set_plat (set_pci (PciGlobals (pci_devices g) (device_count g + 1)) (plat s)) s).
  match goal with |- context [(_ ;; ?K) s] => change ((_ ;; K) s) with (K s1); assert (Hrun :
    runs (table_is (PciGlobals (pci_devices g) (device_count g + 1))) K (fun _ => lists (L ++ [identity_at (b, sl, f)]))) end.
  2: by apply Hrun.
  destruct (Hcaps b sl f Hb Hsl Hf Hpr) as (l & Hl & Hfuel & Hlow).
  do 3 (eapply runs_bind; [apply static_read; lia|cbv beta]; intros ?; apply runs_pure; intros ->).
  eapply runs_bind; [apply bars_run|cbv beta]. intros d. apply runs_pure. intros Hd. cbv zeta.
  eapply runs_bind; [apply static_read; lia|cbv beta]. intros ?. apply runs_pure. intros ->.
  eapply runs_bind; [apply (caps_run _ b sl f l); try done; apply land_byte|cbv beta]. intros d'. apply runs_pure. intros Hd'.
  apply (runs_bind _ _ _ (fun _ => lists (L ++ [identity_at (b, sl, f)]))).
  - apply runs_modify. intros s' Hs'. unfold lists. cbn [plat set_plat pci set_pci]. rewrite Hs'. cbn [pci_devices device_count].
    replace (identity_at (b, sl, f)) with (identity d'); [by apply listing_add|]. rewrite Hd'.
    change (identity (set_msi false (msi_offset d) d)) with (identity d). by rewrite Hd.
  - cbv beta. intros _ s' Hs'. by eexists _, _.
Qed.

(** ** The loops *)
Lemma take_more {A} n (l1 l2 l3 : list A) : take n (take n (l1 ++ l2) ++ l3) = take n (l1 ++ l2 ++ l3).
Proof.
  rewrite app_assoc. destruct (Nat.le_gt_cases (length (l1 ++ l2)) n).
  - by rewrite (take_ge (l1 ++ l2)).
  - rewrite (take_app_le (take n _)) by (rewrite length_take; lia). rewrite take_take, Nat.min_id.
    by rewrite (take_app_le (l1 ++ l2)) by lia.
Qed.

Definition more (L : list (list Z)) (ps : list place) : list (list Z) :=
  take (Z.to_nat MAX_PCI_DEVICES) (L ++ map identity_at ps).

Lemma more_nil L s : lists L s -> lists (more L []) s.
Proof.
  intros Hs. pose proof (listing_count _ _ Hs) as Hn. pose proof (ls_count _ _ Hs).
  unfold more. by rewrite app_nil_r, take_ge by lia.
Qed.

Lemma more_app L ps qs : more (more L ps) qs = more L (ps ++ qs).
Proof. unfold more. by rewrite take_more, map_app. Qed.

(** When the table is full, or grew by the function found, the rest of the list is the same. *)
Lemma more_full L ps s : lists L s -> MAX_PCI_DEVICES <= device_count (pci (plat s)) -> lists (more L ps) s.
Proof.
  intros Hs Hm. pose proof (listing_count _ _ Hs) as Hn. pose proof (ls_count _ _ Hs).
  unfold more. by rewrite take_app_le, take_ge by lia.
Qed.
Lemma more_cons L p ps : more (L ++ [identity_at p]) ps = more L (p :: ps).
Proof. unfold more. by rewrite <- app_assoc. Qed.

Lemma functions_S n b sl f :
  functions (S n) b sl f = (if present (b, sl, f) then [(b, sl, f)] else []) ++ functions n b sl (f + 1).
Proof.
  unfold functions. rewrite Nat2Z.inj_succ, seqZ_cons by lia.
  replace (Z.pred (Z.succ (Z.of_nat n))) with (Z.of_nat n) by lia. cbn [map].
  destruct (present (b, sl, f)) eqn:E; [by rewrite filter_cons_True|by rewrite filter_cons_False by (by rewrite E)].
Qed.

(** The vendor word of a function, read while the table lists [L]. *)
Lemma read_listed L b sl f offset :
  0 <= b < 256 -> 0 <= sl < 32 -> 0 <= f < 8 -> 0 <= offset < 0x10 ->
  runs (lists L) (pci_read hw b sl f offset) (fun v s => v = reg b sl f offset /\ lists L s).
Proof.
  intros Hb Hsl Hf Ho s Hs. destruct (static_read (pci (plat s)) b sl f offset Hb Hsl Hf (or_introl Ho) s eq_refl)
    as (v & s' & E & -> & Ht). exists (reg b sl f offset), s'. split; [done|]. split; [done|].
  unfold lists. by rewrite Ht.
Qed.

Lemma func_loop_run n L b sl f :
  0 <= b < 256 -> 0 <= sl < 32 -> 0 <= f -> f + Z.of_nat n <= 8 ->
  runs (lists L) (func_loop hw fuel n b sl f) (fun _ => lists (more L (functions n b sl f))).
Proof.
  intros Hb Hsl. revert L f. induction n as [|n IH]; intros L f Hf Hn; cbn [func_loop].
  { apply runs_ret. apply more_nil. }
  eapply runs_bind; [apply read_listed; lia|cbv beta]. intros v. apply runs_pure. intros ->. rewrite functions_S.
  destruct (present (b, sl, f)) eqn:Hpr; pose proof Hpr as Hv; cbn in Hv.
  2: { apply negb_false_iff in Hv. rewrite Hv. apply IH; lia. }
  apply negb_true_iff in Hv. rewrite Hv. intros s Hs. unfold get_pci. rewrite bind_gets.
  destruct (Z.leb_spec MAX_PCI_DEVICES (device_count (pci (plat s)))) as [Hm|Hm].
  { exists tt, s. split; [done|]. by apply more_full. }
  destruct (scan_function_run L b sl f Hb Hsl ltac:(lia) Hpr s (conj Hs Hm)) as ([] & s1 & E1 & H1).
  rewrite (bind_ret _ _ _ _ _ E1). cbn [app]. rewrite <- more_cons. apply IH; [lia|lia|done].
Qed.

Lemma slot_loop_run n L b sl :
  0 <= b < 256 -> 0 <= sl -> sl + Z.of_nat n <= 32 ->
  runs (lists L) (slot_loop hw fuel n b sl) (fun _ => lists (more L (slots_functions n b sl))).
Proof.
  intros Hb. revert L sl. induction n as [|n IH]; intros L sl Hsl Hn; cbn [slot_loop].
  { apply runs_ret. apply more_nil. }
  unfold slots_functions. rewrite Nat2Z.inj_succ, seqZ_cons by lia. cbn [map concat].
  replace (Z.pred (Z.succ (Z.of_nat n))) with (Z.of_nat n) by lia. rewrite <- more_app.
  eapply runs_bind; [apply read_listed; lia|cbv beta]. intros v. apply runs_pure. intros ->.
  apply (runs_bind _ _ _ (fun _ => lists (more L (slot_functions b sl)))); [|intros _; apply IH; lia].
  unfold slot_functions. destruct (present (b, sl, 0)) eqn:Hpr; cbn in Hpr.
  2: { apply negb_false_iff in Hpr. rewrite Hpr. apply runs_ret. apply more_nil. }
  apply negb_true_iff in Hpr. rewrite Hpr.
  eapply runs_bind; [apply read_listed; lia|cbv beta]. intros v. apply runs_pure. intros ->.
  unfold multi_function. destruct (truthy _); apply func_loop_run; lia.
Qed.

Lemma bus_loop_run n L b :
  0 <= b -> b + Z.of_nat n <= 256 ->
  runs (lists L) (bus_loop hw fuel n b) (fun _ => lists (more L (buses_functions n b))).
Proof.
  revert L b. induction n as [|n IH]; intros L b Hb Hn; cbn [bus_loop].
  { apply runs_ret. apply more_nil. }
  unfold buses_functions. rewrite Nat2Z.inj_succ, seqZ_cons by lia. cbn [map concat].
  replace (Z.pred (Z.succ (Z.of_nat n))) with (Z.of_nat n) by lia. rewrite <- more_app.
  eapply runs_bind; [apply slot_loop_run; lia|cbv beta]. intros _. apply IH; lia.
Qed.

(** C24 pci_init implements the enumeration of the functions that are there.
    Whatever the BARs answer, when every other register of configuration space
    keeps its value and each function's list of capabilities ends, the scan of
    the empty table returns, and the table then lists exactly the functions of
    [all_functions], in the order bus, slot, function, the first 256 of them:
    functions 1 to 7 only behind a multi-function header, an absent function
    skipped, each entry with the numbers its registers hold. *)
Theorem pci_scan_complete s :
  length (pci_devices (pci (plat s))) = Z.to_nat MAX_PCI_DEVICES -> device_count (pci (plat s)) = 0 ->
  exists s', pci_init hw fuel s = Ret tt s'
    /\ device_count (pci (plat s')) = Z.min MAX_PCI_DEVICES (Z.of_nat (length all_functions))
    /\ map identity (take (Z.to_nat (device_count (pci (plat s')))) (pci_devices (pci (plat s'))))
       = take (Z.to_nat MAX_PCI_DEVICES) (map identity_at all_functions).
Proof.
  intros Hl H0.
  assert (Hrun : runs (lists []) (pci_init hw fuel) (fun _ => lists (more [] all_functions))).
  { unfold pci_init. apply (runs_bind _ _ _ (fun _ => lists [])); [by apply runs_modify|]. intros _.
    eapply runs_bind; [apply bus_loop_run; lia|cbv beta]. intros _ s1 H1. by eexists _, _. }
  destruct (Hrun s) as ([] & s' & E & Hs').
  { split; [done|rewrite H0; unfold MAX_PCI_DEVICES; lia|by rewrite H0]. }
  exists s'. split; [done|]. split; [|exact (ls_found _ _ Hs')].
  rewrite <- (listing_count _ _ Hs'). unfold more. rewrite app_nil_l, length_take, length_map. unfold MAX_PCI_DEVICES. lia.
Qed.
End scan.

(** A machine with three functions: a bridge at 0:2.0 whose header says that there
    may be more, its neighbour 0:2.2, and a device on bus 1; all have one capability. *)
Module ScanExample.
Definition known (p : Z) : bool := bool_decide (p ∈ [0x800010; 0x800012; 0x800100]).
Definition register (p offset : Z) : Z :=
  if offset =? 0 then 0x12348086 + p .<< 16 else if offset =? 0x08 then 0x06040001
  else if offset =? 0x0C then 0x00800000 else if offset =? 0x34 then 0x50
  else if offset =? 0x50 then 0x05 else if offset =? 0x3C then 0x010B else 0.
Definition cfg (a : Z) : Z := if known (a / 256) then register (a / 256) (a mod 256) else 0xFFFFFFFF.
Definition hw (tr : list event) (r : hw_read) : Z :=
  match r with RdIn 4 p => if p =? CONFIG_DATA then cfg (selected tr) else 0 | _ => 0 end.

Lemma reg_known b sl f offset :
  0 <= b < 256 -> 0 <= sl < 32 -> 0 <= f < 8 -> 0 <= offset < 256 ->
  let p := 0x800000 + b * 256 + sl * 8 + f in
  reg cfg b sl f offset = if known p then u32 (register p (4 * (offset / 4))) else 0xFFFFFFFF.
Proof.
  intros Hb Hsl Hf Ho p. unfold reg, cfg. rewrite config_address_val by done.
  replace ((2 ^ 31 + b * 2 ^ 16 + sl * 2 ^ 11 + f * 2 ^ 8 + 4 * (offset / 4)) / 256) with p
    by (change (2 ^ 31) with 2147483648; change (2 ^ 16) with 65536; change (2 ^ 11) with 2048; change (2 ^ 8) with 256;
        unfold p; Z.div_mod_to_equations; lia).
  replace ((2 ^ 31 + b * 2 ^ 16 + sl * 2 ^ 11 + f * 2 ^ 8 + 4 * (offset / 4)) mod 256) with (4 * (offset / 4))
    by (change (2 ^ 31) with 2147483648; change (2 ^ 16) with 65536; change (2 ^ 11) with 2048; change (2 ^ 8) with 256;
        Z.div_mod_to_equations; lia).
  by destruct (known p).
Qed.

Lemma window : static_window cfg hw.
Proof. by intros tr _. Qed.

Lemma caps : caps_end cfg 2.
Proof.
  intros b sl f Hb Hsl Hf Hpr. exists [0x50].
  assert (Hk : known (0x800000 + b * 256 + sl * 8 + f) = true).
  { cbn in Hpr. rewrite reg_known in Hpr by lia. by destruct (known _). }
  assert (E1 : reg cfg b sl f 0x34 = 0x50) by (by rewrite reg_known, Hk by lia).
  assert (E2 : reg cfg b sl f 0x50 = 0x05) by (by rewrite reg_known, Hk by lia).
  split; [|split; [simpl; lia|repeat constructor; lia]]. rewrite E1. cbn.
  constructor; [done|]. rewrite E2. cbn. constructor.
Qed.

Definition listed : list (list Z) := map (identity_at cfg) (all_functions cfg).
End ScanExample.

Lemma pci_scan_complete_witness :
  exists s', pci_init ScanExample.hw 2 PmmExample.s = Ret tt s' /\ device_count (pci (plat s')) = 3
    /\ map identity (take 3 (pci_devices (pci (plat s')))) = ScanExample.listed
    /\ map (take 3) ScanExample.listed = [[0; 2; 0]; [0; 2; 2]; [1; 0; 0]].
Proof.
  destruct (pci_scan_complete ScanExample.cfg ScanExample.hw 2 ScanExample.window ScanExample.caps PmmExample.s)
    as (s' & E & Hn & Hl); [by vm_compute|by vm_compute|]. exists s'. split; [exact E|].
  assert (E3 : length (all_functions ScanExample.cfg) = 3%nat) by (vm_compute; reflexivity).
  rewrite E3 in Hn. change (Z.min MAX_PCI_DEVICES (Z.of_nat 3)) with 3 in Hn. split; [exact Hn|]. rewrite Hn in Hl. split.
  - etransitivity; [exact Hl|]. vm_compute. reflexivity.
  - vm_compute. reflexivity.
Defined.
