(* ===== verification/Console.v ===== *)
(** console.c: the VGA text console and kprintf's formatting.

    The other files record a kprintf call as an event of the trace; here is what
    such a call does to the screen.  [cells] are the 16-bit words from
    [vga_buffer] on, whatever their index, so that a store outside the screen
    would show.  A character is a byte; a C [char] is signed. *)
From Stdlib Require Import Ascii.
From S2P Require Import Prelude Machine Globals.

(** * Characters *)
Definition chr (a : ascii) : Z := Z.of_N (N_of_ascii a).
Definition NL : Z := 10.
Definition CR : Z := 13.
Definition TAB : Z := 9.

(** The bytes of a C string literal, escapes decoded. *)
Fixpoint c_literal (s : string) : list Z :=
  match s with
  | EmptyString => []
  | String a s' =>
      if chr a =? chr "\"%char then
        match s' with
        | String b s'' =>
            (if chr b =? chr "n"%char then NL else if chr b =? chr "r"%char then CR
             else if chr b =? chr "t"%char then TAB else chr b) :: c_literal s''
        | EmptyString => [chr a]
        end
      else chr a :: c_literal s'
  end.

(** * The static variables of console.c *)
Definition VGA_WIDTH : Z := 80.
Definition VGA_HEIGHT : Z := 25.
Definition BLANK : Z := 0x0720.

Record console := Console {
  cells : gmap Z Z;
  cursor_x : Z;
  cursor_y : Z;
  fb_virt : Z;
  fb_width : Z;
  fb_height : Z;
  fb_pitch : Z;
  fb_bpp : Z;
  fg_color : Z;
  bg_color : Z;
}.

Definition set_cells (x : gmap Z Z) (c : console) : console :=
  Console x (cursor_x c) (cursor_y c) (fb_virt c) (fb_width c) (fb_height c) (fb_pitch c) (fb_bpp c)
    (fg_color c) (bg_color c).
Definition set_cursor (x y : Z) (c : console) : console :=
  Console (cells c) x y (fb_virt c) (fb_width c) (fb_height c) (fb_pitch c) (fb_bpp c)
    (fg_color c) (bg_color c).

Definition console_initial : console := Console ∅ 0 0 0 0 0 0 32 0xFFFFFF 0x000000.

Definition cell (m : gmap Z Z) (i : Z) : Z := default 0 (m !! i).

(** * Initialisation *)
Fixpoint clear_loop (n : nat) (i : Z) (m : gmap Z Z) : gmap Z Z :=
  match n with O => m | S n' => clear_loop n' (i + 1) (<[i := BLANK]> m) end.

Definition console_early_init (c : console) : console :=
  set_cursor 0 0 (set_cells (clear_loop (Z.to_nat (80 * 25)) 0 (cells c)) c).

Definition console_set_framebuffer (fb w h pitch bpp : Z) (c : console) : console :=
  Console (cells c) (cursor_x c) (cursor_y c) fb w h pitch bpp (fg_color c) (bg_color c).

(** * vga_putchar *)

(** A [char] promoted to [int]. *)
Definition s8 (ch : Z) : Z := if ch <? 0x80 then ch else ch - 0x100.

Definition vga_cell (fg bg ch : Z) : Z := u16 (u16 (s8 ch) .| u32 (fg .<< 8) .| u32 (bg .<< 12)).

Fixpoint scroll_row (n : nat) (y x : Z) (m : gmap Z Z) : gmap Z Z :=
  match n with
  | O => m
  | S n' => scroll_row n' y (x + 1) (<[y * VGA_WIDTH + x := cell m ((y + 1) * VGA_WIDTH + x)]> m)
  end.
Fixpoint scroll_rows (width n : nat) (y : Z) (m : gmap Z Z) : gmap Z Z :=
  match n with
  | O => m
  | S n' => scroll_rows width n' (y + 1) (scroll_row width y 0 m)
  end.
Fixpoint blank_row (n : nat) (x : Z) (m : gmap Z Z) : gmap Z Z :=
  match n with
  | O => m
  | S n' => blank_row n' (x + 1) (<[(VGA_HEIGHT - 1) * VGA_WIDTH + x := BLANK]> m)
  end.
Definition scroll (m : gmap Z Z) : gmap Z Z :=
  blank_row (Z.to_nat VGA_WIDTH) 0 (scroll_rows (Z.to_nat VGA_WIDTH) (Z.to_nat (VGA_HEIGHT - 1)) 0 m).

(** The character itself. *)
Definition vga_place (ch : Z) (c : console) : console :=
  if ch =? NL then set_cursor 0 (cursor_y c + 1) c
  else if ch =? CR then set_cursor 0 (cursor_y c) c
  else if ch =? TAB then set_cursor ((cursor_x c + 4) .& Z.lnot 3) (cursor_y c) c
  else
    let idx := cursor_y c * VGA_WIDTH + cursor_x c in
    set_cursor (cursor_x c + 1) (cursor_y c)
      (set_cells (<[idx := vga_cell (fg_color c) (bg_color c) ch]> (cells c)) c).

(** The end of a line, then the end of the screen. *)
Definition vga_wrap (c : console) : console :=
  if VGA_WIDTH <=? cursor_x c then set_cursor 0 (cursor_y c + 1) c else c.
Definition vga_scroll (c : console) : console :=
  if VGA_HEIGHT <=? cursor_y c
  then set_cursor (cursor_x c) (VGA_HEIGHT - 1) (set_cells (scroll (cells c)) c) else c.

Definition vga_putchar (ch : Z) (c : console) : console := vga_scroll (vga_wrap (vga_place ch c)).

Definition fb_putchar (ch : Z) (c : console) : console :=
  if fb_virt c =? 0 then vga_putchar ch c
  else
    let c := if ch =? NL then set_cursor 0 (cursor_y c + 16) c
             else if negb (ch =? CR) && negb (ch =? TAB) then set_cursor (cursor_x c + 8) (cursor_y c) c
             else c in
    let c := if fb_width c <=? cursor_x c then set_cursor 0 (cursor_y c + 16) c else c in
    if fb_height c <=? cursor_y c then set_cursor (cursor_x c) 0 c else c.

Definition puts (chars : list Z) (c : console) : console := foldl (fun c ch => vga_putchar ch c) c chars.

(** * Numbers *)
Definition hex_digit (d : Z) : Z := if d <? 10 then 48 + d else 55 + d.

(** The digits [i = n-1 .. 0] of [val]. *)
Fixpoint hex_digits (n : nat) (val : Z) : list Z :=
  match n with
  | O => []
  | S i => hex_digit ((val .>> (Z.of_nat i * 4)) .& 0xF) :: hex_digits i val
  end.
Definition print_hex (val digits : Z) (c : console) : console := puts (hex_digits (Z.to_nat digits) val) c.

(** [buf] filled from index 30 down; [n] slots are left. *)
Fixpoint dec_loop (n : nat) (val : Z) (buf : list Z) : list Z :=
  match n with
  | O => buf
  | S n' => if truthy val then dec_loop n' (val / 10) ((48 + val mod 10) :: buf) else buf
  end.
Definition dec_digits (val : Z) : list Z := if val =? 0 then [48] else dec_loop 31 val [].
Definition print_dec (val : Z) (c : console) : console := puts (dec_digits val) c.

(** * kvprintf *)

(** The bytes of the C string at [s]; [None] when the fuel is used up. *)
Fixpoint c_bytes (fuel : nat) (m : gmap Z Z) (s : Z) : option (list Z) :=
  match fuel with
  | O => None
  | S f =>
      let ch := load8 m (lin s) in
      if truthy ch then l ← c_bytes f m (s + 1); Some (ch :: l) else Some []
  end.

(** va_arg: an argument that is missing or of another type is undefined. *)
Definition va_int (args : list karg) : option (Z * list karg) :=
  match args with AInt z :: r => Some (z, r) | _ => None end.

(** The argument of %s: a literal, or a pointer. *)
Definition va_str (fuel : nat) (m : gmap Z Z) (args : list karg) : option (list Z * list karg) :=
  match args with
  | AStr s :: r => Some (c_literal s, r)
  | AInt p :: r => if p =? 0 then Some ([], r) else l ← c_bytes fuel m p; Some (l, r)
  | [] => None
  end.

Section kvprintf.
Variables (fuel : nat) (m : gmap Z Z).

Fixpoint kvprintf (fmt : list Z) (args : list karg) (c : console) : option console :=
  match fmt with
  | [] => Some c
  | a :: fmt' =>
      if a =? chr "%"%char then
        match fmt' with
        | [] => Some (vga_putchar a c)
        | f :: fmt'' =>
            if f =? chr "s"%char then
              '(l, args) ← va_str fuel m args; kvprintf fmt'' args (puts l c)
            else if (f =? chr "d"%char) || (f =? chr "i"%char) then
              '(z, args) ← va_int args; kvprintf fmt'' args (print_dec (u64 (i32 z)) c)
            else if f =? chr "u"%char then
              '(z, args) ← va_int args; kvprintf fmt'' args (print_dec (u32 z) c)
            else if f =? chr "x"%char then
              '(z, args) ← va_int args; kvprintf fmt'' args (print_hex (u32 z) 8 c)
            else if f =? chr "l"%char then
              match fmt'' with
              | g :: fmt3 =>
                  if g =? chr "x"%char then
                    '(z, args) ← va_int args; kvprintf fmt3 args (print_hex (u64 z) 16 c)
                  else if g =? chr "u"%char then
                    '(z, args) ← va_int args; kvprintf fmt3 args (print_dec (u64 z) c)
                  else kvprintf fmt'' args c
              | [] => kvprintf fmt'' args c
              end
            else if f =? chr "p"%char then
              '(z, args) ← va_int args;
              kvprintf fmt'' args (print_hex (u64 z) 16 (vga_putchar (chr "x"%char) (vga_putchar (chr "0"%char) c)))
            else if f =? chr "c"%char then
              '(z, args) ← va_int args; kvprintf fmt'' args (vga_putchar (u8 z) c)
            else if f =? chr "%"%char then kvprintf fmt'' args (vga_putchar f c)
            else kvprintf fmt'' args (vga_putchar f (vga_putchar (chr "%"%char) c))
        end
      else kvprintf fmt' args (vga_putchar a c)
  end.

(** What a kprintf event of the trace does. *)
Definition kprintf_on (fmt : string) (args : list karg) (c : console) : option console :=
  kvprintf (c_literal fmt) args c.
End kvprintf.

(** What kernel_panic prints before it halts. *)
Definition panic_screen (msg : string) (c : console) : option console :=
  kprintf_on 0 ∅ "\n\n!!! KERNEL PANIC !!!\n%s\nSystem halted.\n" [AStr msg] c.

Definition rgb_to_color (r g b : Z) : Z := u32 ((r .<< 16) .| (g .<< 8) .| b).
