(* ===== verification/ConsoleProps.v ===== *)
(** Properties of console.c: the screen as a terminal of 25 rows, kprintf's
    formatting and its number conversions, each with a witness. *)
From Stdlib Require Import Ascii.
From S2P Require Import Prelude Machine Globals Console.

(** * The loops of the scroll *)
Lemma cell_insert m i v j : cell (<[i := v]> m) j = if i =? j then v else cell m j.
Proof.
  unfold cell. destruct (Z.eqb_spec i j) as [->|]; [by rewrite lookup_insert_eq|by rewrite lookup_insert_ne].
Qed.

Definition in_range (lo hi i : Z) : bool := (lo <=? i) && (i <? hi).

Lemma in_range_spec lo hi i : BoolSpec (lo <= i < hi) (~ lo <= i < hi) (in_range lo hi i).
Proof.
  unfold in_range. destruct (Z.leb_spec lo i), (Z.ltb_spec i hi); constructor; lia.
Qed.

Ltac ranges :=
  repeat match goal with
  | |- context [in_range ?a ?b ?c] => destruct (in_range_spec a b c)
  | |- context [?a =? ?b] => destruct (Z.eqb_spec a b)
  end.

Lemma scroll_row_cell n y x m i :
  (n <= 80)%nat ->
  cell (scroll_row n y x m) i
  = if in_range (y * 80 + x) (y * 80 + x + Z.of_nat n) i then cell m (i + 80) else cell m i.
Proof.
  unfold VGA_WIDTH. revert x m. induction n as [|n IH]; intros x m Hn.
  - ranges; [lia|done].
  - cbn [scroll_row]. unfold VGA_WIDTH. rewrite IH by lia. rewrite !cell_insert.
    ranges; try lia; try done; f_equal; lia.
Qed.

Lemma scroll_rows_cell w n y m i :
  w = 80%nat ->
  cell (scroll_rows w n y m) i
  = if in_range (y * 80) ((y + Z.of_nat n) * 80) i then cell m (i + 80) else cell m i.
Proof.
  intros Hw. revert y m. induction n as [|n IH]; intros y m.
  - ranges; [lia|done].
  - cbn [scroll_rows]. rewrite IH. rewrite !scroll_row_cell by lia. ranges; try lia; done.
Qed.

Lemma blank_row_cell n x m i :
  cell (blank_row n x m) i = if in_range (1920 + x) (1920 + x + Z.of_nat n) i then BLANK else cell m i.
Proof.
  revert x m. induction n as [|n IH]; intros x m.
  - ranges; [lia|done].
  - cbn [blank_row]. rewrite IH, cell_insert. unfold VGA_WIDTH, VGA_HEIGHT. ranges; try lia; done.
Qed.

Lemma scroll_cell m i :
  cell (scroll m) i
  = if in_range 0 1920 i then cell m (i + 80) else if in_range 1920 2000 i then BLANK else cell m i.
Proof.
  assert (Hw : Z.to_nat VGA_WIDTH = 80%nat) by done.
  assert (Hh : Z.to_nat (VGA_HEIGHT - 1) = 24%nat) by done.
  unfold scroll. revert Hw Hh. generalize (Z.to_nat VGA_WIDTH) (Z.to_nat (VGA_HEIGHT - 1)). intros w h Hw Hh.
  rewrite blank_row_cell, (scroll_rows_cell w) by done.
  ranges; try lia; done.
Qed.

(** * The screen as rows *)
Definition row_of (m : gmap Z Z) (y : Z) : list Z := (fun x => cell m (y * 80 + x)) <$> seqZ 0 80.
Definition screen (m : gmap Z Z) : list (list Z) := row_of m <$> seqZ 0 25.

Lemma row_ext m m' y y' :
  (forall x, 0 <= x < 80 -> cell m (y * 80 + x) = cell m' (y' * 80 + x)) -> row_of m y = row_of m' y'.
Proof.
  intros H. unfold row_of. apply list_fmap_ext. intros i x [-> Hi]%lookup_seqZ. apply H. lia.
Qed.

Lemma screen_scroll m : screen (scroll m) = tl (screen m) ++ [replicate 80 BLANK].
Proof.
  unfold screen. change (seqZ 0 25) with (seqZ 0 24 ++ [24]) at 1. rewrite fmap_app. f_equal.
  - change (tl (row_of m <$> seqZ 0 25)) with (row_of m <$> (Z.succ <$> seqZ 0 24)).
    rewrite <- list_fmap_compose. apply list_fmap_ext. intros i y [-> Hi]%lookup_seqZ. simpl.
    apply row_ext. intros x Hx. rewrite scroll_cell. ranges; try lia. f_equal. lia.
  - cbn [fmap list_fmap]. f_equal. unfold row_of. transitivity ((fun _ => BLANK) <$> seqZ 0 80); [|done].
    apply list_fmap_ext. intros i x [-> Hi]%lookup_seqZ. rewrite scroll_cell. ranges; try lia; done.
Qed.

Lemma row_insert m x y y' v :
  0 <= x < 80 ->
  row_of (<[y * 80 + x := v]> m) y'
  = if y =? y' then <[Z.to_nat x := v]> (row_of m y) else row_of m y'.
Proof.
  intros Hx. destruct (Z.eqb_spec y y') as [<-|Hne].
  - unfold row_of. apply list_eq. intros i. rewrite list_lookup_fmap.
    destruct (decide (i = Z.to_nat x)) as [->|Hi].
    + rewrite list_lookup_insert_eq by (rewrite length_fmap, length_seqZ; lia).
      rewrite lookup_seqZ_lt by lia. cbn [fmap option_fmap option_map]. rewrite cell_insert. f_equal.
      by tests.
    + rewrite list_lookup_insert_ne, list_lookup_fmap by done. destruct (seqZ 0 80 !! i) as [j|] eqn:E; [|done].
      apply lookup_seqZ in E as [-> Hj]. cbn [fmap option_fmap option_map]. rewrite cell_insert. f_equal. test_false. done.
  - apply row_ext. intros j Hj. rewrite cell_insert. by test_false.
Qed.

Lemma screen_insert m x y v :
  0 <= x < 80 -> 0 <= y < 25 ->
  screen (<[y * 80 + x := v]> m) = alter (fun r => <[Z.to_nat x := v]> r) (Z.to_nat y) (screen m).
Proof.
  intros Hx Hy. unfold screen. apply list_eq. intros i.
  destruct (decide (i = Z.to_nat y)) as [->|Hi].
  - rewrite list_lookup_alter_eq, !list_lookup_fmap, lookup_seqZ_lt by lia. cbn [fmap option_fmap option_map].
    rewrite row_insert by done. replace (0 + Z.of_nat (Z.to_nat y)) with y by lia. by rewrite Z.eqb_refl.
  - rewrite list_lookup_alter_ne, !list_lookup_fmap by done. destruct (seqZ 0 25 !! i) as [j|] eqn:E; [|done].
    apply lookup_seqZ in E as [-> Hj]. cbn [fmap option_fmap option_map]. rewrite row_insert by done.
    by test_false.
Qed.

(** * The abstract terminal *)
Record term := Term { rows : list (list Z); col : Z; row : Z }.

(** A character at the cursor; control characters move it. *)
Definition term_place (v ch : Z) (t : term) : term :=
  if ch =? NL then Term (rows t) 0 (row t + 1)
  else if ch =? CR then Term (rows t) 0 (row t)
  else if ch =? TAB then Term (rows t) (4 * (col t / 4) + 4) (row t)
  else Term (alter (fun r => <[Z.to_nat (col t) := v]> r) (Z.to_nat (row t)) (rows t)) (col t + 1) (row t).
(** A full line wraps; below the last row everything moves up by one. *)
Definition term_wrap (t : term) : term := if 80 <=? col t then Term (rows t) 0 (row t + 1) else t.
Definition term_scroll (t : term) : term :=
  if 25 <=? row t then Term (tl (rows t) ++ [replicate 80 BLANK]) (col t) 24 else t.
Definition term_put (v ch : Z) (t : term) : term := term_scroll (term_wrap (term_place v ch t)).

Definition term_of (c : console) : term := Term (screen (cells c)) (cursor_x c) (cursor_y c).

(** The cursor is on the screen. *)
Record console_ok (c : console) : Prop := {
  co_x : 0 <= cursor_x c < 80;
  co_y : 0 <= cursor_y c < 25;
}.

(** Only the screen differs. *)
Record on_screen (c c' : console) : Prop := {
  os_cells : forall i, i < 0 \/ 2000 <= i -> cell (cells c') i = cell (cells c) i;
  os_fg : fg_color c' = fg_color c;
  os_bg : bg_color c' = bg_color c;
}.

#[export] Instance on_screen_preorder : PreOrder on_screen.
Proof.
  split; [by split|]. intros c1 c2 c3 [H1 F1 B1] [H2 F2 B2].
  split; [intros i Hi; by rewrite H2, H1|congruence..].
Qed.

Lemma tab_stop x : 0 <= x < 80 -> (x + 4) .& Z.lnot 3 = 4 * (x / 4) + 4.
Proof.
  intros Hx. change (Z.lnot 3) with (Z.lnot (Z.ones 2)).
  rewrite <- Z.ldiff_land, Z.ldiff_ones_r, Z.shiftr_div_pow2, Z.shiftl_mul_pow2 by lia.
  change (2 ^ 2) with 4. Z.div_mod_to_equations; lia.
Qed.

Section putchar.
Context (c : console) (Hc : console_ok c) (ch : Z).
Let c1 : console := vga_place ch c.

Lemma place_spec :
  term_of c1 = term_place (vga_cell (fg_color c) (bg_color c) ch) ch (term_of c)
  /\ 0 <= cursor_x c1 <= 83 /\ 0 <= cursor_y c1 <= 25 /\ (cursor_y c1 = 25 -> cursor_x c1 = 0)
  /\ on_screen c c1.
Proof.
  destruct Hc as [Hx Hy]. unfold c1, vga_place, term_place, term_of. cbn [rows col row].
  destruct (ch =? NL); [|destruct (ch =? CR); [|destruct (ch =? TAB)]];
    cbn [cursor_x cursor_y cells set_cursor set_cells].
  1-2: (split; [done|]; split; [lia|]; split; [lia|]; split; [lia|by split]).
  - rewrite tab_stop by done. split; [done|]. split; [Z.div_mod_to_equations; lia|].
    split; [lia|]. split; [lia|by split].
  - unfold VGA_WIDTH. rewrite screen_insert by done. split; [done|]. split; [lia|]. split; [lia|].
    split; [lia|]. split; [|done..]. intros i Hi. cbn [cells set_cursor set_cells].
    rewrite cell_insert. by test_false.
Qed.

Lemma putchar_spec :
  term_of (vga_putchar ch c) = term_put (vga_cell (fg_color c) (bg_color c) ch) ch (term_of c)
  /\ console_ok (vga_putchar ch c) /\ on_screen c (vga_putchar ch c).
Proof.
  destruct place_spec as (Ht & Hx & Hy & Hyx & Hs). unfold vga_putchar, term_put. rewrite <- Ht.
  fold c1. clearbody c1. unfold vga_wrap, vga_scroll, term_wrap, term_scroll, VGA_WIDTH, VGA_HEIGHT.
  cbn [term_of rows col row].
  assert (Hscroll : forall c2, cursor_y c2 = 25 -> 0 <= cursor_x c2 < 80 -> on_screen c c2 ->
    let c3 := set_cursor (cursor_x c2) (25 - 1) (set_cells (scroll (cells c2)) c2) in
    term_of c3 = Term (tl (screen (cells c2)) ++ [replicate 80 BLANK]) (cursor_x c2) 24
    /\ console_ok c3 /\ on_screen c c3).
  { intros c2 E2 Hx2 H2. cbn zeta. unfold term_of. cbn [cursor_x cursor_y cells set_cursor set_cells].
    rewrite screen_scroll. split; [done|]. split; [split; cbn; lia|].
    transitivity c2; [done|]. split; [|done..]. intros i Hi. cbn [cells set_cursor set_cells].
    rewrite scroll_cell. ranges; try lia; done. }
  destruct (Z.leb_spec 80 (cursor_x c1)).
  - cbn [cursor_y set_cursor term_of rows col row]. destruct (Z.leb_spec 25 (cursor_y c1 + 1)).
    + apply (Hscroll (set_cursor 0 (cursor_y c1 + 1) c1)); cbn; [lia|lia|]. destruct Hs. by split.
    + split; [done|]. split; [split; cbn; lia|]. destruct Hs. by split.
  - cbn [term_of rows col row]. destruct (Z.leb_spec 25 (cursor_y c1)).
    + apply Hscroll; [lia|lia|done].
    + split; [done|]. split; [split; lia|done].
Qed.
End putchar.

(** C22 vga_putchar refines a terminal of 25 rows of 80 cells: a character is put
    at the cursor, newline, carriage return and tab move it, a full line wraps and
    the last line scrolls the rows up; the cursor stays on the screen and no cell
    outside the 2000 of the screen is written. *)
Theorem vga_putchar_refines (ch : Z) (c : console) :
  console_ok c ->
  term_of (vga_putchar ch c) = term_put (vga_cell (fg_color c) (bg_color c) ch) ch (term_of c)
  /\ console_ok (vga_putchar ch c) /\ on_screen c (vga_putchar ch c).
Proof. intros Hc. by apply putchar_spec. Qed.

Lemma early_init_ok c : console_ok (console_early_init c).
Proof. split; cbn [console_early_init cursor_x cursor_y set_cursor]; lia. Qed.

Lemma vga_putchar_refines_witness :
  let c := console_early_init console_initial in
  term_of (vga_putchar 75 c) = term_put (vga_cell (fg_color c) (bg_color c) 75) 75 (term_of c)
  /\ console_ok (vga_putchar 75 c) /\ on_screen c (vga_putchar 75 c).
Proof. apply (vga_putchar_refines 75 (console_early_init console_initial)), early_init_ok. Defined.

(** With the colors the console starts with, every character is a white glyph on
    a white background: the attribute byte is 0xFF. *)
Lemma vga_white_on_white ch : 0 <= ch < 256 -> vga_cell 0xFFFFFF 0 ch / 256 = 255.
Proof.
  intros Hch. unfold vga_cell, s8. change (u32 (0 .<< 12)) with 0. rewrite Z.lor_0_r.
  change (u32 (0xFFFFFF .<< 8)) with (16777215 * 2 ^ 8). rewrite Z.lor_comm.
  destruct (Z.ltb_spec ch 0x80).
  - rewrite (u16_small ch) by lia. rewrite (lor_add_disjoint _ ch 8) by (rewrite ?Z.mod_mul; lia).
    change (2 ^ 8) with 256. unfold u16. Z.div_mod_to_equations; lia.
  - replace (u16 (ch - 256)) with (65280 + ch) by (unfold u16; Z.div_mod_to_equations; lia).
    replace (65280 + ch) with ((255 * 2 ^ 8) .| ch)
      by (rewrite (lor_add_disjoint (255 * 2 ^ 8) ch 8) by (rewrite ?Z.mod_mul; lia); lia).
    rewrite Z.lor_assoc. change (16777215 * 2 ^ 8 .| 255 * 2 ^ 8) with (16777215 * 2 ^ 8).
    rewrite (lor_add_disjoint _ ch 8) by (rewrite ?Z.mod_mul; lia).
    change (2 ^ 8) with 256. unfold u16. Z.div_mod_to_equations; lia.
Qed.

(** * kprintf *)
Definition term_puts (fg bg : Z) (text : list Z) (t : term) : term :=
  foldl (fun t ch => term_put (vga_cell fg bg ch) ch t) t text.

Lemma puts_app l1 l2 c : puts (l1 ++ l2) c = puts l2 (puts l1 c).
Proof. apply foldl_app. Qed.

Lemma puts_spec text c :
  console_ok c ->
  term_of (puts text c) = term_puts (fg_color c) (bg_color c) text (term_of c)
  /\ console_ok (puts text c) /\ on_screen c (puts text c).
Proof.
  revert c. induction text as [|ch text IH]; intros c Hc; [done|].
  destruct (putchar_spec c Hc ch) as (Ht & Hok & Hs). destruct (IH _ Hok) as (Ht' & Hok' & Hs').
  change (puts (ch :: text) c) with (puts text (vga_putchar ch c)). split; [|split; [done|by transitivity (vga_putchar ch c)]].
  rewrite Ht', Ht. destruct Hs as [_ -> ->]. done.
Qed.

(** * Numbers *)
Definition dec_val (l : list Z) : Z := foldl (fun a d => 10 * a + (d - 48)) 0 l.
Definition hex_val (l : list Z) : Z :=
  foldl (fun a d => 16 * a + (if d <? 58 then d - 48 else d - 55)) 0 l.

Lemma dec_loop_spec n val buf k :
  0 <= val < 10 ^ Z.of_nat n -> val < 10 ^ Z.of_nat k ->
  exists l, dec_loop n val buf = l ++ buf /\ dec_val l = val /\ Forall (fun d => 48 <= d <= 57) l
    /\ (length l <= k)%nat /\ (l = [] \/ hd 0 l <> 48) /\ (l = [] -> val = 0).
Proof.
  revert val buf k. induction n as [|n IH]; intros val buf k Hv Hk.
  - exists []. simpl in Hv. split; [done|]. split; [cbn; lia|]. split; [done|]. split; [simpl; lia|].
    split; [by left|lia].
  - cbn [dec_loop]. unfold truthy. destruct (Z.eqb_spec val 0) as [->|Hne].
    { exists []. split_and!; first [done | by left | simpl; lia]. }
    cbn [negb]. destruct k as [|k]; [simpl in Hk; lia|].
    rewrite Nat2Z.inj_succ, Z.pow_succ_r in Hv, Hk by lia.
    destruct (IH (val / 10) ((48 + val mod 10) :: buf) k) as (l & E & Ev & Hd & Hl & Hh & H0);
      [split; [apply Z.div_pos; lia|apply Z.div_lt_upper_bound; lia]|apply Z.div_lt_upper_bound; lia|].
    exists (l ++ [48 + val mod 10]). pose proof (Z.mod_pos_bound val 10).
    split; [by rewrite <- app_assoc|]. split.
    { unfold dec_val in *. rewrite foldl_app, Ev. cbn [foldl]. pose proof (Z.div_mod val 10). lia. }
    split; [apply Forall_app; split; [done|constructor; [lia|constructor]]|].
    split; [rewrite length_app; simpl; lia|]. split; [|by intros []%app_nil].
    right. destruct l as [|d l]; [|by destruct Hh].
    simpl. specialize (H0 eq_refl). pose proof (Z.div_mod val 10). lia.
Qed.

Lemma hex_digit_spec d :
  0 <= d < 16 -> (48 <= hex_digit d <= 57 \/ 65 <= hex_digit d <= 70)
  /\ (if hex_digit d <? 58 then hex_digit d - 48 else hex_digit d - 55) = d.
Proof.
  intros Hd. unfold hex_digit. destruct (Z.ltb_spec d 10).
  - split; [lia|]. test_true. lia.
  - split; [lia|]. test_false. lia.
Qed.

Lemma hex_fold l a :
  foldl (fun a d => 16 * a + (if d <? 58 then d - 48 else d - 55)) a l = a * 16 ^ Z.of_nat (length l) + hex_val l.
Proof.
  unfold hex_val. revert a. induction l as [|d l IH]; intros a; cbn [foldl length]; [lia|].
  rewrite IH, (IH (16 * 0 + _)). rewrite Nat2Z.inj_succ, Z.pow_succ_r by lia. lia.
Qed.

Lemma hex_digits_spec n val :
  0 <= val -> length (hex_digits n val) = n
  /\ hex_val (hex_digits n val) = val mod 16 ^ Z.of_nat n
  /\ Forall (fun d => 48 <= d <= 57 \/ 65 <= d <= 70) (hex_digits n val).
Proof.
  intros Hv. induction n as [|n (IHl & IHv & IHd)]; [split; [done|]; split; [by rewrite Z.mod_1_r|done]|].
  cbn [hex_digits]. set (d := (val .>> (Z.of_nat n * 4)) .& 0xF).
  assert (Ed : d = val / 16 ^ Z.of_nat n mod 16).
  { unfold d. change 0xF with (2 ^ 4 - 1). rewrite land_low, Z.shiftr_div_pow2 by lia.
    rewrite Z.mul_comm, Z.pow_mul_r by lia. done. }
  assert (Hd : 0 <= d < 16) by (rewrite Ed; apply Z.mod_pos_bound; lia).
  destruct (hex_digit_spec d Hd) as [Hr Hx].
  split; [cbn [length]; by rewrite IHl|]. split; [|by constructor].
  unfold hex_val. cbn [foldl]. rewrite hex_fold, IHl, Hx, IHv, Ed.
  rewrite Nat2Z.inj_succ, Z.pow_succ_r by lia. pose proof (Z.pow_pos_nonneg 16 (Z.of_nat n)).
  rewrite (Z.mul_comm 16 (16 ^ _)), Z.rem_mul_r by lia. lia.
Qed.

(** C37 The numbers kprintf prints read back: for every 64-bit value print_dec
    gives its decimal digits, at most 20 of the 32 bytes of the buffer, without a
    leading zero, and print_hex with n digits gives the value modulo 16^n. *)
Theorem numbers_roundtrip (v : Z) (n : nat) :
  0 <= v < 2 ^ 64 ->
  (dec_val (dec_digits v) = v /\ Forall (fun d => 48 <= d <= 57) (dec_digits v)
   /\ (1 <= length (dec_digits v) <= 20)%nat /\ (v <> 0 -> hd 0 (dec_digits v) <> 48))
  /\ length (hex_digits n v) = n /\ hex_val (hex_digits n v) = v mod 16 ^ Z.of_nat n
  /\ Forall (fun d => 48 <= d <= 57 \/ 65 <= d <= 70) (hex_digits n v).
Proof.
  intros Hv. split; [|apply hex_digits_spec; lia]. unfold dec_digits.
  destruct (Z.eqb_spec v 0) as [->|Hne]; [split_and!; first [done | simpl; lia | by repeat constructor; lia]|].
  destruct (dec_loop_spec 31 v [] 20) as (l & -> & Ev & Hd & Hl & Hh & H0); [simpl; lia|simpl; lia|].
  rewrite app_nil_r. split; [done|]. split; [done|].
  destruct l as [|d l]; [by specialize (H0 eq_refl)|]. split; [simpl in *; lia|]. intros _. by destruct Hh.
Qed.

Lemma numbers_roundtrip_witness :
  (dec_val (dec_digits 1234567) = 1234567 /\ Forall (fun d => 48 <= d <= 57) (dec_digits 1234567)
   /\ (1 <= length (dec_digits 1234567) <= 20)%nat /\ (1234567 <> 0 -> hd 0 (dec_digits 1234567) <> 48))
  /\ length (hex_digits 8 1234567) = 8%nat /\ hex_val (hex_digits 8 1234567) = 1234567 mod 16 ^ Z.of_nat 8
  /\ Forall (fun d => 48 <= d <= 57 \/ 65 <= d <= 70) (hex_digits 8 1234567).
Proof. apply (numbers_roundtrip 1234567 8). lia. Defined.

(** ** The digits of a number, read back *)

(** The decimal digits of [v], without a leading zero. *)
Record is_decimal (v : Z) (l : list Z) : Prop := {
  id_val : dec_val l = v;
  id_digits : Forall (fun d => 48 <= d <= 57) l;
  id_lead : l = [48] \/ hd 48 l <> 48;
}.
(** The [n] hexadecimal digits of [v], with capital letters. *)
Record is_hex (n : nat) (v : Z) (l : list Z) : Prop := {
  ih_val : hex_val l = v;
  ih_digits : Forall (fun d => 48 <= d <= 57 \/ 65 <= d <= 70) l;
  ih_length : length l = n;
}.

Lemma dec_val_snoc l d : dec_val (l ++ [d]) = 10 * dec_val l + (d - 48).
Proof. unfold dec_val. by rewrite foldl_app. Qed.

Lemma dec_val_nonneg l : Forall (fun d => 48 <= d <= 57) l -> 0 <= dec_val l.
Proof.
  induction l as [|d l IH] using rev_ind; [done|]. rewrite dec_val_snoc. intros [Hl Hd]%Forall_app.
  apply Forall_cons in Hd as [? _]. specialize (IH Hl). lia.
Qed.

(** A number that does not start with 0 is not 0. *)
Lemma dec_val_pos l : Forall (fun d => 48 <= d <= 57) l -> l <> [] -> hd 48 l <> 48 -> 0 < dec_val l.
Proof.
  induction l as [|d l IH] using rev_ind; [done|]. rewrite dec_val_snoc. intros [Hl Hd]%Forall_app _ Hh.
  apply Forall_cons in Hd as [? _]. destruct l as [|x l]; [cbn in *; lia|].
  specialize (IH Hl ltac:(done) Hh). lia.
Qed.

Lemma dec_unique l : forall l',
  Forall (fun d => 48 <= d <= 57) l -> Forall (fun d => 48 <= d <= 57) l' ->
  (l = [] \/ hd 48 l <> 48) -> (l' = [] \/ hd 48 l' <> 48) -> dec_val l = dec_val l' -> l = l'.
Proof.
  induction l as [|d l IH] using rev_ind; intros l' Hd Hd' Hh Hh' E.
  { destruct Hh' as [->|Hh']; [done|]. destruct l' as [|x l']; [done|].
    pose proof (dec_val_pos _ Hd' ltac:(done) Hh'). change (dec_val []) with 0 in E. lia. }
  destruct l' as [|d' l' _] using rev_ind.
  { assert (l ++ [d] <> []) by (by intros [_ ?]%app_nil). destruct Hh as [?|Hh]; [done|].
    pose proof (dec_val_pos _ Hd ltac:(done) Hh). change (dec_val []) with 0 in E. lia. }
  rewrite !dec_val_snoc in E. apply Forall_app in Hd as [Hl Hd], Hd' as [Hl' Hd'].
  apply Forall_cons in Hd as [? _], Hd' as [? _].
  assert (Hpre : forall k x, (k ++ [x] = [] \/ hd 48 (k ++ [x]) <> 48) -> k = [] \/ hd 48 k <> 48).
  { intros [|y k] x; [by left|]. intros [?|?]; [done|by right]. }
  rewrite (IH l') by (eauto || lia). do 2 f_equal. lia.
Qed.

Lemma hex_unique l : forall l',
  Forall (fun d => 48 <= d <= 57 \/ 65 <= d <= 70) l -> Forall (fun d => 48 <= d <= 57 \/ 65 <= d <= 70) l' ->
  length l = length l' -> hex_val l = hex_val l' -> l = l'.
Proof.
  assert (Hs : forall l d, hex_val (l ++ [d]) = 16 * hex_val l + (if d <? 58 then d - 48 else d - 55))
    by (intros; unfold hex_val; by rewrite foldl_app).
  induction l as [|d l IH] using rev_ind; intros l' Hd Hd' Hl E; [by destruct l'|].
  destruct l' as [|d' l' _] using rev_ind; rewrite !length_app in Hl; cbn [length] in Hl; [lia|].
  rewrite !Hs in E. apply Forall_app in Hd as [Hl1 Hd], Hd' as [Hl2 Hd'].
  apply Forall_cons in Hd as [? _], Hd' as [? _].
  assert (Ed : d = d' /\ hex_val l = hex_val l') by (case_tests_in E; lia).
  destruct Ed as [-> Ed]. by rewrite (IH l') by (done || lia).
Qed.

Lemma dec_digits_spec v : 0 <= v < 2 ^ 64 -> is_decimal v (dec_digits v) /\ (length (dec_digits v) <= 20)%nat.
Proof.
  intros Hv. unfold dec_digits. destruct (Z.eqb_spec v 0) as [->|Hne].
  { split; [|simpl; lia]. split; [done|repeat constructor; lia|by left]. }
  destruct (dec_loop_spec 31 v [] 20) as (l & -> & Ev & Hd & Hl & Hh & H0); [simpl; lia|simpl; lia|].
  rewrite app_nil_r. split; [|done]. split; [done|done|right].
  destruct Hh as [->|Hh]; [by specialize (H0 eq_refl)|]. by destruct l; [specialize (H0 eq_refl)|].
Qed.

Lemma decimal_iff v l : 0 <= v < 2 ^ 64 -> is_decimal v l <-> l = dec_digits v.
Proof.
  intros Hv. destruct (dec_digits_spec v Hv) as [[E2 H2 L2] _]. split; [|intros ->; by split].
  intros [E1 H1 L1]. destruct (Z.eq_dec v 0) as [->|Hne].
  { change (dec_digits 0) with [48]. destruct L1 as [?|L1]; [done|]. destruct l as [|d l]; [done|].
    pose proof (dec_val_pos _ H1 ltac:(done) L1). lia. }
  apply dec_unique; [done..| | |congruence].
  - destruct L1 as [->|?]; [change (dec_val [48]) with 0 in E1; lia|by right].
  - destruct L2 as [E|?]; [|by right]. rewrite E in E2. change (dec_val [48]) with 0 in E2. lia.
Qed.

Lemma hex_iff n v l : 0 <= v < 16 ^ Z.of_nat n -> is_hex n v l <-> l = hex_digits n v.
Proof.
  intros Hv. destruct (hex_digits_spec n v) as (Hl & Ev & Hd); [lia|]. rewrite Z.mod_small in Ev by done.
  split; [intros [? ? ?]; apply hex_unique; congruence|intros ->; by split].
Qed.

(** * kprintf *)

(** The string at [p] is [l]. *)
Fixpoint c_string (m : gmap Z Z) (p : Z) (l : list Z) : Prop :=
  match l with
  | [] => load8 m (lin p) = 0
  | b :: l' => load8 m (lin p) = b /\ b <> 0 /\ c_string m (p + 1) l'
  end.

(** %f, and the rest of the format. *)
Definition pct (f : ascii) (fmt : list Z) : list Z := chr "%"%char :: chr f :: fmt.

(** The text of a format and its arguments: a case per conversion. *)
Inductive formats (m : gmap Z Z) : list Z -> list karg -> list Z -> Prop :=
| fm_end args : formats m [] args []
| fm_plain a fmt args t : a <> chr "%"%char -> formats m fmt args t -> formats m (a :: fmt) args (a :: t)
| fm_last args : formats m [chr "%"%char] args [chr "%"%char]
| fm_literal fmt s args t : formats m fmt args t -> formats m (pct "s" fmt) (AStr s :: args) (c_literal s ++ t)
| fm_null fmt args t : formats m fmt args t -> formats m (pct "s" fmt) (AInt 0 :: args) t
| fm_string fmt p l args t : p <> 0 -> c_string m p l -> formats m fmt args t ->
    formats m (pct "s" fmt) (AInt p :: args) (l ++ t)
| fm_d fmt z l args t : is_decimal (i32 z mod 2 ^ 64) l -> formats m fmt args t ->
    formats m (pct "d" fmt) (AInt z :: args) (l ++ t)
| fm_i fmt z l args t : is_decimal (i32 z mod 2 ^ 64) l -> formats m fmt args t ->
    formats m (pct "i" fmt) (AInt z :: args) (l ++ t)
| fm_u fmt z l args t : is_decimal (z mod 2 ^ 32) l -> formats m fmt args t ->
    formats m (pct "u" fmt) (AInt z :: args) (l ++ t)
| fm_x fmt z l args t : is_hex 8 (z mod 2 ^ 32) l -> formats m fmt args t ->
    formats m (pct "x" fmt) (AInt z :: args) (l ++ t)
| fm_lx fmt z l args t : is_hex 16 (z mod 2 ^ 64) l -> formats m fmt args t ->
    formats m (pct "l" (chr "x"%char :: fmt)) (AInt z :: args) (l ++ t)
| fm_lu fmt z l args t : is_decimal (z mod 2 ^ 64) l -> formats m fmt args t ->
    formats m (pct "l" (chr "u"%char :: fmt)) (AInt z :: args) (l ++ t)
| fm_l fmt args t : hd 0 fmt <> chr "x"%char -> hd 0 fmt <> chr "u"%char -> formats m fmt args t ->
    formats m (pct "l" fmt) args t
| fm_p fmt z l args t : is_hex 16 (z mod 2 ^ 64) l -> formats m fmt args t ->
    formats m (pct "p" fmt) (AInt z :: args) (c_literal "0x" ++ l ++ t)
| fm_c fmt z args t : formats m fmt args t -> formats m (pct "c" fmt) (AInt z :: args) (z mod 256 :: t)
| fm_percent fmt args t : formats m fmt args t -> formats m (pct "%" fmt) args (chr "%"%char :: t)
| fm_other f fmt args t : Forall (fun k => f <> chr k) ["s"; "d"; "i"; "u"; "x"; "l"; "p"; "c"; "%"]%char ->
    formats m fmt args t -> formats m (chr "%"%char :: f :: fmt) args (chr "%"%char :: f :: t).

(** A conversion kvprintf does not know (the [0] of %02x, the [z] of %zu) is
    printed as it is written, and takes no argument. *)
Lemma unknown_conversion fuel m f fmt args c :
  Forall (fun k => f <> chr k) ["s"; "d"; "i"; "u"; "x"; "l"; "p"; "c"; "%"]%char ->
  kvprintf fuel m (chr "%"%char :: f :: fmt) args c = kvprintf fuel m fmt args (puts [chr "%"%char; f] c).
Proof.
  intros H. repeat (apply Forall_cons in H as [?%Z.eqb_neq H]). cbn [kvprintf].
  rewrite Z.eqb_refl. by repeat match goal with E : (f =? _) = false |- _ => rewrite E; clear E end.
Qed.

(** ** The bytes of a string *)
Lemma c_bytes_string fuel m p l : c_bytes fuel m p = Some l -> c_string m p l.
Proof.
  revert p l. induction fuel as [|fuel IH]; intros p l; cbn [c_bytes]; [done|].
  unfold truthy. destruct (Z.eqb_spec (load8 m (lin p)) 0); cbn [negb]; [by intros [= <-]|].
  destruct (c_bytes fuel m (p + 1)) as [l'|] eqn:E; [|done]. intros [= <-]. split; [done|]. split; [done|]. by apply IH.
Qed.

Lemma c_string_bytes fuel m p l : c_string m p l -> (length l < fuel)%nat -> c_bytes fuel m p = Some l.
Proof.
  revert p fuel. induction l as [|b l IH]; intros p [|fuel] Hl Hf; cbn [length c_string c_bytes] in *; try lia.
  - by rewrite Hl.
  - destruct Hl as (-> & Hb & Hl). rewrite (proj2 (truthy_true b) Hb). by rewrite (IH (p + 1) fuel Hl ltac:(lia)).
Qed.

(** ** What is printed has the form that is described *)
Section sound.
Context (fuel : nat) (m : gmap Z Z).

(** Wherever [F] is defined it prints a text of [P]. *)
Definition writes (P : list Z -> Prop) (F : console -> option console) : Prop :=
  forall c c', F c = Some c' -> exists t, P t /\ c' = puts t c.

Lemma writes_puts l (P Q : list Z -> Prop) F :
  (forall t, P t -> Q (l ++ t)) -> writes P F -> writes Q (fun c => F (puts l c)).
Proof.
  intros HPQ HF c c' (t & Ht & ->)%HF. exists (l ++ t). split; [by apply HPQ|]. by rewrite puts_app.
Qed.

Lemma writes_int args P (K : Z -> list karg -> console -> option console) :
  (forall z r, args = AInt z :: r -> writes P (K z r)) -> writes P (fun c => '(z, r) ← va_int args; K z r c).
Proof. intros H c c'. destruct args as [|[z|s] r]; [done|by apply H|done]. Qed.

Lemma writes_str fmt args :
  (forall args, writes (formats m fmt args) (kvprintf fuel m fmt args)) ->
  writes (formats m (pct "s" fmt) args) (fun c => '(l, r) ← va_str fuel m args; kvprintf fuel m fmt r (puts l c)).
Proof.
  intros IH c c'. destruct args as [|[p|s] r]; cbn [va_str]; [done| |].
  - destruct (Z.eqb_spec p 0) as [->|Hp]; cbn [mbind option_bind].
    { apply (writes_puts [] (formats m fmt r)); [|done]. intros t. apply fm_null. }
    destruct (c_bytes fuel m p) as [l|] eqn:E; cbn [mbind option_bind]; [|done].
    apply (writes_puts l (formats m fmt r)); [|done]. intros t. apply fm_string; [done|by eapply c_bytes_string].
  - apply (writes_puts (c_literal s) (formats m fmt r)); [|done]. intros t. apply fm_literal.
Qed.

(** A number, printed as the text [l]; the rest is [fmt']. *)
Lemma writes_number fmt fmt' args (l : Z -> list Z) :
  (forall z r t, formats m fmt' r t -> formats m fmt (AInt z :: r) (l z ++ t)) ->
  (forall args, writes (formats m fmt' args) (kvprintf fuel m fmt' args)) ->
  writes (formats m fmt args) (fun c => '(z, r) ← va_int args; kvprintf fuel m fmt' r (puts (l z) c)).
Proof. intros Hl IH. apply writes_int. intros z r ->. by apply (writes_puts (l z) (formats m fmt' r)); [apply Hl|]. Qed.

Lemma writes_same P Q F : (forall t, P t -> Q t) -> writes P F -> writes Q F.
Proof. intros HPQ HF c c' (t & Ht & ->)%HF. exists t. split; [by apply HPQ|done]. Qed.

Lemma writes_ext F G P : (forall c, F c = G c) -> writes P F -> writes P G.
Proof. intros HFG HF c c'. rewrite <- HFG. apply HF. Qed.

Section conversion.
Context (fmt : list Z).
Context (IH : forall args, writes (formats m fmt args) (kvprintf fuel m fmt args)).

Lemma writes_l args :
  (forall args, writes (formats m (tl fmt) args) (kvprintf fuel m (tl fmt) args)) ->
  writes (formats m (pct "l" fmt) args) (kvprintf fuel m (pct "l" fmt) args).
Proof.
  intros IH2. destruct fmt as [|g fmt'].
  { apply (writes_same (formats m [] args)); [intros t; by apply fm_l|apply IH]. }
  change (kvprintf fuel m (pct "l" (g :: fmt')) args) with (fun c =>
    if g =? chr "x"%char then '(z, args) ← va_int args; kvprintf fuel m fmt' args (puts (hex_digits 16 (u64 z)) c)
    else if g =? chr "u"%char then '(z, args) ← va_int args; kvprintf fuel m fmt' args (puts (dec_digits (u64 z)) c)
    else kvprintf fuel m (g :: fmt') args c).
  destruct (Z.eqb_spec g (chr "x"%char)) as [->|Hx]; [|destruct (Z.eqb_spec g (chr "u"%char)) as [->|Hu]].
  - apply (writes_number _ fmt' args (fun z => hex_digits 16 (u64 z))); [|exact IH2].
    intros z r t. apply fm_lx, hex_iff; [apply u64_range|done].
  - apply (writes_number _ fmt' args (fun z => dec_digits (u64 z))); [|exact IH2].
    intros z r t. apply fm_lu, decimal_iff; [apply u64_range|done].
  - apply (writes_same (formats m (g :: fmt') args)); [intros t; by apply fm_l|apply IH].
Qed.

Lemma writes_pct f args :
  (forall args, writes (formats m (tl fmt) args) (kvprintf fuel m (tl fmt) args)) ->
  writes (formats m (chr "%"%char :: f :: fmt) args) (kvprintf fuel m (chr "%"%char :: f :: fmt) args).
Proof.
  intros IH2. assert (H32 : forall z, 0 <= u32 z < 2 ^ 64) by (intros z; pose proof (u32_range z); lia).
  destruct (decide (f = chr "l"%char)) as [->|Hl]; [by apply writes_l|].
  cbn [kvprintf]. rewrite Z.eqb_refl.
  destruct (Z.eqb_spec f (chr "s"%char)) as [->|Hs]; [by apply writes_str|].
  destruct (Z.eqb_spec f (chr "d"%char)) as [->|Hd]; [|destruct (Z.eqb_spec f (chr "i"%char)) as [->|Hi]]; cbn [orb].
  1,2: apply (writes_number _ fmt args (fun z => dec_digits (u64 (i32 z)))); [|exact IH];
    intros z r t; (apply fm_d || apply fm_i); apply decimal_iff; [apply u64_range|done].
  destruct (Z.eqb_spec f (chr "u"%char)) as [->|Hu].
  { apply (writes_number _ fmt args (fun z => dec_digits (u32 z))); [|exact IH].
    intros z r t. apply fm_u, decimal_iff; [apply H32|done]. }
  destruct (Z.eqb_spec f (chr "x"%char)) as [->|Hx].
  { apply (writes_number _ fmt args (fun z => hex_digits 8 (u32 z))); [|exact IH].
    intros z r t. apply fm_x, hex_iff; [apply u32_range|done]. }
  rewrite (proj2 (Z.eqb_neq f _) Hl). destruct (Z.eqb_spec f (chr "p"%char)) as [->|Hp].
  { apply (writes_ext (fun c =>
      '(z, r) ← va_int args; kvprintf fuel m fmt r (puts (c_literal "0x" ++ hex_digits 16 (u64 z)) c))).
    { intros c. destruct args as [|[z|s] r]; [done| |done]. cbn [va_int mbind option_bind]. by rewrite puts_app. }
    apply (writes_number _ fmt args (fun z => c_literal "0x" ++ hex_digits 16 (u64 z))); [|exact IH].
    intros z r t. rewrite <- app_assoc. apply fm_p, hex_iff; [apply u64_range|done]. }
  destruct (Z.eqb_spec f (chr "c"%char)) as [->|Hc].
  { apply (writes_number _ fmt args (fun z => [u8 z])); [|exact IH]. intros z r t. apply fm_c. }
  destruct (Z.eqb_spec f (chr "%"%char)) as [->|Hpc].
  { apply (writes_puts [chr "%"%char] (formats m fmt args)); [intros t; apply fm_percent|apply IH]. }
  apply (writes_puts [chr "%"%char; f] (formats m fmt args)); [|apply IH].
  intros t. apply fm_other. repeat (apply Forall_cons_2; [done|]). by apply Forall_nil_2.
Qed.
End conversion.

Lemma kvprintf_writes n : forall fmt args, (length fmt < n)%nat -> writes (formats m fmt args) (kvprintf fuel m fmt args).
Proof.
  induction n as [|n IH]; intros fmt args Hn; [lia|].
  destruct fmt as [|a fmt]; [intros c c' [= <-]; exists []; split; [apply fm_end|done]|]. cbn [length] in Hn.
  destruct (decide (a = chr "%"%char)) as [->|Ha].
  - destruct fmt as [|f fmt]; [intros c c' [= <-]; exists [chr "%"%char]; split; [apply fm_last|done]|]. cbn [length] in Hn.
    apply writes_pct; intros; apply IH; [lia|]. destruct fmt; cbn in *; lia.
  - cbn [kvprintf]. rewrite (proj2 (Z.eqb_neq a _) Ha).
    apply (writes_puts [a] (formats m fmt args)); [intros t; by apply fm_plain|apply IH; lia].
Qed.
End sound.

(** ** What is described is printed, if the fuel is enough for the strings *)
Lemma formats_printed m fmt args text :
  formats m fmt args text ->
  exists n, forall fuel c, (n <= fuel)%nat -> kvprintf fuel m fmt args c = Some (puts text c).
Proof.
  assert (H32 : forall z, 0 <= u32 z < 2 ^ 64) by (intros z; pose proof (u32_range z); lia).
  pose proof u64_range as H64.
  assert (Hd : forall v l, 0 <= v < 2 ^ 64 -> is_decimal v l -> l = dec_digits v) by (intros; by apply decimal_iff).
  assert (Hx : forall n v l, 0 <= v < 16 ^ Z.of_nat n -> is_hex n v l -> l = hex_digits n v) by (intros; by apply hex_iff).
  induction 1 as [args|a fmt args t Ha _ [n IH]|args|fmt s args t _ [n IH]|fmt args t _ [n IH]
    |fmt p l args t Hp Hl _ [n IH]|fmt z l args t Hl _ [n IH]|fmt z l args t Hl _ [n IH]|fmt z l args t Hl _ [n IH]
    |fmt z l args t Hl _ [n IH]|fmt z l args t Hl _ [n IH]|fmt z l args t Hl _ [n IH]|fmt args t Hx1 Hu1 _ [n IH]
    |fmt z l args t Hl _ [n IH]|fmt z args t _ [n IH]|fmt args t _ [n IH]|f fmt args t Hf _ [n IH]].
  - by exists 0%nat.
  - exists n. intros fuel c Hn. cbn [kvprintf]. rewrite (proj2 (Z.eqb_neq a _) Ha). by apply IH.
  - by exists 0%nat.
  - exists n. intros fuel c Hn. rewrite puts_app. by apply (IH fuel (puts (c_literal s) c)).
  - exists n. intros fuel c Hn. by apply (IH fuel c).
  - exists (Nat.max n (S (length l))). intros fuel c Hn. rewrite puts_app, <- (IH fuel (puts l c)) by lia.
    unfold pct. cbn [kvprintf]. rewrite !Z.eqb_refl. cbn [va_str]. rewrite (proj2 (Z.eqb_neq p 0) Hp).
    by rewrite (c_string_bytes fuel m p l Hl ltac:(lia)).
  - exists n. intros fuel c Hn. apply Hd in Hl as ->; [|apply H64]. rewrite puts_app. by apply (IH fuel (puts _ c)).
  - exists n. intros fuel c Hn. apply Hd in Hl as ->; [|apply H64]. rewrite puts_app. by apply (IH fuel (puts _ c)).
  - exists n. intros fuel c Hn. apply Hd in Hl as ->; [|apply H32]. rewrite puts_app. by apply (IH fuel (puts _ c)).
  - exists n. intros fuel c Hn. apply Hx in Hl as ->; [|apply u32_range]. rewrite puts_app. by apply (IH fuel (puts _ c)).
  - exists n. intros fuel c Hn. apply Hx in Hl as ->; [|apply H64]. rewrite puts_app. by apply (IH fuel (puts _ c)).
  - exists n. intros fuel c Hn. apply Hd in Hl as ->; [|apply H64]. rewrite puts_app. by apply (IH fuel (puts _ c)).
  - exists n. intros fuel c Hn. rewrite <- (IH fuel c Hn). destruct fmt as [|g fmt]; [done|]. cbn [hd] in *.
    unfold pct. cbn [kvprintf]. change (chr "%"%char =? chr "%"%char) with true.
    rewrite (proj2 (Z.eqb_neq g _) Hx1), (proj2 (Z.eqb_neq g _) Hu1). done.
  - exists n. intros fuel c Hn. apply Hx in Hl as ->; [|apply H64].
    rewrite app_assoc, puts_app, puts_app. by apply (IH fuel (puts _ _)).
  - exists n. intros fuel c Hn. by apply (IH fuel (puts [u8 z] c)).
  - exists n. intros fuel c Hn. by apply (IH fuel (vga_putchar _ c)).
  - exists n. intros fuel c Hn. rewrite unknown_conversion by done. by apply IH.
Qed.

(** C23 kvprintf prints what its format describes ([formats], which says for each
    conversion what text and which arguments it stands for; numbers by their digits
    read back): whenever it is defined, it has printed a text of that description;
    and for every text described, with fuel for the strings, it prints that text.
    On the terminal the text appears as its characters do one after the other, the
    cursor stays on the screen and no cell outside it is written.  (It is not
    defined when an argument is missing or has the wrong type, and when a string
    does not end.) *)
Theorem kvprintf_prints_format (m : gmap Z Z) (fmt : list Z) (args : list karg) (c : console) :
  console_ok c ->
  (forall fuel c', kvprintf fuel m fmt args c = Some c' -> exists text, formats m fmt args text /\ c' = puts text c)
  /\ forall text, formats m fmt args text ->
       (exists n, forall fuel, (n <= fuel)%nat -> kvprintf fuel m fmt args c = Some (puts text c))
       /\ term_of (puts text c) = term_puts (fg_color c) (bg_color c) text (term_of c)
       /\ console_ok (puts text c) /\ on_screen c (puts text c).
Proof.
  intros Hc. split.
  - intros fuel c' H. by apply (kvprintf_writes fuel m (S (length fmt)) fmt args ltac:(lia)).
  - intros text Ht. destruct (formats_printed _ _ _ _ Ht) as [n Hn]. split; [exists n; auto|by apply puts_spec].
Qed.

(** A format with a string, a negative %d, a %x, an unknown conversion and %%. *)
Lemma kvprintf_prints_format_witness :
  let fmt := c_literal "%s=%d %x %z%%" in
  let args := [AStr "n"; AInt (-1); AInt 0xBEEF] in
  let text := c_literal "n=18446744073709551615 0000BEEF %z%" in
  let c := console_early_init console_initial in
  formats ∅ fmt args text
  /\ ((forall fuel c', kvprintf fuel ∅ fmt args c = Some c' -> exists text, formats ∅ fmt args text /\ c' = puts text c)
      /\ forall text, formats ∅ fmt args text ->
           (exists n, forall fuel, (n <= fuel)%nat -> kvprintf fuel ∅ fmt args c = Some (puts text c))
           /\ term_of (puts text c) = term_puts (fg_color c) (bg_color c) text (term_of c)
           /\ console_ok (puts text c) /\ on_screen c (puts text c)).
Proof.
  cbv zeta. split; [|apply (kvprintf_prints_format ∅ _ _ (console_early_init console_initial)), early_init_ok].
  replace (c_literal "%s=%d %x %z%%") with
    (pct "s" (chr "=" :: pct "d" (chr " " :: pct "x" (chr " " :: chr "%" :: chr "z" :: pct "%" []))))%char by reflexivity.
  replace (c_literal "n=18446744073709551615 0000BEEF %z%") with
    (c_literal "n" ++ chr "="%char :: c_literal "18446744073709551615" ++ chr " "%char :: c_literal "0000BEEF"
     ++ chr " "%char :: chr "%"%char :: chr "z"%char :: [chr "%"%char]) by reflexivity.
  apply fm_literal, fm_plain; [done|]. apply fm_d; [by apply decimal_iff|].
  apply fm_plain; [done|]. apply fm_x; [by apply hex_iff|]. apply fm_plain; [done|].
  apply fm_other; [repeat (apply Forall_cons_2; [discriminate|]); by apply Forall_nil_2|].
  apply fm_percent, fm_end.
Defined.

(** A negative %d prints the 64-bit two's complement. *)
Lemma printed_minus_one : dec_val (dec_digits (u64 (i32 (-1)))) = 2 ^ 64 - 1.
Proof. by vm_compute. Qed.

