(* ===== verification/Platform.v ===== *)
(** apic.c, ioapic.c, acpi.c and pit.c.

    Loads from device registers and ports go to [hw]; stores to them are events.
    A pointer to a register block is its address. *)
From S2P Require Import Prelude Machine Globals Pci.

Definition set_apic (x : apic_globals) (p : plat_globals) : plat_globals :=
  PlatGlobals (pci p) (idtg p) x (ioapic p) (acpi p) (drv p).
Definition set_ioapic (x : ioapic_globals) (p : plat_globals) : plat_globals :=
  PlatGlobals (pci p) (idtg p) (apic p) x (acpi p) (drv p).
Definition set_acpi (x : acpi_globals) (p : plat_globals) : plat_globals :=
  PlatGlobals (pci p) (idtg p) (apic p) (ioapic p) x (drv p).
Definition upd_apic (f : apic_globals -> apic_globals) : M unit :=
  upd_plat (fun p => set_apic (f (apic p)) p).
Definition upd_ioapic (f : ioapic_globals -> ioapic_globals) : M unit :=
  upd_plat (fun p => set_ioapic (f (ioapic p)) p).
Definition upd_acpi (f : acpi_globals -> acpi_globals) : M unit :=
  upd_plat (fun p => set_acpi (f (acpi p)) p).
Definition get_apic : M apic_globals := gets (fun s => apic (plat s)).
Definition get_acpi : M acpi_globals := gets (fun s => acpi (plat s)).

(** * apic.c *)

(** &lapic_base[reg / 4] *)
Definition lapic_reg (base reg : Z) : Z := base + reg.

Section lapic.
Variable hw : list event -> hw_read -> Z.

Definition lapic_init : M unit :=
  outb 0x21 0xFF;;
  outb 0xA1 0xFF;;
  edx ← cpuid_edx hw 1;
  (if truthy (edx .& (1 .<< 9)) then mret tt else kernel_panic "APIC not supported");;
  apic_base ← rdmsr hw 0x1B;
  whenM (negb (truthy (apic_base .& (1 .<< 11)))) (wrmsr 0x1B (apic_base .| (1 .<< 11)));;
  let base := PHYS_TO_VIRT (apic_base .& 0xFFFFF000) in
  upd_apic (fun a => ApicGlobals base (timer_freq a) (timer_handler a));;
  mmio_store (lapic_reg base 0x0F0) 0x1FF;;
  id ← mmio_load hw (lapic_reg base 0x020);
  version ← mmio_load hw (lapic_reg base 0x030);
  kprintf "LAPIC: ID=%u, Version=%u\n" [AInt (id .>> 24); AInt (version .& 0xFF)].

Definition lapic_get_id : M Z :=
  a ← get_apic;
  if lapic_regs a =? 0 then mret 0
  else id ← mmio_load hw (lapic_reg (lapic_regs a) 0x020); mret (id .>> 24).

Definition lapic_get_timer_ticks : M Z :=
  a ← get_apic;
  if lapic_regs a =? 0 then mret 0 else mmio_load hw (lapic_reg (lapic_regs a) 0x390).
End lapic.

Definition lapic_eoi : M unit :=
  a ← get_apic;
  whenM (negb (lapic_regs a =? 0)) (mmio_store (lapic_reg (lapic_regs a) 0x0B0) 0).

Definition lapic_init_ap : M unit :=
  a ← get_apic;
  mmio_store (lapic_reg (lapic_regs a) 0x0F0) 0x1FF;;
  mmio_store (lapic_reg (lapic_regs a) 0x080) 0;;
  lapic_eoi.

Definition lapic_send_ipi (apic_id vector : Z) : M unit :=
  a ← get_apic;
  if lapic_regs a =? 0 then mret tt
  else
    mmio_store (lapic_reg (lapic_regs a) 0x310) (u32 (apic_id .<< 24));;
    mmio_store (lapic_reg (lapic_regs a) 0x300) (vector .| 0x4000).

Definition lapic_timer_calibrate : M unit :=
  kprintf "LAPIC: Timer calibration (stub)\n" [];;
  upd_apic (fun a => ApicGlobals (lapic_regs a) 1000000 (timer_handler a)).

Definition lapic_get_timer_freq : M Z := a ← get_apic; mret (timer_freq a).
Definition lapic_timer_set_handler (handler : Z) : M unit :=
  upd_apic (fun a => ApicGlobals (lapic_regs a) (timer_freq a) handler).
Definition lapic_timer_start_periodic (ms : Z) : M unit := mret tt.

(** * acpi.c *)
Definition acpi_init (rsdp : Z) : M bool :=
  kprintf "ACPI: Initializing (stub)\n" [];;
  upd_acpi (fun a => AcpiGlobals true 5 0 1 (<[0%nat := 0]> (cpu_apic_ids a)) (acpi_num_ioapics a)
                       (ioapic_addrs a) (ioapic_gsi_bases a));;
  a ← get_acpi;
  kprintf "ACPI: Version %u.%u, %u CPUs\n" [AInt (acpi_major a); AInt (acpi_minor a); AInt (num_cpus a)];;
  mret true.

Definition acpi_shutdown : M unit := kprintf "ACPI: Shutdown (stub)\n" [];; hang.
Definition acpi_reboot : M unit := kprintf "ACPI: Reboot (stub)\n" [];; hang.
Definition acpi_initialized : M bool := a ← get_acpi; mret (acpi_init_done a).
Definition acpi_get_version_major : M Z := a ← get_acpi; mret (acpi_major a).
Definition acpi_get_version_minor : M Z := a ← get_acpi; mret (acpi_minor a).
Definition acpi_get_cpu_count : M Z := a ← get_acpi; mret (num_cpus a).
Definition acpi_get_cpu_apic_id (idx : Z) : M Z :=
  a ← get_acpi; mret (if idx <? num_cpus a then cpu_apic_ids a !!! Z.to_nat idx else 0).
Definition acpi_get_ioapic_count : M Z := a ← get_acpi; mret (acpi_num_ioapics a).
Definition acpi_get_ioapic_addr (idx : Z) : M Z :=
  a ← get_acpi; mret (if idx <? acpi_num_ioapics a then ioapic_addrs a !!! Z.to_nat idx else 0).
Definition acpi_get_ioapic_gsi_base (idx : Z) : M Z :=
  a ← get_acpi; mret (if idx <? acpi_num_ioapics a then ioapic_gsi_bases a !!! Z.to_nat idx else 0).

(** * ioapic.c *)
Fixpoint ioapic_loop (n : nat) (i : Z) : M unit :=
  match n with
  | O => mret tt
  | S n' =>
      phys ← acpi_get_ioapic_addr i;
      let phys := if phys =? 0 then 0xFEC00000 else phys in
      gsi ← acpi_get_ioapic_gsi_base i;
      upd_ioapic (fun a => IoapicGlobals (ioapic_bases a) (<[Z.to_nat i := gsi]> (gsi_bases a)) (num_ioapics a));;
      kprintf "IOAPIC[%u]: addr=0x%X, gsi=%u\n" [AInt i; AInt phys; AInt gsi];;
      ioapic_loop n' (i + 1)
  end.

Definition ioapic_init : M unit :=
  n ← acpi_get_ioapic_count;
  upd_ioapic (fun a => IoapicGlobals (ioapic_bases a) (gsi_bases a) (u8 n));;
  whenM (u8 n =? 0)
    (upd_ioapic (fun a => IoapicGlobals (<[0%nat := 0xFEC00000]> (ioapic_bases a))
                            (<[0%nat := 0]> (gsi_bases a)) 1));;
  n ← gets (fun s => num_ioapics (ioapic (plat s)));
  ioapic_loop (Z.to_nat n) 0;;
  kprintf "IOAPIC: %u IOAPICs initialized\n" [AInt n].

Definition ioapic_set_irq (irq vector dest : Z) : M unit := mret tt.
Definition ioapic_mask_irq (irq : Z) : M unit := mret tt.
Definition ioapic_unmask_irq (irq : Z) : M unit := mret tt.

(** * pit.c *)
Definition PIT_FREQ : Z := 1193182.
Definition PIT_CMD : Z := 0x43.
Definition PIT_CH0 : Z := 0x40.

(** The count loaded for [ms]: a 32-bit product, cut to 16 bits. *)
Definition pit_count (ms : Z) : Z :=
  let count := u16 (u32 (PIT_FREQ * ms) / 1000) in
  if count =? 0 then 1 else count.

Section pit.
Variable hw : list event -> hw_read -> Z.

Fixpoint pit_loop (fuel : nat) (count : Z) : M unit :=
  match fuel with
  | O => hang
  | S f =>
      if 0 <? count then
        outb PIT_CMD 0x00;;
        lo ← inb hw PIT_CH0;
        hi ← inb hw PIT_CH0;
        let current := u16 (lo .| (hi .<< 8)) in
        let current := if current =? 0 then u16 0x10000 else current in
        if count <? current then mret tt else pit_loop f count
      else mret tt
  end.

Definition pit_wait (fuel : nat) (ms : Z) : M unit :=
  cli;;
  let count := pit_count ms in
  outb PIT_CMD 0x30;;
  outb PIT_CH0 (count .& 0xFF);;
  outb PIT_CH0 ((count .>> 8) .& 0xFF);;
  pit_loop fuel count;;
  sti.
End pit.

(** The nops of pit_delay have no effect; [us * 3] of them. *)
Definition pit_delay (us : Z) : M unit := mret tt.
