(* ===== verification/Smp.v ===== *)
(** scheduler.c: scheduler_ap_entry, where the scheduler and the timer of the
    local APIC meet. *)
From S2P Require Import Prelude Machine Globals Strings Pmm Kmalloc Sched Platform.

Section ap.
Variable cpu_get_current : kst -> Z.
Variable rsp_register : Z.
Variable schedule_address : Z.    (* the address of schedule *)

(** The thread the current CPU runs. *)
Definition running_thread (s : kst) : Z := current_thread (cpus (sched s) !!! cpu_get_current s).

(** [turns] turns of the loop [while (1) { schedule(); hlt(); }], which the idle
    thread runs: once schedule has switched to another thread, the rest of the
    turn is run when that thread gives the CPU back, and the steps of the CPU
    until then are not the idle thread's. *)
Fixpoint ap_loop (turns : nat) (idle : Z) : M unit :=
  match turns with
  | O => hang
  | S n =>
      schedule cpu_get_current rsp_register;;
      cur ← gets running_thread;
      if cur =? idle then hlt;; ap_loop n idle else mret tt
  end.

Definition scheduler_ap_entry (turns : nat) : M unit :=
  c ← gets cpu_get_current;
  idle ← kmalloc SIZEOF_THREAD;
  if idle =? 0 then hlt;; hang
  else
    upd_ram (fun m => memset m (lin idle) 0 SIZEOF_THREAD);;
    upd_ram (set_t_tid idle 0);;
    upd_ram (set_t_state idle TASK_RUNNING);;
    pages ← pmm_alloc_pages 4;
    upd_ram (set_t_kernel_stack idle (stack_top pages));;
    upd_ram (fun m => set_t_rsp idle (t_kernel_stack m idle) m);;
    upd_ram (set_t_parent idle 0);;
    set_current_thread c idle;;
    lapic_timer_set_handler schedule_address;;
    lapic_timer_start_periodic 10;;
    ap_loop turns idle.
End ap.
