(* ===== verification/Idt.v ===== *)
(** idt.c: the interrupt descriptor table and interrupt_handler.

    The addresses of the entry stubs of idt.asm and of the static table are
    parameters; so is the effect of calling a registered handler, a pointer to
    any C function. *)
From S2P Require Import Prelude Machine Globals Pci Platform.

Definition IDT_ENTRIES : Z := 256.

Definition set_idtg (x : idt_globals) (p : plat_globals) : plat_globals :=
  PlatGlobals (pci p) x (apic p) (ioapic p) (acpi p) (drv p).
Definition upd_idtg (f : idt_globals -> idt_globals) : M unit :=
  upd_plat (fun p => set_idtg (f (idtg p)) p).

Definition exception_names : list string :=
  ["Division Error"; "Debug"; "NMI"; "Breakpoint";
   "Overflow"; "BOUND Range Exceeded"; "Invalid Opcode";
   "Device Not Available"; "Double Fault"; "Coprocessor Segment Overrun";
   "Invalid TSS"; "Segment Not Present"; "Stack Fault";
   "General Protection"; "Page Fault"; "Reserved";
   "x87 FPU Error"; "Alignment Check"; "Machine Check"; "SIMD FP";
   "Virtualization"; "Reserved"; "Reserved"; "Reserved";
   "Reserved"; "Reserved"; "Reserved"; "Reserved";
   "Reserved"; "Security Exception"; "Reserved"].

(** exception_names[num]: the array has 32 elements, the last of them NULL. *)
Definition exception_name (num : Z) : karg :=
  match exception_names !! Z.to_nat num with Some name => AStr name | None => AInt 0 end.

Definition gate (handler type : Z) : idt_entry :=
  IdtEntry (handler .& 0xFFFF) 0x08 0 type ((handler .>> 16) .& 0xFFFF) (u32 (handler .>> 32)) 0.

Definition idt_set_gate (num handler type : Z) : M unit :=
  upd_idtg (fun g => IdtGlobals (<[Z.to_nat num := gate handler type]> (idt g)) (irq_handlers g) (irq_contexts g)).

Section idt.
Variables isr irq_stub : Z -> Z.    (* isr0 .. isr31 and irq0 .. irq15 of idt.asm *)
Variable idt_address : Z.           (* &idt *)

(** idt_set_gate(first + i, stub(i), 0x8E) for [n] values of [i]. *)
Fixpoint set_gates (n : nat) (first i : Z) (stub : Z -> Z) : M unit :=
  match n with
  | O => mret tt
  | S n' => idt_set_gate (first + i) (stub i) 0x8E;; set_gates n' first (i + 1) stub
  end.

Definition idt_init : M unit :=
  upd_idtg (fun g => IdtGlobals (replicate 256 no_gate) (irq_handlers g) (irq_contexts g));;
  set_gates 32 0 0 isr;;
  set_gates 16 32 0 irq_stub;;
  emit (EvLidt (16 * IDT_ENTRIES - 1) idt_address);;
  kprintf "IDT: Initialized %d entries\n" [AInt IDT_ENTRIES].
End idt.

Definition irq_register_handler (irq handler context : Z) : M unit :=
  whenM (irq <? 16)
    (upd_idtg (fun g => IdtGlobals (idt g) (<[Z.to_nat irq := handler]> (irq_handlers g))
                          (<[Z.to_nat irq := context]> (irq_contexts g)))).

Section interrupt.
Variable hw : list event -> hw_read -> Z.
Variable call : Z -> M unit.        (* calling a handler through its pointer *)

Definition flag (err bit : Z) : karg := AInt (if truthy (err .& bit) then 1 else 0).

Definition interrupt_handler (frame num err : Z) : M unit :=
  if num <? 32 then
    kprintf "EXCEPTION %lu: %s\n" [AInt num; exception_name num];;
    kprintf "  Error code: %lu\n" [AInt err];;
    whenM (num =? 14)
      (cr2 ← read_cr2 hw;
       kprintf "  CR2=%p\n" [AInt cr2];;
       kprintf "  Present: %d, Write: %d, User: %d\n" [flag err 1; flag err 2; flag err 4]);;
    kernel_panic "Unhandled exception"
  else if (32 <=? num) && (num <? 48) then
    let irq := u8 (num - 32) in
    g ← gets (fun s => idtg (plat s));
    let handler := irq_handlers g !!! Z.to_nat irq in
    whenM (negb (handler =? 0)) (call handler);;
    lapic_eoi
  else mret tt.
End interrupt.
