(* ===== verification/PlatformProps.v ===== *)
(** Properties of idt.c, apic.c and pit.c, each with a witness. *)
From S2P Require Import Prelude Machine Globals Pmm PmmProps Pci Platform Idt.

(** * Gates *)

(** The handler a gate leads to, as the processor puts its three parts together. *)
Definition gate_target (e : idt_entry) : Z := offset_low e + 2 ^ 16 * offset_mid e + 2 ^ 32 * offset_high e.
(** The present bit of a gate. *)
Definition gate_present (e : idt_entry) : bool := 128 <=? type_attr e.

Lemma gate_target_gate h ty : 0 <= h < 2 ^ 64 -> gate_target (gate h ty) = h.
Proof.
  intros Hh. unfold gate_target, gate. cbn [offset_low offset_mid offset_high].
  change 0xFFFF with (2 ^ 16 - 1). rewrite !land_low, !Z.shiftr_div_pow2 by lia.
  change (2 ^ 16) with 65536. change (2 ^ 32) with 4294967296 in *. unfold u32.
  Z.div_mod_to_equations; lia.
Qed.

Lemma idt_set_gate_run num h ty s :
  idt_set_gate num h ty s
  = Ret tt (set_plat (set_idtg (IdtGlobals (<[Z.to_nat num := gate h ty]> (idt (idtg (plat s))))
                                  (irq_handlers (idtg (plat s))) (irq_contexts (idtg (plat s)))) (plat s)) s).
Proof. done. Qed.

(** The table after [n] gates. *)
Fixpoint with_gates (n : nat) (first i : Z) (stub : Z -> Z) (l : list idt_entry) : list idt_entry :=
  match n with
  | O => l
  | S n' => with_gates n' first (i + 1) stub (<[Z.to_nat (first + i) := gate (stub i) 0x8E]> l)
  end.

Definition set_idt (l : list idt_entry) (s : kst) : kst :=
  set_plat (set_idtg (IdtGlobals l (irq_handlers (idtg (plat s))) (irq_contexts (idtg (plat s)))) (plat s)) s.

Lemma set_gates_run n first i stub s :
  set_gates n first i stub s = Ret tt (set_idt (with_gates n first i stub (idt (idtg (plat s)))) s).
Proof.
  revert i s. induction n as [|n IH]; intros i s; [by destruct s as [??????? ? [? [] ? ? ? ?]]|].
  cbn [set_gates with_gates]. rewrite (bind_ret _ _ _ _ _ (idt_set_gate_run _ _ _ s)), IH. done.
Qed.

Lemma with_gates_lookup n first i stub l v :
  0 <= first + i -> first + i + Z.of_nat n <= Z.of_nat (length l) ->
  with_gates n first i stub l !! v
  = if (first + i <=? Z.of_nat v) && (Z.of_nat v <? first + i + Z.of_nat n)
    then Some (gate (stub (Z.of_nat v - first)) 0x8E) else l !! v.
Proof.
  revert i l. induction n as [|n IH]; intros i l Hi Hn; cbn [with_gates].
  - destruct (Z.leb_spec (first + i) (Z.of_nat v)), (Z.ltb_spec (Z.of_nat v) (first + i + Z.of_nat 0)); (lia || done).
  - rewrite IH by (rewrite ?length_insert; lia).
    destruct (decide (v = Z.to_nat (first + i))) as [->|Hne].
    + rewrite list_lookup_insert_eq by lia. tests. cbn [andb]. do 3 f_equal. lia.
    + rewrite list_lookup_insert_ne by done.
      destruct (Z.leb_spec (first + i) (Z.of_nat v)), (Z.leb_spec (first + (i + 1)) (Z.of_nat v));
        try lia; [|done]. cbn [andb].
      destruct (Z.ltb_spec (Z.of_nat v) (first + (i + 1) + Z.of_nat n)),
        (Z.ltb_spec (Z.of_nat v) (first + i + Z.of_nat (S n))); (lia || done).
Qed.

(** C30 idt_init builds the table it means to and loads it: vectors 0-31 lead to
    the exception stubs and 32-47 to the IRQ stubs, as present interrupt gates of
    the kernel code segment, the address coming back whole from its three parts;
    every other vector is not present. *)
Theorem idt_init_correct (isr irq_stub : Z -> Z) (idt_address : Z) (s : kst) :
  (forall i, 0 <= i < 32 -> 0 <= isr i < 2 ^ 64) ->
  (forall i, 0 <= i < 16 -> 0 <= irq_stub i < 2 ^ 64) ->
  exists s', idt_init isr irq_stub idt_address s = Ret tt s'
    /\ EvLidt 4095 idt_address ∈ trace s' /\ length (idt (idtg (plat s'))) = 256%nat
    /\ forall v, 0 <= v < 256 ->
         let e := idt (idtg (plat s')) !!! Z.to_nat v in
         if v <? 48
         then gate_target e = (if v <? 32 then isr v else irq_stub (v - 32))
              /\ gate_present e = true /\ selector e = 0x08
         else gate_present e = false.
Proof.
  intros Hisr Hirq. set (l1 := with_gates 32 0 0 isr (replicate 256 no_gate)).
  set (l2 := with_gates 16 32 0 irq_stub l1).
  assert (Hl : forall n first i stub l, length (with_gates n first i stub l) = length l).
  { induction n as [|n IH]; intros first i stub l; [done|]. cbn [with_gates]. by rewrite IH, length_insert. }
  assert (Hl2 : length l2 = 256%nat) by (unfold l2, l1; by rewrite !Hl).
  eexists. split.
  { unfold idt_init, upd_idtg, upd_plat.
    erewrite bind_ret; [|reflexivity]. erewrite bind_ret; [|apply set_gates_run].
    erewrite bind_ret; [|apply set_gates_run]. reflexivity. }
  split; [by apply list_elem_of_further, list_elem_of_here|]. split; [exact Hl2|]. intros v Hv.
  cbv zeta. change (idt _) with l2.
  assert (E : l2 !! Z.to_nat v = Some (if v <? 48 then gate (if v <? 32 then isr v else irq_stub (v - 32)) 0x8E
                                        else no_gate)).
  { unfold l2. rewrite with_gates_lookup by (unfold l1; rewrite ?Hl; cbn; lia).
    unfold l1. rewrite with_gates_lookup by (cbn; lia). rewrite Z2Nat.id by lia.
    destruct (Z.ltb_spec v 48), (Z.ltb_spec v 32); try lia; tests; cbn [andb]; try done; [by rewrite Z.sub_0_r|].
    apply lookup_replicate_2. lia. }
  rewrite (list_lookup_total_correct _ _ _ E).
  destruct (Z.ltb_spec v 48); [|done]. split; [|done]. apply gate_target_gate.
  destruct (Z.ltb_spec v 32); [apply Hisr; lia|apply Hirq; lia].
Qed.

Lemma idt_init_correct_witness :
  exists s', idt_init (fun i => 0xFFFF800000100000 + 16 * i) (fun i => 0xFFFF800000200000 + 16 * i) 0x300000
               PmmExample.s = Ret tt s'
    /\ EvLidt 4095 0x300000 ∈ trace s' /\ length (idt (idtg (plat s'))) = 256%nat
    /\ forall v, 0 <= v < 256 ->
         let e := idt (idtg (plat s')) !!! Z.to_nat v in
         if v <? 48
         then gate_target e = (if v <? 32 then 0xFFFF800000100000 + 16 * v else 0xFFFF800000200000 + 16 * (v - 32))
              /\ gate_present e = true /\ selector e = 0x08
         else gate_present e = false.
Proof.
  apply (idt_init_correct (fun i => 0xFFFF800000100000 + 16 * i) (fun i => 0xFFFF800000200000 + 16 * i)
           0x300000 PmmExample.s); intros i Hi; lia.
Defined.

(** * Dispatch *)
Definition irq_table_ok (s : kst) : Prop := length (irq_handlers (idtg (plat s))) = 16%nat.

(** C31 Interrupts are dispatched to what was registered: after
    irq_register_handler of an IRQ, its vector calls that handler and then
    acknowledges the interrupt; the other vectors do what they did before, an
    IRQ without a handler is only acknowledged; every exception panics, and a
    vector from 48 on is ignored without an acknowledgement. *)
Theorem interrupt_dispatch (hw : list event -> hw_read -> Z) (call : Z -> M unit) (s : kst)
    (irq handler context frame err : Z) :
  irq_table_ok s -> 0 <= irq < 16 -> handler <> 0 ->
  exists s1, irq_register_handler irq handler context s = Ret tt s1
    /\ interrupt_handler hw call frame (32 + irq) err s1 = (call handler;; lapic_eoi) s1
    /\ (forall i, 0 <= i < 16 -> i <> irq ->
          irq_handlers (idtg (plat s1)) !!! Z.to_nat i = irq_handlers (idtg (plat s)) !!! Z.to_nat i)
    /\ (forall i, 0 <= i < 16 -> irq_handlers (idtg (plat s1)) !!! Z.to_nat i = 0 ->
          interrupt_handler hw call frame (32 + i) err s1 = lapic_eoi s1)
    /\ (forall num, 0 <= num < 32 ->
          exists s2, interrupt_handler hw call frame num err s1 = Panic "Unhandled exception" s2)
    /\ (forall num, 48 <= num -> interrupt_handler hw call frame num err s1 = Ret tt s1).
Proof.
  intros Ht Hi Hh. unfold irq_register_handler. rewrite (proj2 (Z.ltb_lt _ _)) by lia. cbn [whenM].
  eexists. split; [reflexivity|]. cbn [plat set_plat idtg set_idtg irq_handlers].
  assert (Hirq : forall i s1, 0 <= i < 16 ->
    interrupt_handler hw call frame (32 + i) err s1
    = (whenM (negb (irq_handlers (idtg (plat s1)) !!! Z.to_nat i =? 0))
         (call (irq_handlers (idtg (plat s1)) !!! Z.to_nat i));; lapic_eoi) s1).
  { intros i s1 Hi1. unfold interrupt_handler. test_false. tests. cbn [andb]. rewrite bind_gets.
    replace (32 + i - 32) with i by lia. by rewrite u8_small by lia. }
  split; [|split; [|split; [|split]]].
  - rewrite Hirq by done. cbn [plat set_plat idtg set_idtg irq_handlers].
    rewrite list_lookup_total_insert_eq by (rewrite Ht; lia). by rewrite (proj2 (Z.eqb_neq _ _) Hh).
  - intros i Hi1 Hne. rewrite list_lookup_total_insert_ne by lia. done.
  - intros i Hi1 H0. rewrite Hirq by done. cbn [plat set_plat idtg set_idtg irq_handlers]. rewrite H0. done.
  - intros num Hn. unfold interrupt_handler. rewrite (proj2 (Z.ltb_lt _ _)) by lia.
    destruct (num =? 14); eexists; reflexivity.
  - intros num Hn. unfold interrupt_handler. rewrite (proj2 (Z.ltb_ge num 32)), (proj2 (Z.ltb_ge num 48)) by lia.
    by rewrite andb_false_r.
Qed.

Lemma interrupt_dispatch_witness :
  exists s1, irq_register_handler 4 0x1234 0 PmmExample.s = Ret tt s1
    /\ interrupt_handler (fun _ _ => 0) (fun h => emit (EvOut 1 0 h)) 0 (32 + 4) 0 s1
       = (emit (EvOut 1 0 0x1234);; lapic_eoi) s1.
Proof.
  destruct (interrupt_dispatch (fun _ _ => 0) (fun h => emit (EvOut 1 0 h)) PmmExample.s 4 0x1234 0 0 0)
    as (s1 & E1 & E2 & _); [done|lia|done|]. by exists s1.
Defined.

(** A handler registered with lapic_timer_set_handler is never called: what an
    interrupt does is the same whatever it is. *)
Lemma timer_handler_unused hw call frame num err h s :
  (forall handler s', call handler s' = Ret tt s') ->
  exists s1, lapic_timer_set_handler h s = Ret tt s1
    /\ (forall s2, interrupt_handler hw call frame num err s = Ret tt s2 ->
        exists s3, interrupt_handler hw call frame num err s1 = Ret tt s3 /\ trace s3 = trace s2).
Proof.
  intros Hcall. eexists. split; [reflexivity|]. intros s2. unfold interrupt_handler.
  destruct (num <? 32); [destruct (num =? 14); intros H; vm_compute in H; discriminate H|].
  destruct (_ && _).
  - rewrite !bind_gets, !bind_whenM. cbn [plat set_plat idtg set_apic].
    destruct (negb _); [rewrite !(bind_ret _ _ _ _ _ (Hcall _ _))|];
      unfold lapic_eoi, get_apic; rewrite !bind_gets; cbn [plat set_plat apic set_apic lapic_regs];
      destruct (negb _); intros [= <-]; eexists; (split; [reflexivity|done]).
  - intros [= <-]. by eexists.
Qed.

(** * pit_wait *)
Lemma pit_count_range ms : 1 <= pit_count ms < 65536.
Proof. unfold pit_count. pose proof (u16_range (u32 (PIT_FREQ * ms) / 1000)). case_tests; lia. Qed.

(** The count pit_wait loads is the number of timer ticks in [ms] milliseconds
    up to 54; 55 ms already overflow the 16-bit counter, and the wait is one of 89
    ticks (75 microseconds); no wait is longer than 65535 ticks. *)
Theorem pit_count_exact (ms : Z) :
  0 <= ms -> (ms <= 54 -> pit_count ms = Z.max 1 (PIT_FREQ * ms / 1000))
  /\ pit_count 55 = 89 /\ 1 <= pit_count ms < 65536.
Proof.
  intros H0. split; [|split; [by vm_compute|apply pit_count_range]]. intros Hms.
  unfold pit_count, PIT_FREQ. rewrite u32_small by lia.
  rewrite u16_small by (Z.div_mod_to_equations; lia). case_tests; [Z.div_mod_to_equations; lia|].
  Z.div_mod_to_equations; lia.
Qed.

Lemma pit_count_exact_witness :
  (10 <= 54 -> pit_count 10 = Z.max 1 (PIT_FREQ * 10 / 1000)) /\ pit_count 55 = 89 /\ 1 <= pit_count 10 < 65536.
Proof. apply (pit_count_exact 10). lia. Defined.

(** The 8254's latch: the command freezes the count, and the next two reads give
    its low and its high byte.  [c k] is the count at the [k]-th latch command. *)
Fixpoint latches (tr : list event) : nat :=
  match tr with
  | [] => 0
  | EvOut w p v :: tr' => if (w =? 1) && (p =? PIT_CMD) && (v =? 0) then S (latches tr') else latches tr'
  | _ :: tr' => latches tr'
  end.
(** A read of channel 0 since the last latch. *)
Definition low_read (tr : list event) : bool :=
  match tr with EvHw (RdIn 1 p) _ :: _ => p =? PIT_CH0 | _ => false end.
Definition pit_latch (c : nat -> Z) (hw : list event -> hw_read -> Z) : Prop :=
  forall tr, hw tr (RdIn 1 PIT_CH0)
    = (if low_read tr then c (latches tr - 1)%nat / 256 else c (latches tr - 1)%nat mod 256).
Definition pit_hw (c : nat -> Z) (tr : list event) (r : hw_read) : Z :=
  if low_read tr then c (latches tr - 1)%nat / 256 else c (latches tr - 1)%nat mod 256.

Section pit.
Context (hw : list event -> hw_read -> Z) (c : nat -> Z) (Hhw : pit_latch c hw).
Context (Hc : forall k, 0 <= c k < 65536).

(** One turn of the loop. *)
Lemma pit_step fuel count s :
  0 < count -> exists tr, latches tr = S (latches (trace s))
    /\ pit_loop hw (S fuel) count s
       = (if count <? c (latches (trace s)) then mret tt else pit_loop hw fuel count) (set_trace tr s).
Proof.
  intros H0. set (k := latches (trace s)).
  set (tr0 := EvOut 1 PIT_CMD 0 :: trace s).
  set (tr1 := EvHw (RdIn 1 PIT_CH0) (c k mod 256) :: tr0).
  set (tr2 := EvHw (RdIn 1 PIT_CH0) (c k / 256) :: tr1).
  exists tr2. split; [done|]. specialize (Hc k).
  assert (E1 : hw tr0 (RdIn 1 PIT_CH0) = c k mod 256).
  { rewrite Hhw. change (latches tr0) with (S k). change (low_read tr0) with false.
    by replace (S k - 1)%nat with k by lia. }
  assert (E2 : hw tr1 (RdIn 1 PIT_CH0) = c k / 256).
  { rewrite Hhw. change (latches tr1) with (S k). change (low_read tr1) with true.
    by replace (S k - 1)%nat with k by lia. }
  cbn [pit_loop]. rewrite (proj2 (Z.ltb_lt _ _) H0). unfold outb. rewrite bind_emit. fold tr0.
  assert (R1 : inb hw PIT_CH0 (set_trace tr0 s) = Ret (c k mod 256) (set_trace tr1 s)).
  { unfold inb, hw_load, mbind, M_bind. cbn [trace set_trace]. rewrite E1.
    rewrite u8_small by (apply Z.mod_pos_bound; lia). done. }
  assert (R2 : inb hw PIT_CH0 (set_trace tr1 s) = Ret (c k / 256) (set_trace tr2 s)).
  { unfold inb, hw_load, mbind, M_bind. cbn [trace set_trace]. rewrite E2.
    rewrite u8_small by (Z.div_mod_to_equations; lia). done. }
  rewrite (bind_ret _ _ _ _ _ R1), (bind_ret _ _ _ _ _ R2).
  assert (Ev : u16 ((c k mod 256) .| ((c k / 256) .<< 8)) = c k).
  { rewrite Z.shiftl_mul_pow2, Z.lor_comm by lia.
    rewrite (lor_add_disjoint (c k / 256 * 2 ^ 8) _ 8) by (rewrite ?Z.mod_mul; try apply Z.mod_pos_bound; lia).
    rewrite u16_small by (Z.div_mod_to_equations; lia). pose proof (Z.div_mod (c k) 256). lia. }
  rewrite Ev. destruct (Z.eqb_spec (c k) 0) as [E0|]; [|done]. rewrite E0. done.
Qed.

Lemma pit_loop_ends k fuel count s :
  0 < count -> count < c (latches (trace s) + k) ->
  (forall j, (j < k)%nat -> c (latches (trace s) + j)%nat <= count) -> (k < fuel)%nat ->
  exists tr, pit_loop hw fuel count s = Ret tt (set_trace tr s).
Proof.
  revert fuel s. induction k as [|k IH]; intros fuel s H0 Hk Hj Hf; (destruct fuel as [|fuel]; [lia|]);
    destruct (pit_step fuel count s H0) as (tr & Htr & ->).
  - rewrite Nat.add_0_r in Hk. rewrite (proj2 (Z.ltb_lt _ _) Hk). by exists tr.
  - specialize (Hj 0%nat ltac:(lia)) as Hj0. rewrite Nat.add_0_r in Hj0.
    rewrite (proj2 (Z.ltb_ge _ _) Hj0).
    destruct (IH fuel (set_trace tr s) H0) as (tr' & E); cbn [trace set_trace]; rewrite ?Htr.
    + by replace (S (latches (trace s)) + k)%nat with (latches (trace s) + S k)%nat by lia.
    + intros j Hjk. replace (S (latches (trace s)) + j)%nat with (latches (trace s) + S j)%nat by lia.
      apply Hj. lia.
    + lia.
    + exists tr'. by rewrite E.
Qed.

Lemma pit_loop_spins fuel count s :
  0 < count -> (forall j, c (latches (trace s) + j)%nat <= count) ->
  exists tr, pit_loop hw fuel count s = Hang (set_trace tr s).
Proof.
  revert s. induction fuel as [|fuel IH]; intros s H0 Hj; [exists (trace s); by destruct s|].
  destruct (pit_step fuel count s H0) as (tr & Htr & ->).
  specialize (Hj 0%nat) as Hj0. rewrite Nat.add_0_r in Hj0. rewrite (proj2 (Z.ltb_ge _ _) Hj0).
  destruct (IH (set_trace tr s) H0) as (tr' & E); cbn [trace set_trace]; rewrite ?Htr.
  - intros j. replace (S (latches (trace s)) + j)%nat with (latches (trace s) + S j)%nat by lia. apply Hj.
  - exists tr'. by rewrite E.
Qed.
End pit.

(** pit_wait ends exactly when a latched count is above the loaded one, that
    is after the counter has passed zero and wrapped: with interrupts off it polls
    until then, and if every count it latches is at most the loaded one it polls
    for ever (a count read as 0 does not end it). *)
Theorem pit_wait_ends (hw : list event -> hw_read -> Z) (c : nat -> Z) (ms : Z) (s : kst) :
  pit_latch c hw -> (forall k, 0 <= c k < 65536) ->
  let n0 := latches (trace s) in
  (forall k, pit_count ms < c (n0 + k)%nat -> (forall j, (j < k)%nat -> c (n0 + j)%nat <= pit_count ms) ->
     forall fuel, (k < fuel)%nat -> exists tr, pit_wait hw fuel ms s = Ret tt (set_trace (EvSti :: tr) s))
  /\ ((forall k, c (n0 + k)%nat <= pit_count ms) ->
     forall fuel, exists tr, pit_wait hw fuel ms s = Hang (set_trace tr s)).
Proof.
  intros Hhw Hc n0. pose proof (pit_count_range ms) as Hr.
  set (s1 := set_trace (EvOut 1 PIT_CH0 ((pit_count ms .>> 8) .& 0xFF) :: EvOut 1 PIT_CH0 (pit_count ms .& 0xFF)
               :: EvOut 1 PIT_CMD 0x30 :: EvCli :: trace s) s).
  assert (Hn : latches (trace s1) = n0) by done.
  split.
  - intros k Hk Hj fuel Hf.
    destruct (pit_loop_ends hw c Hhw Hc k fuel (pit_count ms) s1) as (tr & E); rewrite ?Hn; try done; [lia|].
    exists tr. change (pit_wait hw fuel ms s) with ((pit_loop hw fuel (pit_count ms);; sti) s1).
    by rewrite (bind_ret _ _ _ _ _ E).
  - intros Hj fuel. destruct (pit_loop_spins hw c Hhw Hc fuel (pit_count ms) s1) as (tr & E); [lia|by rewrite Hn|].
    exists tr. change (pit_wait hw fuel ms s) with ((pit_loop hw fuel (pit_count ms);; sti) s1).
    unfold mbind, M_bind. by rewrite E.
Qed.

(** A counter that falls by 3000 between two polls. *)
Lemma pit_wait_ends_witness :
  let c k := (11931 - 3000 * Z.of_nat k) mod 65536 in
  exists tr, pit_wait (pit_hw c) 5 10 PmmExample.s = Ret tt (set_trace (EvSti :: tr) PmmExample.s).
Proof.
  intros c. destruct (pit_wait_ends (pit_hw c) c 10 PmmExample.s) as [H _];
    [done|intros k; apply Z.mod_pos_bound; lia|].
  apply (H 4%nat); [by vm_compute| |lia].
  intros j Hj. destruct j as [|[|[|[|j]]]]; [vm_compute; discriminate..|lia].
Defined.
