(* ===== verification/Drivers.v ===== *)
(** The driver stubs: ahci.c, nvme.c, ext2.c, xhci.c, hda.c, realtek_alc.c,
    e1000e.c, r8168.c, laptop.c and amdgpu.c.  The framebuffer of amdgpu.c is in
    RAM. *)
From S2P Require Import Prelude Machine Globals Strings Pci.

Definition set_drv (x : driver_globals) (p : plat_globals) : plat_globals :=
  PlatGlobals (pci p) (idtg p) (apic p) (ioapic p) (acpi p) x.
Definition upd_drv (f : driver_globals -> driver_globals) : M unit :=
  upd_plat (fun p => set_drv (f (drv p)) p).
Definition get_drv : M driver_globals := gets (fun s => drv (plat s)).

Definition set_port_count (x : Z) (d : driver_globals) : driver_globals :=
  DriverGlobals x (nvme_initialized d) (boot_drive_size d) (ext2_mounted d) (ext2_start_lba d)
    (hda_initialized d) (alc_initialized d) (gpu_fb_virt d) (gpu_fb_width d) (gpu_fb_height d)
    (gpu_fb_pitch d) (gpu_fb_bpp d).
Definition set_nvme (i : bool) (size : Z) (d : driver_globals) : driver_globals :=
  DriverGlobals (port_count d) i size (ext2_mounted d) (ext2_start_lba d)
    (hda_initialized d) (alc_initialized d) (gpu_fb_virt d) (gpu_fb_width d) (gpu_fb_height d)
    (gpu_fb_pitch d) (gpu_fb_bpp d).
Definition set_ext2 (mounted : bool) (lba : Z) (d : driver_globals) : driver_globals :=
  DriverGlobals (port_count d) (nvme_initialized d) (boot_drive_size d) mounted lba
    (hda_initialized d) (alc_initialized d) (gpu_fb_virt d) (gpu_fb_width d) (gpu_fb_height d)
    (gpu_fb_pitch d) (gpu_fb_bpp d).
Definition set_hda (i : bool) (d : driver_globals) : driver_globals :=
  DriverGlobals (port_count d) (nvme_initialized d) (boot_drive_size d) (ext2_mounted d)
    (ext2_start_lba d) i (alc_initialized d) (gpu_fb_virt d) (gpu_fb_width d) (gpu_fb_height d)
    (gpu_fb_pitch d) (gpu_fb_bpp d).
Definition set_alc (i : bool) (d : driver_globals) : driver_globals :=
  DriverGlobals (port_count d) (nvme_initialized d) (boot_drive_size d) (ext2_mounted d)
    (ext2_start_lba d) (hda_initialized d) i (gpu_fb_virt d) (gpu_fb_width d) (gpu_fb_height d)
    (gpu_fb_pitch d) (gpu_fb_bpp d).

(** The "%02x:%02x.%x" arguments of a device. *)
Definition place_args (d : pci_device) : list karg := [AInt (bus d); AInt (slot d); AInt (func d)].

(** A controller that is searched by class, and by ids in order of preference. *)
Fixpoint find_device_of (vendor : Z) (devices : list Z) : M (option nat) :=
  match devices with
  | [] => mret None
  | device :: rest =>
      r ← pci_find_device vendor device;
      match r with Some i => mret (Some i) | None => find_device_of vendor rest end
  end.

(** * Storage *)
Definition ahci_init : M bool :=
  r ← pci_find_class PCI_CLASS_AHCI;
  match r with
  | None => mret false
  | Some i =>
      dev ← pci_entry i;
      kprintf "AHCI: Controller found at %02x:%02x.%x\n" (place_args dev);;
      upd_drv (set_port_count 4);;
      d ← get_drv;
      kprintf "AHCI: %u ports\n" [AInt (port_count d)];;
      mret true
  end.
Definition ahci_read_sectors (port lba count buf : Z) : M bool := mret false.
Definition ahci_write_sectors (port lba count buf : Z) : M bool := mret false.
Definition ahci_get_port_count : M Z := d ← get_drv; mret (port_count d).

Definition nvme_init : M bool :=
  r ← pci_find_class PCI_CLASS_NVME;
  match r with
  | None => kprintf "NVMe: Controller not found\n" [];; mret false
  | Some i =>
      dev ← pci_entry i;
      kprintf "NVMe: Found at %02x:%02x.%x\n" (place_args dev);;
      kprintf "NVMe: Driver stub - full driver not implemented\n" [];;
      upd_drv (set_nvme true (500 * 1024 * 1024 * 1024));;
      mret true
  end.
Definition nvme_get_boot_size : M Z := d ← get_drv; mret (boot_drive_size d).
Definition nvme_read_boot (lba count buf : Z) : M bool :=
  d ← get_drv;
  if negb (nvme_initialized d) then mret false
  else
    kprintf "NVMe: Read %u sectors at LBA %lu (not implemented)\n" [AInt count; AInt lba];;
    upd_ram (fun m => memset m (lin buf) 0 (u32 (count * 512)));;
    mret false.
Definition nvme_write_boot (lba count buf : Z) : M bool := mret false.

Definition ext2_mount (start_lba : Z) : M bool :=
  kprintf "Ext2: Mount attempt at LBA %lu (stub)\n" [AInt start_lba];;
  upd_drv (set_ext2 false start_lba);;
  mret false.
Definition ext2_open (path file : Z) : M bool :=
  d ← get_drv; if negb (ext2_mounted d) then mret false else mret false.
Definition ext2_read (file buf size : Z) : M Z :=
  d ← get_drv; if negb (ext2_mounted d) then mret 0 else mret 0.
Definition ext2_exists (path : Z) : M bool := mret false.

(** * USB, audio, network *)
Definition xhci_init : M bool :=
  r ← pci_find_class PCI_CLASS_XHCI;
  match r with
  | None => kprintf "XHCI: Controller not found\n" [];; mret false
  | Some i =>
      dev ← pci_entry i;
      kprintf "XHCI: Found at %02x:%02x.%x\n" (place_args dev);;
      kprintf "XHCI: Driver stub\n" [];;
      mret true
  end.
Definition xhci_poll : M unit := mret tt.

Definition hda_init : M bool :=
  r ← pci_find_class PCI_CLASS_HDA;
  match r with
  | None => kprintf "HDA: Controller not found\n" [];; mret false
  | Some i =>
      dev ← pci_entry i;
      kprintf "HDA: Found at %02x:%02x.%x\n" (place_args dev);;
      upd_drv (set_hda true);;
      kprintf "HDA: Initialized (stub)\n" [];;
      mret true
  end.
Definition hda_beep (freq duration_ms : Z) : M unit := mret tt.
Definition hda_send_verb (codec nid verb payload : Z) : M unit := mret tt.

Definition alc_model (device_id : Z) : string :=
  if device_id =? 0x0255 then "ALC255"
  else if device_id =? 0x0256 then "ALC256"
  else if device_id =? 0x0257 then "ALC257"
  else if device_id =? 0x0295 then "ALC295"
  else if device_id =? 0x0298 then "ALC298"
  else "Unknown".
Definition realtek_alc_init (codec_addr vendor device : Z) : M bool :=
  if negb (vendor =? 0x10EC) then mret false
  else
    kprintf "ALC: Found Realtek %s (0x%04X)\n" [AStr (alc_model device); AInt device];;
    upd_drv (set_alc true);;
    mret true.
Definition realtek_alc_poll : M unit := mret tt.
Definition realtek_beep (freq duration_ms : Z) : M unit :=
  kprintf "ALC: Beep %u Hz, %u ms (stub)\n" [AInt freq; AInt duration_ms].

Definition e1000e_init : M bool :=
  r ← find_device_of 0x8086 [0x10D3; 0x10F6; 0x1533; 0x1539];
  match r with
  | None => kprintf "e1000e: Intel Ethernet not found\n" [];; mret false
  | Some i =>
      dev ← pci_entry i;
      kprintf "e1000e: Found at %02x:%02x.%x\n" (place_args dev);;
      kprintf "e1000e: Driver stub\n" [];;
      mret true
  end.

Definition r8168_init : M bool :=
  r ← find_device_of 0x10EC [0x8168; 0x8161; 0x8162; 0x8125; 0x8111];
  match r with
  | None => kprintf "r8168: Realtek Ethernet not found\n" [];; mret false
  | Some i =>
      dev ← pci_entry i;
      kprintf "r8168: Found at %02x:%02x.%x\n" (place_args dev);;
      kprintf "r8168: Driver stub\n" [];;
      mret true
  end.
Definition r8168_poll : M unit := mret tt.

(** * laptop.c *)
Definition laptop_ec_init : M unit := kprintf "EC: Initializing...\n" [].
Definition laptop_get_cpu_temp : M Z := mret 45.
Definition laptop_get_fan_rpm : M Z := mret 2400.
Definition laptop_set_fan_speed (percent : Z) : M unit := mret tt.
Definition laptop_thermal_init : M unit := kprintf "Thermal: Initialized (stub)\n" [].
Definition laptop_thermal_poll : M unit := mret tt.

(** * amdgpu.c *)
Definition amdgpu_init : M bool :=
  r ← find_device_of 0x1002 [0x15DD; 0x15D8];
  match r with
  | None => kprintf "amdgpu: AMD GPU not found\n" [];; mret false
  | Some i =>
      dev ← pci_entry i;
      kprintf "amdgpu: Found AMD GPU at %02x:%02x.%x\n" (place_args dev);;
      kprintf "amdgpu: Driver stub - using VESA mode\n" [];;
      mret false
  end.
Definition amdgpu_get_framebuffer : M Z := d ← get_drv; mret (gpu_fb_virt d).
Definition amdgpu_get_fb_width : M Z := d ← get_drv; mret (gpu_fb_width d).
Definition amdgpu_get_fb_height : M Z := d ← get_drv; mret (gpu_fb_height d).
Definition amdgpu_get_fb_pitch : M Z := d ← get_drv; mret (gpu_fb_pitch d).
Definition amdgpu_get_fb_bpp : M Z := d ← get_drv; mret (gpu_fb_bpp d).

(** &((uint32_t * )(fb_virt + y * fb_pitch))[x] *)
Definition pixel (d : driver_globals) (x y : Z) : Z := gpu_fb_virt d + u32 (y * gpu_fb_pitch d) + 4 * x.

Definition amdgpu_putpixel (x y color : Z) : M unit :=
  d ← get_drv;
  if (gpu_fb_virt d =? 0) || (gpu_fb_width d <=? x) || (gpu_fb_height d <=? y) then mret tt
  else upd_ram (fun m => store32 m (lin (pixel d x y)) color).

(** The loop over px, [n] columns at most. *)
Fixpoint fill_line (n : nat) (d : driver_globals) (xend color y px : Z) (m : gmap Z Z) : gmap Z Z :=
  match n with
  | O => m
  | S n' =>
      if (px <? xend) && (px <? gpu_fb_width d)
      then fill_line n' d xend color y (px + 1) (store32 m (lin (pixel d px y)) color)
      else m
  end.
(** The loop over py, [n] lines at most. *)
Fixpoint fill_lines (n : nat) (d : driver_globals) (x xend yend color py : Z) (m : gmap Z Z) : gmap Z Z :=
  match n with
  | O => m
  | S n' =>
      if (py <? yend) && (py <? gpu_fb_height d)
      then fill_lines n' d x xend yend color (py + 1)
             (fill_line (Z.to_nat (gpu_fb_width d)) d xend color py x m)
      else m
  end.

Definition amdgpu_fill_rect (x y w h color : Z) : M unit :=
  d ← get_drv;
  if gpu_fb_virt d =? 0 then mret tt
  else upd_ram (fill_lines (Z.to_nat (gpu_fb_height d)) d x (u32 (x + w)) (u32 (y + h)) color y).

Definition amdgpu_clear (color : Z) : M unit :=
  d ← get_drv;
  amdgpu_fill_rect 0 0 (gpu_fb_width d) (gpu_fb_height d) color.
