(* ===== verification/Main.v ===== *)
(** main.c: the boot sequence.

    gdt64_init and init_tss are assembly (gdt.asm: they load descriptor registers,
    which are not modelled, and do not enable interrupts), and cpu_init_early, smp_init and
    smp_get_cpu_count are declared in kernel.h but defined nowhere: their effects
    are parameters, as are the addresses the linker gives. *)
From S2P Require Import Prelude Machine Globals Pmm Kmalloc Vmm Sched Net Pci Platform Idt Drivers.

(** * find_rsdp *)
Definition MULTIBOOT_TAG_TYPE_ACPI_OLD : Z := 14.
Definition MULTIBOOT_TAG_TYPE_ACPI_NEW : Z := 15.

(** The walk over the tags: [Some 0] at the end tag, [None] when the fuel ran out. *)
Fixpoint rsdp_walk (fuel : nat) (m : gmap Z Z) (ptr : Z) : option Z :=
  match fuel with
  | O => None
  | S f =>
      if tag_type m ptr =? 0 then Some 0
      else if (tag_type m ptr =? MULTIBOOT_TAG_TYPE_ACPI_OLD) || (tag_type m ptr =? MULTIBOOT_TAG_TYPE_ACPI_NEW)
      then Some (ptr + 8)
      else rsdp_walk f m (ptr + tag_step m ptr)
  end.

Definition find_rsdp (fuel : nat) (mb_info_phys : Z) : M Z :=
  m ← gets ram;
  match rsdp_walk fuel m (PHYS_TO_VIRT mb_info_phys + 8) with Some p => mret p | None => hang end.

Section kernel_main.
Variable hw : list event -> hw_read -> Z.
Variables gdt64_init init_tss cpu_init_early smp_init : M unit.
Variable smp_get_cpu_count : M Z.
Variables isr irq_stub : Z -> Z.
Variables idt_address kernel_end sbin_init init_file : Z.

(** ** The sections of kernel_main *)
Definition boot_banner : M unit :=
  kprintf "\n" [];;
  kprintf "========================================================\n" [];;
  kprintf "  KOS 1.0 Final                                        \n" [];;
  kprintf "  Acer Nitro 5 AN515-43 | Ryzen 5 3550H | 16GB | 500GB\n" [];;
  kprintf "========================================================\n\n" [].

Definition boot_core (fuel : nat) (mb_info_phys : Z) : M unit :=
  pmm_init fuel mb_info_phys;;
  vmm_init kernel_end;;
  kmalloc_init;;
  gdt64_init;;
  init_tss;;
  idt_init isr irq_stub idt_address;;
  kprintf "[OK] Core initialized\n" [].

Definition boot_acpi (fuel : nat) (mb_info_phys : Z) : M unit :=
  rsdp ← find_rsdp fuel mb_info_phys;
  ok ← (if rsdp =? 0 then mret false else acpi_init rsdp);
  if (ok : bool) then
    major ← acpi_get_version_major;
    minor ← acpi_get_version_minor;
    count ← acpi_get_cpu_count;
    kprintf "[OK] ACPI %u.%u, %u CPUs\n" [AInt major; AInt minor; AInt count]
  else kprintf "[WARN] ACPI not found, using defaults\n" [].

Definition boot_cpus : M unit :=
  lapic_init hw;;
  lapic_timer_calibrate;;
  ioapic_init;;
  sti;;
  cpu_init_early;;
  smp_init;;
  scheduler_init.

Definition boot_storage : M unit :=
  kprintf "\n[STORAGE] NVMe boot drive...\n" [];;
  found ← nvme_init;
  if (found : bool) then
    size ← nvme_get_boot_size;
    kprintf "[OK] NVMe: %lu GB\n" [AInt (size / (1024 * 1024 * 1024))];;
    kprintf "[FS] Mounting ext2 root...\n" [];;
    mounted ← ext2_mount 2048;
    whenM mounted
      (kprintf "[OK] Root filesystem mounted\n" [];;
       opened ← ext2_open sbin_init init_file;
       whenM opened
         (m ← gets ram;
          kprintf "[OK] Found /sbin/init, size %u bytes\n" [AInt (load32 m (lin (init_file + 4)))]))
  else
    kprintf "[WARN] NVMe not initialized, trying AHCI...\n" [];;
    found ← ahci_init;
    whenM found (ports ← ahci_get_port_count; kprintf "[OK] AHCI: %u ports\n" [AInt ports]).

Definition boot_network : M unit :=
  kprintf "\n[NETWORK] Ethernet controllers...\n" [];;
  r8168 ← r8168_init;
  if (r8168 : bool) then kprintf "[OK] r8168: Gigabit link ready\n" []
  else
    e1000e ← e1000e_init;
    if (e1000e : bool) then kprintf "[OK] e1000e: Intel Gigabit\n" []
    else kprintf "[WARN] No Ethernet controller found\n" [].

Definition boot_devices : M unit :=
  kprintf "\n[AUDIO] HD Audio...\n" [];;
  hda ← hda_init;
  (if (hda : bool) then kprintf "[OK] HDA audio ready\n" [] else kprintf "[WARN] HDA not initialized\n" []);;
  kprintf "\n[USB] XHCI controller...\n" [];;
  xhci ← xhci_init;
  whenM xhci (kprintf "[OK] XHCI initialized\n" []);;
  kprintf "\n[GPU] AMD Radeon Vega 8...\n" [];;
  gpu ← amdgpu_init;
  (if (gpu : bool) then
     amdgpu_clear 0x000011;;
     w ← amdgpu_get_fb_width;
     h ← amdgpu_get_fb_height;
     kprintf "[OK] Framebuffer %ux%u\n" [AInt w; AInt h]
   else kprintf "[INFO] Using VGA text mode\n" []);;
  kprintf "\n[LAPTOP] Hardware monitoring...\n" [];;
  laptop_ec_init;;
  laptop_thermal_init;;
  temp ← laptop_get_cpu_temp;
  rpm ← laptop_get_fan_rpm;
  kprintf "     Temp: %uC, Fan: %u RPM\n" [AInt temp; AInt rpm].

Definition boot_status : M unit :=
  kprintf "\n========================================================\n" [];;
  cpus ← smp_get_cpu_count;
  kprintf "[OK] KOS ready on %u CPUs\n" [AInt cpus];;
  free ← pmm_get_free;
  kprintf "     Memory: %lu MB free\n" [AInt (free / (1024 * 1024))];;
  kprintf "========================================================\n\n" [].

(** The idle loop never ends; [n] turns of it are run. *)
Fixpoint idle_loop (n : nat) : M unit :=
  match n with
  | O => hang
  | S n' => network_poll;; laptop_thermal_poll;; hlt;; idle_loop n'
  end.

(** console_early_init clears the screen only (see Console).  [fuel] bounds the
    walks of the boot information and of the capability lists. *)
Definition kernel_main (fuel : nat) (mb_info_phys : Z) : M unit :=
  boot_banner;;
  boot_core fuel mb_info_phys;;
  boot_acpi fuel mb_info_phys;;
  boot_cpus;;
  pci_init hw fuel;;
  boot_storage;;
  boot_network;;
  boot_devices;;
  boot_status;;
  idle_loop fuel.
End kernel_main.
