(* ===== verification/Emits.v ===== *)
(** What an operation may emit: a class of the operations that only append
    events of a kind to the trace, however they end, and its instances for the
    operations of the boot sequence. *)
From S2P Require Import Prelude Machine Globals Strings Pmm Kmalloc Vmm Sched Net Pci Platform Idt Drivers Main.

(** The operations are named, not unfolded, when an instance is looked for. *)
#[local] Hint Constants Opaque : typeclass_instances.

(** The trace of [s] is the trace [t] after events that satisfy [P]. *)
Definition grown (P : event -> bool) (t : list event) (s : kst) : Prop :=
  exists tr, trace s = tr ++ t /\ Forall (fun e => P e = true) tr.

Class Emits (P : event -> bool) {A} (m : M A) : Prop :=
  emits : forall t, always (grown P t) m (fun _ => True).

(** [P] allows everything but sti. *)
Class Harmless (P : event -> bool) : Prop :=
  harmless : forall e, e <> EvSti -> P e = true.

Definition not_sti (e : event) : bool := match e with EvSti => false | _ => true end.
(** Nothing is asked of the events, only that the trace before them is kept. *)
Definition any_event (e : event) : bool := true.

#[export] Instance not_sti_harmless : Harmless not_sti.
Proof. by intros []. Qed.
#[export] Instance any_event_harmless : Harmless any_event.
Proof. done. Qed.

Section combinators.
Context (P : event -> bool).

#[export] Instance emits_ret {A} (a : A) : Emits P (mret a).
Proof. intros t. by apply always_ret. Qed.
#[export] Instance emits_gets {A} (f : kst -> A) : Emits P (gets f).
Proof. intros t. by apply always_gets. Qed.
#[export] Instance emits_hang {A} : Emits P (hang : M A).
Proof. intros t. apply always_hang. Qed.

Lemma emits_bind {A B} (m : M A) (K : A -> M B) :
  Emits P m -> (forall a, Emits P (K a)) -> Emits P (m ≫= K).
Proof. intros Hm HK t. eapply always_bind; [apply Hm|intros a _; apply HK]. Qed.

Lemma emits_modify f : (forall s, trace (f s) = trace s) -> Emits P (modify f).
Proof. intros Hf t. apply always_modify. intros s [tr [E Htr]]. exists tr. by rewrite Hf. Qed.

Lemma emits_emit e : P e = true -> Emits P (emit e).
Proof.
  intros He t. apply always_modify. intros s [tr [E Htr]]. exists (e :: tr). cbn [trace set_trace].
  rewrite E. split; [done|by constructor].
Qed.

Lemma emits_panic {A} msg : P EvCli = true -> (forall f a, P (EvPrintf f a) = true) ->
  Emits P (kernel_panic msg : M A).
Proof.
  intros Hc Hp. unfold kernel_panic. apply emits_bind; [by apply emits_emit|intros _].
  apply emits_bind; [apply emits_emit, Hp|]. by intros _ t s Hs.
Qed.

Lemma emits_hw_load hw r : (forall v, P (EvHw r v) = true) -> Emits P (hw_load hw r).
Proof.
  intros He t s [tr [E Htr]]. split; [done|]. exists (EvHw r (hw (trace s) r) :: tr).
  cbn [trace set_trace]. rewrite E. split; [done|by constructor].
Qed.

Lemma emits_run {A} (m : M A) s :
  Emits P m -> match m s with Ret _ s' | Panic _ s' | Hang s' => grown P (trace s) s' end.
Proof. intros Hm. eapply (always_outcome _ m); [apply Hm|]. exists []. by split. Qed.
End combinators.

(** [emits] goes through the structure of an operation; what it calls is found
    among the instances. *)
Ltac emits_step :=
  match goal with
  | |- forall _, _ => intro
  | |- Emits _ (mbind _ _) => apply emits_bind
  | |- Emits _ (modify _) => apply emits_modify; intros; reflexivity
  | |- Emits _ (emit _) => apply emits_emit; apply harmless; discriminate
  | |- Emits _ (let _ := _ in _) => cbv zeta
  | |- Emits _ (match ?x with _ => _ end) => destruct x
  | |- Emits _ (whenM _ _) => unfold whenM
  | |- Emits _ _ => solve [typeclasses eauto]
  end.
Ltac emits := repeat emits_step.

Section operations.
Context (P : event -> bool) {HP : Harmless P}.

(** ** Globals, memory.c *)
#[export] Instance emits_upd_ram f : Emits P (upd_ram f).
Proof. unfold upd_ram. emits. Qed.
#[export] Instance emits_kprintf f a : Emits P (kprintf f a).
Proof. unfold kprintf. emits. Qed.
#[export] Instance emits_kernel_panic {A} msg : Emits P (kernel_panic msg : M A).
Proof. apply emits_panic; intros; by apply harmless. Qed.
#[export] Instance emits_hw hw r : Emits P (hw_load hw r).
Proof. apply emits_hw_load. intros. by apply harmless. Qed.
#[export] Instance emits_upd_zone i f : Emits P (upd_zone i f).
Proof. unfold upd_zone. emits. Qed.
#[export] Instance emits_get_zone i : Emits P (get_zone i).
Proof. unfold get_zone. emits. Qed.
#[export] Instance emits_zone_spin_lock i : Emits P (zone_spin_lock i).
Proof. unfold zone_spin_lock. emits. Qed.
#[export] Instance emits_zone_spin_unlock i : Emits P (zone_spin_unlock i).
Proof. unfold zone_spin_unlock. emits. Qed.
#[export] Instance emits_pmm_early_alloc n : Emits P (pmm_early_alloc n).
Proof. unfold pmm_early_alloc. emits. Qed.
#[export] Instance emits_init_extend m mmap i : Emits P (init_extend m mmap i).
Proof. unfold init_extend. emits. Qed.
#[export] Instance emits_init_bitmap zi : Emits P (init_bitmap zi).
Proof. unfold init_bitmap. emits. Qed.

Lemma emits_for_entries n i body : (forall j, Emits P (body j)) -> Emits P (for_entries n i body).
Proof. intros Hb. revert i. induction n as [|n IH]; intros i; cbn [for_entries]; emits. Qed.
#[export] Instance emits_init_free_pages n e a : Emits P (init_free_pages n e a).
Proof. revert a. induction n as [|n IH]; intros a; cbn [init_free_pages]; emits. Qed.
#[export] Instance emits_init_free m mmap i : Emits P (init_free m mmap i).
Proof. unfold init_free. emits. Qed.
#[export] Instance emits_init_reserve n p : Emits P (init_reserve n p).
Proof. revert p. induction n as [|n IH]; intros p; cbn [init_reserve]; emits. Qed.
#[export] Instance emits_pmm_init fuel mb : Emits P (pmm_init fuel mb).
Proof. unfold pmm_init. emits; apply emits_for_entries; emits. Qed.
#[export] Instance emits_alloc_page_in order : Emits P (alloc_page_in order).
Proof. induction order as [|zi rest IH]; cbn [alloc_page_in]; emits. Qed.
#[export] Instance emits_pmm_alloc_page : Emits P pmm_alloc_page.
Proof. unfold pmm_alloc_page. emits. Qed.
#[export] Instance emits_pmm_get_free : Emits P pmm_get_free.
Proof. unfold pmm_get_free. emits. Qed.

(** ** vmm.c *)
#[export] Instance emits_invlpg a : Emits P (invlpg a).
Proof. unfold invlpg. emits. Qed.
#[export] Instance emits_write_cr3 v : Emits P (write_cr3 v).
Proof. unfold write_cr3. emits. Qed.
#[export] Instance emits_get_or_create_table p i f : Emits P (get_or_create_table p i f).
Proof. unfold get_or_create_table. emits. Qed.
#[export] Instance emits_replace_entry t i v e : Emits P (replace_entry t i v e).
Proof. unfold replace_entry. emits. Qed.
#[export] Instance emits_vmm_map_page p v a f : Emits P (vmm_map_page p v a f).
Proof. unfold vmm_map_page. emits. Qed.
#[export] Instance emits_vmm_map_huge_page p v a f : Emits P (vmm_map_huge_page p v a f).
Proof. unfold vmm_map_huge_page. emits. Qed.
#[export] Instance emits_init_identity n a : Emits P (init_identity n a).
Proof. revert a. induction n as [|n IH]; intros a; cbn [init_identity]; emits. Qed.
#[export] Instance emits_init_kernel_half n a : Emits P (init_kernel_half n a).
Proof. revert a. induction n as [|n IH]; intros a; cbn [init_kernel_half]; emits. Qed.
#[export] Instance emits_vmm_init e : Emits P (vmm_init e).
Proof. unfold vmm_init. emits. Qed.

(** ** kmalloc.c, scheduler.c, idt.c, apic.c, ioapic.c, acpi.c *)
#[export] Instance emits_kmalloc_init : Emits P kmalloc_init.
Proof. unfold kmalloc_init. emits. Qed.
#[export] Instance emits_scheduler_init : Emits P scheduler_init.
Proof. unfold scheduler_init. emits. Qed.
#[export] Instance emits_upd_plat f : Emits P (upd_plat f).
Proof. unfold upd_plat. emits. Qed.
#[export] Instance emits_idt_set_gate n h t : Emits P (idt_set_gate n h t).
Proof. unfold idt_set_gate, upd_idtg. emits. Qed.
#[export] Instance emits_set_gates n a i f : Emits P (set_gates n a i f).
Proof. revert i. induction n as [|n IH]; intros i; cbn [set_gates]; emits. Qed.
#[export] Instance emits_idt_init f g a : Emits P (idt_init f g a).
Proof. unfold idt_init, upd_idtg. emits. Qed.
#[export] Instance emits_mmio_store a v : Emits P (mmio_store a v).
Proof. unfold mmio_store. emits. Qed.
#[export] Instance emits_outb a v : Emits P (outb a v).
Proof. unfold outb. emits. Qed.
#[export] Instance emits_outl a v : Emits P (outl a v).
Proof. unfold outl. emits. Qed.
#[export] Instance emits_wrmsr a v : Emits P (wrmsr a v).
Proof. unfold wrmsr. emits. Qed.
#[export] Instance emits_lapic_init hw : Emits P (lapic_init hw).
Proof. unfold lapic_init, cpuid_edx, rdmsr, mmio_load, upd_apic. emits. Qed.
#[export] Instance emits_lapic_timer_calibrate : Emits P lapic_timer_calibrate.
Proof. unfold lapic_timer_calibrate, upd_apic. emits. Qed.
#[export] Instance emits_acpi_init r : Emits P (acpi_init r).
Proof. unfold acpi_init, upd_acpi, get_acpi. emits. Qed.
#[export] Instance emits_ioapic_loop n i : Emits P (ioapic_loop n i).
Proof.
  revert i. induction n as [|n IH]; intros i; cbn [ioapic_loop];
    unfold acpi_get_ioapic_addr, acpi_get_ioapic_gsi_base, upd_ioapic, get_acpi; emits.
Qed.
#[export] Instance emits_ioapic_init : Emits P ioapic_init.
Proof. unfold ioapic_init, acpi_get_ioapic_count, upd_ioapic, get_acpi. emits. Qed.
#[export] Instance emits_find_rsdp fuel mb : Emits P (find_rsdp fuel mb).
Proof. unfold find_rsdp. emits. Qed.

(** ** pci.c and the drivers *)
#[export] Instance emits_pci_read hw b sl f o : Emits P (pci_read hw b sl f o).
Proof. unfold pci_read, inl. emits. Qed.
#[export] Instance emits_pci_write b sl f o v : Emits P (pci_write b sl f o v).
Proof. unfold pci_write. emits. Qed.
#[export] Instance emits_bars_loop hw b sl f n i d : Emits P (bars_loop hw b sl f n i d).
Proof. revert i d. induction n as [|n IH]; intros i d; cbn [bars_loop]; emits. Qed.
#[export] Instance emits_cap_loop hw b sl f n c d : Emits P (cap_loop hw b sl f n c d).
Proof. revert c d. induction n as [|n IH]; intros c d; cbn [cap_loop]; emits. Qed.
#[export] Instance emits_scan_function hw b sl f n v : Emits P (scan_function hw b sl f n v).
Proof. unfold scan_function, get_pci, upd_pci. emits. Qed.
#[export] Instance emits_func_loop hw fuel n b sl f : Emits P (func_loop hw fuel n b sl f).
Proof. revert f. induction n as [|n IH]; intros f; cbn [func_loop]; unfold get_pci; emits. Qed.
#[export] Instance emits_slot_loop hw fuel n b sl : Emits P (slot_loop hw fuel n b sl).
Proof. revert sl. induction n as [|n IH]; intros sl; cbn [slot_loop]; emits. Qed.
#[export] Instance emits_bus_loop hw fuel n b : Emits P (bus_loop hw fuel n b).
Proof. revert b. induction n as [|n IH]; intros b; cbn [bus_loop]; emits. Qed.
#[export] Instance emits_pci_init hw fuel : Emits P (pci_init hw fuel).
Proof. unfold pci_init, get_pci. emits. Qed.
#[export] Instance emits_pci_find_class c : Emits P (pci_find_class c).
Proof. unfold pci_find_class, get_pci. emits. Qed.
#[export] Instance emits_find_device_of v l : Emits P (find_device_of v l).
Proof. induction l as [|d l IH]; cbn [find_device_of]; unfold pci_find_device, get_pci; emits. Qed.
#[export] Instance emits_pci_entry i : Emits P (pci_entry i).
Proof. unfold pci_entry, get_pci. emits. Qed.
#[export] Instance emits_get_drv : Emits P get_drv.
Proof. unfold get_drv. emits. Qed.
#[export] Instance emits_upd_drv f : Emits P (upd_drv f).
Proof. unfold upd_drv. emits. Qed.

(** ** main.c *)
#[export] Instance emits_boot_acpi fuel mb : Emits P (boot_acpi fuel mb).
Proof. unfold boot_acpi, acpi_get_version_major, acpi_get_version_minor, acpi_get_cpu_count, get_acpi. emits. Qed.
#[export] Instance emits_boot_storage i f : Emits P (boot_storage i f).
Proof.
  unfold boot_storage, nvme_init, nvme_get_boot_size, ext2_mount, ext2_open, ahci_init, ahci_get_port_count.
  emits.
Qed.
#[export] Instance emits_boot_network : Emits P boot_network.
Proof. unfold boot_network, r8168_init, e1000e_init. emits. Qed.
#[export] Instance emits_boot_devices : Emits P boot_devices.
Proof.
  unfold boot_devices, hda_init, xhci_init, amdgpu_init, amdgpu_clear, amdgpu_fill_rect,
    amdgpu_get_fb_width, amdgpu_get_fb_height, laptop_ec_init, laptop_thermal_init, laptop_get_cpu_temp,
    laptop_get_fan_rpm.
  emits.
Qed.
#[export] Instance emits_boot_status c : Emits P c -> Emits P (boot_status c).
Proof. intros Hc. unfold boot_status. emits. Qed.
#[export] Instance emits_idle_loop n : Emits P (idle_loop n).
Proof. induction n as [|n IH]; cbn [idle_loop]; unfold network_poll, laptop_thermal_poll, hlt; emits. Qed.
End operations.
