(* ===== verification/BootOrder.v ===== *)
(** The order of the boot: kernel_main first enables interrupts when the page
    tables and the interrupt table are loaded and the legacy interrupt controllers
    are masked; it never returns. *)
From S2P Require Import Prelude Machine Globals Strings Pmm Kmalloc Vmm Sched Net Pci Platform Idt Drivers Main Emits.

#[local] Hint Constants Opaque : typeclass_instances.

(** [m] emits an event of [Q] whenever it returns. *)
Definition announces {A} (Q : event -> Prop) (m : M A) : Prop := forall s a s',
  m s = Ret a s' -> exists tr, trace s' = tr ++ trace s /\ Exists Q tr.

Lemma emits_ret_trace {A} P (m : M A) s a s' :
  Emits P m -> m s = Ret a s' -> exists tr, trace s' = tr ++ trace s /\ Forall (fun e => P e = true) tr.
Proof. intros Hm E. pose proof (emits_run P m s Hm) as H. rewrite E in H. exact H. Qed.

Section announces.
Context (Q : event -> Prop).

Lemma announces_emit e : Q e -> announces Q (emit e).
Proof. intros He s a s' [= <- <-]. exists [e]. split; [done|by left]. Qed.

Lemma bind_ret_inv {A B} (m : M A) (K : A -> M B) s b s' :
  (m ≫= K) s = Ret b s' -> exists a s1, m s = Ret a s1 /\ K a s1 = Ret b s'.
Proof. unfold mbind, M_bind. destruct (m s) as [a s1|msg s1|s1]; intros H; [by eauto|done..]. Qed.

Lemma announces_l {A B} P (m : M A) (K : A -> M B) :
  announces Q m -> (forall a, Emits P (K a)) -> announces Q (m ≫= K).
Proof.
  intros Hm HK s b s' (a & s1 & E1 & E2)%bind_ret_inv.
  destruct (Hm s a s1 E1) as (tr1 & Et1 & HQ), (emits_ret_trace P _ _ _ _ (HK a) E2) as (tr2 & Et2 & _).
  exists (tr2 ++ tr1). rewrite Et2, Et1, app_assoc. split; [done|]. apply Exists_app. by right.
Qed.

Lemma announces_r {A B} P (m : M A) (K : A -> M B) :
  Emits P m -> (forall a, announces Q (K a)) -> announces Q (m ≫= K).
Proof.
  intros Hm HK s b s' (a & s1 & E1 & E2)%bind_ret_inv.
  destruct (emits_ret_trace P _ _ _ _ Hm E1) as (tr1 & Et1 & _), (HK a s1 b s' E2) as (tr2 & Et2 & HQ).
  exists (tr2 ++ tr1). rewrite Et2, Et1, app_assoc. split; [done|]. apply Exists_app. by left.
Qed.
End announces.

(** [skip] passes an operation that comes before the event, [stop] is at the one
    that emits it. *)
Ltac skip := apply (announces_r _ not_sti); [emits|intros].
Ltac stop := apply (announces_l _ not_sti); [|intros; emits].

Definition is_cr3 (e : event) : Prop := exists v, e = EvWriteCr3 v.

Lemma vmm_init_announces kernel_end : announces is_cr3 (vmm_init kernel_end).
Proof.
  unfold vmm_init. do 8 skip. stop. unfold write_cr3. skip. apply announces_emit. by eexists.
Qed.

Lemma idt_init_announces isr irq_stub a :
  announces (fun e => exists limit, e = EvLidt limit a) (idt_init isr irq_stub a).
Proof. unfold idt_init, upd_idtg. do 3 skip. stop. apply announces_emit. by eexists. Qed.

Lemma lapic_init_announces hw e :
  e = EvOut 1 0x21 0xFF \/ e = EvOut 1 0xA1 0xFF -> announces (eq e) (lapic_init hw).
Proof.
  unfold lapic_init, cpuid_edx, rdmsr, mmio_load, upd_apic. intros [-> | ->]; [|skip];
    stop; by apply announces_emit.
Qed.

Lemma bind_eq {A B} (m : M A) (K1 K2 : A -> M B) s :
  (forall a s', K1 a s' = K2 a s') -> (m ≫= K1) s = (m ≫= K2) s.
Proof. intros HK. unfold mbind, M_bind. by destruct (m s). Qed.

(** * kernel_main *)
Section boot.
Context (hw : list event -> hw_read -> Z) (gdt64_init init_tss cpu_init_early smp_init : M unit).
Context (smp_get_cpu_count : M Z) (isr irq_stub : Z -> Z).
Context (idt_address kernel_end sbin_init init_file : Z).
Context {Hgdt : Emits not_sti gdt64_init} {Htss : Emits not_sti init_tss}.
Context {Hearly : Emits any_event cpu_init_early} {Hsmp : Emits any_event smp_init}.
Context {Hcount : Emits any_event smp_get_cpu_count}.

(** kernel_main before and after its sti. *)
Definition boot_pre (fuel : nat) (mb_info_phys : Z) : M unit :=
  boot_banner;;
  boot_core gdt64_init init_tss isr irq_stub idt_address kernel_end fuel mb_info_phys;;
  boot_acpi fuel mb_info_phys;;
  lapic_init hw;;
  lapic_timer_calibrate;;
  ioapic_init.
Definition boot_post (fuel : nat) : M unit :=
  cpu_init_early;; smp_init;; scheduler_init;;
  pci_init hw fuel;; boot_storage sbin_init init_file;; boot_network;; boot_devices;;
  boot_status smp_get_cpu_count;; idle_loop fuel.

Let boot (fuel : nat) (mb_info_phys : Z) : M unit :=
  kernel_main hw gdt64_init init_tss cpu_init_early smp_init smp_get_cpu_count isr irq_stub
    idt_address kernel_end sbin_init init_file fuel mb_info_phys.

Lemma kernel_main_split fuel mb s : boot fuel mb s = (boot_pre fuel mb;; sti;; boot_post fuel) s.
Proof.
  unfold boot, kernel_main, boot_pre, boot_post, boot_cpus.
  repeat (rewrite ?bind_assoc; apply bind_eq; intros [] ?). done.
Qed.

#[local] Instance emits_boot_core fuel mb :
  Emits not_sti (boot_core gdt64_init init_tss isr irq_stub idt_address kernel_end fuel mb).
Proof. unfold boot_core. emits. Qed.
#[local] Instance emits_boot_pre fuel mb : Emits not_sti (boot_pre fuel mb).
Proof. unfold boot_pre, boot_banner. emits. Qed.
#[local] Instance emits_boot_post fuel : Emits any_event (boot_post fuel).
Proof. unfold boot_post. emits. Qed.

Lemma boot_core_announces fuel mb :
  let core := boot_core gdt64_init init_tss isr irq_stub idt_address kernel_end fuel mb in
  announces is_cr3 core /\ announces (fun e => exists limit, e = EvLidt limit idt_address) core.
Proof.
  unfold boot_core. split.
  - skip. stop. apply vmm_init_announces.
  - do 5 skip. stop. apply idt_init_announces.
Qed.

(** What has happened when interrupts are enabled. *)
Definition interrupts_ready (before : list event) : Prop :=
  (exists v, EvWriteCr3 v ∈ before) /\ (exists limit, EvLidt limit idt_address ∈ before)
  /\ EvOut 1 0x21 0xFF ∈ before /\ EvOut 1 0xA1 0xFF ∈ before.

Lemma boot_pre_announces fuel mb :
  let pre := boot_pre fuel mb in
  announces is_cr3 pre /\ announces (fun e => exists limit, e = EvLidt limit idt_address) pre
  /\ announces (eq (EvOut 1 0x21 0xFF)) pre /\ announces (eq (EvOut 1 0xA1 0xFF)) pre.
Proof.
  destruct (boot_core_announces fuel mb) as [Hcr3 Hidt]. unfold boot_pre, boot_banner.
  split; [skip; by stop|]. split; [skip; by stop|].
  split; (do 3 skip; stop; apply lapic_init_announces); auto.
Qed.

Lemma announced Q (m : M unit) s s' tr :
  announces Q m -> m s = Ret tt s' -> trace s' = tr ++ trace s -> exists e, e ∈ tr /\ Q e.
Proof.
  intros Hm E Et. destruct (Hm s tt s' E) as (tr' & Et' & HQ).
  rewrite Et in Et'. apply app_inv_tail in Et' as ->. by apply Exists_exists in HQ.
Qed.

Lemma boot_pre_ready fuel mb s s' tr :
  boot_pre fuel mb s = Ret tt s' -> trace s' = tr ++ trace s -> interrupts_ready tr.
Proof.
  intros E Et. destruct (boot_pre_announces fuel mb) as (H1 & H2 & H3 & H4).
  destruct (announced _ _ _ _ _ H1 E Et) as (? & ? & v & ->).
  destruct (announced _ _ _ _ _ H2 E Et) as (? & ? & limit & ->).
  destruct (announced _ _ _ _ _ H3 E Et) as (? & ? & <-).
  destruct (announced _ _ _ _ _ H4 E Et) as (? & ? & <-).
  split; [by exists v|]. split; [by exists limit|done].
Qed.

Lemma idle_loop_never n s a s' : idle_loop n s <> Ret a s'.
Proof.
  revert s. induction n as [|n IH]; intros s H; [done|]. cbn [idle_loop] in H.
  apply bind_ret_inv in H as ([] & s1 & _ & H). apply bind_ret_inv in H as ([] & s2 & _ & H).
  apply bind_ret_inv in H as ([] & s3 & _ & H). by eapply IH.
Qed.

Lemma boot_post_never fuel s a s' : boot_post fuel s <> Ret a s'.
Proof.
  unfold boot_post. intros H. do 8 (apply bind_ret_inv in H as ([] & ? & _ & H)).
  by apply idle_loop_never in H.
Qed.

(** No sti, or all was ready before the first. *)
Definition boot_order (tr : list event) : Prop :=
  Forall (fun e => not_sti e = true) tr
  \/ exists after before, tr = after ++ EvSti :: before
     /\ Forall (fun e => not_sti e = true) before /\ interrupts_ready before.
End boot.

(** C14 kernel_main never returns: it panics, or it is in a loop it does not leave
    (the idle loop, or a walk without end); and whatever the hardware answers and
    wherever it stops, before it first enables interrupts new page tables and the
    interrupt table have been loaded and both legacy interrupt controllers masked.

    gdt64_init and init_tss (gdt.asm, which has no sti) are assumed not to enable
    interrupts.  Nothing is assumed of the SMP functions that no file defines
    (cpu_init_early, smp_init, smp_get_cpu_count) but that what has happened has
    happened: they run after the first sti and may do anything, enable or disable
    interrupts, panic or hang. *)
Theorem kernel_main_order (hw : list event -> hw_read -> Z)
    (gdt64_init init_tss cpu_init_early smp_init : M unit) (smp_get_cpu_count : M Z)
    (isr irq_stub : Z -> Z) (idt_address kernel_end sbin_init init_file : Z)
    (fuel : nat) (mb_info_phys : Z) (s : kst) :
  Emits not_sti gdt64_init -> Emits not_sti init_tss ->
  Emits any_event cpu_init_early -> Emits any_event smp_init -> Emits any_event smp_get_cpu_count ->
  match kernel_main hw gdt64_init init_tss cpu_init_early smp_init smp_get_cpu_count isr irq_stub
          idt_address kernel_end sbin_init init_file fuel mb_info_phys s with
  | Ret _ _ => False
  | Panic _ s' | Hang s' => exists tr, trace s' = tr ++ trace s /\ boot_order idt_address tr
  end.
Proof.
  intros Hgdt Htss Hearly Hsmp Hcount. rewrite kernel_main_split.
  set (pre := boot_pre _ _ _ _ _ _ _ fuel mb_info_phys). set (post := boot_post _ _ _ _ _ _ fuel).
  assert (Hpre : Emits not_sti pre) by (by apply emits_boot_pre).
  assert (Hpost : Emits any_event post) by (by apply emits_boot_post).
  pose proof (emits_run not_sti pre s Hpre) as H1.
  unfold mbind at 1, M_bind at 1. destruct (pre s) as [[] s1|msg s1|s1] eqn:E1;
    [|destruct H1 as (tr & Et & Htr); exists tr; by split; [|left]..].
  destruct H1 as (before & Et1 & Hbefore). pose proof (boot_pre_ready _ _ _ _ _ _ _ _ _ _ _ _ E1 Et1) as Hready.
  unfold sti. rewrite bind_emit. set (s2 := set_trace _ s1).
  assert (Hend : forall s3, grown any_event (trace s2) s3 ->
            exists tr, trace s3 = tr ++ trace s /\ boot_order idt_address tr).
  { intros s3 (after & Et & _). exists (after ++ EvSti :: before). split.
    - rewrite Et. cbn [s2 trace set_trace]. rewrite Et1, <- app_assoc. done.
    - right. by exists after, before. }
  pose proof (emits_run any_event post s2 Hpost) as H3.
  destruct (post s2) as [[] s3|msg s3|s3] eqn:E3; [by apply boot_post_never in E3|by apply Hend..].
Qed.

(** * A boot

    256 KB at 2 MB in the boot loader's memory map, no PCI device, a single CPU. *)
Module BootExample.
Definition mb_info : Z := 0x9000.
Definition ram0 : gmap Z Z :=
  store_bytes ∅ (mb_info + 8)
    (le_split 4 6 ++ le_split 4 40 ++ le_split 4 24 ++ le_split 4 0
     ++ le_split 8 0x200000 ++ le_split 8 0x40000 ++ le_split 4 1 ++ le_split 4 0
     ++ le_split 4 0 ++ le_split 4 8).
Definition s : kst :=
  Kst ram0 [] (Pmm [] 0 0 0) (Heap [] 0 false) 0 0 (sched_initial {[0x8000 := Cpu 0 0 0 0 0 true true]})
    net_initial plat_initial.
Definition hw (_ : list event) (_ : hw_read) : Z := 0xFFFFFFFF.
Definition run : outcome unit :=
  kernel_main hw (mret tt) (mret tt) (mret tt) (mret tt) (mret 1) (fun i => 0x4000 + i) (fun i => 0x5000 + i)
    0x6000 (PHYS_TO_VIRT 0x110000) 0 0 8 mb_info s.
End BootExample.

Lemma kernel_main_order_witness :
  match BootExample.run with
  | Ret _ _ => False
  | Panic _ s' | Hang s' => exists tr, trace s' = tr ++ trace BootExample.s /\ boot_order 0x6000 tr
  end.
Proof. unfold BootExample.run. apply kernel_main_order; typeclasses eauto. Defined.

(** The boot gets to the idle loop, on the tables in the first free page. *)
Example boot_reaches_idle :
  match BootExample.run with
  | Hang s' => take 8 (trace s') = replicate 8 EvHlt /\ cr3 s' = 0x200000 /\ kernel_pml4 s' = PHYS_TO_VIRT 0x200000
  | _ => False
  end.
Proof. by vm_compute. Qed.
