(* ===== verification/Lifecycle.v ===== *)
(** The machine of BootOrder.BootExample after its boot: two processes are
    created and the scheduler is called, as the timer would.  Everything from the
    multiboot tags to the run queue is evaluated. *)
From S2P Require Import Prelude Machine Globals Strings Pmm Kmalloc Vmm Sched Main BootOrder.

Definition booted : kst :=
  match BootExample.run with Ret _ s' | Panic _ s' | Hang s' => s' end.
(** The two processes have a name at [name] and enter at [entry1] and [entry2];
    the CPU's struct is at [cpu0]. *)
Definition name : Z := 0x9000.
Definition entry1 : Z := 0x150000.
Definition entry2 : Z := 0x160000.
Definition cpu0 : Z := 0x8000.
Definition tick : M unit := schedule (fun _ => cpu0) 0x7000.
Definition two_processes : M (Z * Z) :=
  p1 ← process_create name entry1; p2 ← process_create name entry2; mret (p1, p2).

(** Where the thread [t] resumes: the word above six registers at its stack
    pointer. *)
Definition resumes_at (m : gmap Z Z) (t : Z) : Z := load64 m (lin (t_rsp m t + 48)).

(** Both are queued in order, each with its own page tables and entry point; but
    with the two threads, which fill their size class, the free list of the
    class has lost the rest of its page. *)
Example processes_queued :
  match two_processes booted with
  | Ret (p1, p2) s =>
      let m := ram s in
      let rq := runqueues (sched s) !!! 0%nat in
      let t1 := head rq in let t2 := tail rq in
      map (p_pid m) [p1; p2] = [1; 2] /\ map (t_parent m) [t1; t2] = [p1; p2]
      /\ map (resumes_at m) [t1; t2] = [entry1; entry2] /\ t_next m t1 = t2 /\ nr_running rq = 2
      /\ map (p_cr3 m) [p1; p2] = [0x20A000; 0x210000] /\ free_list (slabs (heap s) !!! 2%nat) = 0
  | _ => False
  end.
Proof. vm_compute. repeat split. Qed.

(** The first tick makes the first thread current without entering it, since no
    thread ran before; the second tick switches to the second thread, which was
    never in schedule and so does not release the run queue; the third spins. *)
Example third_tick_spins :
  match (two_processes;; tick;; tick) booted with
  | Ret _ s =>
      let t2 := current_thread (cpus (sched s) !!! cpu0) in
      (exists old new, take 1 (trace s) = [EvSwitch old new]) /\ resumes_at (ram s) t2 = entry2
      /\ match tick s with Hang _ => True | _ => False end
  | _ => False
  end.
Proof. vm_compute. split; [by eexists _, _|done]. Qed.
