(* ===== verification/BootMemory.v ===== *)
(** The memory half of the boot: from the boot loader's map to a kernel in which
    the page allocator, the page tables and the heap have their invariants. *)
From S2P Require Import Prelude Machine Globals Strings Pmm PmmFacts Frames PmmInit Kmalloc KmallocFacts.
From S2P Require Import Vmm VmmFacts VmmRun VmmProps VmmInit Sched Net Pci Platform Idt Drivers Main.


(** The heap of kmalloc_init: eight classes, no slots. *)
Section heap.
Context {FA : FrameAllocator pmm_alloc_page pmm_alloc_pages}.


End heap.


