(* ===== verification/MainProps.v ===== *)
(** Properties of the boot sequence and of the driver stubs, each with a witness. *)
From S2P Require Import Prelude Machine Globals Strings Pmm PmmProps Kmalloc Vmm Sched Net Pci PciProps Platform Idt Drivers Main.

(** * The RSDP *)

(** [l] are the addresses of the tags from [p] on, the end tag not included. *)
Inductive tag_chain (m : gmap Z Z) : Z -> list Z -> Prop :=
| tags_end p : tag_type m p = 0 -> tag_chain m p []
| tags_next p l : tag_type m p <> 0 -> tag_chain m (p + tag_step m p) l -> tag_chain m p (p :: l).

Definition acpi_tag (m : gmap Z Z) (p : Z) : Prop := tag_type m p = 14 \/ tag_type m p = 15.
#[export] Instance acpi_tag_dec m p : Decision (acpi_tag m p) := _.

Lemma rsdp_walk_run m p l fuel :
  tag_chain m p l -> (length l < fuel)%nat ->
  rsdp_walk fuel m p = Some (match list_find (acpi_tag m) l with Some (_, q) => q + 8 | None => 0 end).
Proof.
  intros H. revert fuel. induction H as [p H0|p l Hne _ IH]; intros fuel Hf; (destruct fuel as [|fuel]; [simpl in Hf; lia|]).
  - cbn [rsdp_walk]. by rewrite H0.
  - cbn [rsdp_walk list_find]. rewrite (proj2 (Z.eqb_neq _ _) Hne).
    unfold MULTIBOOT_TAG_TYPE_ACPI_OLD, MULTIBOOT_TAG_TYPE_ACPI_NEW.
    destruct (decide (acpi_tag m p)) as [[Ha|Ha]|Ha].
    + by rewrite Ha.
    + by rewrite Ha.
    + unfold acpi_tag in Ha. replace ((tag_type m p =? 14) || (tag_type m p =? 15)) with false
        by (symmetry; case_tests; naive_solver).
      rewrite IH by (simpl in Hf; lia). by destruct (list_find _ l) as [[]|].
Qed.

Lemma rsdp_walk_stuck m p fuel :
  tag_type m p <> 0 -> ~ acpi_tag m p -> tag_step m p = 0 -> rsdp_walk fuel m p = None.
Proof.
  intros Hne Ha H0. induction fuel as [|fuel IH]; [done|]. cbn [rsdp_walk].
  rewrite (proj2 (Z.eqb_neq _ _) Hne). unfold acpi_tag in Ha.
  unfold MULTIBOOT_TAG_TYPE_ACPI_OLD, MULTIBOOT_TAG_TYPE_ACPI_NEW.
  replace ((tag_type m p =? 14) || (tag_type m p =? 15)) with false
    by (symmetry; case_tests; naive_solver).
  by rewrite H0, Z.add_0_r.
Qed.

(** C38 find_rsdp ends on every list of tags that has an end tag, in as many steps
    as there are tags, and returns the body of the first ACPI tag (old or new), or
    NULL when there is none, with no effect; at a tag of size 0 that is not
    one of these it never ends. *)
Theorem find_rsdp_correct (s : kst) (mb_info_phys : Z) (fuel : nat) :
  let p := PHYS_TO_VIRT mb_info_phys + 8 in
  (forall l, tag_chain (ram s) p l -> (length l < fuel)%nat ->
     find_rsdp fuel mb_info_phys s
     = Ret (match list_find (acpi_tag (ram s)) l with Some (_, q) => q + 8 | None => 0 end) s)
  /\ (tag_type (ram s) p <> 0 -> ~ acpi_tag (ram s) p -> tag_step (ram s) p = 0 ->
     find_rsdp fuel mb_info_phys s = Hang s).
Proof.
  intros p. unfold find_rsdp. rewrite bind_gets. fold p. split.
  - intros l Hl Hf. by rewrite (rsdp_walk_run _ _ _ _ Hl Hf).
  - intros Hne Ha H0. by rewrite (rsdp_walk_stuck _ _ _ Hne Ha H0).
Qed.

Module MainExample.
(** A boot information at 0x7000: a tag of 16 bytes, an ACPI tag, the end tag. *)
Definition m : gmap Z Z :=
  store64 (store64 (store64 ∅ 0x7008 (1 + 16 * 2 ^ 32)) 0x7018 (14 + 28 * 2 ^ 32)) 0x7038 (8 * 2 ^ 32).
Definition s : kst := set_ram m PmmExample.s.
Lemma chain : tag_chain m (PHYS_TO_VIRT 0x7000 + 8) [PHYS_TO_VIRT 0x7000 + 8; PHYS_TO_VIRT 0x7000 + 24].
Proof.
  apply tags_next; [by vm_compute|].
  replace (PHYS_TO_VIRT 0x7000 + 8 + tag_step m (PHYS_TO_VIRT 0x7000 + 8)) with (PHYS_TO_VIRT 0x7000 + 24)
    by by vm_compute.
  apply tags_next; [by vm_compute|]. apply tags_end. by vm_compute.
Qed.
End MainExample.

Lemma find_rsdp_correct_witness :
  find_rsdp 3 0x7000 MainExample.s = Ret (PHYS_TO_VIRT 0x7000 + 32) MainExample.s.
Proof.
  destruct (find_rsdp_correct MainExample.s 0x7000 3) as [H _].
  rewrite (H _ MainExample.chain) by (simpl; lia). by vm_compute.
Defined.

(** * Filling a rectangle *)
Record fb_ok (d : driver_globals) : Prop := {
  fb_half : one_half (gpu_fb_virt d) (gpu_fb_height d * gpu_fb_pitch d);
  fb_size : 0 <= gpu_fb_height d * gpu_fb_pitch d < 2 ^ 32;
  fb_dims : 0 <= gpu_fb_width d /\ 0 <= gpu_fb_height d;
  fb_pitch_ok : 4 * gpu_fb_width d <= gpu_fb_pitch d;
}.

Definition on_fb (d : driver_globals) (x y : Z) : Prop := 0 <= x < gpu_fb_width d /\ 0 <= y < gpu_fb_height d.
Definition pixel_at (m : gmap Z Z) (d : driver_globals) (x y : Z) : Z := load32 m (lin (pixel d x y)).

Section fill.
Context (d : driver_globals) (Hd : fb_ok d).
Let base : Z := lin (gpu_fb_virt d).

Lemma pixel_lin x y :
  on_fb d x y -> lin (pixel d x y) = base + y * gpu_fb_pitch d + 4 * x
    /\ 0 <= y * gpu_fb_pitch d + 4 * x /\ y * gpu_fb_pitch d + 4 * x + 4 <= gpu_fb_height d * gpu_fb_pitch d.
Proof.
  intros [Hx Hy]. destruct Hd as [Hh Hs _ Hp].
  assert (H1 : (y + 1) * gpu_fb_pitch d <= gpu_fb_height d * gpu_fb_pitch d) by (apply Z.mul_le_mono_nonneg_r; lia).
  assert (H0 : 0 <= y * gpu_fb_pitch d) by (apply Z.mul_nonneg_nonneg; lia).
  split; [|lia]. unfold pixel. rewrite u32_small by lia.
  replace (gpu_fb_virt d + y * gpu_fb_pitch d + 4 * x) with (gpu_fb_virt d + (y * gpu_fb_pitch d + 4 * x)) by lia.
  rewrite (lin_shift _ _ _ Hh) by lia. unfold base. lia.
Qed.

Lemma pixel_apart x y x' y' :
  on_fb d x y -> on_fb d x' y' -> (x, y) <> (x', y') ->
  lin (pixel d x y) + 4 <= lin (pixel d x' y') \/ lin (pixel d x' y') + 4 <= lin (pixel d x y).
Proof.
  intros H H' Hne. destruct (pixel_lin x y H) as [-> _], (pixel_lin x' y' H') as [-> _].
  destruct H as [Hx Hy], H' as [Hx' Hy']. destruct Hd as [_ _ _ Hp].
  destruct (Z.lt_trichotomy y y') as [Hlt|[<-|Hlt]].
  - assert ((y + 1) * gpu_fb_pitch d <= y' * gpu_fb_pitch d) by (apply Z.mul_le_mono_nonneg_r; lia). lia.
  - assert (x <> x') by congruence. lia.
  - assert ((y' + 1) * gpu_fb_pitch d <= y * gpu_fb_pitch d) by (apply Z.mul_le_mono_nonneg_r; lia). lia.
Qed.

Lemma pixel_store m x y v x' y' :
  on_fb d x y -> on_fb d x' y' ->
  pixel_at (store32 m (lin (pixel d x y)) v) d x' y'
  = if (x =? x') && (y =? y') then u32 v else pixel_at m d x' y'.
Proof.
  intros H H'. unfold pixel_at.
  destruct (Z.eqb_spec x x') as [->|Hx]; [destruct (Z.eqb_spec y y') as [->|Hy]|]; cbn [andb].
  - apply load32_store32.
  - apply (load_store_disjoint 4 4). destruct (pixel_apart x' y x' y' H H'); [congruence|lia..].
  - apply (load_store_disjoint 4 4). destruct (pixel_apart x y x' y' H H'); [congruence|lia..].
Qed.

(** The whole framebuffer. *)
Definition fb_only (m m' : gmap Z Z) : Prop := only_changes base (base + gpu_fb_height d * gpu_fb_pitch d) m m'.

Lemma pixel_store_frame m x y v : on_fb d x y -> fb_only m (store32 m (lin (pixel d x y)) v).
Proof.
  intros H. destruct (pixel_lin x y H) as [E ?]. eapply only_changes_weaken; [apply (store_le_frame 4)|lia..].
Qed.

Lemma fill_line_spec n xend color y px m :
  0 <= y < gpu_fb_height d -> 0 <= px -> gpu_fb_width d - px <= Z.of_nat n ->
  let m' := fill_line n d xend color y px m in
  fb_only m m' /\ forall x' y', on_fb d x' y' ->
    pixel_at m' d x' y' = if (y =? y') && ((px <=? x') && (x' <? xend)) then u32 color else pixel_at m d x' y'.
Proof.
  revert px m. induction n as [|n IH]; intros px m Hy Hpx Hn m'; unfold m'; cbn [fill_line].
  - split; [apply only_changes_refl|]. intros x' y' [? ?]. destruct (Z.leb_spec px x'); [lia|].
    by rewrite andb_false_r.
  - destruct (Z.ltb_spec px xend), (Z.ltb_spec px (gpu_fb_width d)); cbn [andb].
    2-4: (split; [apply only_changes_refl|]; intros x' y' [? ?];
          destruct (Z.leb_spec px x'), (Z.ltb_spec x' xend); rewrite ?andb_false_r; (done || lia)).
    assert (Hon : on_fb d px y) by (split; lia).
    destruct (IH (px + 1) (store32 m (lin (pixel d px y)) color)) as [Hf Hp]; [done|lia|lia|].
    split; [eapply only_changes_trans; [by apply pixel_store_frame|exact Hf]|].
    intros x' y' H'. rewrite Hp, pixel_store by done.
    destruct (Z.eqb_spec y y') as [<-|]; cbn [andb].
    + destruct (Z.leb_spec px x'), (Z.leb_spec (px + 1) x'), (Z.ltb_spec x' xend), (Z.eqb_spec px x');
        try lia; done.
    + by rewrite andb_false_r.
Qed.

Lemma fill_lines_spec n x xend yend color py m :
  0 <= x -> 0 <= py -> gpu_fb_height d - py <= Z.of_nat n ->
  let m' := fill_lines n d x xend yend color py m in
  fb_only m m' /\ forall x' y', on_fb d x' y' ->
    pixel_at m' d x' y' = if ((py <=? y') && (y' <? yend)) && ((x <=? x') && (x' <? xend))
                          then u32 color else pixel_at m d x' y'.
Proof.
  revert py m. induction n as [|n IH]; intros py m Hx Hpy Hn m'; unfold m'; cbn [fill_lines].
  - split; [apply only_changes_refl|]. intros x' y' [? ?]. by destruct (Z.leb_spec py y'); [lia|].
  - destruct (Z.ltb_spec py yend), (Z.ltb_spec py (gpu_fb_height d)); cbn [andb].
    2-4: (split; [apply only_changes_refl|]; intros x' y' [? ?];
          destruct (Z.leb_spec py y'), (Z.ltb_spec y' yend); cbn [andb]; (done || lia)).
    destruct Hd as [_ _ [Hw _] _].
    destruct (fill_line_spec (Z.to_nat (gpu_fb_width d)) xend color py x m) as [Hf1 Hp1]; [done|lia|lia|].
    destruct (IH (py + 1) (fill_line (Z.to_nat (gpu_fb_width d)) d xend color py x m)) as [Hf Hp]; [done|lia|lia|].
    split; [eapply only_changes_trans; [exact Hf1|exact Hf]|].
    intros x' y' H'. rewrite Hp, Hp1 by done.
    destruct (Z.eqb_spec py y') as [<-|].
    + destruct (Z.leb_spec (py + 1) py); [lia|]. tests. done.
    + destruct (Z.leb_spec py y'), (Z.leb_spec (py + 1) y'); (lia || done).
Qed.
End fill.

(** amdgpu_fill_rect colors exactly the pixels of the rectangle that are on the
    framebuffer, clipped at its right and bottom edges, leaves every other pixel
    as it was and writes nothing outside the framebuffer; the ends of the
    rectangle are 32-bit sums, so one that passes 2^32 is empty. *)
Theorem amdgpu_fill_rect_correct (s : kst) (x y w h color : Z) :
  let d := drv (plat s) in
  fb_ok d -> gpu_fb_virt d <> 0 -> 0 <= x -> 0 <= y ->
  exists m', amdgpu_fill_rect x y w h color s = Ret tt (set_ram m' s)
    /\ fb_only d (ram s) m'
    /\ forall x' y', on_fb d x' y' ->
         pixel_at m' d x' y' = if ((y <=? y') && (y' <? u32 (y + h))) && ((x <=? x') && (x' <? u32 (x + w)))
                               then u32 color else pixel_at (ram s) d x' y'.
Proof.
  intros d Hd Hv Hx Hy. unfold amdgpu_fill_rect, get_drv. rewrite bind_gets. fold d.
  rewrite (proj2 (Z.eqb_neq _ _) Hv). eexists. split; [reflexivity|].
  apply fill_lines_spec; [done|done|done|]. destruct Hd as [_ _ [_ ?] _]. lia.
Qed.

Lemma amdgpu_fill_rect_correct_witness :
  let d := DriverGlobals 0 false 0 false 0 false false 0x400000 64 48 256 32 in
  let s := set_plat (set_drv d (plat PmmExample.s)) PmmExample.s in
  exists m', amdgpu_fill_rect 60 0 10 2 0xFF s = Ret tt (set_ram m' s)
    /\ fb_only d (ram s) m'
    /\ forall x' y', on_fb d x' y' ->
         pixel_at m' d x' y' = if ((0 <=? y') && (y' <? u32 (0 + 2))) && ((60 <=? x') && (x' <? u32 (60 + 10)))
                               then u32 0xFF else pixel_at (ram s) d x' y'.
Proof.
  intros d s. apply (amdgpu_fill_rect_correct s 60 0 10 2 0xFF); [|done|lia|lia].
  split; [left; by vm_compute|by vm_compute|done|by vm_compute].
Defined.

(** * Probing *)

(** A device with one of the ids is in the table. *)
Definition has_device (g : pci_globals) (vendor : Z) (devices : list Z) : Prop :=
  exists i, Z.of_nat i < device_count g /\ vendor_id (pci_devices g !!! i) = vendor
    /\ device_id (pci_devices g !!! i) ∈ devices.

Lemma find_device_of_spec vendor devices s :
  table_ok (pci (plat s)) ->
  exists r, find_device_of vendor devices s = Ret r s
    /\ (is_Some r <-> has_device (pci (plat s)) vendor devices).
Proof.
  intros Hg. induction devices as [|v devices (r & Er & IH)]; cbn [find_device_of].
  - exists None. split; [done|]. split; [by intros []|]. intros (i & _ & _ & []%elem_of_nil).
  - set (g := pci (plat s)) in *.
    assert (Hf : exists r1, pci_find_device vendor v s = Ret r1 s
              /\ first_match (fun d => vendor_id d = vendor /\ device_id d = v) g r1).
    { eexists. split; [reflexivity|]. apply find_from_match; [done|]. intros d _.
      rewrite andb_true_iff, !Z.eqb_eq. done. }
    destruct Hf as (r1 & E1 & Hr1). rewrite (bind_ret _ _ _ _ _ E1). destruct r1 as [i|].
    + exists (Some i). split; [done|]. split; [|by eexists]. intros _. destruct Hr1 as (Hi & [Hv Hd] & _).
      exists i. split; [done|]. split; [done|]. rewrite Hd. apply list_elem_of_here.
    + exists r. split; [done|]. rewrite IH. split; intros (i & Hi & Hv & Hd); exists i; (split; [done|]); (split; [done|]).
      * by apply list_elem_of_further.
      * apply elem_of_cons in Hd as [Hd|Hd]; [|done]. by destruct (Hr1 i Hi).
Qed.
